(* ===== verification/_CoqProject ===== *)
-Q . S2P
Prelude.v
Fifo.v
MirrorIndex.v
CustomState.v
AudioIngest.v
FeatureStage.v
Synthesis.v
AVSync.v
Pacing.v
TextSplit.v
Dispatcher.v
LiveEndpoint.v
DispatchLoop.v
JobRunner.v
LiveRuntime.v
Schema.v
RoomIngest.v
