(* ===== verification/Prelude.v ===== *)
(** * LiveTalking: a verification development of the real-time avatar pipeline

    This library models, in Rocq, the real-time streaming core of the
    LiveTalking repository (a talking-avatar server: text -> speech -> lip
    synced video frames -> virtual camera or WebRTC) together with the parts
    of its control plane that schedule speech, and proves the properties
    that make that code correct, or shows precisely where it is not.

    ** The program and how its parts interact

    - [src/baseasr.py] ([BaseASR]) owns the bounded audio ingest queue
      ([self.queue], a [queue.Queue] whose size is derived from the
      configuration), the unbounded audio-out queue ([self.output_queue])
      and the bounded feature queue ([self.feat_queue]).  The TTS thread
      pushes 20 ms chunks with [put_audio_frame] under the [block] or
      [drop] policy; the feature thread pops them with [get_audio_frame],
      which yields a silence chunk or the current custom-state clip on
      timeout.
    - [src/museasr.py] ([MuseASR.run_step]) pulls [2 * batch_size] chunks,
      forwards each to [output_queue], computes one feature batch and
      pushes it to [feat_queue] with [_push_feat_with_backpressure].
    - [src/musereal.py] ([inference]) is the synthesis worker: it pops one
      feature batch and [2 * batch_size] audio frames, skips the model when
      the batch is all silence, and publishes [(pixels, mirror_index,
      audio_pair)] results; [MuseReal.render] is the pacing loop of the
      feature thread.
    - [src/basereal.py] ([BaseReal]) holds the custom-state clips
      ([get_audio_stream], [set_custom_state]), the ping-pong
      [mirror_index], and [process_frames], the audio/video output loop with
      its speaking/silent state machine, hangover and crossfade.
    - [src/apps/control_api/] is the control plane (speaker dispatcher, job
      runner, live process manager, HTTP API) that drives [app.py].

    ** Files, modules and correspondence with the code

    Each file holds one [Module] named after it; its opening comment names
    the functions and lines of the source it translates.
    - [Prelude] (this file): the scope [lt_scope], the hint database
      [livetalking], the tactics, and the Python-semantics helpers used
      everywhere ([clamp] for [max(lo, min(hi, v))], [py_suffix] for
      [l[-n:]], [py_round] for round-half-even, [py_strip] for
      [str.strip()]) with their lemmas.
    - [Fifo]: Python's [queue.Queue] ([maxsize <= 0] = unbounded,
      [put_nowait] raising [Full], [get_nowait] raising [Empty]) with its
      well-formedness [Fifo.wf]; the "trim the backlog while
      qsize > keep" loop of basereal.py and baseasr.py as [trim_while].
    - [MirrorIndex]: [__mirror_index] of musereal.py and
      [BaseReal.mirror_index] (ping-pong over the avatar cycle).
    - [CustomState]: the custom clips of [BaseReal] ([__loadcustom],
      [init_customindex], [get_audio_stream], [set_custom_state]).
    - [AudioIngest]: [BaseASR] (configuration, [put_audio_frame] under
      [block] and [drop], [get_audio_frame], [flush_talk], [warm_up]) and
      producer/consumer interleavings as the step relation [pc_step].
    - [FeatureStage]: [MuseASR.run_step] and
      [_push_feat_with_backpressure]; the Whisper extractor is a section
      variable.
    - [Synthesis]: the worker [inference] of musereal.py; the neural model
      is the interface [SynthesisModel] with its laws.
    - [AVSync]: [BaseReal.process_frames] (speaking state machine, hangover,
      crossfade, sinks, virtual-camera audio queue).
    - [Pacing]: one iteration of [MuseReal.render].
    - [TextSplit]: [_split_text_for_speech] of speaker_dispatcher.py.
    - [Dispatcher]: the task queue of [SpeakerDispatcher] ([_append_task],
      [_pick_next_task], [_dispatch_task], follow-up segments, retries).
    - [LiveEndpoint]: [_build_command] of main.py and
      [_resolve_live_endpoint] of speaker_dispatcher.py.
    - [DispatchLoop]: playlists ([_build_playlist_task],
      [_choose_playlist_item]) and the dispatcher thread [_loop].
    - [JobRunner]: job_runner.py as a state machine [step] over the jobs
      table, the FIFO, the cancel flags and the worker's phase.
    - [LiveRuntime]: [LiveProcessManager] of live_runtime.py and
      [start_live], [stop_live], [_on_live_exit] of main.py as a state
      machine [step] whose events are the HTTP calls and the reader and
      monitor threads; it builds the command line with [LiveEndpoint].
    - [Schema]: [init_db], [_run_migrations] and [_ensure_column] of
      database.py over the schema (tables, columns, indexes), with the
      failures SQLite raises.
    - [RoomIngest]: the message and reply endpoints of main.py
      ([ingest_room_messages], [ingest_platform_messages],
      [_rule_generate_reply_text], [generate_reply], [speak_reply],
      [speaker_say]) over the [room_messages] and [replies] rows; they
      queue speech through [Dispatcher.enqueue_reply] and read the live
      session from [LiveRuntime.current].

    ** What the theorems show

    1. queues and overflow policies: occupancy within capacity, no loss and
       no reordering under [block] in every interleaving, bounded evictions
       under [drop], and the drops the counter misses;
    2. [mirror_index]: in range, no jump between consecutive indices, period
       [2 * size], [None] (ZeroDivisionError) for an empty cycle;
    3. feature stage and synthesis worker: the audio/feature alignment
       invariant, where the code breaks it ([block] give-up, [flush_talk]),
       gapless frame indices, draining of aligned queues;
    4. output state machine: the scenarios of the specification (silence
       stays idle, the hangover holds the frame, its expiry crossfades),
       crossfade bounds, the audio lost when pasting fails;
    5. pacing: sleep bounds and the error path;
    6. control plane: the dispatcher queue invariant and eviction, the
       retry bound and the resend after a database error, text segmentation
       round trip, playlist rotation, the command-line round trip, the job
       runner's invariant, lifecycle refinement and the stability of
       terminal jobs, and the live runtime's single instance, stale
       monitors and the [start_live] race that leaves a session [running];
    7. persistence and ingestion: the upgrade of any older database gives
       the fresh schema up to column order (an equivalence, with [Proper]
       queries), the platform ingestion keeps the unique index, counts
       every message and is idempotent, the plain ingestion aborts a batch
       half-way on a duplicate, reply rows stay within their column
       domains, and a priority-0 message gets a priority-80 reply.

    Loops are structural recursions on their input lists or on the
    explicit number of iterations the statement names ([inference_loop],
    [run_loop], [pull_frames]); where the code loops until a queue is
    empty, the recursion runs over the queue's contents, so no fuel is
    needed.  The decimal printer [py_str_int] of [LiveEndpoint] writes
    [log2 n + 1] digits at most, enough for every [n] since
    [n < 10 ^ (log2 n + 1)] ([log2_fuel]).  The state
    machines ([AudioIngest.pc_step], [JobRunner.step], [LiveRuntime.step])
    are executable, and their witnesses run concrete event lists.

    ** Not modelled

    The HTTP/WebRTC server [app.py] (aiohttp and WebRTC transport wiring);
    the CRUD endpoints of main.py for avatars, voices, scripts, playlists,
    presets and jobs, the uploads and the system checks (each is one SQL
    statement or file operation with no logic of its own); the sqlite3
    connection helpers of database.py and the rows of the tables other
    than [room_messages], [replies] and [live_sessions]; the pydantic
    models other than the two message requests; model loading and the
    neural networks themselves (an interface); device and ffmpeg I/O; file
    writes of the logs; and the clone job handlers (subprocesses and HTTP
    calls whose outcome is an input).  An older database in [Schema] is the
    fresh set of tables without any subset of the ten migrated columns;
    the proof enumerates the [2 ^ 10] subsets.  Older layouts that differ
    in other ways are not considered.

    ** Abstractions

    Wall-clock times and durations ([time.time()], float seconds) are
    rationals [Q]: the constants of the code (0.35, 0.16, 0.04, ...) are
    exact there; float rounding is not modelled.  Audio samples are [Z];
    pixel data and the neural model are opaque: video frames are a small
    symbolic language saying which asset frame, which synthesized frame or
    which blend of two was produced.  Threads are modelled by explicit
    sequences of steps; a blocking call with a timeout is modelled by the
    outcome it has when no other thread acts during the wait (the only
    outcome possible in a sequential schedule). *)

From stdpp Require Export base list options gmap strings relations sorting.
From Stdlib Require Export ZArith QArith Qround Qminmax Lia Lqa.

Declare Scope lt_scope.
Delimit Scope lt_scope with lt.

Create HintDb livetalking.
Create Rewrite HintDb lt_rw.

(** ** Python's [max(lo, min(hi, v))] clamp, used by every configuration
    reader of the code ([_read_env_int], [feat_queue_size], ...). *)

Definition clamp (lo hi v : Z) : Z := Z.max lo (Z.min hi v).

Lemma clamp_bounds lo hi v : (lo <= hi)%Z -> (lo <= clamp lo hi v <= hi)%Z.
Proof. unfold clamp; lia. Qed.

Lemma clamp_in_range lo hi v : (lo <= v <= hi)%Z -> clamp lo hi v = v.
Proof. unfold clamp; lia. Qed.

Definition qclamp (lo hi v : Q) : Q := Qmax lo (Qmin hi v).

Lemma qclamp_bounds lo hi v : (lo <= hi)%Q -> (lo <= qclamp lo hi v <= hi)%Q.
Proof.
  unfold qclamp; intros H; split.
  - apply Q.le_max_l.
  - apply Q.max_lub; [exact H | apply Q.le_min_l].
Qed.

(** ** Strict comparison of rationals as the boolean the code tests. *)

Definition Qlt_bool (a b : Q) : bool := negb (Qle_bool b a).

Lemma Qlt_bool_iff a b : Qlt_bool a b = true <-> (a < b)%Q.
Proof.
  unfold Qlt_bool. rewrite negb_true_iff, <- not_true_iff_false, Qle_bool_iff.
  split; [apply Qnot_le_lt | apply Qlt_not_le].
Qed.

(** ** Python's [round] on a float: round half to even. *)

Definition py_round (q : Q) : Z :=
  let f := Qfloor q in
  let frac := (q - inject_Z f)%Q in
  if Qlt_bool frac (1 # 2) then f
  else if Qlt_bool (1 # 2) frac then (f + 1)%Z
  else if Z.even f then f else (f + 1)%Z.

Lemma py_round_int (z : Z) : py_round (inject_Z z) = z.
Proof.
  unfold py_round. rewrite Qfloor_Z.
  replace (Qlt_bool (inject_Z z - inject_Z z) (1 # 2)) with true; [reflexivity|].
  symmetry. apply Qlt_bool_iff. unfold inject_Z, Qminus, Qplus, Qopp, Qlt; simpl. lia.
Qed.

(** ** Python's [l[-n:]] slice.  For [n = 0] Python reads [l[-0:]], which
    is [l[0:]]: the whole list, not the empty one. *)

Definition py_suffix {A} (n : nat) (l : list A) : list A :=
  match n with
  | O => l
  | S _ => drop (length l - n) l
  end.

Lemma py_suffix_length {A} (n : nat) (l : list A) :
  n <> O -> length (py_suffix n l) = Nat.min n (length l).
Proof. destruct n as [|n]; [done|]. intros _. unfold py_suffix. rewrite length_drop. lia. Qed.

Lemma py_suffix_zero {A} (l : list A) : py_suffix 0 l = l.
Proof. reflexivity. Qed.

Lemma py_suffix_app_exact {A} (n : nat) (l k : list A) :
  length k = n -> n <> O -> py_suffix n (l ++ k) = k.
Proof.
  intros <- Hn. destruct k as [|x k]; [done|]. unfold py_suffix.
  rewrite length_app. simpl.
  replace (length l + S (length k) - S (length k))%nat with (length l) by lia.
  by rewrite drop_app_length.
Qed.

(** ** Small list facts shared by the queue models. *)

Lemma take_drop_length {A} (n : nat) (l : list A) :
  (length (take n l) + length (drop n l))%nat = length l.
Proof. rewrite length_take, length_drop. lia. Qed.

(** ** Python strings: [str.lower()], [str.strip()] and [os.getenv].
    Environment values and command-line tokens are ASCII; [lower] and
    [strip] act on ASCII letters and ASCII whitespace as CPython does on
    such strings. *)

Definition ascii_lower (c : Ascii.ascii) : Ascii.ascii :=
  let n := Ascii.nat_of_ascii c in
  if (65 <=? n)%nat && (n <=? 90)%nat then Ascii.ascii_of_nat (n + 32) else c.

Fixpoint py_lower (s : string) : string :=
  match s with
  | EmptyString => EmptyString
  | String c s' => String (ascii_lower c) (py_lower s')
  end.

Definition is_py_space (c : Ascii.ascii) : bool :=
  let n := Ascii.nat_of_ascii c in
  (n =? 32)%nat || ((9 <=? n)%nat && (n <=? 13)%nat) || ((28 <=? n)%nat && (n <=? 31)%nat).

Fixpoint drop_spaces (l : list Ascii.ascii) : list Ascii.ascii :=
  match l with
  | [] => []
  | c :: l' => if is_py_space c then drop_spaces l' else l
  end.

Definition py_strip (s : string) : string :=
  String.string_of_list_ascii (rev (drop_spaces (rev (drop_spaces (String.list_ascii_of_string s))))).

(** [s.endswith(suffix)]. *)
Definition py_endswith (s suffix : string) : bool :=
  (String.length suffix <=? String.length s)%nat &&
  String.eqb (String.substring (String.length s - String.length suffix) (String.length suffix) s) suffix.

(** [s[:-1]] on a non-empty string. *)
Definition py_drop_last (s : string) : string := String.substring 0 (String.length s - 1) s.

(** [.strip().lower()], the normalisation every environment switch gets. *)
Definition py_norm (s : string) : string := py_lower (py_strip s).

(** The process environment and [os.getenv(key, default)]. *)
Abbreviation environ := (gmap string string).

Definition getenv (env : environ) (key default : string) : string :=
  match env !! key with Some v => v | None => default end.

(** ** Invariants of a step relation: what every step keeps holds along
    every run (the rule-induction principle the components' interleaving
    theorems use). *)

Lemma rtc_invariant {A} (R : relation A) (P : A -> Prop) :
  (forall x y, R x y -> P x -> P y) -> forall x y, rtc R x y -> P x -> P y.
Proof. intros HP x y H. induction H; eauto. Qed.

(** The same principle for a Python [for] loop written as a [foldl]: an
    invariant kept by the loop body holds after the loop. *)
Lemma foldl_invariant {A B} (f : A -> B -> A) (P : A -> Prop) :
  (forall a b, P a -> P (f a b)) -> forall l a, P a -> P (foldl f a l).
Proof. intros Hf l. induction l as [|b l IH]; intros a Ha; simpl; auto. Qed.

(** Removing elements keeps a list sorted. *)
Lemma StronglySorted_sublist {A} (R : relation A) (l l' : list A) :
  l' `sublist_of` l -> StronglySorted R l -> StronglySorted R l'.
Proof.
  induction 1 as [|x l1 l2 Hsub IH|x l1 l2 _ IH]; intros Hs; [done| |].
  - apply StronglySorted_cons in Hs as [Hf Hs]. apply StronglySorted_cons. split; [|by apply IH].
    rewrite Forall_forall in Hf |- *. intros y Hy. apply Hf.
    eapply elem_of_submseteq; [done|by apply sublist_submseteq, Hsub].
  - apply StronglySorted_cons in Hs as [_ Hs]. by apply IH.
Qed.

Lemma elem_of_take_in {A} (x : A) n l : x ∈ take n l -> x ∈ l.
Proof. intros Hx. eapply elem_of_submseteq; [done|apply sublist_submseteq, sublist_take]. Qed.

Lemma elem_of_drop_in {A} (x : A) n l : x ∈ drop n l -> x ∈ l.
Proof. intros Hx. eapply elem_of_submseteq; [done|apply sublist_submseteq, sublist_drop]. Qed.

(** [str.strip()] is idempotent. *)
Lemma drop_spaces_head l :
  drop_spaces l = [] \/ exists c r, drop_spaces l = c :: r /\ is_py_space c = false.
Proof.
  induction l as [|c l IH]; simpl; [by left|]. destruct (is_py_space c) eqn:E; [done|]. right; eauto.
Qed.

Lemma drop_spaces_idem l : drop_spaces (drop_spaces l) = drop_spaces l.
Proof. destruct (drop_spaces_head l) as [->|(c & r & -> & Hc)]; simpl; [done|]. by rewrite Hc. Qed.

Lemma drop_spaces_suffix l : exists k, l = k ++ drop_spaces l.
Proof.
  induction l as [|c l [k Hk]]; simpl; [by exists []|].
  destruct (is_py_space c); [exists (c :: k); simpl; by f_equal|by exists []].
Qed.

Lemma py_strip_idem s : py_strip (py_strip s) = py_strip s.
Proof.
  unfold py_strip. rewrite String.list_ascii_of_string_of_list_ascii. f_equal.
  set (m := drop_spaces (String.list_ascii_of_string s)).
  assert (Hm : drop_spaces m = m) by apply drop_spaces_idem.
  set (u := drop_spaces (rev m)).
  assert (Hpre : exists k, m = rev u ++ k).
  { destruct (drop_spaces_suffix (rev m)) as [k Hk]. exists (rev k).
    rewrite <- (rev_involutive m), Hk, rev_app_distr. done. }
  assert (Hdu : drop_spaces (rev u) = rev u).
  { destruct Hpre as [k Hk]. destruct (rev u) as [|c r] eqn:E; [done|]. simpl.
    destruct (drop_spaces_head (String.list_ascii_of_string s)) as [Hn|(c' & r' & Hn & Hc')].
    - unfold m in Hk. rewrite Hn in Hk. done.
    - unfold m in Hk. rewrite Hn in Hk. simpl in Hk. injection Hk as -> _. by rewrite Hc'. }
  rewrite Hdu, rev_involutive. unfold u. by rewrite drop_spaces_idem.
Qed.

Lemma omap_fmap_comm {A B C} (f : B -> option C) (g : A -> B) (l : list A) :
  omap f (g <$> l) = omap (f ∘ g) l.
Proof.
  induction l as [|x l IH]; [done|]. cbn [fmap list_fmap omap list_omap].
  unfold compose at 1. destruct (f (g x)); by rewrite IH.
Qed.

(** A [mapM] over a list whose every element maps to a value succeeds. *)
Lemma mapM_total {A B} (f : A -> option B) (l : list A) :
  (forall x, x ∈ l -> is_Some (f x)) -> exists k, mapM f l = Some k /\ length k = length l.
Proof.
  induction l as [|x l IH]; intros Hf; simpl; [by exists []|].
  destruct (Hf x) as [y Hy]; [set_solver|]. rewrite Hy. simpl.
  destruct IH as [k [Hk Hl]]; [intros; apply Hf; set_solver|].
  rewrite Hk. exists (y :: k). simpl. auto.
Qed.

#[export] Hint Resolve clamp_bounds qclamp_bounds : livetalking.
#[export] Hint Rewrite @py_suffix_zero py_round_int : lt_rw.

(** Boolean comparisons of the code, reflected to propositions. *)
Ltac qbool :=
  repeat match goal with
  | H : Qle_bool _ _ = true |- _ => apply Qle_bool_iff in H
  | H : Qlt_bool _ _ = true |- _ => apply Qlt_bool_iff in H
  | H : Qle_bool _ _ = false |- _ =>
      apply not_true_iff_false in H; rewrite Qle_bool_iff in H; apply Qnot_le_lt in H
  | H : Qlt_bool _ _ = false |- _ =>
      apply not_true_iff_false in H; rewrite Qlt_bool_iff in H; apply Qnot_lt_le in H
  end.

Ltac case_qbool :=
  match goal with
  | |- context [Qle_bool ?a ?b] => destruct (Qle_bool a b) eqn:?
  | |- context [Qlt_bool ?a ?b] => destruct (Qlt_bool a b) eqn:?
  end; qbool.
