(* ===== verification/Fifo.v ===== *)
(** * Fifo: Python's [queue.Queue] as used by the pipeline

    The pipeline's threads communicate only through [queue.Queue] and
    [multiprocessing.Queue] objects.  This file models one such queue: a
    FIFO list of items and its [maxsize] ([maxsize <= 0] means unbounded,
    as in CPython), with [put_nowait] raising [queue.Full] and [get_nowait]
    raising [queue.Empty] (both [None] here).  A blocking [put]/[get] with
    a timeout has, in a sequential schedule, the outcome of its
    non-blocking version.

    It also models the two loops the code writes around queues:
    [_drain_queue_nowait] of [src/baseasr.py] and the backlog trim
    "[while q.qsize() > keep: q.get_nowait(); dropped += 1]" that appears
    in [BaseASR.put_audio_frame] (twice), in [process_frames]'s
    [_push_virtualcam_audio] (twice) and, with [keep = 1] and no counter,
    in its realtime-mode result-queue trim. *)

From S2P Require Import Prelude.

Module Fifo.

Record queue (A : Type) := mkQueue { items : list A; maxsize : Z }.
Arguments mkQueue {A} _ _.
Arguments items {A} _.
Arguments maxsize {A} _.

Section Ops.
Context {A : Type}.
Implicit Types (q : queue A) (x : A).

Definition qsize q : nat := length (items q).

(** CPython: [full()] is [0 < self.maxsize <= self._qsize()]. *)
Definition full q : bool :=
  (0 <? maxsize q)%Z && (maxsize q <=? Z.of_nat (qsize q))%Z.

Definition put_nowait x q : option (queue A) :=
  if full q then None else Some (mkQueue (items q ++ [x]) (maxsize q)).

Definition get_nowait q : option (A * queue A) :=
  match items q with
  | [] => None
  | x :: rest => Some (x, mkQueue rest (maxsize q))
  end.

(** [_drain_queue_nowait]: get until [queue.Empty]. *)
Fixpoint drain_loop (fuel : nat) q : queue A :=
  match fuel with
  | O => q
  | S f => match get_nowait q with
           | None => q
           | Some (_, q') => drain_loop f q'
           end
  end.

Definition drain_queue_nowait q : queue A := drain_loop (S (qsize q)) q.

(** The backlog trim: [while q.qsize() > keep: q.get_nowait(); dropped += 1]
    (the [except queue.Empty: break] branch is unreachable: the loop only
    pops from a queue longer than [keep]). *)
Fixpoint trim_loop (fuel : nat) (keep : Z) q (dropped : nat) : queue A * nat :=
  match fuel with
  | O => (q, dropped)
  | S f =>
      if (keep <? Z.of_nat (qsize q))%Z then
        match get_nowait q with
        | None => (q, dropped)
        | Some (_, q') => trim_loop f keep q' (S dropped)
        end
      else (q, dropped)
  end.

Definition trim_while (keep : Z) q : queue A * nat := trim_loop (S (qsize q)) keep q 0.

(** The invariant every queue of the program keeps: a bounded queue never
    holds more than [maxsize] items. *)
Definition wf q : Prop := (maxsize q <= 0)%Z \/ (Z.of_nat (qsize q) <= maxsize q)%Z.

End Ops.

(** ** Behaviour of each operation *)

Section Lemmas.
Context {A : Type}.
Implicit Types (q : queue A) (x : A).

Lemma full_spec q :
  full q = true <-> (0 < maxsize q)%Z /\ (maxsize q <= Z.of_nat (qsize q))%Z.
Proof. unfold full. rewrite andb_true_iff, Z.ltb_lt, Z.leb_le. done. Qed.

Lemma put_nowait_full q x : full q = true -> put_nowait x q = None.
Proof. unfold put_nowait. by intros ->. Qed.

Lemma put_nowait_room q x :
  full q = false -> put_nowait x q = Some (mkQueue (items q ++ [x]) (maxsize q)).
Proof. unfold put_nowait. by intros ->. Qed.

Lemma put_nowait_some q x q' :
  put_nowait x q = Some q' -> items q' = items q ++ [x] /\ maxsize q' = maxsize q.
Proof. unfold put_nowait. destruct (full q); intros; simplify_eq; done. Qed.

Lemma put_nowait_wf q x q' : wf q -> put_nowait x q = Some q' -> wf q'.
Proof.
  unfold put_nowait, wf, qsize. destruct (full q) eqn:Hf; intros Hwf ?; simplify_eq.
  simpl. rewrite length_app. simpl.
  apply not_true_iff_false in Hf. rewrite full_spec in Hf. unfold qsize in Hf. lia.
Qed.

Lemma get_nowait_wf q x q' : wf q -> get_nowait q = Some (x, q') -> wf q'.
Proof.
  unfold get_nowait, wf, qsize. destruct (items q) eqn:E; intros Hwf ?; simplify_eq.
  simpl in *. lia.
Qed.

Lemma drain_loop_spec fuel q :
  (qsize q < fuel)%nat -> drain_loop fuel q = mkQueue [] (maxsize q).
Proof.
  destruct q as [its m]. unfold qsize. simpl. revert fuel.
  induction its as [|y its IH]; intros [|f] Hf; simpl in *; try lia; [done|].
  apply IH. lia.
Qed.

Lemma drain_queue_nowait_spec q : drain_queue_nowait q = mkQueue [] (maxsize q).
Proof. apply drain_loop_spec. lia. Qed.

Lemma trim_loop_spec fuel keep q d :
  (qsize q < fuel)%nat ->
  trim_loop fuel keep q d =
    (mkQueue (drop (qsize q - Z.to_nat keep) (items q)) (maxsize q),
     (d + (qsize q - Z.to_nat keep))%nat).
Proof.
  destruct q as [its m]. unfold qsize. simpl.
  revert fuel d. induction its as [|y its IH]; intros [|f] d Hf; simpl in *; try lia.
  - rewrite ?Nat.sub_0_l, Nat.add_0_r. by destruct (keep <? _)%Z.
  - destruct (keep <? _)%Z eqn:Hk.
    + rewrite IH by lia. apply Z.ltb_lt in Hk. unfold qsize in Hk; cbn [items length] in Hk.
      replace (S (length its) - Z.to_nat keep)%nat with (S (length its - Z.to_nat keep)) by lia.
      simpl. f_equal. lia.
    + apply Z.ltb_ge in Hk. unfold qsize in Hk; cbn [items length] in Hk.
      replace (S (length its) - Z.to_nat keep)%nat with 0%nat by lia.
      by rewrite Nat.add_0_r.
Qed.

(** The trim keeps the [keep] most recent items and counts the rest. *)
Lemma trim_while_spec keep q :
  trim_while keep q =
    (mkQueue (drop (qsize q - Z.to_nat keep) (items q)) (maxsize q), (qsize q - Z.to_nat keep)%nat).
Proof. unfold trim_while. rewrite trim_loop_spec by lia. done. Qed.

Lemma trim_while_qsize keep q :
  qsize (fst (trim_while keep q)) = Nat.min (qsize q) (Z.to_nat keep).
Proof. rewrite trim_while_spec. unfold qsize at 1. simpl. rewrite length_drop. fold (qsize q). lia. Qed.

Lemma put_nowait_qsize q x q' : put_nowait x q = Some q' -> qsize q' = S (qsize q).
Proof. intros [Hi _]%put_nowait_some. unfold qsize. rewrite Hi, length_app. simpl. lia. Qed.

(** Trimming conserves items: kept plus counted equals the size before. *)
Lemma trim_while_conserve keep q :
  (qsize (fst (trim_while keep q)) + snd (trim_while keep q) = qsize q)%nat.
Proof. rewrite trim_while_qsize, trim_while_spec. simpl. lia. Qed.

Lemma trim_while_wf keep q : wf q -> wf (fst (trim_while keep q)).
Proof.
  unfold wf. rewrite trim_while_qsize. rewrite trim_while_spec. simpl. lia.
Qed.

End Lemmas.

#[export] Hint Resolve put_nowait_wf get_nowait_wf trim_while_wf : livetalking.
#[export] Hint Rewrite @trim_while_spec @drain_queue_nowait_spec : lt_rw.

End Fifo.
