(* ===== verification/MirrorIndex.v ===== *)
(** * MirrorIndex: the ping-pong traversal of the avatar asset cycle

    [__mirror_index(size, index)] of [src/musereal.py] (lines 166-173),
    repeated verbatim as [MuseReal.__mirror_index] (lines 355-362) and
    [BaseReal.mirror_index] of [src/basereal.py] (lines 425-432):

    << turn = index // size; res = index % size
       return res if turn % 2 == 0 else size - res - 1 >>

    Python's [//] and [%] round towards minus infinity, as [Z.div] and
    [Z.modulo] do; [size = 0] raises [ZeroDivisionError], which is [None]
    here.  The theorems: the result lies in [[0, size)] for every index,
    the traversal is periodic with period [2 * size], it never jumps (two
    consecutive indices give positions at distance at most one), it reads
    the cycle forwards on even laps and backwards on odd ones. *)

From S2P Require Import Prelude.

Module MirrorIndex.

Definition mirror_index (size index : Z) : option Z :=
  if (size =? 0)%Z then None
  else
    let turn := (index / size)%Z in
    let res := (index mod size)%Z in
    if Z.even turn then Some res else Some (size - res - 1)%Z.

(** The position a well-configured cycle yields, for the statements below. *)
Definition mirror_pos (size index : Z) : Z :=
  let turn := (index / size)%Z in
  let res := (index mod size)%Z in
  if Z.even turn then res else (size - res - 1)%Z.

Open Scope Z_scope.

Lemma mirror_index_pos size index :
  0 < size -> mirror_index size index = Some (mirror_pos size index).
Proof.
  intros Hs. unfold mirror_index, mirror_pos.
  destruct (Z.eqb_spec size 0); [lia|]. by destruct (Z.even _).
Qed.

Lemma mirror_index_some size index m :
  mirror_index size index = Some m -> m = mirror_pos size index.
Proof.
  unfold mirror_index, mirror_pos. destruct (size =? 0); [done|].
  by destruct (Z.even _); intros [= <-].
Qed.

(** Division facts for the successor of an index. *)
Lemma divmod_succ_inner s i :
  0 < s -> i mod s < s - 1 -> (i + 1) / s = i / s /\ (i + 1) mod s = i mod s + 1.
Proof.
  intros Hs Hr. pose proof (Z.div_mod i s ltac:(lia)). pose proof (Z.mod_pos_bound i s Hs).
  split; [symmetry; apply (Z.div_unique_pos _ _ _ (i mod s + 1))
         | symmetry; apply (Z.mod_unique_pos _ _ (i / s))]; lia.
Qed.

Lemma divmod_succ_wrap s i :
  0 < s -> i mod s = s - 1 -> (i + 1) / s = i / s + 1 /\ (i + 1) mod s = 0.
Proof.
  intros Hs Hr. pose proof (Z.div_mod i s ltac:(lia)).
  split; [symmetry; apply (Z.div_unique_pos _ _ _ 0)
         | symmetry; apply (Z.mod_unique_pos _ _ (i / s + 1))]; lia.
Qed.

Lemma even_succ_negb z : Z.even (z + 1) = negb (Z.even z).
Proof. rewrite Z.even_add. by destruct (Z.even z). Qed.

Lemma mirror_pos_bounds size index : 0 < size -> 0 <= mirror_pos size index < size.
Proof.
  intros Hs. unfold mirror_pos. pose proof (Z.mod_pos_bound index size Hs).
  destruct (Z.even _); lia.
Qed.

#[export] Hint Resolve mirror_pos_bounds : livetalking.

(** ** Theorems *)

(** C9: Every index, even a negative one, maps to a valid asset position. *)
Theorem mirror_index_in_range size index :
  0 < size -> exists m, mirror_index size index = Some m /\ 0 <= m < size.
Proof.
  intros Hs. exists (mirror_pos size index). split.
  - by apply mirror_index_pos.
  - by apply mirror_pos_bounds.
Qed.

(** A cycle of length zero is not caught at start-up: the first call
    raises [ZeroDivisionError]. *)
Lemma mirror_index_zero_size index : mirror_index 0 index = None.
Proof. reflexivity. Qed.

(** Periodic with period [2 * size]. *)
Theorem mirror_index_periodic size index :
  0 < size -> mirror_index size (index + 2 * size) = mirror_index size index.
Proof.
  intros Hs. rewrite !mirror_index_pos by done. f_equal. unfold mirror_pos.
  rewrite (Z.mul_comm 2 size).
  replace (index + size * 2) with (index + 2 * size) by lia.
  rewrite Z.div_add, Z.mod_add by lia.
  rewrite Z.even_add. simpl. by destruct (Z.even (index / size)).
Qed.

(** No visible jump: consecutive logical indices show asset positions that
    differ by at most one (equal at each turn-around). *)
Lemma mirror_pos_no_jump size index :
  0 < size ->
  Z.abs (mirror_pos size (index + 1) - mirror_pos size index) <= 1.
Proof.
  intros Hs. unfold mirror_pos. pose proof (Z.mod_pos_bound index size Hs).
  destruct (Z.eq_dec (index mod size) (size - 1)) as [Hw|Hw].
  - destruct (divmod_succ_wrap size index Hs Hw) as [-> ->].
    rewrite even_succ_negb. destruct (Z.even (index / size)); simpl; lia.
  - destruct (divmod_succ_inner size index Hs ltac:(lia)) as [-> ->].
    destruct (Z.even (index / size)); lia.
Qed.

(** C10: No visible jump in the avatar's idle loop: for a non-empty
    cycle, the asset positions of two consecutive logical frame indices
    are both valid and differ by at most one. *)
Theorem mirror_index_no_jump size index :
  0 < size ->
  exists m1 m2, mirror_index size index = Some m1 /\
    mirror_index size (index + 1) = Some m2 /\ Z.abs (m2 - m1) <= 1.
Proof.
  intros Hs. do 2 eexists. rewrite !mirror_index_pos by done.
  split_and!; [done | done | by apply mirror_pos_no_jump].
Qed.

(** The first lap reads the cycle forwards, the second backwards. *)
Theorem mirror_index_laps size index :
  0 <= index < size ->
  mirror_index size index = Some index /\
  mirror_index size (size + index) = Some (size - 1 - index).
Proof.
  intros Hi. rewrite !mirror_index_pos by lia. unfold mirror_pos. split.
  - rewrite Z.div_small, Z.mod_small by lia. reflexivity.
  - replace (size + index) with (index + 1 * size) by lia.
    rewrite Z.div_add, Z.mod_add by lia.
    rewrite Z.div_small, Z.mod_small by lia. simpl. f_equal. lia.
Qed.

(** ** Witnesses: the theorems at a concrete cycle of length 3. *)

Lemma mirror_index_in_range_witness :
  0 < 3 /\ exists m, mirror_index 3 7 = Some m /\ 0 <= m < 3.
Proof. split; [lia|]. apply (mirror_index_in_range 3 7). lia. Defined.

Lemma mirror_index_periodic_witness :
  0 < 3 /\ mirror_index 3 (4 + 2 * 3) = mirror_index 3 4.
Proof. split; [lia|]. apply (mirror_index_periodic 3 4). lia. Defined.

Lemma mirror_index_no_jump_witness :
  0 < 3 /\ exists m1 m2, mirror_index 3 5 = Some m1 /\
    mirror_index 3 (5 + 1) = Some m2 /\ Z.abs (m2 - m1) <= 1.
Proof. split; [lia|]. apply (mirror_index_no_jump 3 5). lia. Defined.

Lemma mirror_index_laps_witness :
  0 <= 1 < 3 /\ mirror_index 3 1 = Some 1 /\ mirror_index 3 (3 + 1) = Some (3 - 1 - 1).
Proof. split; [lia|]. apply (mirror_index_laps 3 1). lia. Defined.

Example mirror_index_run :
  map (mirror_index 3) [0; 1; 2; 3; 4; 5; 6] = map Some [0; 1; 2; 2; 1; 0; 0].
Proof. reflexivity. Qed.

End MirrorIndex.
