(* ===== verification/CustomState.v ===== *)
(** * CustomState: the custom audio/image clips of [BaseReal]

    [src/basereal.py] keeps, per configured [audiotype], a PCM clip
    ([custom_audio_cycle]), an image cycle ([custom_img_cycle]), a read
    position in the clip ([custom_audio_index]) and one in the images
    ([custom_index]), plus the current state [curr_state] (0 normal, 1
    silence, > 1 a custom clip).  [__loadcustom] fills the four dictionaries
    with the same keys; [init_customindex], [set_custom_state] and
    [get_audio_stream] are the operations.  The dictionaries are stdpp
    [gmap]s keyed by the [audiotype] integer; a missing key, which raises
    [KeyError] in Python, is [None].

    Theorems: the well-formedness invariant (same keys everywhere, a custom
    [curr_state] is always a configured key) is kept by every operation, so
    [get_audio_stream] never raises when the ASR calls it; the clip is read
    in consecutive chunks, shorter at the end; reaching the end of the clip
    switches back to silence. *)

From stdpp Require Import gmap.
From S2P Require Import Prelude.

Module CustomState.

Record custom := mkCustom {
  curr_state : Z;
  custom_audio_cycle : gmap Z (list Z);
  custom_img_len : gmap Z nat;
  custom_audio_index : gmap Z nat;
  custom_index : gmap Z nat;
}.

(** [__loadcustom] (lines 301-310): one entry per configured clip, both read
    positions at 0; the image lists are kept by their length. *)
Definition loadcustom (clips : list (Z * list Z * nat)) : custom :=
  mkCustom 0
    (list_to_map ((fun '(t, a, _) => (t, a)) <$> clips))
    (list_to_map ((fun '(t, _, n) => (t, n)) <$> clips))
    (list_to_map ((fun '(t, _, _) => (t, 0%nat)) <$> clips))
    (list_to_map ((fun '(t, _, _) => (t, 0%nat)) <$> clips)).

(** [init_customindex] (lines 312-317). *)
Definition init_customindex (c : custom) : custom :=
  mkCustom 0 (custom_audio_cycle c) (custom_img_len c)
    (const 0%nat <$> custom_audio_index c) (const 0%nat <$> custom_index c).

(** [get_audio_stream(audiotype)] (lines 434-440): the next [chunk] samples
    of the clip; at the end of the clip [curr_state] becomes 1. *)
Definition get_audio_stream (chunk : nat) (audiotype : Z) (c : custom)
    : option (list Z * custom) :=
  idx ← custom_audio_index c !! audiotype;
  clip ← custom_audio_cycle c !! audiotype;
  let stream := take chunk (drop idx clip) in
  let idx' := (idx + chunk)%nat in
  let st' := if decide (length clip <= idx')%nat then 1%Z else curr_state c in
  Some (stream, mkCustom st' (custom_audio_cycle c) (custom_img_len c)
                  (<[audiotype := idx']> (custom_audio_index c)) (custom_index c)).

(** [set_custom_state(audiotype, reinit)] (lines 442-449). *)
Definition set_custom_state (audiotype : Z) (reinit : bool) (c : custom) : custom :=
  match custom_audio_index c !! audiotype with
  | None => c
  | Some _ =>
      if reinit then
        mkCustom audiotype (custom_audio_cycle c) (custom_img_len c)
          (<[audiotype := 0%nat]> (custom_audio_index c))
          (<[audiotype := 0%nat]> (custom_index c))
      else
        mkCustom audiotype (custom_audio_cycle c) (custom_img_len c)
          (custom_audio_index c) (custom_index c)
  end.

(** The invariant: the four dictionaries have the same keys (as
    [__loadcustom] creates them) and a custom state is one of them. *)
Definition custom_wf (c : custom) : Prop :=
  dom (custom_audio_index c) = dom (custom_audio_cycle c) /\
  dom (custom_index c) = dom (custom_audio_cycle c) /\
  dom (custom_img_len c) = dom (custom_audio_cycle c) /\
  ((curr_state c <= 1)%Z \/ curr_state c ∈ dom (custom_audio_cycle c)).

(** ** Lemmas *)

Lemma get_audio_stream_some chunk t c idx clip :
  custom_audio_index c !! t = Some idx -> custom_audio_cycle c !! t = Some clip ->
  get_audio_stream chunk t c =
    Some (take chunk (drop idx clip),
          mkCustom (if decide (length clip <= idx + chunk)%nat then 1%Z else curr_state c)
            (custom_audio_cycle c) (custom_img_len c)
            (<[t := (idx + chunk)%nat]> (custom_audio_index c)) (custom_index c)).
Proof. intros Hi Hc. unfold get_audio_stream. by rewrite Hi, Hc. Qed.

Lemma custom_wf_key c t : custom_wf c -> t ∈ dom (custom_audio_cycle c) ->
  (exists idx, custom_audio_index c !! t = Some idx) /\
  (exists clip, custom_audio_cycle c !! t = Some clip).
Proof.
  intros (Hd & _) Ht. split; apply elem_of_dom; [rewrite Hd|]; done.
Qed.

(** ** Theorems *)

(** Every operation keeps the invariant. *)
Theorem custom_wf_preserved c :
  custom_wf c ->
  custom_wf (init_customindex c) /\
  (forall t reinit, custom_wf (set_custom_state t reinit c)) /\
  (forall chunk t s c', get_audio_stream chunk t c = Some (s, c') -> custom_wf c').
Proof.
  intros (H1 & H2 & H3 & H4). split_and!.
  - unfold custom_wf, init_customindex; simpl. rewrite !dom_fmap_L. split_and!; auto with lia.
  - intros t reinit. unfold set_custom_state.
    destruct (custom_audio_index c !! t) eqn:E; [|done].
    assert (t ∈ dom (custom_audio_cycle c)) by (rewrite <- H1; by apply elem_of_dom).
    destruct reinit; unfold custom_wf; simpl;
      rewrite ?dom_insert_L; split_and!; try set_solver.
  - intros chunk t s c'. unfold get_audio_stream.
    destruct (custom_audio_index c !! t) eqn:E1; [|done]; simpl.
    destruct (custom_audio_cycle c !! t) eqn:E2; [|done]; simpl.
    intros [= <- <-]. unfold custom_wf; simpl.
    assert (t ∈ dom (custom_audio_cycle c)) by (by apply elem_of_dom).
    rewrite dom_insert_L. split_and!; try set_solver.
    case_decide; [by left|done].
Qed.

(** Because of the invariant, the ASR's call
    [get_audio_stream(curr_state)] for a custom state never raises
    [KeyError]. *)
Theorem get_audio_stream_total chunk c :
  custom_wf c -> (1 < curr_state c)%Z ->
  exists s c', get_audio_stream chunk (curr_state c) c = Some (s, c').
Proof.
  intros Hwf Hs. destruct (Hwf) as (_ & _ & _ & [?|Hin]); [lia|].
  destruct (custom_wf_key c _ Hwf Hin) as [[idx Hi] [clip Hc]].
  rewrite (get_audio_stream_some _ _ _ idx clip Hi Hc). eauto.
Qed.

(** The clip is served in chunks of [chunk] samples from the read position
    (the last one shorter), and the position advances by [chunk]; once the
    position reaches the end of the clip, the state reverts to silence. *)
Theorem get_audio_stream_spec chunk t c idx clip :
  custom_audio_index c !! t = Some idx -> custom_audio_cycle c !! t = Some clip ->
  exists s c', get_audio_stream chunk t c = Some (s, c') /\
    s = take chunk (drop idx clip) /\
    length s = Nat.min chunk (length clip - idx) /\
    custom_audio_index c' !! t = Some (idx + chunk)%nat /\
    ((length clip <= idx + chunk)%nat -> curr_state c' = 1%Z) /\
    ((idx + chunk < length clip)%nat -> curr_state c' = curr_state c).
Proof.
  intros Hi Hc. rewrite (get_audio_stream_some _ _ _ idx clip Hi Hc).
  do 2 eexists. split; [reflexivity|]. simpl.
  rewrite length_take, length_drop, lookup_insert_eq.
  split_and!; try done; try lia; intros; case_decide; done || lia.
Qed.

(** ** Examples: one clip of three samples for audio type 2, read in
    chunks of two. *)

Definition ex_custom : custom := set_custom_state 2 true (loadcustom [(2%Z, [1; 2; 3]%Z, 1%nat)]).

Lemma get_audio_stream_spec_witness :
  exists s c', get_audio_stream 2 2 ex_custom = Some (s, c') /\ s = [1; 2]%Z /\
    custom_audio_index c' !! 2%Z = Some 2%nat /\ curr_state c' = 2%Z.
Proof.
  destruct (get_audio_stream_spec 2 2 ex_custom 0 [1; 2; 3]%Z eq_refl eq_refl)
    as (s & c' & Hg & Hs & _ & Hi & _ & Hc).
  exists s, c'. split_and!; [exact Hg|exact Hs|exact Hi|]. apply Hc. simpl. lia.
Defined.

End CustomState.
