(* ===== verification/AudioIngest.v ===== *)
(** * AudioIngest: [BaseASR] of [src/baseasr.py]

    The audio ingest stage: configuration of the overflow policy and of the
    queue capacities ([__init__], lines 31-116), the producer entry point
    [put_audio_frame] (lines 134-192) under the [block] and [drop]
    policies, the consumer [get_audio_frame] (lines 195-209) that never
    stalls (silence or the custom clip on timeout), [flush_talk]
    (lines 120-132) and [warm_up] (lines 215-221).

    State: [asr] holds the three queues of [BaseASR] ([queue], the
    unbounded [output_queue], [feat_queue]), the sliding window [frames]
    and the drop counter with its log timestamp; the custom-clip state of
    the parent [BaseReal] is passed alongside ([CustomState.custom]).

    Theorems: capacity and watermark bounds of the configuration; [block]
    never loses a chunk (functional statement of one call, and a
    producer/consumer interleaving theorem: what the consumer receives is
    exactly what the producer pushed, in order); [drop] keeps the queue
    bounded, keeps the newest chunks in order and evicts exactly the
    [qsize - keep] oldest ones (at most [maxsize - keep]); the drop counter misses the evictions of the
    proactive trim; [get_audio_frame] always returns; [flush_talk] is
    idempotent. *)

From S2P Require Import Prelude Fifo CustomState.

Module AudioIngest.
Import Fifo CustomState.
Local Open Scope Z_scope.

Inductive overflow_mode := Drop | Block.

#[export] Instance overflow_mode_eq_dec : EqDecision overflow_mode.
Proof. solve_decision. Defined.

(** An element of [output_queue]: [(frame, type, eventpoint)], with type 0
    for speech, 1 for silence, [> 1] for a custom clip. *)
Record audio_frame (Info : Type) := mkFrame { pcm : list Z; ftype : Z; event : option Info }.
Arguments mkFrame {Info} _ _ _.
Arguments pcm {Info} _.
Arguments ftype {Info} _.
Arguments event {Info} _.

(** ** Configuration ([__init__]) *)

Definition in_set (s : string) (l : list string) : bool := bool_decide (s ∈ l).

(** Lines 39-57: the audio overflow policy from the environment. *)
Definition resolve_overflow_mode (env : environ) (model_name : string) : overflow_mode :=
  let m0 := py_norm (getenv env "LT_AUDIO_OVERFLOW_MODE" "auto") in
  let m := if in_set m0 ["auto"; "drop"; "block"] then m0 else "auto" in
  let prefer0 := in_set (py_norm (getenv env "LT_MUSETALK_PREFER_RELIABLE_SPEECH" "1")) ["1"; "true"; "yes"] in
  let prefer :=
    if bool_decide (py_strip (getenv env "LT_ALLOW_BLOCK_FOR_MUSETALK" "") ≠ "")
    then in_set (py_norm (getenv env "LT_ALLOW_BLOCK_FOR_MUSETALK" "0")) ["1"; "true"; "yes"]
    else prefer0 in
  if bool_decide (m = "auto") then
    if bool_decide (py_lower model_name = "musetalk") then (if prefer then Block else Drop) else Block
  else if bool_decide (m = "drop") then Drop else Block.

(** Lines 68-85: the ingest capacity, from the parsed backlog seconds
    ([float(...)], [None] on [ValueError]). *)
Definition max_audio_queue_chunks_of (mode : overflow_mode) (fps : Z)
    (parsed : option Q) : Z :=
  let default := match mode with Drop => 1 | Block => 8 end%Q in
  let secs := Qmax (1 # 10) (match parsed with Some v => v | None => default end) in
  match mode with
  | Drop => Z.max (Z.max 8 (fps / 2)) (py_round (secs * inject_Z fps))
  | Block => Z.max fps (py_round (secs * inject_Z fps))
  end.

(** Lines 103-114: the feature queue size ([int(...)], [None] on error). *)
Definition feat_queue_maxsize_of (musetalk : bool) (mode : overflow_mode)
    (parsed : option Z) : Z :=
  let default := if musetalk then (if decide (mode = Block) then 8 else 2) else 2 in
  clamp 1 64 (match parsed with Some v => v | None => default end).

Record asr_config := mkConfig {
  fps : Z;
  batch_size : nat;
  stride_left_size : nat;
  stride_right_size : nat;
  audio_overflow_mode : overflow_mode;
  max_audio_queue_chunks : Z;
  feat_queue_maxsize : Z;
}.

(** [self.chunk = self.sample_rate // self.fps] (16000 Hz). *)
Definition chunk_size (cfg : asr_config) : nat := Z.to_nat (16000 / fps cfg).

(** [keep_recent = max(1, self.fps // 2)] of [put_audio_frame]. *)
Definition keep_recent (cfg : asr_config) : Z := Z.max 1 (fps cfg / 2).

(** ** State *)

Section ASR.
Context {Info Feat : Type}.

Record asr := mkAsr {
  queue : Fifo.queue (list Z * Info);
  output_queue : list (audio_frame Info);
  feat_queue : Fifo.queue Feat;
  frames : list (list Z);
  dropped_audio_chunks : nat;
  last_drop_log_ts : Q;
}.

Definition init_asr (cfg : asr_config) : asr :=
  mkAsr (mkQueue [] (max_audio_queue_chunks cfg)) [] (mkQueue [] (feat_queue_maxsize cfg)) [] 0 0.

Definition set_queue (q : Fifo.queue (list Z * Info)) (s : asr) : asr :=
  mkAsr q (output_queue s) (feat_queue s) (frames s) (dropped_audio_chunks s) (last_drop_log_ts s).

(** Lines 181-192: add the drops of this call to the counter; the warning
    is rate limited to one every 2 seconds. *)
Definition account_drops (dropped_now : nat) (now : Q) (s : asr) : asr :=
  if decide (dropped_now = 0)%nat then s
  else mkAsr (queue s) (output_queue s) (feat_queue s) (frames s)
         (dropped_audio_chunks s + dropped_now)
         (if Qle_bool 2 (now - last_drop_log_ts s) then now else last_drop_log_ts s).

(** The outcome of [put_audio_frame]: it returns with a new state, or (block
    policy, full queue) it keeps retrying [put] with a timeout and has not
    returned yet: the producer thread waits, nothing changes. *)
Inductive put_outcome := Returned (s : asr) | Waiting.

(** [put_audio_frame(audio_chunk, datainfo)] (lines 134-192). *)
Definition put_audio_frame (cfg : asr_config) (now : Q) (chunk : list Z) (info : Info)
    (s : asr) : put_outcome :=
  match audio_overflow_mode cfg with
  | Block =>
      match put_nowait (chunk, info) (queue s) with
      | Some q' => Returned (set_queue q' s)
      | None => Waiting
      end
  | Drop =>
      let keep := keep_recent cfg in
      let '(q1, d1) := trim_while keep (queue s) in
      match put_nowait (chunk, info) q1 with
      | Some q2 => Returned (set_queue q2 s)
      | None =>
          let '(q3, d2) := trim_while keep q1 in
          match put_nowait (chunk, info) q3 with
          | Some q4 => Returned (account_drops (d1 + d2) now (set_queue q4 s))
          | None => Returned (account_drops (d1 + d2 + 1) now (set_queue q3 s))
          end
      end
  end.

(** [get_audio_frame()] (lines 195-209): the next chunk, typed 0; on
    timeout (empty queue) the custom clip if [curr_state > 1], typed with
    the state read {i after} the clip was advanced, else a silence chunk
    typed 1.  [None] is the [KeyError] of an unconfigured custom state. *)
Definition get_audio_frame (cfg : asr_config) (s : asr) (c : custom)
    : option (audio_frame Info * asr * custom) :=
  match get_nowait (queue s) with
  | Some ((chunk, info), q') => Some (mkFrame chunk 0 (Some info), set_queue q' s, c)
  | None =>
      if (1 <? curr_state c)%Z then
        '(stream, c') ← get_audio_stream (chunk_size cfg) (curr_state c) c;
        Some (mkFrame stream (curr_state c') None, s, c')
      else Some (mkFrame (replicate (chunk_size cfg) 0%Z) 1 None, s, c)
  end.

(** The loop body shared by [warm_up] and [MuseASR.run_step]:
    [frame,type,eventpoint = self.get_audio_frame();
     self.frames.append(frame); self.output_queue.put((frame,type,eventpoint))]. *)
Fixpoint pull_frames (cfg : asr_config) (n : nat) (s : asr) (c : custom)
    : option (asr * custom) :=
  match n with
  | O => Some (s, c)
  | S n' =>
      '(f, s1, c1) ← get_audio_frame cfg s c;
      pull_frames cfg n'
        (mkAsr (queue s1) (output_queue s1 ++ [f]) (feat_queue s1)
           (frames s1 ++ [pcm f]) (dropped_audio_chunks s1) (last_drop_log_ts s1)) c1
  end.

(** [warm_up()] (lines 215-221): pull [l + r] frames, then pop [l] of them
    from [output_queue], leaving a look-ahead of [r] frames. *)
Definition warm_up (cfg : asr_config) (s : asr) (c : custom) : option (asr * custom) :=
  '(s1, c1) ← pull_frames cfg (stride_left_size cfg + stride_right_size cfg) s c;
  Some (mkAsr (queue s1) (drop (stride_left_size cfg) (output_queue s1)) (feat_queue s1)
          (frames s1) (dropped_audio_chunks s1) (last_drop_log_ts s1), c1).

(** [flush_talk()] (lines 129-132): drain the three queues. *)
Definition flush_talk (s : asr) : asr :=
  mkAsr (drain_queue_nowait (queue s)) [] (drain_queue_nowait (feat_queue s))
    (frames s) (dropped_audio_chunks s) (last_drop_log_ts s).

(** ** Lemmas on single calls *)

Lemma set_queue_queue q s : queue (set_queue q s) = q.
Proof. reflexivity. Qed.

Lemma account_drops_queue d now s : queue (account_drops d now s) = queue s.
Proof. unfold account_drops. by case_decide. Qed.

Lemma put_nowait_trimmed_full keep (q : Fifo.queue (list Z * Info)) x :
  wf q -> (0 < maxsize q)%Z ->
  let q1 := fst (trim_while keep q) in
  (maxsize q <= Z.of_nat (qsize q1))%Z -> put_nowait x q1 = None.
Proof.
  intros Hwf Hm q1 Hle. apply put_nowait_full. apply full_spec. subst q1.
  rewrite trim_while_spec in *. simpl in *. done.
Qed.

Lemma get_audio_frame_custom_wf cfg (s : asr) c f s' c' :
  custom_wf c -> get_audio_frame cfg s c = Some (f, s', c') -> custom_wf c'.
Proof.
  unfold get_audio_frame. intros Hwf.
  destruct (get_nowait (queue s)) as [[[x i] q']|]; [by intros [= _ _ <-]|].
  destruct (1 <? curr_state c)%Z; [|by intros [= _ _ <-]].
  destruct (get_audio_stream _ _ c) as [[st c1]|] eqn:E; simpl; [|done].
  intros [= _ _ <-]. by eapply custom_wf_preserved.
Qed.

Lemma get_audio_frame_total cfg (s : asr) c :
  custom_wf c -> exists f s' c', get_audio_frame cfg s c = Some (f, s', c').
Proof.
  intros Hwf. unfold get_audio_frame.
  destruct (get_nowait (queue s)) as [[[x i] q']|]; [eauto|].
  destruct (Z.ltb_spec 1 (curr_state c)) as [Hlt|]; [|eauto].
  destruct (get_audio_stream_total (chunk_size cfg) c Hwf Hlt) as (st & c1 & ->).
  simpl. eauto.
Qed.

Lemma get_audio_frame_only_queue cfg (s : asr) c f s1 c1 :
  get_audio_frame cfg s c = Some (f, s1, c1) -> s1 = set_queue (queue s1) s.
Proof.
  destruct s. unfold get_audio_frame. simpl.
  destruct (get_nowait _) as [[[x i] q']|]; [by intros [= _ <- _]|].
  destruct (1 <? curr_state c)%Z;
    [destruct (get_audio_stream _ _ c) as [[st c2]|]; simpl; [|done]|];
    by intros [= _ <- _].
Qed.

Lemma pull_frames_spec cfg n (s : asr) c s' c' :
  pull_frames cfg n s c = Some (s', c') ->
  length (output_queue s') = (length (output_queue s) + n)%nat /\
  length (frames s') = (length (frames s) + n)%nat /\
  feat_queue s' = feat_queue s /\ (custom_wf c -> custom_wf c').
Proof.
  revert s c. induction n as [|n IH]; intros s c; simpl.
  - intros [= <- <-]. split_and!; auto with lia.
  - destruct (get_audio_frame cfg s c) as [[[f s1] c1]|] eqn:E; simpl; [|done].
    intros Hp. destruct (IH _ _ Hp) as (H1 & H2 & H3 & H4).
    rewrite (get_audio_frame_only_queue _ _ _ _ _ _ E) in H1, H2, H3. simpl in *.
    rewrite length_app in H1, H2. simpl in *.
    split_and!; try lia; [done|].
    intros Hwf. apply H4. by eapply get_audio_frame_custom_wf.
Qed.

Lemma pull_frames_total cfg n (s : asr) c :
  custom_wf c -> exists s' c', pull_frames cfg n s c = Some (s', c').
Proof.
  revert s c. induction n as [|n IH]; intros s c Hwf; simpl; [eauto|].
  destruct (get_audio_frame_total cfg s c Hwf) as (f & s1 & c1 & E). rewrite E. simpl.
  apply IH. by eapply get_audio_frame_custom_wf.
Qed.

End ASR.

Arguments asr : clear implicits.
Arguments put_outcome : clear implicits.

(** ** Theorems *)

(** Configuration: in [drop] mode the ingest queue holds at least 8
    chunks and at least the trim watermark [max(1, fps // 2)]; in [block]
    mode at least one second of audio ([fps] chunks); the feature queue
    holds between 1 and 64 batches. *)
Theorem ingest_capacity_bounds fps parsed musetalk mode fparsed :
  (8 <= max_audio_queue_chunks_of Drop fps parsed) /\
  (Z.max 1 (fps / 2) <= max_audio_queue_chunks_of Drop fps parsed) /\
  (fps <= max_audio_queue_chunks_of Block fps parsed) /\
  (1 <= feat_queue_maxsize_of musetalk mode fparsed <= 64).
Proof.
  unfold max_audio_queue_chunks_of, feat_queue_maxsize_of.
  unfold clamp. split_and!; lia.
Qed.

Section Theorems.
Context {Info Feat : Type}.

(** [block] policy: one call either appends the chunk at the tail of the
    queue and returns, or finds the queue full and keeps waiting with
    nothing changed.  No chunk is ever discarded. *)
Theorem put_block_no_loss cfg now x (info : Info) (s : asr Info Feat) :
  audio_overflow_mode cfg = Block ->
  (full (queue s) = false /\
   put_audio_frame cfg now x info s =
     Returned (set_queue (mkQueue (items (queue s) ++ [(x, info)]) (maxsize (queue s))) s)) \/
  (full (queue s) = true /\ put_audio_frame cfg now x info s = Waiting).
Proof.
  intros Hm. unfold put_audio_frame. rewrite Hm.
  destruct (full (queue s)) eqn:Hf; [right | left].
  - by rewrite put_nowait_full.
  - by rewrite put_nowait_room.
Qed.

(** [drop] policy, every branch: the backlog is first trimmed to the [keep]
    most recent chunks; if that leaves room the chunk is appended and the
    call returns {i without counting the evictions}; otherwise (only
    possible when [keep >= maxsize]) the second trim does nothing and the
    new chunk itself is dropped and counted. *)
Theorem put_drop_spec cfg now x (info : Info) (s : asr Info Feat) :
  audio_overflow_mode cfg = Drop ->
  let old := items (queue s) in
  let K := Z.to_nat (keep_recent cfg) in
  let kept := mkQueue (drop (length old - K) old) (maxsize (queue s)) in
  (full kept = false ->
     put_audio_frame cfg now x info s =
       Returned (set_queue (mkQueue (items kept ++ [(x, info)]) (maxsize (queue s))) s)) /\
  (full kept = true ->
     put_audio_frame cfg now x info s =
       Returned (account_drops (length old - K + 1) now (set_queue kept s))).
Proof.
  intros Hm old K kept. unfold put_audio_frame. rewrite Hm, trim_while_spec.
  change (mkQueue (drop (qsize (queue s) - Z.to_nat (keep_recent cfg)) (items (queue s)))
            (maxsize (queue s))) with kept.
  split; intros Hf.
  - by rewrite put_nowait_room.
  - rewrite put_nowait_full by done. rewrite trim_while_spec.
    replace (qsize kept - Z.to_nat (keep_recent cfg))%nat with 0%nat
      by (unfold qsize, kept; simpl; rewrite length_drop; lia).
    rewrite drop_0. change (mkQueue (items kept) (maxsize kept)) with kept.
    rewrite put_nowait_full by done. by rewrite Nat.add_0_r.
Qed.

(** C2: Consequences for a bounded queue: the call returns, the queue stays
    within its capacity and within [keep + 1] chunks, and it evicts exactly
    the [qsize - keep] oldest chunks (at most [maxsize - keep]): the new
    queue is the remaining ones followed by the new chunk, which is itself
    dropped only when [keep >= maxsize] leaves no room. *)
Theorem put_drop_bounded cfg now x (info : Info) (s : asr Info Feat) :
  audio_overflow_mode cfg = Drop -> wf (queue s) -> (0 < maxsize (queue s))%Z ->
  exists s', put_audio_frame cfg now x info s = Returned s' /\
    wf (queue s') /\
    (qsize (queue s') <= Z.to_nat (keep_recent cfg) + 1)%nat /\
    exists evicted kept, items (queue s) = evicted ++ kept /\
      length evicted = (qsize (queue s) - Z.to_nat (keep_recent cfg))%nat /\
      (length evicted <= Z.to_nat (maxsize (queue s)) - Z.to_nat (keep_recent cfg))%nat /\
      (items (queue s') = kept ++ [(x, info)] \/
       ((maxsize (queue s) <= keep_recent cfg)%Z /\ items (queue s') = kept)).
Proof.
  intros Hm Hwf Hpos. destruct (put_drop_spec cfg now x info s Hm) as [H1 H2].
  assert (Hev : exists evicted kept, items (queue s) = evicted ++ kept /\
            length evicted = (qsize (queue s) - Z.to_nat (keep_recent cfg))%nat /\
            (length evicted <= Z.to_nat (maxsize (queue s)) - Z.to_nat (keep_recent cfg))%nat /\
            kept = drop (qsize (queue s) - Z.to_nat (keep_recent cfg)) (items (queue s))).
  { exists (take (qsize (queue s) - Z.to_nat (keep_recent cfg)) (items (queue s))),
      (drop (qsize (queue s) - Z.to_nat (keep_recent cfg)) (items (queue s))).
    rewrite take_drop, length_take. unfold wf, qsize in *. split_and!; [done|lia|lia|done]. }
  destruct Hev as (ev & kept & Hsplit & Hlen & Hle & Hkept).
  unfold wf, qsize in *. destruct (full _) eqn:Hf.
  - eexists. split; [by apply H2|]. rewrite account_drops_queue. simpl.
    rewrite length_drop. split_and!; [lia|lia|]. exists ev, kept. split_and!; [done|done|done|].
    right. split; [|by rewrite Hkept].
    apply full_spec in Hf as [_ Hf]. unfold qsize in Hf. simpl in Hf. rewrite length_drop in Hf.
    pose proof (Z.le_max_l 1 (fps cfg / 2)). unfold keep_recent in *. lia.
  - eexists. split; [by apply H1|]. simpl. rewrite length_app, length_drop. simpl.
    apply not_true_iff_false in Hf. rewrite full_spec in Hf. unfold qsize in Hf. simpl in Hf.
    rewrite length_drop in Hf. split_and!; [lia|lia|]. exists ev, kept.
    split_and!; [done|done|done|]. left. by rewrite Hkept.
Qed.

(** C3: Finding: when the proactive trim evicts chunks and the put then
    succeeds (the usual overload case), [put_audio_frame] returns before
    the accounting: [_dropped_audio_chunks] is unchanged and no warning is
    logged although [qsize - keep] chunks were discarded. *)
Theorem drop_counter_misses_trim cfg now x (info : Info) (s : asr Info Feat) :
  audio_overflow_mode cfg = Drop ->
  (Z.to_nat (keep_recent cfg) < qsize (queue s))%nat ->
  (keep_recent cfg < maxsize (queue s))%Z ->
  exists s', put_audio_frame cfg now x info s = Returned s' /\
    dropped_audio_chunks s' = dropped_audio_chunks s /\
    (qsize (queue s') = Z.to_nat (keep_recent cfg) + 1)%nat /\
    (qsize (queue s') < qsize (queue s) + 1)%nat.
Proof.
  intros Hm Hgt Hlt. destruct (put_drop_spec cfg now x info s Hm) as [H1 _].
  assert (keep_recent cfg >= 1)%Z by (unfold keep_recent; lia).
  eexists. split; [apply H1|].
  - apply not_true_iff_false. rewrite full_spec. unfold qsize in *. simpl.
    rewrite length_drop. lia.
  - unfold qsize in *. simpl. rewrite length_app, length_drop. simpl. split_and!; lia.
Qed.

(** C39: [get_audio_frame] never stalls the pipeline: with a well-formed custom
    state it always returns a frame; a real chunk is the head of the queue,
    typed 0; on an empty queue outside a custom state it is [chunk] samples
    of silence typed 1. *)
Theorem get_audio_frame_spec cfg (s : asr Info Feat) c :
  custom_wf c ->
  exists f s' c', get_audio_frame cfg s c = Some (f, s', c') /\
    ((exists info rest, items (queue s) = (pcm f, info) :: rest /\ event f = Some info /\
        ftype f = 0 /\ items (queue s') = rest /\ c' = c) \/
     (items (queue s) = [] /\ s' = s /\ event f = None /\
        ((curr_state c <= 1)%Z -> f = mkFrame (replicate (chunk_size cfg) 0%Z) 1 None /\ c' = c))).
Proof.
  intros Hwf. destruct (get_audio_frame_total cfg s c Hwf) as (f & s' & c' & E).
  exists f, s', c'. split; [done|]. revert E. unfold get_audio_frame, get_nowait.
  destruct (items (queue s)) as [|[x i] rest]; simpl.
  - destruct (Z.ltb_spec 1 (curr_state c)).
    + destruct (get_audio_stream _ _ c) as [[st c1]|]; simpl; [|done].
      intros [= <- <- <-]. right. split_and!; auto with lia.
    + intros [= <- <- <-]. right. auto.
  - intros [= <- <- <-]. left. eauto 10.
Qed.

(** [flush_talk] empties the three queues and is idempotent. *)
Theorem flush_talk_idempotent (s : asr Info Feat) :
  flush_talk (flush_talk s) = flush_talk s /\
  items (queue (flush_talk s)) = [] /\ output_queue (flush_talk s) = [] /\
  items (feat_queue (flush_talk s)) = [].
Proof. unfold flush_talk. simpl. rewrite !drain_queue_nowait_spec. done. Qed.

(** ** Producer/consumer interleavings

    The TTS thread pushes its chunks one by one ([pc_push]; a waiting
    [block] put is a stutter and needs no rule), while the feature thread
    calls [get_audio_frame] ([pc_pop] records the real chunks it receives,
    [pc_idle] the timeouts).  Any interleaving of the two is a run of
    [pc_step]. *)

Record pc_state := mkPC {
  pending : list (list Z * Info);
  pc_asr : asr Info Feat;
  pc_custom : custom;
  received : list (list Z * Info);
}.

Inductive pc_step (cfg : asr_config) : pc_state -> pc_state -> Prop :=
| pc_push now x info rest s s' c out :
    put_audio_frame cfg now x info s = Returned s' ->
    pc_step cfg (mkPC ((x, info) :: rest) s c out) (mkPC rest s' c out)
| pc_pop p s c f s' c' out info :
    get_audio_frame cfg s c = Some (f, s', c') -> event f = Some info ->
    pc_step cfg (mkPC p s c out) (mkPC p s' c' (out ++ [(pcm f, info)]))
| pc_idle p s c f s' c' out :
    get_audio_frame cfg s c = Some (f, s', c') -> event f = None ->
    pc_step cfg (mkPC p s c out) (mkPC p s' c' out).

(** An executable scheduler for the interleavings: [APush now] is the
    producer's next call, [APull] one [get_audio_frame] of the consumer.
    [None] when the producer has nothing left, would wait, or the consumer
    raises. *)
Inductive pc_action := APush (now : Q) | APull.

Definition pc_exec (cfg : asr_config) (st : pc_state) (a : pc_action) : option pc_state :=
  match a with
  | APush now =>
      match pending st with
      | (x, info) :: rest =>
          match put_audio_frame cfg now x info (pc_asr st) with
          | Returned s' => Some (mkPC rest s' (pc_custom st) (received st))
          | Waiting => None
          end
      | [] => None
      end
  | APull =>
      '(f, s', c') ← get_audio_frame cfg (pc_asr st) (pc_custom st);
      match event f with
      | Some info => Some (mkPC (pending st) s' c' (received st ++ [(pcm f, info)]))
      | None => Some (mkPC (pending st) s' c' (received st))
      end
  end.

Fixpoint pc_run (cfg : asr_config) (st : pc_state) (acts : list pc_action) : option pc_state :=
  match acts with
  | [] => Some st
  | a :: acts => st1 ← pc_exec cfg st a; pc_run cfg st1 acts
  end.

Lemma pc_exec_step cfg st a st' : pc_exec cfg st a = Some st' -> pc_step cfg st st'.
Proof.
  destruct st as [p s c out]. destruct a as [now|]; simpl.
  - destruct p as [|[x info] rest]; [done|].
    destruct (put_audio_frame cfg now x info s) eqn:Hp; [|done]. intros [= <-]. by apply (pc_push cfg now).
  - destruct (get_audio_frame cfg s c) as [[[f s'] c']|] eqn:Hg; simpl; [|done].
    destruct (event f) eqn:Hev; intros [= <-]; [by eapply pc_pop|by eapply pc_idle].
Qed.

Lemma pc_run_rtc cfg st acts st' : pc_run cfg st acts = Some st' -> rtc (pc_step cfg) st st'.
Proof.
  revert st. induction acts as [|a acts IH]; intros st; simpl; [by intros [= <-]|].
  destruct (pc_exec cfg st a) as [st1|] eqn:Hs; [|done]. intros Hrun.
  apply rtc_l with st1; [by apply (pc_exec_step cfg st a)|]. by apply IH.
Qed.

Lemma get_audio_frame_event cfg (s : asr Info Feat) c f s' c' :
  get_audio_frame cfg s c = Some (f, s', c') ->
  (forall info, event f = Some info -> items (queue s) = (pcm f, info) :: items (queue s')) /\
  (event f = None -> items (queue s') = items (queue s)).
Proof.
  unfold get_audio_frame, get_nowait. destruct (items (queue s)) as [|[x i] rest] eqn:E.
  - destruct (1 <? curr_state c)%Z;
      [destruct (get_audio_stream _ _ c) as [[st c1]|]; simpl; [|done]|];
      intros [= <- <- <-]; simpl; split; intros; congruence.
  - intros [= <- <- <-]. simpl. split; intros; congruence.
Qed.

Definition lossless (produced : list (list Z * Info)) (st : pc_state) : Prop :=
  received st ++ items (queue (pc_asr st)) ++ pending st = produced.

Definition no_reorder (produced : list (list Z * Info)) (st : pc_state) : Prop :=
  (received st ++ items (queue (pc_asr st)) ++ pending st) `sublist_of` produced.

Lemma pc_step_lossless cfg produced st st' :
  audio_overflow_mode cfg = Block -> pc_step cfg st st' ->
  lossless produced st -> lossless produced st'.
Proof.
  intros Hm Hs. unfold lossless. destruct Hs as [now x info rest s s' c out Hp|? ? ? ? ? ? ? ? Hg Hev|? ? ? ? ? ? ? Hg Hev];
    simpl; intros <-.
  - destruct (put_block_no_loss cfg now x info s Hm) as [[_ Hr]|[_ Hr]]; rewrite Hr in Hp; [|done].
    injection Hp as <-. simpl. by rewrite <- app_assoc.
  - destruct (get_audio_frame_event _ _ _ _ _ _ Hg) as [H _]. rewrite (H _ Hev).
    by rewrite <- app_assoc.
  - destruct (get_audio_frame_event _ _ _ _ _ _ Hg) as [_ H]. by rewrite H.
Qed.

Lemma pc_step_no_reorder cfg produced st st' :
  pc_step cfg st st' -> no_reorder produced st -> no_reorder produced st'.
Proof.
  intros Hs. unfold no_reorder.
  destruct Hs as [now x info rest s s' c out Hp|? ? ? ? ? ? ? ? Hg Hev|? ? ? ? ? ? ? Hg Hev];
    simpl; intros Hsub; (eapply transitivity; [|exact Hsub]).
  - apply sublist_app; [done|].
    destruct (audio_overflow_mode cfg) eqn:Hm.
    + destruct (put_drop_spec cfg now x info s Hm) as [H1 H2].
      destruct (full _) eqn:Hf; [rewrite (H2 eq_refl) in Hp | rewrite (H1 eq_refl) in Hp];
        injection Hp as <-; rewrite ?account_drops_queue; simpl.
      * apply sublist_app; [apply sublist_drop|by apply sublist_cons].
      * rewrite <- app_assoc. apply sublist_app; [apply sublist_drop|done].
    + destruct (put_block_no_loss cfg now x info s Hm) as [[_ Hr]|[_ Hr]]; rewrite Hr in Hp; [|done].
      injection Hp as <-. simpl. by rewrite <- app_assoc.
  - destruct (get_audio_frame_event _ _ _ _ _ _ Hg) as [H _]. rewrite (H _ Hev).
    by rewrite <- app_assoc.
  - destruct (get_audio_frame_event _ _ _ _ _ _ Hg) as [_ H]. by rewrite H.
Qed.

(** C1: Zero loss ([block]): in every interleaving, what the consumer has
    received, followed by what is queued, followed by what the producer
    has yet to push, is exactly the produced sequence.  Once everything is
    pushed and consumed, the consumer has received every chunk, in order. *)
Theorem block_ingest_lossless cfg produced s0 c0 p s c out :
  audio_overflow_mode cfg = Block -> items (queue s0) = [] ->
  rtc (pc_step cfg) (mkPC produced s0 c0 []) (mkPC p s c out) ->
  out ++ items (queue s) ++ p = produced.
Proof.
  intros Hm H0 Hrun.
  apply (rtc_invariant _ (lossless produced)
           (fun x y H => pc_step_lossless cfg produced x y Hm H) _ _ Hrun).
  unfold lossless. simpl. by rewrite H0.
Qed.

(** Under either policy the consumer never receives a chunk twice or out
    of order: received ++ queued ++ pending is a sublist of the produced
    sequence ([drop] may only leave chunks out). *)
Theorem ingest_never_reorders cfg produced s0 c0 p s c out :
  items (queue s0) = [] ->
  rtc (pc_step cfg) (mkPC produced s0 c0 []) (mkPC p s c out) ->
  (out ++ items (queue s) ++ p) `sublist_of` produced.
Proof.
  intros H0 Hrun.
  apply (rtc_invariant _ (no_reorder produced) (pc_step_no_reorder cfg produced) _ _ Hrun).
  unfold no_reorder. simpl. by rewrite H0.
Qed.

End Theorems.

(** ** Examples *)

Definition demo_cfg (mode : overflow_mode) : asr_config := mkConfig 50 1 0 0 mode 2 2.

Definition demo_produced : list (list Z * nat) := [([1], 0%nat); ([2], 1%nat); ([3], 2%nat)].

Definition demo_start (mode : overflow_mode) : pc_state (Info:=nat) (Feat:=unit) :=
  mkPC demo_produced (init_asr (demo_cfg mode)) (loadcustom []) [].

(** The producer pushes twice, the consumer takes one chunk, the producer
    pushes its last chunk. *)
Definition demo_acts : list pc_action := [APush 0; APush 0; APull; APush 0].

Definition demo_end (mode : overflow_mode) : pc_state (Info:=nat) (Feat:=unit) :=
  default (demo_start mode) (pc_run (demo_cfg mode) (demo_start mode) demo_acts).

Lemma block_ingest_lossless_witness :
  rtc (pc_step (demo_cfg Block)) (demo_start Block) (demo_end Block) /\
  received (demo_end Block) ++ items (queue (pc_asr (demo_end Block))) ++ pending (demo_end Block)
    = demo_produced.
Proof.
  assert (Hrun : rtc (pc_step (demo_cfg Block)) (demo_start Block) (demo_end Block))
    by (apply (pc_run_rtc _ _ demo_acts); vm_compute; reflexivity).
  split; [exact Hrun|].
  exact (block_ingest_lossless (demo_cfg Block) demo_produced (init_asr (demo_cfg Block)) (loadcustom [])
           (pending (demo_end Block)) (pc_asr (demo_end Block)) (pc_custom (demo_end Block)) (received (demo_end Block))
           eq_refl eq_refl Hrun).
Defined.

Lemma ingest_never_reorders_witness :
  rtc (pc_step (demo_cfg Drop)) (demo_start Drop) (demo_end Drop) /\
  (received (demo_end Drop) ++ items (queue (pc_asr (demo_end Drop))) ++ pending (demo_end Drop))
    `sublist_of` demo_produced.
Proof.
  assert (Hrun : rtc (pc_step (demo_cfg Drop)) (demo_start Drop) (demo_end Drop))
    by (apply (pc_run_rtc _ _ demo_acts); vm_compute; reflexivity).
  split; [exact Hrun|].
  exact (ingest_never_reorders (demo_cfg Drop) demo_produced (init_asr (demo_cfg Drop)) (loadcustom [])
           (pending (demo_end Drop)) (pc_asr (demo_end Drop)) (pc_custom (demo_end Drop)) (received (demo_end Drop))
           eq_refl Hrun).
Defined.

(** Three chunks queued, [keep = max(1, 4 // 2) = 2], capacity 4. *)
Definition busy_cfg : asr_config := mkConfig 4 1 0 0 Drop 4 2.

Definition busy_asr : asr nat unit :=
  set_queue (mkQueue [([1], 0%nat); ([2], 1%nat); ([3], 2%nat)] 4) (init_asr busy_cfg).

(** The oldest of the three chunks is evicted, the two newest and the new
    one are kept. *)
Lemma put_drop_bounded_witness :
  exists s', put_audio_frame busy_cfg 0 [4] 3%nat busy_asr = Returned s' /\
    items (queue s') = [([2], 1%nat); ([3], 2%nat); ([4], 3%nat)].
Proof.
  destruct (put_drop_bounded busy_cfg 0 [4] 3%nat busy_asr eq_refl)
    as (s' & Hp & _ & _ & ev & kept & Hsplit & Hlen & _ & Hnew);
    [unfold wf, qsize; simpl; lia|simpl; lia|].
  exists s'. split; [exact Hp|].
  assert (Hk : kept = [([2], 1%nat); ([3], 2%nat)]).
  { simpl in Hsplit, Hlen. destruct ev as [|e1 [|e2 ev]]; simpl in Hlen; try lia.
    simpl in Hsplit. by injection Hsplit as _ <-. }
  destruct Hnew as [Hnew|[Hc _]]; [by rewrite Hnew, Hk|vm_compute in Hc; by destruct Hc].
Defined.

Lemma drop_counter_misses_trim_witness :
  exists s', put_audio_frame busy_cfg 5 [4] 3%nat busy_asr = Returned s' /\
    dropped_audio_chunks s' = 0%nat /\ qsize (queue s') = 3%nat.
Proof.
  destruct (drop_counter_misses_trim busy_cfg 5 [4] 3%nat busy_asr eq_refl)
    as (s' & Hp & Hd & Hq & _); [vm_compute; lia|vm_compute; reflexivity|].
  exists s'. split_and!; [exact Hp|exact Hd|exact Hq].
Defined.

Lemma get_audio_frame_spec_witness :
  custom_wf (loadcustom []) /\
  exists f s' c', get_audio_frame (demo_cfg Block) busy_asr (loadcustom []) = Some (f, s', c') /\
    event f = Some 0%nat.
Proof.
  assert (Hwf : custom_wf (loadcustom [])) by (vm_compute; split_and!; try reflexivity; left; discriminate).
  split; [exact Hwf|].
  destruct (get_audio_frame_spec (demo_cfg Block) busy_asr (loadcustom []) Hwf)
    as (f & s' & c' & Hg & [(info & rest & Hq & Hev & _)|(Hq & _)]).
  - exists f, s', c'. split; [exact Hg|]. rewrite Hev. vm_compute in Hq. congruence.
  - vm_compute in Hq. discriminate.
Defined.

End AudioIngest.
