(* ===== verification/FeatureStage.v ===== *)
(** * FeatureStage: [MuseASR] of [src/museasr.py]

    The producer half of the synthesis pipeline.  [run_step] (lines 46-76)
    pulls [2 * batch_size] chunks through [get_audio_frame], forwarding
    each to [output_queue] (the audio the synthesis worker will pair with
    the video), computes one feature batch from the sliding window
    [frames] (the Whisper extractor is an external collaborator, the
    section variable [feature_batch]) and pushes it to [feat_queue] with
    [_push_feat_with_backpressure] (lines 78-141) under the feature
    overflow policy resolved in [__init__] (lines 35-43).

    The two queues travel in parallel: the synthesis worker takes one
    feature batch and [2 * batch_size] audio frames together.  The
    alignment invariant [aligned] says that [output_queue] holds exactly
    the [r] look-ahead frames of [warm_up] plus [2 * batch_size] frames per
    queued batch.  Theorems: [warm_up] establishes it, a successful push
    (including the [drop] eviction path, which removes a stale batch
    together with its audio) keeps it, and a push that gives up (the
    [block] path after its retries) breaks it, as does [flush_talk]. *)

From S2P Require Import Prelude Fifo CustomState AudioIngest.

Module FeatureStage.
Import Fifo CustomState AudioIngest.
Local Open Scope Z_scope.

(** Lines 35-43: the feature overflow policy. *)
Definition resolve_feat_mode (env : environ) : overflow_mode :=
  let m0 := py_norm (getenv env "LT_MUSETALK_FEAT_OVERFLOW_MODE" "auto") in
  let m := if in_set m0 ["auto"; "drop"; "block"] then m0 else "auto" in
  if bool_decide (m = "auto") then
    (if in_set (py_norm (getenv env "LT_MUSETALK_PREFER_RELIABLE_SPEECH" "1")) ["1"; "true"; "yes"]
     then Block else Drop)
  else if bool_decide (m = "drop") then Drop else Block.

Section Stage.
Context {Info Feat : Type}.
Variable feature_batch : list (list Z) -> Feat.

Record muse_asr := mkMuse {
  base : asr Info Feat;
  feat_overflow_mode : overflow_mode;
  dropped_feat_chunks : nat;
  last_feat_drop_log_ts : Q;
}.

Definition set_queues (fq : Fifo.queue Feat) (oq : list (audio_frame Info)) (s : asr Info Feat)
    : asr Info Feat :=
  mkAsr (queue s) oq fq (frames s) (dropped_audio_chunks s) (last_drop_log_ts s).

(** One round of the [drop] eviction loop (lines 105-118): pop a stale
    batch if there is one, and then up to [2 * batch_size] of the audio
    frames at the head of [output_queue]. *)
Definition evict_stale (bs : nat) (fq : Fifo.queue Feat) (oq : list (audio_frame Info))
    : Fifo.queue Feat * list (audio_frame Info) * nat :=
  match get_nowait fq with
  | Some (_, fq') => (fq', drop (2 * bs) oq, 1%nat)
  | None => (fq, oq, 0%nat)
  end.

(** Lines 103-141: at most three rounds of eviction, each followed by a
    [put_nowait] (a success after an eviction logs, rate limited to one
    warning per 1.5 s, and moves the log timestamp), then the final
    [put(timeout=0.01)] (the round with fuel 0).  Returns the queues, the
    log timestamp and whether the batch was enqueued. *)
Fixpoint drop_rounds (fuel bs : nat) (now last_ts : Q) (x : Feat) (fq : Fifo.queue Feat)
    (oq : list (audio_frame Info)) (dropped : nat)
    : Fifo.queue Feat * list (audio_frame Info) * Q * bool :=
  match fuel with
  | O => match put_nowait x fq with
         | Some fq' => (fq', oq, last_ts, true)
         | None => (fq, oq, last_ts, false)
         end
  | S f =>
      let '(fq1, oq1, d) := evict_stale bs fq oq in
      match put_nowait x fq1 with
      | Some fq' =>
          let ts := if negb (dropped + d =? 0)%nat && Qle_bool (3 # 2) (now - last_ts)
                    then now else last_ts in
          (fq', oq1, ts, true)
      | None => drop_rounds f bs now last_ts x fq1 oq1 (dropped + d)%nat
      end
  end.

(** [_push_feat_with_backpressure(whisper_chunks)] (lines 78-141).  In
    [block] mode the six timed puts of a full queue all time out when no
    consumer runs in between: the batch is given up. *)
Definition push_feat_with_backpressure (bs : nat) (now : Q) (x : Feat) (m : muse_asr)
    : muse_asr * bool :=
  let s := base m in
  match put_nowait x (feat_queue s) with
  | Some fq' => (mkMuse (set_queues fq' (output_queue s) s) (feat_overflow_mode m)
                   (dropped_feat_chunks m) (last_feat_drop_log_ts m), true)
  | None =>
      match feat_overflow_mode m with
      | Block => (m, false)
      | Drop =>
          let '(fq', oq', ts, ok) :=
            drop_rounds 3 bs now (last_feat_drop_log_ts m) x (feat_queue s) (output_queue s) 0 in
          (mkMuse (set_queues fq' oq' s) (feat_overflow_mode m) (dropped_feat_chunks m) ts, ok)
      end
  end.

(** [run_step()] (lines 46-76). *)
Definition run_step (cfg : asr_config) (now : Q) (m : muse_asr) (c : custom)
    : option (muse_asr * custom) :=
  let lr := (stride_left_size cfg + stride_right_size cfg)%nat in
  '(s1, c1) ← pull_frames cfg (batch_size cfg * 2) (base m) c;
  if decide (length (frames s1) <= lr)%nat then
    Some (mkMuse s1 (feat_overflow_mode m) (dropped_feat_chunks m) (last_feat_drop_log_ts m), c1)
  else
    let x := feature_batch (frames s1) in
    let '(m2, ok) := push_feat_with_backpressure (batch_size cfg) now x
                       (mkMuse s1 (feat_overflow_mode m) (dropped_feat_chunks m)
                          (last_feat_drop_log_ts m)) in
    let m3 := if ok then m2
              else mkMuse (base m2) (feat_overflow_mode m2) (S (dropped_feat_chunks m2))
                     (if Qle_bool 2 (now - last_feat_drop_log_ts m2) then now
                      else last_feat_drop_log_ts m2) in
    let s3 := base m3 in
    Some (mkMuse (mkAsr (queue s3) (output_queue s3) (feat_queue s3)
                    (py_suffix lr (frames s3)) (dropped_audio_chunks s3) (last_drop_log_ts s3))
            (feat_overflow_mode m3) (dropped_feat_chunks m3) (last_feat_drop_log_ts m3), c1).

(** The alignment invariant between the two parallel queues. *)
Definition aligned (cfg : asr_config) (s : asr Info Feat) : Prop :=
  length (output_queue s) = (stride_right_size cfg + 2 * batch_size cfg * qsize (feat_queue s))%nat.

(** ** Lemmas *)

Lemma full_after_get (fq : Fifo.queue Feat) y fq' :
  wf fq -> get_nowait fq = Some (y, fq') -> full fq' = false.
Proof.
  unfold wf, get_nowait, qsize. destruct (items fq) as [|z rest] eqn:E; [done|].
  intros Hwf [= <- <-]. apply not_true_iff_false. rewrite full_spec. unfold qsize.
  simpl in *. lia.
Qed.

Lemma full_nonempty (fq : Fifo.queue Feat) :
  full fq = true -> exists y rest, items fq = y :: rest.
Proof.
  rewrite full_spec. unfold qsize. destruct (items fq) as [|y rest]; simpl; [lia|eauto].
Qed.

(** The outcome of one push, on each branch. *)
Lemma push_feat_room bs now x (m : muse_asr) :
  let s := base m in
  full (feat_queue s) = false ->
  push_feat_with_backpressure bs now x m =
    (mkMuse (set_queues (mkQueue (items (feat_queue s) ++ [x]) (maxsize (feat_queue s)))
               (output_queue s) s)
       (feat_overflow_mode m) (dropped_feat_chunks m) (last_feat_drop_log_ts m), true).
Proof. intros s Hf. unfold push_feat_with_backpressure. fold s. by rewrite put_nowait_room. Qed.

Lemma push_feat_block_full bs now x (m : muse_asr) :
  full (feat_queue (base m)) = true -> feat_overflow_mode m = Block ->
  push_feat_with_backpressure bs now x m = (m, false).
Proof. intros Hf Hm. unfold push_feat_with_backpressure. by rewrite put_nowait_full, Hm. Qed.

Lemma push_feat_drop_full bs now x (m : muse_asr) :
  let s := base m in
  wf (feat_queue s) -> full (feat_queue s) = true -> feat_overflow_mode m = Drop ->
  exists ts, push_feat_with_backpressure bs now x m =
    (mkMuse (set_queues (mkQueue (tail (items (feat_queue s)) ++ [x]) (maxsize (feat_queue s)))
               (drop (2 * bs) (output_queue s)) s)
       Drop (dropped_feat_chunks m) ts, true).
Proof.
  intros s Hwf Hf Hm. unfold push_feat_with_backpressure. fold s.
  rewrite put_nowait_full, Hm by done.
  destruct (full_nonempty _ Hf) as (y & rest & Hy).
  assert (Hg : get_nowait (feat_queue s) = Some (y, mkQueue rest (maxsize (feat_queue s))))
    by (unfold get_nowait; by rewrite Hy).
  simpl. unfold evict_stale. rewrite Hg.
  rewrite put_nowait_room by (eapply full_after_get; eauto). rewrite Hy. simpl. eauto.
Qed.

(** The feature queue stays within its capacity and keeps its size. *)
Lemma push_feat_wf bs now x (m : muse_asr) :
  wf (feat_queue (base m)) ->
  wf (feat_queue (base (fst (push_feat_with_backpressure bs now x m)))) /\
  maxsize (feat_queue (base (fst (push_feat_with_backpressure bs now x m)))) =
    maxsize (feat_queue (base m)).
Proof.
  intros Hwf. destruct (full (feat_queue (base m))) eqn:Hf.
  - destruct (feat_overflow_mode m) eqn:Hm.
    + destruct (push_feat_drop_full bs now x m Hwf Hf Hm) as [ts ->]. simpl.
      split; [|done]. destruct (full_nonempty _ Hf) as (y & rest & Hy).
      unfold wf, qsize in *. simpl. rewrite length_app, Hy in *. simpl in *. lia.
    + rewrite push_feat_block_full by done. done.
  - rewrite push_feat_room by done. simpl. split; [|done].
    eapply put_nowait_wf; [done|]. by apply put_nowait_room.
Qed.

(** ** Theorems *)

(** [warm_up] from empty queues establishes the alignment: [r] look-ahead
    frames and no batch. *)
Theorem warm_up_aligned cfg (s : asr Info Feat) c s' c' :
  output_queue s = [] -> items (feat_queue s) = [] ->
  warm_up cfg s c = Some (s', c') ->
  aligned cfg s' /\
  length (frames s') = (length (frames s) + stride_left_size cfg + stride_right_size cfg)%nat.
Proof.
  intros Ho Hf. unfold warm_up.
  destruct (pull_frames _ _ s c) as [[s1 c1]|] eqn:Hp; simpl; [|done].
  intros [= <- <-]. destruct (pull_frames_spec _ _ _ _ _ _ Hp) as (H1 & H2 & H3 & _).
  unfold aligned, qsize. simpl. rewrite length_drop, H1, H3, Ho, Hf. simpl. lia.
Qed.

(** C4: One [run_step] (in the steady state, where the window is long enough
    for a feature batch): the step returns; if the feature queue had room,
    or under the [drop] policy, the alignment is kept; under [block] with
    a full queue the batch is given up ([_dropped_feat_chunks] + 1) but its
    [2 * batch_size] audio frames stay in [output_queue]: from then on
    every batch is paired with the audio of the batch before it. *)
Theorem run_step_alignment cfg now (m : muse_asr) c :
  custom_wf c -> wf (feat_queue (base m)) -> aligned cfg (base m) ->
  (stride_left_size cfg + stride_right_size cfg < length (frames (base m)) + batch_size cfg * 2)%nat ->
  exists m' c', run_step cfg now m c = Some (m', c') /\ custom_wf c' /\
    wf (feat_queue (base m')) /\
    ((full (feat_queue (base m)) = false \/ feat_overflow_mode m = Drop) -> aligned cfg (base m')) /\
    (full (feat_queue (base m)) = true -> feat_overflow_mode m = Block ->
       length (output_queue (base m')) =
         (stride_right_size cfg + 2 * batch_size cfg * qsize (feat_queue (base m'))
          + 2 * batch_size cfg)%nat /\
       dropped_feat_chunks m' = S (dropped_feat_chunks m)).
Proof.
  intros Hc Hwf Hal Hlen.
  destruct (pull_frames_total cfg (batch_size cfg * 2) (base m) c Hc) as (s1 & c1 & Hp).
  destruct (pull_frames_spec _ _ _ _ _ _ Hp) as (Ho & Hfr & Hfq & Hc1).
  unfold run_step. rewrite Hp. simpl. rewrite decide_False by lia.
  unfold aligned in *. rewrite <- Hfq in Hwf. rewrite <- Hfq.
  destruct (full (feat_queue s1)) eqn:Hf.
  - destruct (full_nonempty _ Hf) as (y & rest & Hy).
    pose proof Hf as Hf'. rewrite full_spec in Hf'. unfold qsize in Hf'. rewrite Hy in Hf'. simpl in Hf'.
    destruct (feat_overflow_mode m) eqn:Hm.
    + edestruct (push_feat_drop_full (batch_size cfg) now (feature_batch (frames s1))
                   (mkMuse s1 Drop (dropped_feat_chunks m) (last_feat_drop_log_ts m)))
        as [ts ->]; [done|done|done|].
      do 2 eexists. split; [reflexivity|]. simpl. split_and!; [by apply Hc1| | |done].
      * unfold wf, qsize in *. simpl. rewrite length_app, Hy. rewrite Hy in Hwf. simpl in *. lia.
      * intros _. unfold qsize in *. simpl. rewrite length_drop, length_app, Hy, Ho. simpl.
        rewrite <- Hfq, Hy in Hal. simpl in Hal. nia.
    + rewrite push_feat_block_full by done.
      do 2 eexists. split; [reflexivity|]. simpl. split_and!; [by apply Hc1|done| |].
      * intros [?|?]; discriminate.
      * intros _ _. unfold qsize in *. split; [|done]. rewrite Ho, Hal, Hfq. nia.
  - rewrite push_feat_room by done.
    do 2 eexists. split; [reflexivity|]. simpl. split_and!; [by apply Hc1| | |done].
    + eapply put_nowait_wf; [done|]. by apply put_nowait_room.
    + intros _. unfold qsize in *. simpl. rewrite length_app, Ho, Hal, Hfq. simpl. nia.
Qed.

(** C40: [flush_talk] empties [output_queue] and [feat_queue] alike, so it
    keeps the alignment only when there is no look-ahead: with the default
    [-r 10] it discards the [r] frames [warm_up] put ahead, and the audio
    then leads the video features by [r] chunks. *)
Theorem flush_talk_alignment cfg (s : asr Info Feat) :
  aligned cfg (flush_talk s) <-> stride_right_size cfg = 0%nat.
Proof.
  unfold aligned, flush_talk, qsize. simpl. rewrite drain_queue_nowait_spec. simpl. lia.
Qed.

(** C5: The sliding window [frames] is cut back to [l + r] chunks after every
    feature batch, except with [l + r = 0]: Python's [frames[-0:]] is the
    whole list, and the window then grows by [2 * batch_size] chunks per
    step without bound. *)
Theorem run_step_frames_window cfg now (m : muse_asr) c m' c' :
  let lr := (stride_left_size cfg + stride_right_size cfg)%nat in
  (lr < length (frames (base m)) + batch_size cfg * 2)%nat ->
  run_step cfg now m c = Some (m', c') ->
  length (frames (base m')) =
    (if decide (lr = 0%nat) then length (frames (base m)) + batch_size cfg * 2 else lr)%nat.
Proof.
  intros lr Hlen. unfold run_step. fold lr.
  destruct (pull_frames _ _ (base m) c) as [[s1 c1]|] eqn:Hp; simpl; [|done].
  destruct (pull_frames_spec _ _ _ _ _ _ Hp) as (_ & Hfr & _ & _).
  rewrite decide_False by lia.
  destruct (push_feat_with_backpressure _ _ _ _) as [m2 ok] eqn:Hpush.
  assert (Hm2 : frames (base m2) = frames s1).
  { revert Hpush. unfold push_feat_with_backpressure.
    destruct (put_nowait _ _); [by intros [= <- _]|].
    destruct (feat_overflow_mode _); [|by intros [= <- _]].
    destruct (drop_rounds _ _ _ _ _ _ _ _) as [[[? ?] ?] ?]. by intros [= <- _]. }
  intros [= <- <-].
  assert (Hf3 : frames (base (if ok then m2 else mkMuse (base m2) (feat_overflow_mode m2)
              (S (dropped_feat_chunks m2))
              (if Qle_bool 2 (now - last_feat_drop_log_ts m2) then now
               else last_feat_drop_log_ts m2))) = frames s1) by (destruct ok; done).
  simpl. rewrite Hf3. case_decide as Hz.
  - rewrite Hz, py_suffix_zero. lia.
  - rewrite py_suffix_length by done. lia.
Qed.

(** Back-to-back pushes with no consumer in between. *)
Fixpoint push_all (bs : nat) (now : Q) (xs : list Feat) (m : muse_asr) : muse_asr :=
  match xs with
  | [] => m
  | x :: xs' => push_all bs now xs' (fst (push_feat_with_backpressure bs now x m))
  end.

Lemma push_drop_one bs now x (m : muse_asr) :
  feat_overflow_mode m = Drop -> wf (feat_queue (base m)) -> (0 < maxsize (feat_queue (base m)))%Z ->
  items (feat_queue (base (fst (push_feat_with_backpressure bs now x m)))) =
    drop (length (items (feat_queue (base m)) ++ [x]) - Z.to_nat (maxsize (feat_queue (base m))))
      (items (feat_queue (base m)) ++ [x]) /\
  feat_overflow_mode (fst (push_feat_with_backpressure bs now x m)) = Drop.
Proof.
  intros Hm Hwf Hpos. pose proof Hwf as Hw. unfold wf, qsize in Hw.
  destruct (full (feat_queue (base m))) eqn:Hf.
  - destruct (push_feat_drop_full bs now x m Hwf Hf Hm) as [ts ->]. simpl. split; [|done].
    rewrite full_spec in Hf. unfold qsize in Hf.
    destruct (items (feat_queue (base m))) as [|y rest]; simpl in *; [lia|].
    replace (S (length (rest ++ [x])) - Z.to_nat (maxsize (feat_queue (base m))))%nat
      with 1%nat by (rewrite length_app; simpl; lia).
    reflexivity.
  - rewrite push_feat_room by done. simpl. split; [|done].
    apply not_true_iff_false in Hf. rewrite full_spec in Hf. unfold qsize in Hf.
    rewrite length_app. simpl. replace (_ - _)%nat with 0%nat by lia. done.
Qed.

(** Scenario C of the specification, for any capacity and any number of
    batches: under [drop], back-to-back pushes with no consumer leave the
    [maxsize] most recent batches, in order. *)
Theorem drop_feat_keeps_newest bs now xs (m : muse_asr) :
  feat_overflow_mode m = Drop -> wf (feat_queue (base m)) -> (0 < maxsize (feat_queue (base m)))%Z ->
  items (feat_queue (base (push_all bs now xs m))) =
    drop (length (items (feat_queue (base m)) ++ xs) - Z.to_nat (maxsize (feat_queue (base m))))
      (items (feat_queue (base m)) ++ xs).
Proof.
  revert m. induction xs as [|x xs IH]; intros m Hm Hwf Hpos; simpl.
  - rewrite app_nil_r. unfold wf, qsize in Hwf. replace (_ - _)%nat with 0%nat by lia. done.
  - destruct (push_drop_one bs now x m Hm Hwf Hpos) as [Hit Hm'].
    destruct (push_feat_wf bs now x m Hwf) as [Hwf' Hmax].
    rewrite IH by (rewrite ?Hmax; done). rewrite Hit, Hmax.
    assert (length (items (feat_queue (base m))) <= Z.to_nat (maxsize (feat_queue (base m))))%nat
      by (unfold wf, qsize in Hwf; lia).
    rewrite <- drop_app_le by (rewrite length_app; simpl; lia).
    rewrite drop_drop, <- app_assoc. simpl. f_equal.
    rewrite !length_app, length_drop, !length_app. simpl. lia.
Qed.

End Stage.

Arguments muse_asr : clear implicits.

(** ** Examples: [l = r = 1], one-chunk batches, a feature queue of one
    batch that is full, under the [block] policy. *)

Definition fs_cfg (l r : nat) : asr_config := mkConfig 50 1 l r Block 8 1.

Definition fs_frame : audio_frame nat := mkFrame [0] 1 None.

Definition fs_full : muse_asr nat unit :=
  mkMuse (mkAsr (mkQueue [] 8) [fs_frame; fs_frame; fs_frame] (mkQueue [tt] 1) [[0]; [0]] 0 0) Block 0 0.

Lemma fs_custom_wf : custom_wf (loadcustom []).
Proof. vm_compute. split_and!; try reflexivity. left. discriminate. Qed.

Lemma run_step_alignment_witness :
  exists m' c', run_step (fun _ => tt) (fs_cfg 1 1) 0 fs_full (loadcustom []) = Some (m', c') /\
    length (output_queue (base m')) = 5%nat /\ qsize (feat_queue (base m')) = 1%nat.
Proof.
  destruct (run_step_alignment (fun _ => tt) (fs_cfg 1 1) 0 fs_full (loadcustom []) fs_custom_wf)
    as (m' & c' & Hr & _ & _ & _ & Hblock);
    [unfold wf, qsize; simpl; lia|vm_compute; reflexivity|simpl; lia|].
  destruct (Hblock eq_refl eq_refl) as [Hlen _].
  assert (Hq : qsize (feat_queue (base m')) = 1%nat).
  { revert Hr. vm_compute. intros [= <- _]. reflexivity. }
  exists m', c'. split_and!; [exact Hr| |exact Hq]. rewrite Hlen, Hq. reflexivity.
Defined.

(** With [l = r = 0] the window keeps every chunk: two frames grow to four. *)
Lemma run_step_frames_window_witness :
  exists m' c', run_step (fun _ => tt) (fs_cfg 0 0) 0 fs_full (loadcustom []) = Some (m', c') /\
    length (frames (base m')) = 4%nat.
Proof.
  destruct (run_step (fun _ => tt) (fs_cfg 0 0) 0 fs_full (loadcustom [])) as [[m' c']|] eqn:Hr;
    [|vm_compute in Hr; discriminate].
  exists m', c'. split; [reflexivity|].
  exact (run_step_frames_window (fun _ => tt) (fs_cfg 0 0) 0 fs_full (loadcustom []) m' c'
           ltac:(simpl; lia) Hr).
Defined.

End FeatureStage.
