(* ===== verification/Synthesis.v ===== *)
(** * Synthesis: the synthesis worker [inference] of [src/musereal.py]

    The worker loop (lines 198-309) pops one feature batch from
    [feat_queue] (timeout 1 s: an empty queue is an idle iteration), then
    [2 * batch_size] audio frames from [output_queue], forwards them to the
    realtime audio bridge ([_push_realtime_audio_frames], lines 175-196),
    and publishes one [(pixels, mirror_index(length, index), audio_pair)]
    result per output frame to [res_frame_queue]: all [None] without
    calling the model when no frame of the batch is speech ([type == 0]),
    otherwise the frames the model returns.  The logical [index] advances by
    one per published result.

    The neural model ([unet] + [vae.decode_latents]) is an external
    collaborator behind the interface [SynthesisModel]; its promise
    [SynthesisModelLaws] (one frame per latent, as the specification's
    "FeatureBatch -> batch_size frames") is what the worker's theorems are
    proved against.  The cuDNN/flash attention fallback of lines 258-275
    is state: after a "no kernel" error the backend switches to math-only,
    globally, and the call is retried once; any other exception, or a
    second failure, propagates out of [inference] and ends the thread.

    The bounded [res_frame_queue] ([mp.Queue(batch_size * 2)]) blocks the
    worker until [process_frames] consumes; it decides when the worker runs,
    not what it emits, and is modelled as the list of published results.
    A batch is taken only when its [2 * batch_size] audio frames are in
    [output_queue] (the blocking [get()] otherwise waits for the producer),
    which the alignment invariant of [FeatureStage] guarantees. *)

From S2P Require Import Prelude Fifo MirrorIndex AudioIngest FeatureStage.

Module Synthesis.
Import Fifo MirrorIndex AudioIngest FeatureStage.
Local Open Scope Z_scope.

Inductive sdpa_backend := FastKernels | MathOnly.

(** What one forward pass can do: return frames, fail with one of the
    "No execution plans support the graph" / "No available kernel"
    errors the code retries, or fail otherwise. *)
Inductive synth_result (Pixels : Type) :=
  | SynthOk (frames : list Pixels)
  | KernelUnavailable
  | SynthFailed.
Arguments SynthOk {Pixels} _.
Arguments KernelUnavailable {Pixels}.
Arguments SynthFailed {Pixels}.

(** The interface of the synthesis model, and its promise. *)
Class SynthesisModel (Feat Latent Pixels : Type) :=
  synthesize : sdpa_backend -> Feat -> list Latent -> synth_result Pixels.

Class SynthesisModelLaws (Feat Latent Pixels : Type) `{!SynthesisModel Feat Latent Pixels} :=
  synth_one_frame_per_latent : forall b x ls frames,
    synthesize b x ls = SynthOk frames -> length frames = length ls.

Section Worker.
Context {Info Feat Latent Pixels : Type} `{!SynthesisModel Feat Latent Pixels}.

Record render_result := mkResult {
  res_frame : option Pixels;
  res_idx : Z;
  res_audio : list (audio_frame Info);
}.

Record worker := mkWorker {
  index : Z;
  results : list render_result;
  rt_queue : option (Fifo.queue (audio_frame Info));
  backend : sdpa_backend;
}.

(** [_push_realtime_audio_frames] (lines 175-196): for each frame, up to
    two attempts of [put_nowait], evicting the oldest frame after a
    [queue.Full]; a frame still not pushed is dropped. *)
Fixpoint push_rt_one (tries : nat) (f : audio_frame Info) (q : Fifo.queue (audio_frame Info))
    : Fifo.queue (audio_frame Info) :=
  match tries with
  | O => q
  | S t =>
      match put_nowait f q with
      | Some q' => q'
      | None => match get_nowait q with
                | Some (_, q') => push_rt_one t f q'
                | None => q
                end
      end
  end.

Definition push_realtime_audio_frames (rt : option (Fifo.queue (audio_frame Info)))
    (fs : list (audio_frame Info)) : option (Fifo.queue (audio_frame Info)) :=
  match rt with
  | None => None
  | Some q => Some (foldl (fun q f => push_rt_one 2 f q) q fs)
  end.

(** The published results of one batch: result [i] carries
    [mirror_index(length, index + i)] and [audio_frames[2i : 2i + 2]]. *)
Fixpoint emit (len idx : Z) (pix : list (option Pixels)) (afs : list (audio_frame Info))
    : option (list render_result) :=
  match pix with
  | [] => Some []
  | p :: ps =>
      m ← mirror_index len idx;
      rs ← emit len (idx + 1) ps (drop 2 afs);
      Some (mkResult p m (take 2 afs) :: rs)
  end.

(** [latent_batch]: [input_latent_list_cycle[mirror_index(length, index + i)]]
    for [i < batch_size] ([None]: [ZeroDivisionError] or [IndexError]). *)
Definition gather_latents (latents : list Latent) (idx : Z) (bs : nat) : option (list Latent) :=
  mapM (fun i => m ← mirror_index (Z.of_nat (length latents)) (idx + i);
                 latents !! Z.to_nat m)
       (seqZ 0 (Z.of_nat bs)).

(** Lines 252-275: one forward pass with the one-time fallback. *)
Definition run_model (b : sdpa_backend) (x : Feat) (ls : list Latent)
    : sdpa_backend * option (list Pixels) :=
  match synthesize b x ls with
  | SynthOk frames => (b, Some frames)
  | SynthFailed => (b, None)
  | KernelUnavailable =>
      match synthesize MathOnly x ls with
      | SynthOk frames => (MathOnly, Some frames)
      | _ => (MathOnly, None)
      end
  end.

(** The outcome of one iteration of the [while] loop. *)
Inductive infer_outcome :=
  | InferIdle
  | InferWaiting
  | InferDone (s : asr Info Feat) (w : worker)
  | InferCrashed (s : asr Info Feat) (w : worker).

Definition is_all_silence (afs : list (audio_frame Info)) : bool :=
  forallb (fun f => negb (ftype f =? 0)) afs.

(** One iteration of [inference] (lines 214-307). *)
Definition inference_step (bs : nat) (latents : list Latent) (s : asr Info Feat) (w : worker)
    : infer_outcome :=
  match get_nowait (feat_queue s) with
  | None => InferIdle
  | Some (x, fq') =>
      if decide (length (output_queue s) < 2 * bs)%nat then InferWaiting
      else
        let afs := take (2 * bs) (output_queue s) in
        let s' := set_queues fq' (drop (2 * bs) (output_queue s)) s in
        let rt' := push_realtime_audio_frames (rt_queue w) afs in
        let len := Z.of_nat (length latents) in
        if is_all_silence afs then
          match emit len (index w) (replicate bs None) afs with
          | Some rs => InferDone s' (mkWorker (index w + Z.of_nat bs) (results w ++ rs) rt' (backend w))
          | None => InferCrashed s' (mkWorker (index w) (results w) rt' (backend w))
          end
        else
          match gather_latents latents (index w) bs with
          | None => InferCrashed s' (mkWorker (index w) (results w) rt' (backend w))
          | Some ls =>
              match run_model (backend w) x ls with
              | (b', Some frames) =>
                  match emit len (index w) (Some <$> frames) afs with
                  | Some rs =>
                      InferDone s' (mkWorker (index w + Z.of_nat (length frames)) (results w ++ rs) rt' b')
                  | None => InferCrashed s' (mkWorker (index w) (results w) rt' b')
                  end
              | (b', None) => InferCrashed s' (mkWorker (index w) (results w) rt' b')
              end
          end
  end.

(** The loop: idle iterations continue, a waiting [get()] or an exception
    stops this model of the thread ([false] = the thread has ended). *)
Fixpoint inference_loop (fuel bs : nat) (latents : list Latent) (s : asr Info Feat) (w : worker)
    : asr Info Feat * worker * bool :=
  match fuel with
  | O => (s, w, true)
  | S f =>
      match inference_step bs latents s w with
      | InferIdle | InferWaiting => (s, w, true)
      | InferDone s' w' => inference_loop f bs latents s' w'
      | InferCrashed s' w' => (s', w', false)
      end
  end.

(** ** Lemmas *)

Lemma emit_inv len idx pix afs rs :
  emit len idx pix afs = Some rs ->
  map res_idx rs = map (mirror_pos len) (seqZ idx (Z.of_nat (length pix))) /\
  map res_frame rs = pix /\
  (forall i r, rs !! i = Some r -> res_audio r = take 2 (drop (2 * i) afs)).
Proof.
  revert idx afs rs. induction pix as [|p ps IH]; intros idx afs rs; simpl.
  - intros [= <-]. split_and!; try done.
  - destruct (mirror_index len idx) as [m|] eqn:Hm; simpl; [|done].
    destruct (emit len (idx + 1) ps (drop 2 afs)) as [rs'|] eqn:He; simpl; [|done].
    intros [= <-]. apply mirror_index_some in Hm as ->.
    destruct (IH _ _ _ He) as (H1 & H2 & H3). split_and!.
    + rewrite Nat2Z.inj_succ, seqZ_cons by lia. simpl. rewrite H1. do 3 f_equal; lia.
    + simpl. by rewrite H2.
    + intros [|i] r Hi; simpl in Hi; [by injection Hi as <-|].
      rewrite (H3 _ _ Hi), drop_drop. do 2 f_equal. lia.
Qed.

Lemma emit_total len idx pix afs :
  0 < len -> exists rs, emit len idx pix afs = Some rs.
Proof.
  intros Hlen. revert idx afs. induction pix as [|p ps IH]; intros idx afs; simpl; [eauto|].
  rewrite (mirror_index_pos len idx Hlen). simpl.
  destruct (IH (idx + 1) (drop 2 afs)) as [rs ->]. simpl. eauto.
Qed.

Lemma gather_latents_spec latents idx bs :
  latents <> [] -> exists ls, gather_latents latents idx bs = Some ls /\ length ls = bs.
Proof.
  intros Hne. unfold gather_latents.
  destruct (mapM_total (fun i => m ← mirror_index (Z.of_nat (length latents)) (idx + i);
                                  latents !! Z.to_nat m) (seqZ 0 (Z.of_nat bs))) as (ls & Hm & Hl).
  - intros i _. assert (0 < Z.of_nat (length latents)) by (destruct latents; simpl; [done|lia]).
    rewrite mirror_index_pos by done. simpl. apply lookup_lt_is_Some.
    pose proof (mirror_pos_bounds (Z.of_nat (length latents)) (idx + i) ltac:(done)). lia.
  - exists ls. split; [done|]. rewrite Hl, length_seqZ. lia.
Qed.

Lemma gather_latents_length latents idx bs ls :
  gather_latents latents idx bs = Some ls -> length ls = bs.
Proof.
  unfold gather_latents. intros H. apply length_mapM in H. rewrite <- H, length_seqZ. lia.
Qed.

Lemma run_model_length `{!SynthesisModelLaws Feat Latent Pixels} b x ls b' frames :
  run_model b x ls = (b', Some frames) -> length frames = length ls.
Proof.
  unfold run_model. destruct (synthesize b x ls) eqn:E.
  - intros [= _ <-]. by eapply synth_one_frame_per_latent.
  - destruct (synthesize MathOnly x ls) eqn:E2; [|done|done].
    intros [= _ <-]. by eapply synth_one_frame_per_latent.
  - done.
Qed.

(** The shape of a completed iteration, on both branches. *)
Lemma inference_step_done `{!SynthesisModelLaws Feat Latent Pixels} bs latents s w s' w' :
  inference_step bs latents s w = InferDone s' w' ->
  let afs := take (2 * bs) (output_queue s) in
  exists x fq' rs,
    get_nowait (feat_queue s) = Some (x, fq') /\
    (2 * bs <= length (output_queue s))%nat /\
    s' = set_queues fq' (drop (2 * bs) (output_queue s)) s /\
    index w' = index w + Z.of_nat bs /\
    results w' = results w ++ rs /\
    map res_idx rs = map (mirror_pos (Z.of_nat (length latents))) (seqZ (index w) (Z.of_nat bs)) /\
    (forall i r, rs !! i = Some r -> res_audio r = take 2 (drop (2 * i) afs)) /\
    (is_all_silence afs = true -> Forall (fun r => res_frame r = None) rs) /\
    (is_all_silence afs = false -> Forall (fun r => is_Some (res_frame r)) rs).
Proof.
  unfold inference_step. destruct (get_nowait (feat_queue s)) as [[x fq']|]; [|done].
  case_decide as Hw; [done|]. intros Hstep. set (afs := take (2 * bs) (output_queue s)) in *.
  destruct (is_all_silence afs) eqn:Hsil.
  - destruct (emit _ (index w) (replicate bs None) afs) as [rs|] eqn:He; [|done].
    injection Hstep as <- <-. destruct (emit_inv _ _ _ _ _ He) as (H1 & H2 & H3).
    rewrite length_replicate in H1.
    exists x, fq', rs. simpl. split_and!; try done; try lia.
    intros _. apply Forall_forall. intros r Hr.
    assert (Hin : res_frame r ∈ map res_frame rs) by (apply list_elem_of_fmap_2; set_solver).
    rewrite H2 in Hin. by apply elem_of_replicate in Hin as [-> _].
  - destruct (gather_latents latents (index w) bs) as [ls|] eqn:Hg; [|done].
    destruct (run_model (backend w) x ls) as [b' [frames|]] eqn:Hr; [|done].
    destruct (emit _ (index w) (Some <$> frames) afs) as [rs|] eqn:He; [|done].
    injection Hstep as <- <-. destruct (emit_inv _ _ _ _ _ He) as (H1 & H2 & H3).
    assert (Hlen : length frames = bs)
      by (rewrite (run_model_length _ _ _ _ _ Hr); by apply gather_latents_length in Hg).
    rewrite length_fmap, Hlen in H1.
    exists x, fq', rs. simpl. split_and!; try done; try lia.
    intros _. apply Forall_forall. intros r Hr'.
    assert (Hin : res_frame r ∈ map res_frame rs) by (apply list_elem_of_fmap_2; set_solver).
    rewrite H2 in Hin. apply list_elem_of_fmap in Hin as (y & -> & _). done.
Qed.

Lemma inference_step_total bs latents s w x fq' :
  get_nowait (feat_queue s) = Some (x, fq') -> (2 * bs <= length (output_queue s))%nat ->
  latents <> [] -> (forall b ls, exists frames, synthesize b x ls = SynthOk frames) ->
  exists s' w', inference_step bs latents s w = InferDone s' w'.
Proof.
  intros Hg Hlen Hne Htot. unfold inference_step. rewrite Hg. rewrite decide_False by lia.
  assert (Hl : 0 < Z.of_nat (length latents)) by (destruct latents; simpl; [done|lia]).
  destruct (is_all_silence _).
  - destruct (emit_total _ (index w) (replicate bs None) (take (2 * bs) (output_queue s)) Hl) as [rs ->].
    eauto.
  - destruct (gather_latents_spec latents (index w) bs Hne) as (ls & -> & _).
    destruct (Htot (backend w) ls) as [frames Hf]. unfold run_model. rewrite Hf.
    destruct (emit_total _ (index w) (Some <$> frames) (take (2 * bs) (output_queue s)) Hl) as [rs ->].
    eauto.
Qed.

(** ** Theorems *)

(** The frame positions published so far are those of the logical indices
    [0, 1, ..., index - 1], in this order: no position is skipped or
    repeated. *)
Definition gapless (len : Z) (w : worker) : Prop :=
  0 <= index w /\ map res_idx (results w) = map (mirror_pos len) (seqZ 0 (index w)).

(** C7: Against the model's promise, every completed batch advances the
    logical index by exactly [batch_size], on the all-silence branch and on
    the synthesis branch, and the worker loop keeps the published frame
    positions gapless and in order, whatever happens (a crash publishes
    nothing of its batch). *)
Theorem inference_loop_gapless `{!SynthesisModelLaws Feat Latent Pixels} fuel bs latents s w s' w' alive :
  gapless (Z.of_nat (length latents)) w ->
  inference_loop fuel bs latents s w = (s', w', alive) ->
  gapless (Z.of_nat (length latents)) w' /\
  exists k, index w' = index w + Z.of_nat (k * bs).
Proof.
  revert s w. induction fuel as [|f IH]; intros s w [H0 Hg]; simpl.
  - intros [= <- <- <-]. split; [done|]. exists 0%nat. lia.
  - destruct (inference_step bs latents s w) as [| |s1 w1|s1 w1] eqn:E.
    + intros [= <- <- <-]. split; [done|]. exists 0%nat. lia.
    + intros [= <- <- <-]. split; [done|]. exists 0%nat. lia.
    + destruct (inference_step_done _ _ _ _ _ _ E) as (x & fq' & rs & _ & _ & _ & Hi & Hr & Hm & _).
      intros Hloop. destruct (IH s1 w1) as [Hgap [k Hk]]; [|done|].
      * split; [lia|]. rewrite Hr, Hi, map_app, Hg, Hm, seqZ_app by lia.
        by rewrite map_app.
      * split; [done|]. exists (S k). lia.
    + unfold inference_step in E.
      destruct (get_nowait (feat_queue s)) as [[x fq']|]; [|done].
      case_decide; [done|].
      repeat match type of E with
      | context [match ?e with _ => _ end] => destruct e; try discriminate
      end;
      injection E as <- <-; intros [= <- <- <-]; (split; [done|exists 0%nat; simpl; lia]).
Qed.

(** C6: Termination and progress: with the queues aligned as [FeatureStage]
    keeps them, a non-empty latent cycle and a model that answers, [n + 1]
    iterations consume all [n] queued batches, publish [n * batch_size]
    results and leave the queues aligned. *)
Theorem inference_drains_aligned `{!SynthesisModelLaws Feat Latent Pixels} cfg latents s w :
  aligned cfg s -> latents <> [] ->
  (forall b x ls, exists frames, synthesize b x ls = SynthOk frames) ->
  exists s' w', inference_loop (S (qsize (feat_queue s))) (batch_size cfg) latents s w = (s', w', true) /\
    items (feat_queue s') = [] /\ aligned cfg s' /\
    index w' = index w + Z.of_nat (qsize (feat_queue s) * batch_size cfg).
Proof.
  intros Hal Hne Htot. remember (qsize (feat_queue s)) as n eqn:Hn. revert s w Hal Hn.
  induction n as [|n IH]; intros s w Hal Hn; simpl.
  - unfold inference_step. unfold qsize, get_nowait in *.
    destruct (items (feat_queue s)) eqn:E; simpl in Hn; [|lia].
    do 2 eexists. split_and!; [reflexivity|done|done|lia].
  - unfold aligned, qsize in Hal, Hn.
    destruct (items (feat_queue s)) as [|x rest] eqn:E; simpl in Hn; [lia|].
    assert (Hg : get_nowait (feat_queue s) = Some (x, mkQueue rest (maxsize (feat_queue s))))
      by (unfold get_nowait; by rewrite E).
    destruct (inference_step_total (batch_size cfg) latents s w x _ Hg) as (s1 & w1 & Hs);
      [rewrite Hal; simpl; nia|done|by intros; apply Htot|].
    rewrite Hs.
    destruct (inference_step_done _ _ _ _ _ _ Hs) as (x' & fq' & rs & Hg' & Hlen & -> & Hi & _).
    rewrite Hg in Hg'. injection Hg' as <- <-.
    destruct (IH (set_queues (mkQueue rest (maxsize (feat_queue s))) (drop (2 * batch_size cfg) (output_queue s)) s) w1)
      as (s2 & w2 & Hl & He & Ha & Hi2).
    + unfold aligned, qsize. simpl. rewrite length_drop, Hal. simpl. nia.
    + unfold qsize. simpl. lia.
    + exists s2, w2. split_and!; try done. rewrite Hi2, Hi. lia.
Qed.

(** C8: Finding (specification section 4.2 and scenario D): an exception of
    the model is not caught per batch.  When the forward pass fails on a
    batch with speech, [inference] ends: its audio has already gone to the
    realtime bridge, no frame of the batch is published, and no later
    batch is ever processed. *)
Theorem synthesis_failure_ends_worker fuel bs latents s w x fq' :
  get_nowait (feat_queue s) = Some (x, fq') -> (2 * bs <= length (output_queue s))%nat ->
  is_all_silence (take (2 * bs) (output_queue s)) = false -> latents <> [] ->
  (forall ls, synthesize (backend w) x ls = SynthFailed) ->
  exists s' w', inference_loop (S fuel) bs latents s w = (s', w', false) /\
    results w' = results w /\ index w' = index w /\
    rt_queue w' = push_realtime_audio_frames (rt_queue w) (take (2 * bs) (output_queue s)).
Proof.
  intros Hg Hlen Hsil Hne Hfail. simpl. unfold inference_step. rewrite Hg.
  rewrite decide_False by lia. rewrite Hsil.
  destruct (gather_latents_spec latents (index w) bs Hne) as (ls & -> & _).
  unfold run_model. rewrite Hfail. do 2 eexists. split_and!; reflexivity.
Qed.

(** The worker consumes one batch and its [2 * batch_size] audio frames
    together, so it keeps the alignment; and on an aligned state with a
    queued batch it never waits for audio. *)
Theorem inference_keeps_alignment `{!SynthesisModelLaws Feat Latent Pixels} cfg latents s w :
  aligned cfg s ->
  inference_step (batch_size cfg) latents s w <> InferWaiting /\
  (forall s' w', inference_step (batch_size cfg) latents s w = InferDone s' w' -> aligned cfg s').
Proof.
  intros Hal. split.
  - unfold inference_step. unfold aligned, qsize in Hal.
    destruct (get_nowait (feat_queue s)) as [[x fq']|] eqn:Hg; [|done].
    unfold get_nowait in Hg. destruct (items (feat_queue s)) eqn:E; [done|].
    rewrite decide_False by (rewrite Hal; simpl; nia).
    repeat case_match; done.
  - intros s' w' Hs. destruct (inference_step_done _ _ _ _ _ _ Hs) as (x & fq' & rs & Hg & Hlen & -> & _).
    unfold aligned, qsize in *. unfold get_nowait in Hg.
    destruct (items (feat_queue s)) eqn:E; [done|]. injection Hg as <- <-.
    simpl. rewrite length_drop, Hal. simpl. nia.
Qed.

End Worker.

Arguments render_result : clear implicits.
Arguments worker : clear implicits.
Arguments infer_outcome : clear implicits.

(** ** Examples: a model that returns one frame per latent (the latent
    itself), and one whose forward pass always raises. *)

#[local] Instance echo_model : SynthesisModel unit nat nat := fun _ _ ls => SynthOk ls.

#[local] Instance echo_model_laws : SynthesisModelLaws unit nat nat.
Proof. intros b x ls frames Hs. injection Hs as <-. reflexivity. Qed.

Definition failing_model : SynthesisModel unit nat nat := fun _ _ _ => SynthFailed.

Definition syn_cfg : asr_config := mkConfig 50 1 0 0 Block 8 2.

Definition speech_frame : audio_frame nat := mkFrame [1] 0 (Some 0%nat).

(** One queued batch and its two audio frames of speech. *)
Definition syn_asr : asr nat unit :=
  mkAsr (mkQueue [] 8) [speech_frame; speech_frame] (mkQueue [tt] 2) [] 0 0.

Definition syn_worker : worker nat nat := mkWorker 0 [] None FastKernels.

Lemma inference_loop_gapless_witness :
  gapless 3 syn_worker /\
  exists s' w' alive, inference_loop 2 1 [0; 1; 2]%nat syn_asr syn_worker = (s', w', alive) /\
    gapless 3 w' /\ index w' = 1.
Proof.
  assert (Hg : gapless 3 syn_worker) by (split; [simpl; lia|reflexivity]).
  split; [exact Hg|].
  destruct (inference_loop 2 1 [0; 1; 2]%nat syn_asr syn_worker) as [[s' w'] alive] eqn:Hl.
  exists s', w', alive. split; [reflexivity|].
  destruct (inference_loop_gapless 2 1 [0; 1; 2]%nat syn_asr syn_worker s' w' alive Hg Hl) as [Hg' _].
  split; [exact Hg'|]. vm_compute in Hl. injection Hl as _ <- _. reflexivity.
Defined.

Lemma inference_drains_aligned_witness :
  aligned syn_cfg syn_asr /\
  exists s' w', inference_loop 2 1 [0; 1; 2]%nat syn_asr syn_worker = (s', w', true) /\
    items (feat_queue s') = [] /\ index w' = 1.
Proof.
  assert (Hal : aligned syn_cfg syn_asr) by reflexivity.
  split; [exact Hal|].
  destruct (inference_drains_aligned syn_cfg [0; 1; 2]%nat syn_asr syn_worker Hal)
    as (s' & w' & Hl & He & _ & Hi); [discriminate|intros; eexists; reflexivity|].
  exists s', w'. split_and!; [exact Hl|exact He|]. rewrite Hi. reflexivity.
Defined.

Lemma synthesis_failure_ends_worker_witness :
  exists s' w', inference_loop (SynthesisModel0:=failing_model) 5 1 [0; 1; 2]%nat syn_asr syn_worker
                  = (s', w', false) /\ results w' = [].
Proof.
  destruct (synthesis_failure_ends_worker (SynthesisModel0:=failing_model) 4 1 [0; 1; 2]%nat
              syn_asr syn_worker tt (mkQueue [] 2))
    as (s' & w' & Hl & Hr & _); [reflexivity|simpl; lia|reflexivity|discriminate|reflexivity|].
  exists s', w'. split; [exact Hl|exact Hr].
Defined.

Lemma inference_keeps_alignment_witness :
  aligned syn_cfg syn_asr /\ inference_step 1 [0; 1; 2]%nat syn_asr syn_worker <> InferWaiting.
Proof.
  assert (Hal : aligned syn_cfg syn_asr) by reflexivity.
  split; [exact Hal|]. exact (proj1 (inference_keeps_alignment syn_cfg [0; 1; 2]%nat syn_asr syn_worker Hal)).
Defined.

End Synthesis.
