(* ===== verification/AVSync.v ===== *)
(** * AVSync: the output loop [BaseReal.process_frames] of [src/basereal.py]

    [process_frames] (lines 451-693) consumes the synthesis worker's
    results and drives the speaking/silent state machine:
    - configuration (lines 452-477): transition on/off, crossfade
      duration (0.16 s) and speaking hangover (0.35 s), both clamped to
      [[0, 2]];
    - per result (lines 598-688): the pair is [raw_silence] when both audio
      frames are non-speech; speaking is "not silent, or within the
      hangover of the last voice"; a change of state restarts the
      transition clock; the frame is the idle frame (custom clip image or
      asset background, crossfaded from the last speaking frame during the
      transition), the held last speaking frame (micro-gaps), or the
      synthesized frame pasted into the asset (crossfaded from the last
      silent frame); it is stamped and sent to the sink, and its two audio
      frames are emitted in order (unless the realtime audio bridge is
      used);
    - realtime-audio mode (lines 581-597): before each result, the bridge
      queue is drained to the audio sink and the result queue is cut back
      to one item.
    - the virtual camera sink (lines 658-677) is opened lazily and retried
      after a failure; its audio queue (lines 491-563) is trimmed like the
      ingest queue in [drop] mode.

    Frames are symbolic ([frame]): which asset frame, which custom image,
    which synthesized frame pasted at which index, which blend.  Times are
    the [time.time()] readings of the iteration, as rationals: [now] (line
    603) and the later reading [now'] of the crossfade test.  The custom
    image positions are the [custom_index] of [CustomState]: the output
    thread and [set_custom_state] share that dictionary. *)

From S2P Require Import Prelude Fifo MirrorIndex CustomState AudioIngest Synthesis.

Module AVSync.
Import Fifo MirrorIndex CustomState AudioIngest Synthesis.
Local Open Scope Q_scope.

Inductive transport := VirtualCam | WebRTC.

#[global] Instance transport_eq_dec : EqDecision transport.
Proof. solve_decision. Defined.

Section Output.
Context {Info Pixels : Type}.

(** What is on screen. *)
Inductive frame :=
  | Background (idx : Z)
  | CustomImage (audiotype : Z) (pos : Z)
  | Pasted (pix : Pixels) (idx : Z)
  | Blend (from to : frame) (alpha : Q)
  | Stamped (f : frame).

Record av_config := mkAVConfig {
  enable_transition : bool;
  transition_duration : Q;
  speaking_hangover_sec : Q;
  state_log_cooldown_sec : Q;
  av_transport : transport;
  use_realtime_audio : bool;
  vcam_audio_qmax_chunks : Z;
  vcam_audio_keep_chunks : Z;
}.

(** Lines 452-472: the environment switches and the three clamped
    durations ([float(...)] results, [None] on a parse error). *)
Definition av_config_of (env : environ) (trans_sec hang_sec cool_sec : option Q)
    (tr : transport) (realtime : bool) (qmax keep : Z) : av_config :=
  mkAVConfig
    (negb (in_set (py_norm (getenv env "LT_ENABLE_TRANSITION" "1")) ["0"; "false"; "no"]))
    (qclamp 0 2 (default (4 # 25) trans_sec))
    (qclamp 0 2 (default (7 # 20) hang_sec))
    (qclamp 0 5 (default (2 # 5) cool_sec))
    tr realtime qmax keep.

(** Lines 505-508: the virtual camera audio queue, from the parsed
    seconds (already defaulted to 0.6 and 0.2) and [fps]. *)
Definition vcam_audio_sizes (fps : Z) (queue_sec keep_sec : Q) : Z * Z :=
  let qs := qclamp (1 # 10) 10 queue_sec in
  let ks := Qmax (1 # 25) (Qmin qs keep_sec) in
  let qmax := Z.max 8 (py_round (qs * inject_Z fps)) in
  let keep := Z.max 2 (Z.min (qmax - 1) (py_round (ks * inject_Z fps))) in
  (qmax, keep).

Record av_state := mkAV {
  speaking : bool;
  last_speaking : bool;
  transition_start : Q;
  last_switch_log_ts : Q;
  last_silent_frame : option frame;
  last_speaking_frame : option frame;
  last_voice_ts : Q;
  vircam_open : bool;
  vircam_open_failed_at : Q;
  vcam_audio : Fifo.queue (audio_frame Info);
  audio_drop_total : nat;
  last_audio_drop_log_ts : Q;
  video_out : list frame;
  audio_out : list (audio_frame Info);
}.

(** Lines 479-484 with the sink state of lines 488-511. *)
Definition init_av (cfg : av_config) (start : Q) : av_state :=
  mkAV false false start 0 None None 0 false 0
    (mkQueue [] (vcam_audio_qmax_chunks cfg)) 0 0 [] [].

(** [_push_virtualcam_audio] (lines 522-563): trim to [keep], put, and on
    [queue.Full] trim again and put or drop the chunk; drops are counted
    and logged at most every 2 s. *)
Definition push_virtualcam_audio (cfg : av_config) (now : Q) (f : audio_frame Info)
    (st : av_state) : av_state :=
  let keep := vcam_audio_keep_chunks cfg in
  let '(q1, d1) := trim_while keep (vcam_audio st) in
  let '(q', dropped) :=
    match put_nowait f q1 with
    | Some q2 => (q2, d1)
    | None =>
        let '(q3, d2) := trim_while keep q1 in
        match put_nowait f q3 with
        | Some q4 => (q4, (d1 + d2)%nat)
        | None => (q3, (d1 + d2 + 1)%nat)
        end
    end in
  let total := (audio_drop_total st + dropped)%nat in
  let ts := if negb (dropped =? 0)%nat && Qle_bool 2 (now - last_audio_drop_log_ts st)
            then now else last_audio_drop_log_ts st in
  mkAV (speaking st) (last_speaking st) (transition_start st) (last_switch_log_ts st)
    (last_silent_frame st) (last_speaking_frame st) (last_voice_ts st) (vircam_open st)
    (vircam_open_failed_at st) q' total ts (video_out st) (audio_out st ++ [f]).

(** [_emit_audio_frame] (lines 565-576): to the camera's audio queue, or
    to the WebRTC audio track. *)
Definition emit_audio_frame (cfg : av_config) (now : Q) (f : audio_frame Info) (st : av_state)
    : av_state :=
  match av_transport cfg with
  | VirtualCam => push_virtualcam_audio cfg now f st
  | WebRTC =>
      mkAV (speaking st) (last_speaking st) (transition_start st) (last_switch_log_ts st)
        (last_silent_frame st) (last_speaking_frame st) (last_voice_ts st) (vircam_open st)
        (vircam_open_failed_at st) (vcam_audio st) (audio_drop_total st)
        (last_audio_drop_log_ts st) (video_out st) (audio_out st ++ [f])
  end.

Definition emit_audio_frames (cfg : av_config) (now : Q) (fs : list (audio_frame Info))
    (st : av_state) : av_state :=
  foldl (fun st f => emit_audio_frame cfg now f st) st fs.

(** Crossfade from [from] to [target] while the transition clock runs
    (lines 630-634 and 649-653). *)
Definition crossfade (cfg : av_config) (now' ts : Q) (from : option frame) (target : frame)
    : frame :=
  match from with
  | Some f =>
      if enable_transition cfg && Qlt_bool 0 (transition_duration cfg)
         && Qlt_bool (now' - ts) (transition_duration cfg)
      then Blend f target (Qmin 1 ((now' - ts) / transition_duration cfg))
      else target
  | None => target
  end.

(** The state-machine part of one iteration (lines 603-619). *)
Definition update_speaking (cfg : av_config) (now : Q) (raw_silence : bool) (st : av_state)
    : av_state :=
  let voice_ts := if raw_silence then last_voice_ts st else now in
  let cur := negb raw_silence || Qle_bool (now - voice_ts) (speaking_hangover_sec cfg) in
  let switch := enable_transition cfg && negb (Bool.eqb cur (last_speaking st)) in
  let log_ts := if switch && Qle_bool (state_log_cooldown_sec cfg) (now - last_switch_log_ts st)
                then now else last_switch_log_ts st in
  let ts := if switch then now else transition_start st in
  mkAV cur cur ts log_ts (last_silent_frame st) (last_speaking_frame st) voice_ts
    (vircam_open st) (vircam_open_failed_at st) (vcam_audio st) (audio_drop_total st)
    (last_audio_drop_log_ts st) (video_out st) (audio_out st).

Definition set_frames (sil spk : option frame) (st : av_state) : av_state :=
  mkAV (speaking st) (last_speaking st) (transition_start st) (last_switch_log_ts st)
    sil spk (last_voice_ts st) (vircam_open st) (vircam_open_failed_at st) (vcam_audio st)
    (audio_drop_total st) (last_audio_drop_log_ts st) (video_out st) (audio_out st).

(** The idle frame of lines 622-628: the custom clip's image when the
    audio type has one (advancing [custom_index]), else the asset frame.
    [None]: [ZeroDivisionError] of an empty image cycle. *)
Definition idle_frame (audiotype idx : Z) (c : custom) : option (frame * custom) :=
  match custom_index c !! audiotype with
  | Some k =>
      let n := default 0%nat (custom_img_len c !! audiotype) in
      m ← mirror_index (Z.of_nat n) (Z.of_nat k);
      Some (CustomImage audiotype m,
            mkCustom (curr_state c) (custom_audio_cycle c) (custom_img_len c)
              (custom_audio_index c) (<[audiotype := S k]> (custom_index c)))
  | None => Some (Background idx, c)
  end.

(** [audio_frames[0][1]], the audio type of a result (line 622). *)
Definition first_type (res : render_result Info Pixels) : Z :=
  default 1%Z (ftype <$> head (res_audio res)).

(** The frame selection of lines 621-655: [None] when the frame is
    skipped ([paste_back_frame] raised: [continue]). *)
Definition select_frame (cfg : av_config) (now' : Q) (res : render_result Info Pixels)
    (raw_silence : bool) (st : av_state) (c : custom) : option (option (frame * av_state * custom)) :=
  let idx := res_idx res in
  if raw_silence && negb (speaking st) then
    match idle_frame (first_type res) idx c with
    | None => None
    | Some (target, c') =>
        let f := crossfade cfg now' (transition_start st) (last_speaking_frame st) target in
        let sil := if enable_transition cfg then Some f else last_silent_frame st in
        Some (Some (f, set_frames sil (last_speaking_frame st) st, c'))
    end
  else if raw_silence then
    let f := match last_speaking_frame st with
             | Some g => if enable_transition cfg then g else Background idx
             | None => Background idx
             end in
    Some (Some (f, st, c))
  else
    match res_frame res with
    | None => Some None
    | Some pix =>
        let f := crossfade cfg now' (transition_start st) (last_silent_frame st) (Pasted pix idx) in
        let spk := if enable_transition cfg then Some f else last_speaking_frame st in
        Some (Some (f, set_frames (last_silent_frame st) spk st, c))
    end.

(** Lines 657-682: stamp, send to the sink (opening the virtual camera
    lazily; [cam_ok] is whether [pyvirtualcam.Camera(...)] succeeds if it
    is attempted now), record. *)
Definition send_frame (cfg : av_config) (now : Q) (cam_ok : bool) (f : frame) (st : av_state)
    : av_state :=
  let out := Stamped f in
  match av_transport cfg with
  | WebRTC =>
      mkAV (speaking st) (last_speaking st) (transition_start st) (last_switch_log_ts st)
        (last_silent_frame st) (last_speaking_frame st) (last_voice_ts st) (vircam_open st)
        (vircam_open_failed_at st) (vcam_audio st) (audio_drop_total st)
        (last_audio_drop_log_ts st) (video_out st ++ [out]) (audio_out st)
  | VirtualCam =>
      let opened := vircam_open st || cam_ok in
      let failed_at := if vircam_open st || cam_ok then vircam_open_failed_at st
                       else if Qlt_bool 3 (now - vircam_open_failed_at st) then now
                       else vircam_open_failed_at st in
      mkAV (speaking st) (last_speaking st) (transition_start st) (last_switch_log_ts st)
        (last_silent_frame st) (last_speaking_frame st) (last_voice_ts st) opened failed_at
        (vcam_audio st) (audio_drop_total st) (last_audio_drop_log_ts st)
        (if opened then video_out st ++ [out] else video_out st) (audio_out st)
  end.

(** [raw_silence] of line 604: [None] is the [IndexError] of a result
    carrying fewer than two audio frames. *)
Definition raw_silence_of (res : render_result Info Pixels) : option bool :=
  match res_audio res with
  | a0 :: a1 :: _ => Some (negb (ftype a0 =? 0)%Z && negb (ftype a1 =? 0)%Z)
  | _ => None
  end.

(** One consumed result (lines 603-686).  [None]: an exception escapes and
    ends the thread. *)
Definition process_result (cfg : av_config) (now now' : Q) (cam_ok : bool)
    (res : render_result Info Pixels) (st : av_state) (c : custom)
    : option (av_state * custom) :=
  rs ← raw_silence_of res;
  let st1 := update_speaking cfg now rs st in
  sel ← select_frame cfg now' res rs st1 c;
  match sel with
  | None => Some (st1, c)
  | Some (f, st2, c2) =>
      let st3 := send_frame cfg now' cam_ok f st2 in
      let st4 := if use_realtime_audio cfg then st3 else emit_audio_frames cfg now (res_audio res) st3 in
      Some (st4, c2)
  end.

(** Lines 581-597, realtime-audio mode: drain the bridge to the audio sink
    and cut the result queue back to one item before taking one. *)
Definition realtime_prelude (cfg : av_config) (now : Q)
    (bridge : Fifo.queue (audio_frame Info)) (resq : Fifo.queue (render_result Info Pixels))
    (st : av_state) : av_state * Fifo.queue (audio_frame Info) * Fifo.queue (render_result Info Pixels) :=
  let st' := emit_audio_frames cfg now (items bridge) st in
  (st', drain_queue_nowait bridge, fst (trim_while 1 resq)).

(** The loop over the results it takes, in order: one
    [(now, now', cam_ok, result)] per iteration that got a result (an
    iteration whose [get] times out does nothing). *)
Fixpoint process_run (cfg : av_config) (steps : list (Q * Q * bool * render_result Info Pixels))
    (st : av_state) (c : custom) : option (av_state * custom) :=
  match steps with
  | [] => Some (st, c)
  | (now, now', ok, res) :: rest =>
      '(st', c') ← process_result cfg now now' ok res st c;
      process_run cfg rest st' c'
  end.

(** A frame that shows only idle material (asset frame or custom image). *)
Definition idle_shown (f : frame) : bool :=
  match f with
  | Stamped (Background _) | Stamped (CustomImage _ _) => true
  | _ => false
  end.

(** Every configured image cycle is non-empty. *)
Definition imgs_ok (c : custom) : Prop :=
  forall t k, custom_index c !! t = Some k -> exists n, custom_img_len c !! t = Some (S n).

(** The state-machine fields of the loop. *)
Definition sm_view (st : av_state) :=
  (speaking st, last_speaking st, transition_start st, last_voice_ts st,
   last_silent_frame st, last_speaking_frame st).

(** Idle state (Scenario A of the spec): not speaking, no speaking frame
    ever cached, no voice ever heard, only idle material on screen. *)
Definition quiet (st : av_state) : Prop :=
  speaking st = false /\ last_speaking_frame st = None /\ last_voice_ts st = 0 /\
  Forall (fun f => idle_shown f = true) (video_out st).

End Output.

Arguments frame : clear implicits.
Arguments av_state : clear implicits.

(** ** Lemmas *)

Section Lemmas.
Context {Info Pixels : Type}.
Implicit Types (cfg : av_config) (st : av_state Info Pixels) (c : custom).

Lemma update_speaking_speaking cfg now rs st :
  speaking (update_speaking cfg now rs st) =
    negb rs || Qle_bool (now - last_voice_ts (update_speaking cfg now rs st)) (speaking_hangover_sec cfg).
Proof. done. Qed.

Lemma idle_frame_total c t idx :
  imgs_ok c -> exists f c', idle_frame (Pixels:=Pixels) t idx c = Some (f, c') /\ imgs_ok c'.
Proof.
  intros Hok. unfold idle_frame.
  destruct (custom_index c !! t) as [k|] eqn:Hk; [|by eauto].
  destruct (Hok _ _ Hk) as [n Hn]. rewrite Hn. simpl.
  rewrite mirror_index_pos by lia. simpl. do 2 eexists. split; [reflexivity|].
  intros t' k'. simpl. destruct (decide (t' = t)) as [->|?].
  - by exists n.
  - rewrite lookup_insert_ne by done. apply Hok.
Qed.

Lemma send_frame_video cfg now ok f st :
  video_out (send_frame cfg now ok f st) =
    if (bool_decide (av_transport cfg = WebRTC) || vircam_open st || ok)%bool
    then video_out st ++ [Stamped f] else video_out st.
Proof. unfold send_frame. by destruct (av_transport cfg), (vircam_open st), ok. Qed.

Lemma emit_audio_frame_out cfg now f st :
  audio_out (emit_audio_frame cfg now f st) = audio_out st ++ [f] /\
  video_out (emit_audio_frame cfg now f st) = video_out st /\
  speaking (emit_audio_frame cfg now f st) = speaking st.
Proof.
  unfold emit_audio_frame, push_virtualcam_audio.
  destruct (av_transport cfg); [|done].
  destruct (trim_while _ (vcam_audio st)), (put_nowait f _); simpl; [done|].
  by destruct (trim_while _ _), (put_nowait f _).
Qed.

Lemma emit_audio_frames_out cfg now fs st :
  audio_out (emit_audio_frames cfg now fs st) = audio_out st ++ fs /\
  video_out (emit_audio_frames cfg now fs st) = video_out st /\
  speaking (emit_audio_frames cfg now fs st) = speaking st.
Proof.
  unfold emit_audio_frames. revert st. induction fs as [|f fs IH]; intros st; simpl.
  - by rewrite app_nil_r.
  - destruct (IH (emit_audio_frame cfg now f st)) as (-> & -> & ->).
    destruct (emit_audio_frame_out cfg now f st) as (-> & -> & ->).
    by rewrite <- app_assoc.
Qed.


Lemma emit_audio_frames_view cfg now fs st :
  sm_view (emit_audio_frames cfg now fs st) = sm_view st.
Proof.
  unfold emit_audio_frames. revert st. induction fs as [|f fs IH]; intros st; [done|].
  simpl. rewrite IH. unfold emit_audio_frame, push_virtualcam_audio.
  destruct (av_transport cfg); [|done].
  destruct (trim_while _ (vcam_audio st)), (put_nowait f _); simpl; [done|].
  by destruct (trim_while _ _), (put_nowait f _).
Qed.

Lemma send_frame_view cfg now ok f st : sm_view (send_frame cfg now ok f st) = sm_view st.
Proof. unfold send_frame. by destruct (av_transport cfg). Qed.

(** The sink part of an iteration that selected frame [f]. *)
Lemma output_stage cfg now now' ok f (afs : list (audio_frame Info)) st :
  let st' := (if use_realtime_audio cfg then send_frame cfg now' ok f st
              else emit_audio_frames cfg now afs (send_frame cfg now' ok f st)) in
  sm_view st' = sm_view st /\
  video_out st' = video_out (send_frame cfg now' ok f st) /\
  audio_out st' = (if use_realtime_audio cfg then audio_out st else audio_out st ++ afs).
Proof.
  simpl. destruct (use_realtime_audio cfg).
  - split_and!; [apply send_frame_view|done|]. unfold send_frame. by destruct (av_transport cfg).
  - destruct (emit_audio_frames_out cfg now afs (send_frame cfg now' ok f st)) as (-> & -> & _).
    rewrite emit_audio_frames_view, send_frame_view. split_and!; [done|done|].
    unfold send_frame. by destruct (av_transport cfg).
Qed.

(** An iteration that selected frame [f] from the pre-output state [st2]. *)
Lemma process_result_selected cfg now now' ok res st c rs f st2 c2 :
  raw_silence_of res = Some rs ->
  select_frame cfg now' res rs (update_speaking cfg now rs st) c = Some (Some (f, st2, c2)) ->
  exists st', process_result cfg now now' ok res st c = Some (st', c2) /\
    sm_view st' = sm_view st2 /\ video_out st' = video_out (send_frame cfg now' ok f st2) /\
    audio_out st' = (if use_realtime_audio cfg then audio_out st2 else audio_out st2 ++ res_audio res).
Proof.
  intros Hrs Hsel. unfold process_result. rewrite Hrs. simpl. rewrite Hsel. simpl.
  eexists. split; [reflexivity|]. apply output_stage.
Qed.

Lemma select_idle cfg now' res st c target c' :
  speaking st = false -> idle_frame (first_type res) (res_idx res) c = Some (target, c') ->
  select_frame cfg now' res true st c =
    Some (Some (crossfade cfg now' (transition_start st) (last_speaking_frame st) target,
                set_frames (if enable_transition cfg
                            then Some (crossfade cfg now' (transition_start st) (last_speaking_frame st) target)
                            else last_silent_frame st) (last_speaking_frame st) st, c')).
Proof. intros Hs Hid. unfold select_frame. by rewrite Hs, Hid. Qed.

Lemma select_hold cfg now' res st c g :
  speaking st = true -> enable_transition cfg = true -> last_speaking_frame st = Some g ->
  select_frame cfg now' res true st c = Some (Some (g, st, c)).
Proof. intros Hs Hen Hg. unfold select_frame. by rewrite Hs, Hg, Hen. Qed.

Lemma select_speech cfg now' res st c pix :
  res_frame res = Some pix ->
  select_frame cfg now' res false st c =
    Some (Some (crossfade cfg now' (transition_start st) (last_silent_frame st) (Pasted pix (res_idx res)),
                set_frames (last_silent_frame st)
                  (if enable_transition cfg
                   then Some (crossfade cfg now' (transition_start st) (last_silent_frame st)
                                (Pasted pix (res_idx res)))
                   else last_speaking_frame st) st, c)).
Proof. intros Hp. unfold select_frame. simpl. by rewrite Hp. Qed.

Lemma crossfade_none cfg now' ts (target : frame Pixels) : crossfade cfg now' ts None target = target.
Proof. done. Qed.

Lemma idle_frame_shown c t idx f c' :
  idle_frame (Pixels:=Pixels) t idx c = Some (f, c') -> idle_shown (Stamped f) = true.
Proof.
  unfold idle_frame. destruct (custom_index c !! t); [|by intros [= <- _]].
  destruct (mirror_index _ _); simpl; [by intros [= <- _]|done].
Qed.

Lemma silent_pair_raw res :
  raw_silence_of (Info:=Info) (Pixels:=Pixels) res = Some true ->
  exists a0 a1 rest, res_audio res = a0 :: a1 :: rest.
Proof. unfold raw_silence_of. destruct (res_audio res) as [|? [|? ?]]; naive_solver. Qed.

End Lemmas.

#[export] Hint Resolve idle_frame_shown : livetalking.

Section Theorems.
Context {Info Pixels : Type}.
Implicit Types (cfg : av_config) (st : av_state Info Pixels) (c : custom).

Lemma quiet_step cfg now now' ok res st c :
  quiet st -> imgs_ok c -> raw_silence_of res = Some true ->
  speaking_hangover_sec cfg < now ->
  exists st' c', process_result cfg now now' ok res st c = Some (st', c') /\
    quiet st' /\ imgs_ok c'.
Proof.
  intros (Hs & Hf & Hv & Hout) Hok Hrs Hh. unfold process_result. rewrite Hrs. simpl.
  assert (Qle_bool (now - last_voice_ts st) (speaking_hangover_sec cfg) = false) as Hq.
  { apply not_true_iff_false. rewrite Qle_bool_iff, Hv. lra. }
  set (st1 := update_speaking cfg now true st).
  assert (Hs1 : speaking st1 = false) by (unfold st1, update_speaking; simpl; by rewrite Hq).
  unfold select_frame. rewrite Hs1. simpl.
  destruct (idle_frame_total (Pixels:=Pixels) c (first_type res) (res_idx res) Hok)
    as (f & c' & Hid & Hok'). rewrite Hid. simpl. change (last_speaking_frame st1) with
    (last_speaking_frame st). rewrite Hf, crossfade_none.
  destruct (output_stage cfg now now' ok f (res_audio res)
             (set_frames (if enable_transition cfg then Some f else last_silent_frame st) None
               st1)) as (Hv' & Hvid & _).
  do 2 eexists. split; [reflexivity|]. split; [|done].
  unfold sm_view in Hv'. injection Hv' as E1 _ _ E4 _ E6. unfold quiet.
  rewrite E1, E4, E6, Hvid, send_frame_video. simpl.
  split_and!; [done|done|done|].
  destruct (_ || _)%bool; [|done]. apply Forall_app. split; [done|].
  constructor; [by eapply idle_frame_shown|done].
Qed.

(** C11: Scenario A.  From any idle state (in particular the initial one),
    a stream of results whose audio is all non-speech, arriving after the
    hangover, is processed without error, never switches to speaking, and
    puts only idle material on screen: asset frames or custom images,
    never a synthesized frame and never a blend. *)
Theorem silence_stays_idle cfg steps st c :
  quiet st -> imgs_ok c ->
  Forall (fun '(now, _, _, res) => raw_silence_of res = Some true /\
                                   speaking_hangover_sec cfg < now) steps ->
  exists st' c', process_run cfg steps st c = Some (st', c') /\ quiet st'.
Proof.
  intros Hq Hok Hall. revert st c Hq Hok.
  induction Hall as [|[[[now now'] ok] res] steps [Hrs Hh] _ IH]; intros st c Hq Hok; simpl.
  - eauto.
  - destruct (quiet_step cfg now now' ok res st c Hq Hok Hrs Hh) as (st1 & c1 & -> & Hq1 & Hok1).
    simpl. by apply IH.
Qed.

(** C12: Scenario B, micro-gaps.  While the last voice is within the
    hangover, a non-speech pair keeps the avatar speaking: the transition
    clock is not restarted and the last speaking frame is shown again. *)
Theorem hangover_holds_frame cfg now now' ok res st c g :
  raw_silence_of res = Some true -> last_speaking st = true ->
  now - last_voice_ts st <= speaking_hangover_sec cfg ->
  enable_transition cfg = true -> last_speaking_frame st = Some g ->
  av_transport cfg = WebRTC ->
  exists st', process_result cfg now now' ok res st c = Some (st', c) /\
    speaking st' = true /\ transition_start st' = transition_start st /\
    last_speaking_frame st' = Some g /\ video_out st' = video_out st ++ [Stamped g].
Proof.
  intros Hrs Hls Hh Hen Hg Htr.
  assert (Hq : Qle_bool (now - last_voice_ts st) (speaking_hangover_sec cfg) = true)
    by (by apply Qle_bool_iff).
  assert (Hs1 : speaking (update_speaking cfg now true st) = true)
    by (unfold update_speaking; simpl; by rewrite Hq).
  destruct (process_result_selected cfg now now' ok res st c true g _ c Hrs
              (select_hold cfg now' res _ c g Hs1 Hen Hg)) as (st' & -> & Hv & Hvid & _).
  eexists. split; [reflexivity|]. unfold sm_view in Hv. injection Hv as E1 _ E3 _ _ E6.
  rewrite E1, E3, E6, Hvid, send_frame_video, Htr.
  unfold update_speaking; simpl. rewrite Hq, Hls, Hen. by split_and!.
Qed.

(** C13: Scenario B, end of speech.  The first non-speech pair after the
    hangover switches to silent, restarts the transition clock at [now],
    and shows the idle frame crossfaded from the last speaking frame with
    weight [min(1, (now' - now) / transition_duration)]; that blend is
    remembered as the last silent frame. *)
Theorem hangover_expiry_crossfades cfg now now' ok res st c g :
  raw_silence_of res = Some true -> last_speaking st = true ->
  speaking_hangover_sec cfg < now - last_voice_ts st ->
  enable_transition cfg = true -> last_speaking_frame st = Some g ->
  0 < transition_duration cfg -> now' - now < transition_duration cfg ->
  av_transport cfg = WebRTC -> imgs_ok c ->
  exists target c' st', idle_frame (first_type res) (res_idx res) c = Some (target, c') /\
    process_result cfg now now' ok res st c = Some (st', c') /\
    speaking st' = false /\ transition_start st' = now /\
    let shown := Blend g target (Qmin 1 ((now' - now) / transition_duration cfg)) in
    last_silent_frame st' = Some shown /\ video_out st' = video_out st ++ [Stamped shown].
Proof.
  intros Hrs Hls Hh Hen Hg Hd Hw Htr Hok.
  assert (Hq : Qle_bool (now - last_voice_ts st) (speaking_hangover_sec cfg) = false).
  { apply not_true_iff_false. rewrite Qle_bool_iff. lra. }
  set (st1 := update_speaking cfg now true st).
  assert (Hs1 : speaking st1 = false) by (unfold st1, update_speaking; simpl; by rewrite Hq).
  assert (Ht1 : transition_start st1 = now)
    by (unfold st1, update_speaking; simpl; by rewrite Hq, Hls, Hen).
  destruct (idle_frame_total (Pixels:=Pixels) c (first_type res) (res_idx res) Hok)
    as (target & c' & Hid & _).
  destruct (process_result_selected cfg now now' ok res st c true _ _ c' Hrs
              (select_idle cfg now' res st1 c target c' Hs1 Hid)) as (st' & -> & Hv & Hvid & _).
  assert (Hx : crossfade cfg now' (transition_start st1) (last_speaking_frame st1) target =
               Blend g target (Qmin 1 ((now' - now) / transition_duration cfg))).
  { rewrite Ht1. unfold crossfade. change (last_speaking_frame st1) with (last_speaking_frame st).
    rewrite Hg, Hen. simpl.
    assert (Qlt_bool 0 (transition_duration cfg) = true) as -> by (by apply Qlt_bool_iff).
    assert (Qlt_bool (now' - now) (transition_duration cfg) = true) as -> by (by apply Qlt_bool_iff).
    done. }
  rewrite Hx, Hen in Hv, Hvid. do 3 eexists. split; [done|]. split; [reflexivity|].
  unfold sm_view in Hv. injection Hv as E1 _ E3 _ E5 _.
  rewrite E1, E3, E5, Hvid, send_frame_video, Htr. simpl. by split_and!.
Qed.

(** C14: a pair with speech shows the synthesized frame pasted into the
    asset frame (crossfaded from the last silent frame while the
    transition runs), marks the avatar speaking, and emits the pair's
    audio frames after the ones already emitted, in their order. *)
Theorem speech_shows_synthesized cfg now now' ok res st c pix :
  raw_silence_of res = Some false -> res_frame res = Some pix ->
  use_realtime_audio cfg = false -> av_transport cfg = WebRTC ->
  exists st', process_result cfg now now' ok res st c = Some (st', c) /\
    speaking st' = true /\ last_voice_ts st' = now /\
    video_out st' = video_out st ++
      [Stamped (crossfade cfg now' (transition_start st') (last_silent_frame st) (Pasted pix (res_idx res)))] /\
    audio_out st' = audio_out st ++ res_audio res.
Proof.
  intros Hrs Hp Hrt Htr.
  destruct (process_result_selected cfg now now' ok res st c false _ _ c Hrs
              (select_speech cfg now' res (update_speaking cfg now false st) c pix Hp))
    as (st' & -> & Hv & Hvid & Ha).
  eexists. split; [reflexivity|]. unfold sm_view in Hv. injection Hv as E1 _ E3 E4 _ _.
  rewrite E1, E3, E4, Hvid, Ha, send_frame_video, Hrt, Htr. by split_and!.
Qed.

(** C15: when [paste_back_frame] raises (here: no synthesized frame for a
    speech pair), the iteration [continue]s: the state machine has already
    switched to speaking, but neither the frame nor the pair's two audio
    frames reach the sink. *)
Theorem paste_failure_drops_pair cfg now now' ok res st c :
  raw_silence_of res = Some false -> res_frame res = None ->
  process_result cfg now now' ok res st c = Some (update_speaking cfg now false st, c) /\
  speaking (update_speaking cfg now false st) = true /\
  video_out (update_speaking cfg now false st) = video_out st /\
  audio_out (update_speaking cfg now false st) = audio_out st.
Proof.
  intros Hrs Hp. unfold process_result. rewrite Hrs. simpl.
  unfold select_frame. simpl. by rewrite Hp.
Qed.

(** the crossfade weight.  Once [transition_duration] has elapsed the
    target frame is shown unblended; before, the frame is either the
    target or a blend from the previous frame with weight in [[0, 1)]. *)
Theorem crossfade_bounds cfg now' ts from (target : frame Pixels) :
  ts <= now' ->
  (transition_duration cfg <= now' - ts -> crossfade cfg now' ts from target = target) /\
  (crossfade cfg now' ts from target = target \/
   exists f alpha, from = Some f /\ crossfade cfg now' ts from target = Blend f target alpha /\
     0 <= alpha /\ alpha < 1).
Proof.
  intros Hts. unfold crossfade. destruct from as [f|]; [|by split; [|left]].
  destruct (enable_transition cfg); simpl; [|by split; [|left]].
  destruct (Qlt_bool 0 _) eqn:E1; simpl; [|by split; [|left]].
  destruct (Qlt_bool (now' - ts) _) eqn:E2; qbool; [|by split; [|left]].
  split; [intros; lra|right]. do 2 eexists. split_and!; [done|done| |].
  - apply Q.min_glb; [lra|]. apply Qle_shift_div_l; lra.
  - rewrite Q.min_r; [apply Qlt_shift_div_r; lra|]. apply Qlt_le_weak, Qlt_shift_div_r; lra.
Qed.

(** the virtual camera's audio queue loses nothing silently: after
    each push, queued chunks plus the drop counter grow by exactly one,
    and the chunk is passed on in order. *)
Theorem vcam_audio_accounting cfg now f st :
  (qsize (vcam_audio (push_virtualcam_audio cfg now f st)) +
   audio_drop_total (push_virtualcam_audio cfg now f st) =
   qsize (vcam_audio st) + audio_drop_total st + 1)%nat /\
  audio_out (push_virtualcam_audio cfg now f st) = audio_out st ++ [f].
Proof.
  unfold push_virtualcam_audio.
  pose proof (trim_while_conserve (vcam_audio_keep_chunks cfg) (vcam_audio st)) as C1.
  destruct (trim_while _ (vcam_audio st)) as [q1 d1]. simpl in C1.
  destruct (put_nowait f q1) as [q2|] eqn:E1; simpl.
  - apply put_nowait_qsize in E1. split; [lia|done].
  - pose proof (trim_while_conserve (vcam_audio_keep_chunks cfg) q1) as C2.
    destruct (trim_while _ q1) as [q3 d2]. simpl in C2.
    destruct (put_nowait f q3) as [q4|] eqn:E2; simpl; [apply put_nowait_qsize in E2|];
      split; first [lia | done].
Qed.

(** the configured virtual camera audio queue holds at least 8 chunks
    and trims back to between 2 chunks and one less than its capacity. *)
Theorem vcam_audio_sizes_bounds fps qs ks :
  (8 <= (vcam_audio_sizes fps qs ks).1 /\
   2 <= (vcam_audio_sizes fps qs ks).2 <= (vcam_audio_sizes fps qs ks).1 - 1)%Z.
Proof. unfold vcam_audio_sizes. simpl. lia. Qed.

(** with [keep] below the capacity, a push never reaches [queue.Full]:
    the queue holds at most [keep + 1] chunks afterwards and the pushed
    chunk is the newest. *)
Theorem vcam_audio_bounded cfg now f st :
  (0 <= vcam_audio_keep_chunks cfg < maxsize (vcam_audio st))%Z ->
  (qsize (vcam_audio (push_virtualcam_audio cfg now f st)) <=
     Z.to_nat (vcam_audio_keep_chunks cfg) + 1)%nat /\
  last (items (vcam_audio (push_virtualcam_audio cfg now f st))) = Some f.
Proof.
  intros Hk. unfold push_virtualcam_audio.
  pose proof (trim_while_qsize (vcam_audio_keep_chunks cfg) (vcam_audio st)) as Q1.
  pose proof (trim_while_spec (vcam_audio_keep_chunks cfg) (vcam_audio st)) as S1.
  destruct (trim_while _ (vcam_audio st)) as [q1 d1]. simpl in Q1. injection S1 as S1 _.
  assert (Hf : full q1 = false).
  { assert (maxsize q1 = maxsize (vcam_audio st)) as Hm by (by rewrite S1).
    apply not_true_iff_false. rewrite full_spec, Hm. lia. }
  rewrite (put_nowait_room q1 f Hf). simpl. unfold qsize at 1. simpl.
  rewrite length_app, last_snoc. fold (qsize q1). simpl. split; [lia|done].
Qed.

(** realtime-audio mode.  Before taking a result, every audio frame
    waiting on the bridge is emitted in order and the bridge is emptied;
    the result queue keeps only its newest item, so stale video frames are
    discarded rather than shown late. *)
Theorem realtime_prelude_spec cfg now bridge (resq : Fifo.queue (render_result Info Pixels)) st :
  audio_out (realtime_prelude cfg now bridge resq st).1.1 = audio_out st ++ items bridge /\
  video_out (realtime_prelude cfg now bridge resq st).1.1 = video_out st /\
  sm_view (realtime_prelude cfg now bridge resq st).1.1 = sm_view st /\
  items (realtime_prelude cfg now bridge resq st).1.2 = [] /\
  items (realtime_prelude cfg now bridge resq st).2 = drop (length (items resq) - 1) (items resq) /\
  (qsize (realtime_prelude cfg now bridge resq st).2 <= 1)%nat.
Proof.
  unfold realtime_prelude. simpl.
  destruct (emit_audio_frames_out cfg now (items bridge) st) as (-> & -> & _).
  rewrite emit_audio_frames_view, drain_queue_nowait_spec, trim_while_qsize, trim_while_spec.
  split_and!; try done; lia.
Qed.

End Theorems.

(** ** Examples: a WebRTC output with the default durations (crossfade
    0.16 s, hangover 0.35 s), audio frames carrying [nat] events and
    synthesized frames named by [nat]s. *)

Definition ex_cfg : av_config := mkAVConfig true (4 # 25) (7 # 20) (2 # 5) WebRTC false 8%Z 2%Z.

Definition ex_start : av_state nat nat := init_av ex_cfg 0.

Definition silence_pair : list (audio_frame nat) := [mkFrame [0%Z] 1%Z None; mkFrame [0%Z] 1%Z None].

Definition speech_pair : list (audio_frame nat) := [mkFrame [5%Z] 0%Z (Some 1%nat); mkFrame [6%Z] 0%Z None].

Definition silent_result : render_result nat nat := mkResult None 4%Z silence_pair.

(** Speaking since [t = 1], last frame shown: asset frame 3. *)
Definition ex_speaking : av_state nat nat :=
  mkAV true true 0 0 None (Some (Stamped (Background 3%Z))) 1 false 0 (mkQueue [] 8%Z) 0 0 [] [].

Lemma ex_imgs_ok : imgs_ok (loadcustom []).
Proof. intros t k Hk. vm_compute in Hk. discriminate. Qed.

Lemma silence_stays_idle_witness :
  exists st' c', process_run ex_cfg [(1, 1, true, silent_result); (2, 2, true, silent_result)]
                   ex_start (loadcustom []) = Some (st', c') /\ quiet st'.
Proof.
  apply silence_stays_idle; [|exact ex_imgs_ok|].
  - split_and!; reflexivity || constructor.
  - repeat constructor; vm_compute; reflexivity.
Defined.

Lemma hangover_holds_frame_witness :
  exists st', process_result ex_cfg (6 # 5) (6 # 5) true silent_result ex_speaking (loadcustom [])
                = Some (st', loadcustom []) /\ speaking st' = true /\
    video_out st' = [Stamped (Stamped (Background 3%Z))].
Proof.
  destruct (hangover_holds_frame ex_cfg (6 # 5) (6 # 5) true silent_result ex_speaking (loadcustom [])
              (Stamped (Background 3%Z)))
    as (st' & Hp & Hs & _ & _ & Hv); [reflexivity|reflexivity|vm_compute; discriminate|reflexivity
                                      |reflexivity|reflexivity|].
  exists st'. split_and!; [exact Hp|exact Hs|exact Hv].
Defined.

Lemma hangover_expiry_crossfades_witness :
  exists target c' st', process_result ex_cfg 2 (51 # 25) true silent_result ex_speaking (loadcustom [])
                          = Some (st', c') /\ speaking st' = false /\
    video_out st' = [Stamped (Blend (Stamped (Background 3%Z)) target (Qmin 1 (((51 # 25) - 2) / (4 # 25))))].
Proof.
  destruct (hangover_expiry_crossfades ex_cfg 2 (51 # 25) true silent_result ex_speaking (loadcustom [])
              (Stamped (Background 3%Z)))
    as (target & c' & st' & _ & Hp & Hs & _ & _ & Hv);
    [reflexivity|reflexivity|vm_compute; reflexivity|reflexivity|reflexivity|vm_compute; reflexivity
    |vm_compute; reflexivity|reflexivity|exact ex_imgs_ok|].
  exists target, c', st'. split_and!; [exact Hp|exact Hs|exact Hv].
Defined.

Lemma speech_shows_synthesized_witness :
  exists st', process_result ex_cfg 1 1 true (mkResult (Some 7%nat) 4%Z speech_pair) ex_start (loadcustom [])
                = Some (st', loadcustom []) /\ speaking st' = true /\ audio_out st' = speech_pair.
Proof.
  destruct (speech_shows_synthesized ex_cfg 1 1 true (mkResult (Some 7%nat) 4%Z speech_pair) ex_start
              (loadcustom []) 7%nat)
    as (st' & Hp & Hs & _ & _ & Ha); [reflexivity|reflexivity|reflexivity|reflexivity|].
  exists st'. split_and!; [exact Hp|exact Hs|exact Ha].
Defined.

Lemma paste_failure_drops_pair_witness :
  process_result ex_cfg 1 1 true (mkResult None 4%Z speech_pair) ex_start (loadcustom [])
    = Some (update_speaking ex_cfg 1 false ex_start, loadcustom []) /\
  audio_out (update_speaking ex_cfg 1 false ex_start) = [].
Proof.
  destruct (paste_failure_drops_pair ex_cfg 1 1 true (mkResult None 4%Z speech_pair) ex_start (loadcustom []))
    as (Hp & _ & _ & Ha); [reflexivity|reflexivity|].
  split; [exact Hp|exact Ha].
Defined.

Lemma crossfade_bounds_witness :
  crossfade ex_cfg (1 # 25) 0 (Some (Background 1%Z)) (Background 2%Z : frame nat) = Background 2 \/
  exists f alpha, Some (Background 1%Z) = Some f /\
    crossfade ex_cfg (1 # 25) 0 (Some (Background 1%Z)) (Background 2%Z : frame nat) = Blend f (Background 2%Z) alpha /\
    0 <= alpha /\ alpha < 1.
Proof.
  exact (proj2 (crossfade_bounds ex_cfg (1 # 25) 0 (Some (Background 1%Z)) (Background 2%Z)
                  ltac:(vm_compute; discriminate))).
Defined.

Lemma vcam_audio_bounded_witness :
  (qsize (vcam_audio (push_virtualcam_audio (ex_cfg) 0 (mkFrame [1%Z] 0%Z None) ex_start)) <= 3)%nat.
Proof.
  exact (proj1 (vcam_audio_bounded ex_cfg 0 (mkFrame [1%Z] 0%Z None) ex_start ltac:(unfold ex_start, init_av; simpl; lia))).
Defined.

End AVSync.
