(* ===== verification/Pacing.v ===== *)
(** * Pacing: the producer loop [MuseReal.render] of [src/musereal.py]

    One iteration of the [while] loop of [render] (lines 422-480): step the
    ASR ([MuseASR.run_step], modelled in [FeatureStage]); on an exception
    count it, log at most every 2 s and sleep [min(target_step_sec, 0.05)];
    otherwise sleep the rest of the step's time budget
    [target_step_sec = 2 * batch_size / fps], add the adaptive backpressure
    sleep when pacing is enabled and the feature queue is at least half
    full, and sleep in proportion to the WebRTC video queue when it holds
    1.5 batches or more.  The pacing switch is read in [MuseReal.__init__]
    (lines 334-341).

    The iteration returns its state and the list of [time.sleep] durations
    it performs; [elapsed] is the [perf_counter] duration of the step,
    [now] the [time.time()] reading of the log rate limits.  When
    [run_step] raises, the model keeps the ASR state from before the step
    (the code keeps what the step had changed before raising). *)

From S2P Require Import Prelude Fifo CustomState AudioIngest FeatureStage.

Module Pacing.
Import Fifo CustomState AudioIngest FeatureStage.
Local Open Scope Q_scope.

Record pacing := mkPacing {
  enable_pacing : bool;
  asr_err_count : nat;
  last_asr_err_log_ts : Q;
  last_backpressure_log_ts : Q;
}.

(** Lines 334-341: "auto" and the "on" words enable pacing, only the
    "off" words disable it. *)
Definition resolve_pacing (env : environ) : bool :=
  let mode := py_norm (getenv env "LT_MUSETALK_ENABLE_PACING" "auto") in
  if in_set mode ["1"; "true"; "yes"; "on"] then true
  else if in_set mode ["0"; "false"; "no"; "off"] then false
  else true.

Definition init_pacing (env : environ) : pacing := mkPacing (resolve_pacing env) 0 0 0.

(** Line 420. *)
Definition target_step_sec (bs : nat) (fps : Z) : Q := inject_Z (2 * Z.of_nat bs) / inject_Z fps.

(** Lines 448-458: [feat_qmax = max(1, feat_queue_maxsize)] and the
    extra sleep for a backlog ratio of at least one half. *)
Definition backpressure_sleep (target : Q) (backlog qmax_attr : Z) : Q :=
  let qmax := Z.max 1 qmax_attr in
  let ratio := inject_Z backlog / inject_Z qmax in
  if Qle_bool (1 # 2) ratio then target * Qmin (6 # 5) (Qmax (1 # 5) ratio) else 0.

(** Lines 478-480: [video_qsize] is [None] without a WebRTC video track. *)
Definition video_backlog_sleep (bs : nat) (video_qsize : option nat) : list Q :=
  match video_qsize with
  | Some n =>
      if Qle_bool ((3 # 2) * inject_Z (Z.of_nat bs)) (inject_Z (Z.of_nat n))
      then [(1 # 25) * inject_Z (Z.of_nat n) * (4 # 5)] else []
  | None => []
  end.

Section Render.
Context {Info Feat : Type}.
Variable feature_batch : list (list Z) -> Feat.

(** One iteration of lines 427-480. *)
Definition render_iteration (cfg : asr_config) (now elapsed : Q) (video_qsize : option nat)
    (p : pacing) (m : muse_asr Info Feat) (c : custom)
    : pacing * muse_asr Info Feat * custom * list Q :=
  let target := target_step_sec (batch_size cfg) (fps cfg) in
  match run_step feature_batch cfg now m c with
  | None =>
      let ts := if Qle_bool 2 (now - last_asr_err_log_ts p) then now else last_asr_err_log_ts p in
      (mkPacing (enable_pacing p) (S (asr_err_count p)) ts (last_backpressure_log_ts p),
       m, c, [Qmin target (1 # 20)])
  | Some (m', c') =>
      let s1 := if Qlt_bool elapsed target then [target - elapsed] else [] in
      let fq := feat_queue (base m') in
      let extra := if enable_pacing p
                   then backpressure_sleep target (Z.of_nat (qsize fq)) (maxsize fq) else 0 in
      let s2 := if Qlt_bool 0 extra then [extra] else [] in
      let bp_ts := if Qlt_bool 0 extra && Qle_bool 2 (now - last_backpressure_log_ts p)
                   then now else last_backpressure_log_ts p in
      (mkPacing (enable_pacing p) (asr_err_count p) (last_asr_err_log_ts p) bp_ts,
       m', c', s1 ++ s2 ++ video_backlog_sleep (batch_size cfg) video_qsize)
  end.

End Render.

(** Total time slept by an iteration. *)
Definition total_sleep (ds : list Q) : Q := foldr Qplus 0 ds.

(** ** Lemmas *)

Lemma total_sleep_app ds1 ds2 : total_sleep (ds1 ++ ds2) == total_sleep ds1 + total_sleep ds2.
Proof.
  induction ds1 as [|d ds IH]; simpl; [ring|]. unfold total_sleep in *. simpl. rewrite IH. ring.
Qed.

Lemma total_sleep_nonneg ds : Forall (fun d => 0 <= d) ds -> 0 <= total_sleep ds.
Proof. induction 1; unfold total_sleep; simpl; [lra|]. fold (total_sleep l). lra. Qed.

Lemma video_backlog_sleep_nonneg bs vq : Forall (fun d => 0 <= d) (video_backlog_sleep bs vq).
Proof.
  destruct vq as [n|]; simpl; [|done]. destruct (Qle_bool _ _); [|done].
  repeat constructor. assert (0 <= inject_Z (Z.of_nat n)) by (unfold Qle; simpl; lia).
  apply Qmult_le_0_compat; [apply Qmult_le_0_compat|]; [lra| |]; lra.
Qed.

Lemma target_step_nonneg bs fps : (0 < fps)%Z -> 0 <= target_step_sec bs fps.
Proof.
  intros Hf. unfold target_step_sec. apply Qle_shift_div_l; [unfold Qlt; simpl; lia|].
  rewrite Qmult_0_l. unfold Qle; simpl; lia.
Qed.

Lemma ratio_bounds (b q : Z) :
  (0 <= b)%Z -> (b <= Z.max 1 q)%Z ->
  0 <= inject_Z b / inject_Z (Z.max 1 q) <= 1.
Proof.
  intros Hb Hq. assert (Hpos : 0 < inject_Z (Z.max 1 q)) by (unfold Qlt; simpl; lia).
  split.
  - apply Qle_shift_div_l; [done|]. rewrite Qmult_0_l. unfold Qle; simpl; lia.
  - apply Qle_shift_div_r; [done|]. rewrite Qmult_1_l. unfold Qle; simpl; lia.
Qed.

#[export] Hint Resolve total_sleep_nonneg video_backlog_sleep_nonneg target_step_nonneg : livetalking.

Section Theorems.
Context {Info Feat : Type}.
Variable feature_batch : list (list Z) -> Feat.

(** C16: the adaptive backpressure sleep.  For a feature queue that holds
    at most its capacity, the sleep is zero below half occupancy and
    exactly [target * occupancy] from half occupancy on: it lies in
    [[target / 2, target]], so the caps [0.2] and [1.2] of the code are
    never reached. *)
Theorem backpressure_proportional target (b q : Z) :
  0 <= target -> (0 <= b)%Z -> (1 <= q)%Z -> (b <= q)%Z ->
  ((2 * b < q)%Z -> backpressure_sleep target b q == 0) /\
  ((q <= 2 * b)%Z ->
     backpressure_sleep target b q == target * (inject_Z b / inject_Z q) /\
     target / 2 <= backpressure_sleep target b q <= target).
Proof.
  intros Ht Hb Hq Hbq. unfold backpressure_sleep.
  rewrite Z.max_r by lia. pose proof (ratio_bounds b q Hb ltac:(lia)) as Hr.
  rewrite Z.max_r in Hr by lia.
  assert (Hpos : 0 < inject_Z q) by (unfold Qlt; simpl; lia).
  assert (Hhalf : (1 # 2) <= inject_Z b / inject_Z q <-> (q <= 2 * b)%Z).
  { split; intros H.
    - apply (Qmult_le_compat_r _ _ (inject_Z q)) in H; [|lra].
      rewrite (Qmult_comm (_ / _)), Qmult_div_r in H by (apply Qnot_eq_sym, Qlt_not_eq, Hpos).
      revert H. unfold Qle, Qmult; simpl; lia.
    - apply Qle_shift_div_l; [done|]. unfold Qle, Qmult; simpl; lia. }
  split.
  - intros Hlt. destruct (Qle_bool _ _) eqn:E; [|reflexivity].
    apply Qle_bool_iff, Hhalf in E. lia.
  - intros Hge. assert (Qle_bool (1 # 2) (inject_Z b / inject_Z q) = true) as ->
      by (apply Qle_bool_iff, Hhalf, Hge).
    apply Hhalf in Hge.
    rewrite (Q.max_r (1 # 5)) by lra. rewrite Q.min_r by lra.
    split; [reflexivity|]. split.
    + apply Qle_shift_div_r; [reflexivity|]. nra.
    + nra.
Qed.

(** the step cadence.  When the ASR step succeeds, the iteration
    sleeps at least the rest of [target_step_sec] (so a step never takes
    less than its time budget), every sleep is non-negative, and the
    counters of the error path are left alone. *)
Theorem render_cadence cfg now elapsed vq (p : pacing) (m : muse_asr Info Feat) c m' c' :
  (0 < fps cfg)%Z -> 0 <= elapsed -> run_step feature_batch cfg now m c = Some (m', c') ->
  let '(p', m'', c'', ds) := render_iteration feature_batch cfg now elapsed vq p m c in
  m'' = m' /\ c'' = c' /\ asr_err_count p' = asr_err_count p /\
  Forall (fun d => 0 <= d) ds /\
  target_step_sec (batch_size cfg) (fps cfg) <= elapsed + total_sleep ds.
Proof.
  intros Hf He Hrun. unfold render_iteration. rewrite Hrun.
  pose proof (target_step_nonneg (batch_size cfg) (fps cfg) Hf) as Ht.
  set (target := target_step_sec (batch_size cfg) (fps cfg)) in *.
  set (extra := if enable_pacing p then _ else 0).
  assert (Hs2 : Forall (fun d => 0 <= d) (if Qlt_bool 0 extra then [extra] else [])).
  { destruct (Qlt_bool 0 extra) eqn:E; qbool; repeat constructor; lra. }
  assert (Hs1 : Forall (fun d => 0 <= d) (if Qlt_bool elapsed target then [target - elapsed] else [])
              /\ target <= elapsed + total_sleep (if Qlt_bool elapsed target then [target - elapsed] else [])).
  { destruct (Qlt_bool elapsed target) eqn:E; qbool; unfold total_sleep; simpl;
      (split; [repeat constructor|]); lra. }
  destruct Hs1 as [Hs1 Hc].
  split_and!; try done.
  - apply Forall_app; split; [done|]. apply Forall_app; split; [done|]. auto with livetalking.
  - rewrite !total_sleep_app.
    pose proof (total_sleep_nonneg _ Hs2). pose proof (total_sleep_nonneg _ (video_backlog_sleep_nonneg (batch_size cfg) vq)).
    lra.
Qed.

(** the error path.  When [run_step] raises, the loop survives: the
    error counter grows by one, the log time advances only if the last
    log is 2 s old, and the only sleep is the bounded fallback
    [min(target_step_sec, 0.05)]. *)
Theorem render_error_path cfg now elapsed vq (p : pacing) (m : muse_asr Info Feat) c :
  run_step feature_batch cfg now m c = None ->
  let '(p', m'', c'', ds) := render_iteration feature_batch cfg now elapsed vq p m c in
  m'' = m /\ c'' = c /\ asr_err_count p' = S (asr_err_count p) /\
  (2 <= now - last_asr_err_log_ts p -> last_asr_err_log_ts p' = now) /\
  (now - last_asr_err_log_ts p < 2 -> last_asr_err_log_ts p' = last_asr_err_log_ts p) /\
  ds = [Qmin (target_step_sec (batch_size cfg) (fps cfg)) (1 # 20)] /\
  total_sleep ds <= 1 # 20.
Proof.
  intros Hrun. unfold render_iteration. rewrite Hrun. simpl.
  split_and!; try done.
  - intros H. apply Qle_bool_iff in H. by rewrite H.
  - intros H. destruct (Qle_bool 2 _) eqn:E; [qbool; lra|done].
  - unfold total_sleep. simpl. pose proof (Q.le_min_r (target_step_sec (batch_size cfg) (fps cfg)) (1 # 20)).
    lra.
Qed.

End Theorems.

(** ** Examples: 50 fps, one-chunk batches ([target_step_sec = 0.04]). *)

Definition pc_cfg : asr_config := mkConfig 50 1 0 0 Block 8 2.

Definition pc_muse : muse_asr nat unit := mkMuse (init_asr pc_cfg) Block 0 0.

Definition pc_pacing : pacing := mkPacing true 0 0 0.

(** A custom state with no configured clip: [get_audio_stream] raises
    [KeyError] once the queue is empty. *)
Definition broken_custom : custom := mkCustom 2 ∅ ∅ ∅ ∅.

Lemma backpressure_proportional_witness :
  backpressure_sleep (1 # 25) 2 2 == (1 # 25) * (inject_Z 2 / inject_Z 2) /\
  backpressure_sleep (1 # 25) 0 2 == 0.
Proof.
  destruct (backpressure_proportional (1 # 25) 2 2) as [_ H2]; [vm_compute; discriminate|lia|lia|lia|].
  destruct (backpressure_proportional (1 # 25) 0 2) as [H0 _]; [vm_compute; discriminate|lia|lia|lia|].
  split; [exact (proj1 (H2 ltac:(lia)))|exact (H0 ltac:(lia))].
Defined.

Lemma render_cadence_witness :
  let '(p', _, _, ds) := render_iteration (fun _ => tt) pc_cfg 0 (1 # 100) None pc_pacing pc_muse (loadcustom []) in
  target_step_sec 1 50 <= (1 # 100) + total_sleep ds.
Proof.
  destruct (run_step (fun _ => tt) pc_cfg 0 pc_muse (loadcustom [])) as [[m' c']|] eqn:Hr;
    [|vm_compute in Hr; discriminate].
  pose proof (render_cadence (fun _ => tt) pc_cfg 0 (1 # 100) None pc_pacing pc_muse (loadcustom []) m' c'
                ltac:(simpl; lia) ltac:(vm_compute; discriminate) Hr) as H.
  destruct (render_iteration _ _ _ _ _ _ _ _) as [[[p' m''] c''] ds].
  exact (proj2 (proj2 (proj2 (proj2 H)))).
Defined.

Lemma render_error_path_witness :
  let '(p', m'', _, ds) := render_iteration (fun _ => tt) pc_cfg 3 0 None pc_pacing pc_muse broken_custom in
  m'' = pc_muse /\ asr_err_count p' = 1%nat /\ last_asr_err_log_ts p' = 3 /\ total_sleep ds <= 1 # 20.
Proof.
  pose proof (render_error_path (fun _ => tt) pc_cfg 3 0 None pc_pacing pc_muse broken_custom
                ltac:(vm_compute; reflexivity)) as H.
  destruct (render_iteration _ _ _ _ _ _ _ _) as [[[p' m''] c''] ds].
  destruct H as (Hm & _ & Hc & Hlog & _ & _ & Hs).
  split_and!; [exact Hm|exact Hc|apply Hlog; vm_compute; discriminate|exact Hs].
Defined.

End Pacing.
