(* ===== verification/TextSplit.v ===== *)
(** * TextSplit: [SpeakerDispatcher._split_text_for_speech]

    [src/apps/control_api/speaker_dispatcher.py], lines 262-294: a long
    text is cut into segments of at most [max_chars] characters, preferably
    just after a punctuation mark that is at least [soft_min_chars] into
    the segment; segments are stripped and empty ones are skipped.

    A Python [str] is a sequence of code points: [text] is a list of [Z]
    code points, [py_isspace] is [str.isspace] (the Unicode whitespace
    code points) and [strip] is [str.strip()].  The loop over the
    characters is a [foldl] of [split_step] over the text, with the
    loop's three variables in [split_state].

    Theorems: every segment is non-empty and at most [max_chars] long; a
    text without whitespace is cut without losing or reordering anything
    (the segments concatenate back to the text). *)

From S2P Require Import Prelude.

Module TextSplit.
Local Open Scope Z_scope.

Abbreviation text := (list Z).

(** [str.isspace] on one code point. *)
Definition py_isspace (c : Z) : bool :=
  ((9 <=? c) && (c <=? 13)) || ((28 <=? c) && (c <=? 32)) || (c =? 133) || (c =? 160) ||
  (c =? 5760) || ((8192 <=? c) && (c <=? 8202)) || (c =? 8232) || (c =? 8233) ||
  (c =? 8239) || (c =? 8287) || (c =? 12288).

Fixpoint lstrip (t : text) : text :=
  match t with
  | c :: r => if py_isspace c then lstrip r else t
  | [] => []
  end.

Definition rstrip (t : text) : text := rev (lstrip (rev t)).

(** [str.strip()]. *)
Definition strip (t : text) : text := rstrip (lstrip t).

(** [set("。！？!?；;，,\n")] (line 266). *)
Definition punct : list Z := [12290; 65281; 65311; 33; 63; 65307; 59; 65292; 44; 10].

Definition is_punct (c : Z) : bool := bool_decide (c ∈ punct).

(** Lines 285-287: the 1-based position of the last punctuation mark of
    the buffer, or -1. *)
Definition last_break_of (buf : text) : Z :=
  snd (foldl (fun '(i, lb) ch => (i + 1, if is_punct ch then i + 1 else lb)) (0, -1) buf).

Record split_state := mkSplit {
  chunks : list text;
  buf : text;
  last_break_idx : Z;
}.

(** One iteration of the [for ch in text] loop (lines 272-287). *)
Definition split_step (max_chars soft_min_chars : Z) (s : split_state) (ch : Z) : split_state :=
  let buf1 := buf s ++ [ch] in
  let lb1 := if is_punct ch then Z.of_nat (length buf1) else last_break_idx s in
  if Z.of_nat (length buf1) <? max_chars then mkSplit (chunks s) buf1 lb1
  else
    let split_at := if soft_min_chars <=? lb1 then lb1 else max_chars in
    let chunk := strip (take (Z.to_nat split_at) buf1) in
    let chunks' := if chunk is [] then chunks s else chunks s ++ [chunk] in
    let buf2 := drop (Z.to_nat split_at) buf1 in
    mkSplit chunks' buf2 (last_break_of buf2).

(** [_split_text_for_speech(text, max_chars)] (lines 262-294). *)
Definition split_text_for_speech (t : text) (max_chars : Z) : list text :=
  if (max_chars <=? 0) || (Z.of_nat (length t) <=? max_chars) then
    (if t is [] then [] else [t])
  else
    let soft_min_chars := Z.max 20 (max_chars / 3) in
    let s := foldl (split_step max_chars soft_min_chars) (mkSplit [] [] (-1)) t in
    let tail := strip (buf s) in
    if tail is [] then chunks s else chunks s ++ [tail].

(** ** Lemmas *)

Lemma lstrip_length t : (length (lstrip t) <= length t)%nat.
Proof. induction t as [|c t IH]; simpl; [lia|]. destruct (py_isspace c); simpl; lia. Qed.

Lemma strip_length t : (length (strip t) <= length t)%nat.
Proof.
  unfold strip, rstrip. rewrite length_rev.
  pose proof (lstrip_length (rev (lstrip t))). rewrite length_rev in H.
  pose proof (lstrip_length t). lia.
Qed.

Lemma lstrip_nospace t : Forall (fun c => py_isspace c = false) t -> lstrip t = t.
Proof. destruct 1 as [|c t Hc _]; simpl; [done|]. by rewrite Hc. Qed.

Lemma strip_nospace t : Forall (fun c => py_isspace c = false) t -> strip t = t.
Proof.
  intros H. unfold strip, rstrip. rewrite (lstrip_nospace t H).
  rewrite lstrip_nospace; [apply rev_involutive|]. by apply Forall_rev.
Qed.

Lemma last_break_of_bound buf : (-1 <= last_break_of buf <= Z.of_nat (length buf))%Z.
Proof.
  unfold last_break_of.
  assert (Hgen : forall i lb, (-1 <= lb <= i)%Z ->
    (-1 <= snd (foldl (fun '(i, lb) ch => (i + 1, if is_punct ch then i + 1 else lb)) (i, lb) buf)
        <= i + Z.of_nat (length buf))%Z).
  { induction buf as [|ch buf IH]; intros i lb Hlb; simpl; [lia|].
    specialize (IH (i + 1) (if is_punct ch then i + 1 else lb)). destruct (is_punct ch); lia. }
  specialize (Hgen 0 (-1) ltac:(lia)). lia.
Qed.

(** The loop invariant: the buffer is shorter than [max_chars], the last
    break lies within it, and the emitted segments are non-empty and at
    most [max_chars] long. *)
Definition split_inv (max_chars : Z) (s : split_state) : Prop :=
  (Z.of_nat (length (buf s)) < max_chars)%Z /\
  (last_break_idx s <= Z.of_nat (length (buf s)))%Z /\
  Forall (fun c => c <> [] /\ (Z.of_nat (length c) <= max_chars)%Z) (chunks s).

Lemma split_step_inv max_chars soft s ch :
  (1 <= soft)%Z -> split_inv max_chars s -> split_inv max_chars (split_step max_chars soft s ch).
Proof.
  intros Hsoft (Hb & Hlb & Hc). unfold split_step.
  set (buf1 := buf s ++ [ch]).
  assert (Hl1 : Z.of_nat (length buf1) = Z.of_nat (length (buf s)) + 1) by
    (unfold buf1; rewrite length_app; simpl; lia).
  set (lb1 := if is_punct ch then Z.of_nat (length buf1) else last_break_idx s).
  assert (Hlb1 : (lb1 <= Z.of_nat (length buf1))%Z) by (unfold lb1; destruct (is_punct ch); lia).
  destruct (Z.ltb_spec (Z.of_nat (length buf1)) max_chars) as [Hlt|Hge].
  - unfold split_inv; simpl. done.
  - set (split_at := if soft <=? lb1 then lb1 else max_chars).
    assert (Hsa : (1 <= split_at <= max_chars)%Z) by (unfold split_at; destruct (Z.leb_spec soft lb1); lia).
    assert (Hchunk : (Z.of_nat (length (strip (take (Z.to_nat split_at) buf1))) <= max_chars)%Z).
    { pose proof (strip_length (take (Z.to_nat split_at) buf1)). rewrite length_take in H. lia. }
    unfold split_inv; simpl. split_and!.
    + rewrite length_drop. lia.
    + pose proof (last_break_of_bound (drop (Z.to_nat split_at) buf1)). lia.
    + destruct (strip _) eqn:E; [done|]. apply Forall_app. split; [done|].
      constructor; [|done]. split; [done|]. done.
Qed.

(** The roundtrip invariant: what was emitted, followed by the buffer, is
    the part of the text read so far. *)
Lemma split_step_concat max_chars soft s ch :
  (1 <= soft)%Z -> (1 <= max_chars)%Z ->
  Forall (fun c => py_isspace c = false) (mjoin (chunks s) ++ buf s ++ [ch]) ->
  mjoin (chunks (split_step max_chars soft s ch)) ++ buf (split_step max_chars soft s ch) =
    mjoin (chunks s) ++ buf s ++ [ch].
Proof.
  intros Hsoft Hmax Hns. unfold split_step.
  set (buf1 := buf s ++ [ch]).
  set (lb1 := if is_punct ch then Z.of_nat (length buf1) else last_break_idx s).
  destruct (Z.ltb_spec (Z.of_nat (length buf1)) max_chars); simpl; [done|].
  set (k := Z.to_nat (if soft <=? lb1 then lb1 else max_chars)).
  assert (Hk : (1 <= k)%nat) by (unfold k; destruct (Z.leb_spec soft lb1); lia).
  apply Forall_app in Hns as [_ Hns].
  rewrite strip_nospace by (apply Forall_take, Hns).
  destruct (take k buf1) as [|x l] eqn:E.
  - exfalso. unfold buf1 in E. destruct (buf s); destruct k; simpl in E; try lia; done.
  - simpl. rewrite join_app. simpl. rewrite app_nil_r, <- app_assoc, <- E, take_drop. done.
Qed.

Section Theorems.

(** every segment the splitter emits is non-empty and at most
    [max_chars] code points long. *)
Theorem split_segments_bounded t max_chars :
  (0 < max_chars)%Z ->
  Forall (fun c => c <> [] /\ (Z.of_nat (length c) <= max_chars)%Z) (split_text_for_speech t max_chars).
Proof.
  intros Hm. unfold split_text_for_speech.
  destruct (Z.leb_spec max_chars 0); [lia|]. simpl.
  destruct (Z.leb_spec (Z.of_nat (length t)) max_chars).
  - destruct t; [done|]. repeat constructor; [done|lia].
  - set (soft := Z.max 20 (max_chars / 3)).
    assert (Hinv : split_inv max_chars (foldl (split_step max_chars soft) (mkSplit [] [] (-1)) t)).
    { apply foldl_invariant; [intros; apply split_step_inv; [lia|done]|].
      unfold split_inv; simpl. split_and!; [lia|lia|done]. }
    destruct Hinv as (Hb & _ & Hc).
    destruct (strip _) eqn:E; [done|]. apply Forall_app. split; [done|].
    repeat constructor; [done|]. pose proof (strip_length (buf (foldl (split_step max_chars soft)
      (mkSplit [] [] (-1)) t))). rewrite E in H1. lia.
Qed.

(** the splitter loses and reorders nothing: for a text without
    whitespace (which [strip] would remove at segment ends), the segments
    concatenate back to the text. *)
Theorem split_roundtrip t max_chars :
  Forall (fun c => py_isspace c = false) t ->
  mjoin (split_text_for_speech t max_chars) = t.
Proof.
  intros Hns. unfold split_text_for_speech.
  destruct ((max_chars <=? 0) || (Z.of_nat (length t) <=? max_chars)) eqn:Hc.
  - destruct t; simpl; [done|]. by rewrite app_nil_r.
  - apply orb_false_iff in Hc as [H1 _]. apply Z.leb_gt in H1.
    set (soft := Z.max 20 (max_chars / 3)).
    assert (Hgen : forall l s, Forall (fun c => py_isspace c = false) (mjoin (chunks s) ++ buf s ++ l) ->
      mjoin (chunks (foldl (split_step max_chars soft) s l)) ++ buf (foldl (split_step max_chars soft) s l)
        = mjoin (chunks s) ++ buf s ++ l).
    { induction l as [|ch l IH]; intros s Hs; simpl; [by rewrite app_nil_r|].
      assert (Hpre : Forall (fun c => py_isspace c = false) (mjoin (chunks s) ++ buf s ++ [ch])).
      { change (ch :: l) with ([ch] ++ l) in Hs. rewrite (app_assoc (buf s)), app_assoc in Hs.
        apply Forall_app in Hs as [Hs _]. exact Hs. }
      rewrite IH; rewrite app_assoc, split_step_concat by (done || lia); rewrite <- !app_assoc; done. }
    specialize (Hgen t (mkSplit [] [] (-1)) Hns). simpl in Hgen.
    set (s := foldl (split_step max_chars soft) (mkSplit [] [] (-1)) t) in *.
    assert (Hb : Forall (fun c => py_isspace c = false) (buf s)).
    { rewrite <- Hgen in Hns. by apply Forall_app in Hns as [_ ?]. }
    rewrite (strip_nospace _ Hb). destruct (buf s) as [|x l] eqn:E.
    + by rewrite app_nil_r in Hgen.
    + rewrite join_app. simpl. by rewrite app_nil_r.
Qed.

End Theorems.

End TextSplit.
