(* ===== verification/Dispatcher.v ===== *)
(** * Dispatcher: the speech task queue of [SpeakerDispatcher]

    [src/apps/control_api/speaker_dispatcher.py] keeps the pending speech
    tasks in a list ordered by priority ([_append_task], lines 406-426,
    capped at 500 tasks by evicting the lowest-priority oldest one), picks
    the next task according to the avatar's speaking state and the
    dispatch guard ([_pick_next_task], lines 530-568), sends it to the
    avatar's [/human] endpoint ([_dispatch_task], lines 681-718), schedules
    the next segment of a long text ([_schedule_followup_segment], lines
    377-404) and retries failed sends up to three times
    ([_handle_dispatch_error], lines 720-756).

    A task's [meta] dict is a [gmap] from keys to tagged values; the
    [replies] table and the audit log the dispatcher writes are part of the
    [world] record, and the HTTP calls the dispatcher makes are recorded in
    [sent].  Task ids ([uuid4] hex) and times are inputs.  The pending
    segment list that a follow-up task shares with its predecessor (a
    shallow [dict] copy) is copied in the model; the predecessor's list is
    never read again except on a retry after its follow-up was scheduled. *)

From S2P Require Import Prelude TextSplit.

Module Dispatcher.
Import TextSplit.
Local Open Scope Z_scope.

(** Values stored in a task's [meta] dict. *)
Inductive mval :=
  | MInt (z : Z)
  | MStr (s : string)
  | MBool (b : bool)
  | MTexts (l : list text).

Abbreviation meta := (gmap string mval).

(** [int(meta.get(key) or default)]: the keys read this way only ever hold
    integers; [0], like a missing key, selects the default. *)
Definition meta_int (m : meta) (key : string) (dflt : Z) : Z :=
  match m !! key with
  | Some (MInt z) => if z =? 0 then dflt else z
  | _ => dflt
  end.

(** [SpeakTask] (lines 30-41). *)
Record task := mkTask {
  task_id : string;
  source : string;
  ttext : text;
  priority : Z;
  interrupt : bool;
  sequence : Z;
  tmeta : meta;
}.

Definition set_sequence (n : Z) (t : task) : task :=
  mkTask (task_id t) (source t) (ttext t) (priority t) (interrupt t) n (tmeta t).

Definition set_meta (m : meta) (t : task) : task :=
  mkTask (task_id t) (source t) (ttext t) (priority t) (interrupt t) (sequence t) m.

(** What [_last_event] reports. *)
Inductive event :=
  | EvDropped (id : string) (prio : Z)
  | EvDispatched (id src : string) (prio seg_index seg_total : Z)
  | EvRetry (attempt : Z) (id : string)
  | EvGaveUp (id : string).

Record dispatcher := mkDisp {
  dqueue : list task;
  dsequence : Z;
  next_dispatch_ts : Q;
  playlist_cursor : gmap string Z;
  playlist_last_emit_ts : gmap string Q;
  playlist_schedule_cursor : Z;
  last_event : option event;
  last_error : option string;
  last_dispatch_at : option string;
}.

(** [__init__] (lines 53-121), for the queue and scheduling state. *)
Definition init_dispatcher : dispatcher := mkDisp [] 0 0 ∅ ∅ 0 None None None.

Definition set_dqueue (q : list task) (d : dispatcher) : dispatcher :=
  mkDisp q (dsequence d) (next_dispatch_ts d) (playlist_cursor d) (playlist_last_emit_ts d)
    (playlist_schedule_cursor d) (last_event d) (last_error d) (last_dispatch_at d).

(** [(priority, sequence)] tuple comparison. *)
Definition key_lt (a b : task) : bool :=
  (priority a <? priority b) || ((priority a =? priority b) && (sequence a <? sequence b)).

(** [min(range(len(q)), key=...)]: the first index of a minimal key,
    scanning with (best index, best task, current index). *)
Definition argmin_step (acc : nat * task * nat) (t : task) : nat * task * nat :=
  let '(bi, bt, i) := acc in if key_lt t bt then (i, t, S i) else (bi, bt, S i).

Definition argmin_key (q : list task) : nat :=
  match q with
  | [] => 0%nat
  | t0 :: rest => fst (fst (foldl argmin_step (0%nat, t0, 1%nat) rest))
  end.

(** Lines 420-425: before the first queued task of strictly lower
    priority, else at the end. *)
Definition insert_index (t : task) (q : list task) : nat :=
  default (length q) (fst <$> list_find (fun qd => priority qd < priority t) q).

(** [list.insert(i, x)] for [i <= len]. *)
Definition list_insert {A} (i : nat) (x : A) (l : list A) : list A := take i l ++ x :: drop i l.

(** [_append_task] (lines 406-426). *)
Definition append_task (t : task) (d : dispatcher) : dispatcher :=
  let t1 := set_sequence (dsequence d) t in
  let q := dqueue d in
  let '(q1, ev) :=
    if decide (500 <= length q)%nat then
      let i := argmin_key q in
      (delete i q, match q !! i with
                   | Some x => Some (EvDropped (task_id x) (priority x))
                   | None => last_event d
                   end)
    else (q, last_event d) in
  mkDisp (list_insert (insert_index t1 q1) t1 q1) (dsequence d + 1) (next_dispatch_ts d)
    (playlist_cursor d) (playlist_last_emit_ts d) (playlist_schedule_cursor d) ev
    (last_error d) (last_dispatch_at d).

(** The queue order the insertion maintains: higher priority first, and
    among equal priorities the earlier sequence number first. *)
Definition before (a b : task) : Prop :=
  priority b < priority a \/ (priority a = priority b /\ sequence a < sequence b).

Definition queue_wf (d : dispatcher) : Prop :=
  StronglySorted before (dqueue d) /\ Forall (fun t => sequence t < dsequence d) (dqueue d).

(** What [_resolve_live_endpoint] returns (lines 506-528). *)
Record endpoint := mkEndpoint {
  supported : bool;
  reason : option string;
  ep_transport : string;
  listen_port : Z;
  ep_model : string;
  ep_tts : string;
  ep_tts_rate : string;
}.

Record disp_config := mkDispConfig {
  segment_max_chars : Z;
  max_text_chars : Z;
  dispatch_guard_sec : Q;
  dispatch_guard_per_char : Q;
  dispatch_guard_musetalk_sec : Q;
  dispatch_guard_musetalk_per_char : Q;
  prefetch_while_speaking_mode : string;
}.

(** [_read_env_int] / [_read_env_float] (lines 219-233), from the parse
    of the variable ([None]: [ValueError]). *)
Definition read_env_int (parsed : option Z) (dflt lo hi : Z) : Z := clamp lo hi (default dflt parsed).
Definition read_env_float (parsed : option Q) (dflt lo hi : Q) : Q := qclamp lo hi (default dflt parsed).

(** Lines 57-106. *)
Definition disp_config_of (env : environ) (seg txt : option Z) (g gc gm gmc : option Q) : disp_config :=
  let mode := py_norm (getenv env "LT_SPEAKER_PREFETCH_WHILE_SPEAKING" "auto") in
  mkDispConfig (read_env_int seg 70 40 2000) (read_env_int txt 200000 1000 2000000)
    (read_env_float g (6 # 5) 0 20) (read_env_float gc (1 # 20) 0 1)
    (read_env_float gm 4 0 60) (read_env_float gmc (4 # 25) 0 2)
    (if bool_decide (mode ∈ ["auto"; "on"; "off"; "1"; "0"; "true"; "false"; "yes"; "no"])
     then mode else "auto").

(** [_allow_prefetch_while_speaking] (lines 570-578). *)
Definition allow_prefetch_while_speaking (cfg : disp_config) (ep : endpoint) : bool :=
  let mode := prefetch_while_speaking_mode cfg in
  if bool_decide (mode ∈ ["1"; "true"; "yes"; "on"]) then true
  else if bool_decide (mode ∈ ["0"; "false"; "no"; "off"]) then false
  else negb (bool_decide (py_norm (ep_model ep) = "musetalk")).

(** [_is_followup_segment] (lines 580-584). *)
Definition is_followup_segment (t : task) : bool := 1 <? meta_int (tmeta t) "segment_index" 1.

Definition take_at (i : nat) (d : dispatcher) : dispatcher := set_dqueue (delete i (dqueue d)) d.

Inductive pick := Picked (t : task) | NoTask | Fallthrough.

(** The queue part of [_pick_next_task] (lines 536-562): [Fallthrough]
    leaves the [with] block for the playlist branch. *)
Definition pick_from_queue (speaking allow : bool) (now : Q) (d : dispatcher) : pick * dispatcher :=
  match dqueue d with
  | [] => (Fallthrough, d)
  | t0 :: rest =>
      if speaking then
        match list_find (fun t => interrupt t = true) (dqueue d) with
        | Some (i, t) => (Picked t, take_at i d)
        | None =>
            if allow && Qle_bool (next_dispatch_ts d) now then
              match list_find (fun t => interrupt t = false /\ is_followup_segment t = true) (dqueue d) with
              | Some (i, t) => (Picked t, take_at i d)
              | None => (Fallthrough, d)
              end
            else (Fallthrough, d)
        end
      else if Qlt_bool now (next_dispatch_ts d) then
        match list_find (fun t => interrupt t = true) (dqueue d) with
        | Some (i, t) => (Picked t, take_at i d)
        | None => (NoTask, d)
        end
      else (Picked t0, set_dqueue rest d)
  end.

(** [_pick_next_task] (lines 530-568); [build_playlist] is
    [_build_playlist_task]. *)
Definition pick_next_task (speaking allow : bool) (now : Q)
    (build_playlist : dispatcher -> option task * dispatcher) (d : dispatcher)
    : option task * dispatcher :=
  match pick_from_queue speaking allow now d with
  | (Picked t, d') => (Some t, d')
  | (NoTask, d') => (None, d')
  | (Fallthrough, d') => if speaking then (None, d') else build_playlist d'
  end.

(** [while pending_raw: next_text = str(pending_raw.pop(0) or "").strip()]. *)
Fixpoint pop_nonempty (l : list text) : text * list text :=
  match l with
  | [] => ([], [])
  | x :: r => let x' := strip x in if x' is [] then pop_nonempty r else (x', r)
  end.

(** [_task_prefix_for_source] (lines 373-375). *)
Definition task_prefix_for_source (src : string) : string :=
  if bool_decide (src = "reply") then "speak"
  else if bool_decide (src = "manual") then "manual"
  else if bool_decide (src = "playlist") then "playlist"
  else "task".

(** [_schedule_followup_segment(task)] (lines 377-404): returns the task
    with its pending list popped, and the dispatcher with the next segment
    appended; [fresh] is the [uuid4().hex[:12]] of the new task. *)
Definition schedule_followup_segment (fresh : string) (t : task) (d : dispatcher) : task * dispatcher :=
  match tmeta t !! "pending_segments" with
  | Some (MTexts ((_ :: _) as pending)) =>
      let '(next, rest) := pop_nonempty pending in
      let m := <["pending_segments" := MTexts rest]> (tmeta t) in
      let t' := set_meta m t in
      if next is [] then (t', d)
      else
        let next_meta := delete "retries" (<["segment_index" := MInt (meta_int m "segment_index" 1 + 1)]> m) in
        (t', append_task (mkTask (task_prefix_for_source (source t) +:+ "_" +:+ fresh) (source t) next
                            (priority t) false 0 next_meta) d)
  | _ => (t, d)
  end.

(** [_build_segmented_task] (lines 296-341): strip, cut to
    [max_text_chars], split, and make the first segment a task carrying
    the others as [pending_segments]; [group] and [fresh] are the two
    [uuid4] hex prefixes.  Returns the task (if any), the segment count and
    the character count. *)
Definition build_segmented_task (cfg : disp_config) (group fresh task_prefix src : string)
    (txt : text) (prio : Z) (intr : bool) (m0 : meta) : option task * Z * Z :=
  let normalized := strip txt in
  if normalized is [] then (None, 0, 0)
  else
    let '(normalized, m1) :=
      if Z.ltb (max_text_chars cfg) (Z.of_nat (length normalized))
      then (rstrip (take (Z.to_nat (max_text_chars cfg)) normalized), <["source_trimmed" := MBool true]> m0)
      else (normalized, m0) in
    let source_chars := Z.of_nat (length normalized) in
    match split_text_for_speech normalized (segment_max_chars cfg) with
    | [] => (None, 0, source_chars)
    | s0 :: rest =>
        let total := Z.of_nat (S (length rest)) in
        let m2 := <["segment_group_id" := MStr (src +:+ "_" +:+ group)]>
                    (<["segment_index" := MInt 1]>
                      (<["segment_total" := MInt total]> (<["source_chars" := MInt source_chars]> m1))) in
        let m3 := if Z.ltb 1 total then <["pending_segments" := MTexts rest]> m2 else m2 in
        (Some (mkTask (task_prefix +:+ "_" +:+ fresh) src s0 (clamp 0 100 prio) intr 0 m3), total, source_chars)
    end.

(** The dict [_enqueue_text_task] returns; when nothing is queued it has
    only the first three keys, and the readers' [.get(...) or 0] make the
    others 0 and [False]. *)
Record enqueue_result := mkEnqueued {
  er_task_id : string;
  er_segment_count : Z;
  er_char_count : Z;
  er_segment_max_chars : Z;
  er_text_trimmed : bool;
}.

Definition meta_flag (m : meta) (key : string) : bool :=
  match m !! key with Some (MBool b) => b | _ => false end.

(** [_enqueue_text_task] (lines 343-371). *)
Definition enqueue_text_task (cfg : disp_config) (group fresh task_prefix src : string)
    (txt : text) (prio : Z) (intr : bool) (m0 : meta) (d : dispatcher) : enqueue_result * dispatcher :=
  match build_segmented_task cfg group fresh task_prefix src txt prio intr m0 with
  | (Some t, total, chars) =>
      (mkEnqueued (task_id t) total chars (segment_max_chars cfg) (meta_flag (tmeta t) "source_trimmed"),
       append_task t d)
  | _ => (mkEnqueued "" 0 0 0 false, d)
  end.

(** [enqueue_reply] (lines 188-199): the task id, [""] when nothing was
    queued. *)
Definition enqueue_reply (cfg : disp_config) (group fresh reply_id : string) (txt : text)
    (intr : bool) (prio : Z) (d : dispatcher) : string * dispatcher :=
  let '(r, d') := enqueue_text_task cfg group fresh "speak" "reply" txt prio intr
                    {["reply_id" := MStr reply_id]} d in
  (er_task_id r, d').

(** [enqueue_manual_detail] (lines 207-217). *)
Definition enqueue_manual_detail (cfg : disp_config) (group fresh : string) (txt : text)
    (intr : bool) (prio : Z) (d : dispatcher) : enqueue_result * dispatcher :=
  enqueue_text_task cfg group fresh "manual" "manual" txt prio intr ∅ d.

Section Dispatch.
Local Open Scope Q_scope.
(** Python's [float(str)], which the sources only call. *)
Variable py_float : string -> option Q.

(** [_edge_rate_factor] (lines 235-244): "+20%" speeds speech up. *)
Definition edge_rate_factor (rate_text : string) : Q :=
  let rate := py_strip rate_text in
  if negb (py_endswith rate "%") then 1
  else
    match py_float (py_strip (py_drop_last rate)) with
    | Some num => qclamp (7 # 20) 2 (1 + num / 100)
    | None => 1
    end.

(** [_compute_dispatch_guard] (lines 246-260). *)
Definition compute_dispatch_guard (cfg : disp_config) (t : task) (ep : endpoint) : Q :=
  let n := inject_Z (Z.of_nat (length (strip (ttext t)))) in
  if Qle_bool n 0 then 0
  else
    let g := if bool_decide (py_lower (ep_model ep) = "musetalk")
             then dispatch_guard_musetalk_sec cfg + n * dispatch_guard_musetalk_per_char cfg
             else dispatch_guard_sec cfg + n * dispatch_guard_per_char cfg in
    let g := if bool_decide (py_lower (ep_tts ep) = "edgetts") then g / edge_rate_factor (ep_tts_rate ep)
             else g in
    Qmax 0 (Qmin 90 g).

(** The dispatcher with the rows it writes and the texts it has sent
    to [/human] (with their [interrupt] flag). *)
Record world := mkWorld {
  disp : dispatcher;
  reply_status : gmap string string;
  audit : list (string * string);
  sent : list (text * bool);
}.

Inductive outcome := Done (w : world) | Raised (w : world) (err : string).

(** [str(task.meta.get("reply_id") or "")]. *)
Definition reply_id_of (t : task) : string :=
  match tmeta t !! "reply_id" with Some (MStr s) => s | _ => ""%string end.

(** A reply's row is written when its last segment is sent or when it
    finally fails; [db_ok] is whether [execute] succeeds. *)
Definition mark_reply (db_ok : bool) (t : task) (status action : string) (d : dispatcher) (w : world)
    : outcome :=
  let rid := reply_id_of t in
  if bool_decide (source t = "reply") && negb (String.eqb rid "") then
    if db_ok then Done (mkWorld d (<[rid := status]> (reply_status w)) (audit w ++ [(action, rid)]) (sent w))
    else Raised (mkWorld d (reply_status w) (audit w) (sent w)) "database error"
  else Done (mkWorld d (reply_status w) (audit w) (sent w)).

(** [_dispatch_task] (lines 681-718), with the returned task carrying the
    meta changes [_schedule_followup_segment] made in place. *)
Definition dispatch_task (cfg : disp_config) (fresh now_ts : string) (now : Q) (send_ok db_ok : bool)
    (t : task) (ep : endpoint) (w : world) : task * outcome :=
  if negb send_ok then (t, Raised w "send failed")
  else
    let d := disp w in
    let seg_index := meta_int (tmeta t) "segment_index" 1 in
    let seg_total := meta_int (tmeta t) "segment_total" 1 in
    let d1 := mkDisp (dqueue d) (dsequence d) (next_dispatch_ts d) (playlist_cursor d)
                (playlist_last_emit_ts d) (playlist_schedule_cursor d)
                (Some (EvDispatched (task_id t) (source t) (priority t) seg_index seg_total))
                None (Some now_ts) in
    let '(t', d2) := schedule_followup_segment fresh t d1 in
    let d3 := if interrupt t then d2
              else mkDisp (dqueue d2) (dsequence d2)
                     (Qmax (next_dispatch_ts d2) (now + compute_dispatch_guard cfg t ep))
                     (playlist_cursor d2) (playlist_last_emit_ts d2) (playlist_schedule_cursor d2)
                     (last_event d2) (last_error d2) (last_dispatch_at d2) in
    let w' := mkWorld d3 (reply_status w) (audit w) (sent w ++ [(ttext t, interrupt t)]) in
    if Z.leb seg_total seg_index then (t', mark_reply db_ok t "sent_to_live" "reply_dispatch" d3 w')
    else (t', Done w').

(** [_handle_dispatch_error] (lines 720-756): up to three retries at the
    head of the queue, then give up (marking a reply [dispatch_failed]). *)
Definition handle_dispatch_error (err : string) (db_ok : bool) (t : task) (w : world) : outcome :=
  let d := disp w in
  let retries := meta_int (tmeta t) "retries" 0 in
  if Z.ltb retries 3 then
    let t' := set_meta (<["retries" := MInt (retries + 1)]> (tmeta t)) t in
    Done (mkWorld (mkDisp (t' :: dqueue d) (dsequence d) (next_dispatch_ts d) (playlist_cursor d)
                     (playlist_last_emit_ts d) (playlist_schedule_cursor d)
                     (Some (EvRetry (retries + 1) (task_id t))) (Some err) (last_dispatch_at d))
            (reply_status w) (audit w) (sent w))
  else
    let d' := mkDisp (dqueue d) (dsequence d) (next_dispatch_ts d) (playlist_cursor d)
                (playlist_last_emit_ts d) (playlist_schedule_cursor d)
                (Some (EvGaveUp (task_id t))) (Some err) (last_dispatch_at d) in
    mark_reply db_ok t "dispatch_failed" "reply_dispatch_failed" d' w.

(** Dispatching a picked task and handling its failure (lines 470-473);
    a failure of the error handler itself reaches the loop's outer
    handler (lines 474-476). *)
Definition run_task (cfg : disp_config) (fresh now_ts : string) (now : Q) (send_ok db_ok : bool)
    (t : task) (ep : endpoint) (w : world) : world :=
  match dispatch_task cfg fresh now_ts now send_ok db_ok t ep w with
  | (_, Done w') => w'
  | (t', Raised w' err) =>
      match handle_dispatch_error err db_ok t' w' with
      | Done w'' => w''
      | Raised w'' err' =>
          let d := disp w'' in
          mkWorld (mkDisp (dqueue d) (dsequence d) (next_dispatch_ts d) (playlist_cursor d)
                     (playlist_last_emit_ts d) (playlist_schedule_cursor d) (last_event d)
                     (Some err') (last_dispatch_at d))
            (reply_status w'') (audit w'') (sent w'')
      end
  end.

End Dispatch.

(** ** Lemmas on the queue *)

Lemma key_lt_irrefl t : key_lt t t = false.
Proof. unfold key_lt. destruct (Z.ltb_spec (priority t) (priority t)), (Z.ltb_spec (sequence t) (sequence t)); simpl; [lia..|by rewrite andb_false_r]. Qed.

Lemma key_lt_trans a b c : key_lt a b = true -> key_lt b c = true -> key_lt a c = true.
Proof.
  unfold key_lt. rewrite !orb_true_iff, !andb_true_iff, !Z.ltb_lt, !Z.eqb_eq. lia.
Qed.

(** [argmin_key] names an element with the least key, the first one. *)
Lemma argmin_key_spec q :
  q <> [] -> exists x, q !! argmin_key q = Some x /\ forall y, y ∈ q -> key_lt y x = false.
Proof.
  destruct q as [|t0 rest]; [done|]. intros _. unfold argmin_key.
  set (step := argmin_step).
  assert (Hgen : forall l bi bt i, (t0 :: rest) !! bi = Some bt -> drop i (t0 :: rest) = l ->
    (forall j y, (j < i)%nat -> (t0 :: rest) !! j = Some y -> key_lt y bt = false) ->
    exists x, (t0 :: rest) !! fst (fst (foldl step (bi, bt, i) l)) = Some x /\
              forall y, y ∈ t0 :: rest -> key_lt y x = false).
  { induction l as [|t l IH]; intros bi bt i Hbt Hdrop Hmin; simpl.
    - exists bt. split; [done|]. intros y [j Hj]%list_elem_of_lookup.
      apply (Hmin j); [|done]. apply lookup_lt_Some in Hj.
      destruct (decide (j < i)%nat); [done|]. exfalso.
      assert (length (drop i (t0 :: rest)) = 0%nat) by (by rewrite Hdrop). rewrite length_drop in H. lia.
    - assert (Hi : (t0 :: rest) !! i = Some t).
      { assert (Hd0 : drop i (t0 :: rest) !! 0%nat = Some t) by (by rewrite Hdrop).
        by rewrite lookup_drop, Nat.add_0_r in Hd0. }
      assert (Hdrop' : drop (S i) (t0 :: rest) = l).
      { replace (S i) with (i + 1)%nat by lia. rewrite <- drop_drop, Hdrop. done. }
      destruct (key_lt t bt) eqn:Hlt.
      + apply IH; [done|done|]. intros j y Hj Hy.
        destruct (decide (j = i)) as [->|]; [simplify_eq; apply key_lt_irrefl|].
        destruct (key_lt y t) eqn:E; [|done].
        pose proof (key_lt_trans _ _ _ E Hlt) as Hc. by rewrite (Hmin j y ltac:(lia) Hy) in Hc.
      + apply IH; [done|done|]. intros j y Hj Hy.
        destruct (decide (j = i)) as [->|]; [by simplify_eq|]. apply (Hmin j); [lia|done]. }
  apply (Hgen rest 0%nat t0 1%nat); [done|done|]. intros j y Hj Hy. assert (j = 0%nat) as -> by lia.
  injection Hy as <-. apply key_lt_irrefl.
Qed.

Lemma insert_index_spec t q :
  (forall x, x ∈ take (insert_index t q) q -> priority t <= priority x) /\
  (StronglySorted before q -> forall x, x ∈ drop (insert_index t q) q -> priority x < priority t).
Proof.
  unfold insert_index. destruct (list_find (fun qd => priority qd < priority t) q) as [[i y]|] eqn:E; simpl.
  - apply list_find_Some in E as (Hy & Hp & Hbefore). split.
    + intros x [j Hj]%list_elem_of_lookup. rewrite lookup_take_Some in Hj. destruct Hj as [Hj Hji].
      pose proof (Hbefore j x Hj Hji). lia.
    + intros Hs x Hx. rewrite (drop_S _ _ _ Hy) in Hx.
      rewrite <- (take_drop i q), (drop_S _ _ _ Hy) in Hs. clear Hbefore.
      apply StronglySorted_app_1_r, StronglySorted_cons in Hs as [Hf _].
      apply elem_of_cons in Hx as [->|Hx]; [done|].
      rewrite Forall_forall in Hf. destruct (Hf x Hx) as [?|[? _]]; lia.
  - apply list_find_None in E. rewrite firstn_all, drop_all. split; [|set_solver].
    intros x Hx. rewrite Forall_forall in E. specialize (E x Hx). simpl in E. lia.
Qed.

Lemma insert_sorted t q :
  StronglySorted before q -> Forall (fun x => sequence x < sequence t) q ->
  StronglySorted before (list_insert (insert_index t q) t q).
Proof.
  intros Hs Hseq. destruct (insert_index_spec t q) as [Hl Hr]. specialize (Hr Hs).
  unfold list_insert. rewrite <- (take_drop (insert_index t q) q) in Hs.
  apply StronglySorted_app_2.
  - intros x1 x2 Hx1 [->|Hx2]%elem_of_cons.
    + rewrite Forall_forall in Hseq. pose proof (Hl x1 Hx1).
      assert (sequence x1 < sequence t) by (apply Hseq; by eapply elem_of_take_in).
      unfold before. lia.
    + by eapply StronglySorted_app_1_elem_of.
  - by eapply StronglySorted_app_1_l.
  - apply StronglySorted_cons. split; [|by eapply StronglySorted_app_1_r].
    apply Forall_forall. intros x Hx. left. by apply Hr.
Qed.

Lemma list_insert_perm {A} i (x : A) l : list_insert i x l ≡ₚ x :: l.
Proof.
  unfold list_insert. rewrite <- Permutation_middle. by rewrite take_drop.
Qed.

Lemma append_task_queue t d :
  dqueue (append_task t d) =
    let t1 := set_sequence (dsequence d) t in
    let q1 := if decide (500 <= length (dqueue d))%nat then delete (argmin_key (dqueue d)) (dqueue d)
              else dqueue d in
    list_insert (insert_index t1 q1) t1 q1.
Proof. unfold append_task. by destruct (decide _). Qed.

Lemma append_task_dsequence t d : dsequence (append_task t d) = dsequence d + 1.
Proof. unfold append_task. by destruct (decide _). Qed.

(** The list the new task is inserted into: the queue, or the queue
    without its least task when it holds 500 or more. *)
Lemma append_task_base t d :
  let q := dqueue d in
  exists q1, dqueue (append_task t d) = list_insert (insert_index (set_sequence (dsequence d) t) q1)
                                          (set_sequence (dsequence d) t) q1 /\
    q1 `sublist_of` q /\
    (((length q < 500)%nat /\ q1 = q) \/
     ((500 <= length q)%nat /\ exists x, q ≡ₚ x :: q1 /\ x ∈ q /\ forall y, y ∈ q -> key_lt y x = false)).
Proof.
  simpl. rewrite append_task_queue. simpl. destruct (decide _) as [Hfull|Hroom].
  - eexists. split; [reflexivity|]. split; [apply sublist_delete|]. right. split; [lia|].
    destruct (argmin_key_spec (dqueue d)) as (x & Hx & Hmin); [intros E; rewrite E in Hfull; simpl in Hfull; lia|].
    exists x. split_and!; [|by eapply list_elem_of_lookup_2|done].
    by apply delete_Permutation.
  - eexists. split; [reflexivity|]. split; [done|]. left. split; [lia|done].
Qed.

(** ** Theorems on the queue *)

(** C17: the queue invariant.  [_append_task] keeps the queue ordered
    (higher priority first, FIFO among equal priorities), keeps every
    sequence number below the counter, and never lets the queue grow
    beyond 500 tasks. *)
Theorem append_task_wf t d :
  queue_wf d -> (length (dqueue d) <= 500)%nat ->
  queue_wf (append_task t d) /\ (length (dqueue (append_task t d)) <= 500)%nat.
Proof.
  intros [Hs Hseq] Hlen. unfold queue_wf. rewrite append_task_dsequence.
  destruct (append_task_base t d) as (q1 & -> & Hsub & Hcase).
  set (t1 := set_sequence (dsequence d) t).
  assert (Hseq1 : Forall (fun x => sequence x < dsequence d) q1).
  { rewrite Forall_forall in Hseq |- *. intros x Hx. apply Hseq.
    eapply elem_of_submseteq; [done|by apply sublist_submseteq]. }
  split_and!.
  - apply insert_sorted; [by eapply StronglySorted_sublist|done].
  - rewrite list_insert_perm. constructor; [simpl; lia|]. eapply Forall_impl; [done|]. simpl. lia.
  - rewrite list_insert_perm. destruct Hcase as [[Hl ->]|[Hl (x & Hp & _)]]; simpl; [lia|].
    apply Permutation_length in Hp. simpl in Hp. lia.
Qed.

(** C18: eviction.  Below 500 tasks the new task is simply added; from 500
    on, exactly one queued task leaves, the one with the least
    [(priority, sequence)], i.e. the oldest of the lowest priority; the
    new task always enters. *)
Theorem append_task_evicts t d :
  let t1 := set_sequence (dsequence d) t in
  ((length (dqueue d) < 500)%nat -> dqueue (append_task t d) ≡ₚ t1 :: dqueue d) /\
  ((500 <= length (dqueue d))%nat -> exists x, x ∈ dqueue d /\
     (forall y, y ∈ dqueue d -> key_lt y x = false) /\
     x :: dqueue (append_task t d) ≡ₚ t1 :: dqueue d).
Proof.
  simpl. destruct (append_task_base t d) as (q1 & -> & _ & [[Hl ->]|[Hl (x & Hp & Hx & Hmin)]]).
  - split; [intros; apply list_insert_perm|lia].
  - split; [lia|]. intros _. exists x. split_and!; [done|done|].
    rewrite list_insert_perm, Hp. apply perm_swap.
Qed.

(** ** Picking, dispatching and retrying *)

Lemma pick_from_queue_taken speaking allow now d t d' :
  pick_from_queue speaking allow now d = (Picked t, d') ->
  dqueue d ≡ₚ t :: dqueue d' /\ next_dispatch_ts d' = next_dispatch_ts d.
Proof.
  unfold pick_from_queue. destruct (dqueue d) as [|t0 rest] eqn:Hq; [done|].
  assert (Htake : forall P `{!forall x, Decision (P x)} i x,
            list_find P (dqueue d) = Some (i, x) -> (Picked x, take_at i d) = (Picked t, d') ->
            dqueue d ≡ₚ t :: dqueue d' /\ next_dispatch_ts d' = next_dispatch_ts d).
  { intros P ? i x [Hx _]%list_find_Some [= <- <-]. split; [|done]. simpl.
    by apply delete_Permutation. }
  rewrite <- Hq. destruct speaking.
  - destruct (list_find (fun t => interrupt t = true) (dqueue d)) as [[i x]|] eqn:E1;
      [by eapply Htake|].
    destruct (_ && _); [|done].
    destruct (list_find (fun t => interrupt t = false /\ is_followup_segment t = true) (dqueue d))
      as [[i x]|] eqn:E2; [by eapply Htake|done].
  - destruct (Qlt_bool _ _).
    + destruct (list_find (fun t => interrupt t = true) (dqueue d)) as [[i x]|] eqn:E1;
        [by eapply Htake|done].
    + intros [= <- <-]. simpl. by rewrite Hq.
Qed.

Lemma schedule_followup_next_ts fresh t d :
  next_dispatch_ts (schedule_followup_segment fresh t d).2 = next_dispatch_ts d.
Proof.
  unfold schedule_followup_segment.
  destruct (tmeta t !! "pending_segments") as [[| | |[|p ps]]|]; try done.
  destruct (pop_nonempty _) as [[|c cs] rest]; [done|]. simpl. unfold append_task. by destruct (decide _).
Qed.

Section DispatchTheorems.
Variable py_float : string -> option Q.

(** C19: the pick policy.  While the avatar speaks, only an interrupting
    task, or (with prefetch allowed and the guard elapsed) a follow-up
    segment, is taken; while it is silent but the dispatch guard still
    runs, only an interrupting queued task is taken.  A task taken from
    the queue leaves it, and the guard time is unchanged. *)
Theorem pick_respects_speaking speaking allow now build d t d' :
  dqueue d <> [] -> pick_next_task speaking allow now build d = (Some t, d') ->
  dqueue d ≡ₚ t :: dqueue d' /\
  (speaking = true -> interrupt t = true \/
     (allow = true /\ Qle_bool (next_dispatch_ts d) now = true /\ is_followup_segment t = true)) /\
  (speaking = false -> Qlt_bool now (next_dispatch_ts d) = true -> interrupt t = true).
Proof.
  intros Hne. unfold pick_next_task.
  destruct (pick_from_queue speaking allow now d) as [[x| |] d1] eqn:E.
  - intros [= <- <-]. split; [by eapply pick_from_queue_taken|].
    revert E. unfold pick_from_queue. destruct (dqueue d) as [|t0 rest] eqn:Hq; [done|].
    rewrite <- Hq. destruct speaking.
    + destruct (list_find (fun t => interrupt t = true) (dqueue d)) as [[i y]|] eqn:E1.
      * apply list_find_Some in E1 as (_ & Hy & _). intros [= -> _]. split; [by left|done].
      * destruct (allow && _) eqn:Ha; [|done]. apply andb_true_iff in Ha as [-> ->].
        destruct (list_find (fun t => interrupt t = false /\ is_followup_segment t = true) (dqueue d))
          as [[i y]|] eqn:E2; [|done].
        apply list_find_Some in E2 as (_ & [_ Hf] & _). intros [= -> _]. split; [by right|done].
    + destruct (Qlt_bool _ _) eqn:Hlt.
      * destruct (list_find (fun t => interrupt t = true) (dqueue d)) as [[i y]|] eqn:E1; [|done].
        apply list_find_Some in E1 as (_ & Hy & _). intros [= -> _]. by split.
      * intros [= -> _]. split; [done|]. intros _ Hc. congruence.
  - done.
  - revert E. unfold pick_from_queue. destruct (dqueue d) as [|t0 rest] eqn:Hq; [done|].
    rewrite <- Hq. destruct speaking; [intros _ [=]|].
    destruct (Qlt_bool _ _); [|done].
    by destruct (list_find (fun t => interrupt t = true) (dqueue d)) as [[??]|].
Qed.

(** the dispatch guard of a task lies in [[0, 90]] seconds and is zero
    for a text that is blank after stripping. *)
Theorem dispatch_guard_bounds cfg t ep :
  (0 <= compute_dispatch_guard py_float cfg t ep <= 90)%Q /\
  (strip (ttext t) = [] -> compute_dispatch_guard py_float cfg t ep = 0%Q).
Proof.
  unfold compute_dispatch_guard. split.
  - destruct (Qle_bool _ 0); [split; discriminate|].
    split; [apply Q.le_max_l|]. apply Q.max_lub; [discriminate|apply Q.le_min_l].
  - intros ->. done.
Qed.

(** after a successful send of a task that does not interrupt, the
    next non-interrupting dispatch waits at least its guard: the guard
    time only grows and covers [now + guard]. *)
Theorem dispatch_sets_guard cfg fresh now_ts now db_ok t ep w t' w' :
  interrupt t = false ->
  dispatch_task py_float cfg fresh now_ts now true db_ok t ep w = (t', Done w') ->
  (next_dispatch_ts (disp w) <= next_dispatch_ts (disp w'))%Q /\
  (now + compute_dispatch_guard py_float cfg t ep <= next_dispatch_ts (disp w'))%Q /\
  sent w' = sent w ++ [(ttext t, false)].
Proof.
  intros Hi. unfold dispatch_task. simpl.
  destruct (schedule_followup_segment fresh t _) as [t2 d2] eqn:Hs.
  pose proof (schedule_followup_next_ts fresh t
    (mkDisp (dqueue (disp w)) (dsequence (disp w)) (next_dispatch_ts (disp w)) (playlist_cursor (disp w))
       (playlist_last_emit_ts (disp w)) (playlist_schedule_cursor (disp w))
       (Some (EvDispatched (task_id t) (source t) (priority t) (meta_int (tmeta t) "segment_index" 1)
                (meta_int (tmeta t) "segment_total" 1))) None (Some now_ts))) as Hts.
  rewrite Hs in Hts. simpl in Hts. rewrite Hi.
  assert (Hgoal : forall w'', (next_dispatch_ts (disp w'') =
              Qmax (next_dispatch_ts d2) (now + compute_dispatch_guard py_float cfg t ep)) ->
            sent w'' = sent w ++ [(ttext t, false)] ->
            (next_dispatch_ts (disp w) <= next_dispatch_ts (disp w''))%Q /\
            (now + compute_dispatch_guard py_float cfg t ep <= next_dispatch_ts (disp w''))%Q /\
            sent w'' = sent w ++ [(ttext t, false)]).
  { intros w'' -> ->. rewrite Hts. split_and!; [apply Q.le_max_l|apply Q.le_max_r|done]. }
  destruct (Z.leb _ _).
  - unfold mark_reply. destruct (_ && _); [destruct db_ok|]; intros [=]; subst; by apply Hgoal.
  - intros [= <- <-]. by apply Hgoal.
Qed.

Lemma meta_int_insert m key z dflt : z <> 0 -> meta_int (<[key := MInt z]> m) key dflt = z.
Proof. intros Hz. unfold meta_int. rewrite lookup_insert_eq. by destruct (Z.eqb_spec z 0). Qed.

(** Scheduling the follow-up only pops the task's own pending list. *)
Lemma schedule_followup_task fresh t d :
  let t' := (schedule_followup_segment fresh t d).1 in
  ttext t' = ttext t /\ interrupt t' = interrupt t /\ source t' = source t /\
  task_id t' = task_id t /\ meta_int (tmeta t') "retries" 0 = meta_int (tmeta t) "retries" 0 /\
  reply_id_of t' = reply_id_of t.
Proof.
  unfold schedule_followup_segment.
  destruct (tmeta t !! "pending_segments") as [[| | |[|p ps]]|]; try done.
  destruct (pop_nonempty _) as [[|c cs] rest]; simpl;
    unfold meta_int, reply_id_of; simpl; by rewrite !lookup_insert_ne.
Qed.

(** C21: the retry policy.  A failed task with fewer than three retries goes
    back to the head of the queue with its retry count increased; from the
    third retry on it is dropped, and a reply is then marked
    [dispatch_failed] with an audit entry. *)
Theorem handle_dispatch_error_spec err db_ok t w :
  let k := meta_int (tmeta t) "retries" 0 in
  0 <= k ->
  (k < 3 -> exists w' t', handle_dispatch_error err db_ok t w = Done w' /\
      dqueue (disp w') = t' :: dqueue (disp w) /\ last_error (disp w') = Some err /\
      ttext t' = ttext t /\ interrupt t' = interrupt t /\
      meta_int (tmeta t') "retries" 0 = k + 1 /\ reply_status w' = reply_status w) /\
  (3 <= k -> source t = "reply"%string -> reply_id_of t <> ""%string -> db_ok = true ->
     exists w', handle_dispatch_error err db_ok t w = Done w' /\ dqueue (disp w') = dqueue (disp w) /\
       reply_status w' !! reply_id_of t = Some "dispatch_failed"%string /\
       audit w' = audit w ++ [("reply_dispatch_failed", reply_id_of t)]%string).
Proof.
  simpl. intros Hk. unfold handle_dispatch_error. split.
  - intros Hlt. destruct (Z.ltb_spec (meta_int (tmeta t) "retries" 0) 3); [|lia].
    do 2 eexists. split; [reflexivity|]. simpl. split_and!; try done. apply meta_int_insert. lia.
  - intros Hge Hsrc Hrid Hdb. destruct (Z.ltb_spec (meta_int (tmeta t) "retries" 0) 3); [lia|].
    unfold mark_reply. rewrite Hsrc, Hdb. simpl.
    destruct (String.eqb_spec (reply_id_of t) ""); [done|]. simpl.
    eexists. split; [reflexivity|]. simpl. by rewrite lookup_insert_eq.
Qed.

(** C20: a database failure after a successful send makes the dispatcher
    speak the same text twice.  When the last segment of a reply has been
    sent but marking the reply [sent_to_live] fails, the error handler puts
    the already-sent task back at the head of the queue, from where the
    next dispatch sends it again; the reply row is left unchanged. *)
Theorem db_failure_resends cfg fresh now_ts now t ep w :
  source t = "reply"%string -> reply_id_of t <> ""%string ->
  meta_int (tmeta t) "segment_total" 1 <= meta_int (tmeta t) "segment_index" 1 ->
  0 <= meta_int (tmeta t) "retries" 0 < 3 ->
  let w' := run_task py_float cfg fresh now_ts now true false t ep w in
  sent w' = sent w ++ [(ttext t, interrupt t)] /\ reply_status w' = reply_status w /\
  exists t' rest, dqueue (disp w') = t' :: rest /\ ttext t' = ttext t /\ interrupt t' = interrupt t.
Proof.
  intros Hsrc Hrid Hseg Hk. simpl. unfold run_task, dispatch_task. simpl.
  destruct (schedule_followup_segment fresh t _) as [t1 d2] eqn:Hs.
  match type of Hs with schedule_followup_segment _ _ ?d = _ =>
    pose proof (schedule_followup_task fresh t d) as Ht end.
  rewrite Hs in Ht. simpl in Ht. destruct Ht as (Htext & Hint & Hsrc1 & _ & Hret & Hrid1).
  destruct (Z.leb_spec (meta_int (tmeta t) "segment_total" 1) (meta_int (tmeta t) "segment_index" 1)); [|lia].
  unfold mark_reply. rewrite Hsrc. simpl. destruct (String.eqb_spec (reply_id_of t) ""); [done|]. simpl.
  unfold handle_dispatch_error. rewrite Hret.
  destruct (Z.ltb_spec (meta_int (tmeta t) "retries" 0) 3); [|lia]. simpl.
  split_and!; [done|done|]. do 2 eexists. split; [reflexivity|]. by split.
Qed.

(** C22: long texts.  A text is queued as its first segment, carrying the
    remaining segments; the segments together are exactly the stripped
    text when it has no inner whitespace and fits [max_text_chars], each
    is at most [segment_max_chars] long, and the priority is clamped to
    [[0, 100]]. *)
Theorem segmented_task_covers_text cfg group fresh prefix src txt prio intr m0 :
  0 < segment_max_chars cfg ->
  Forall (fun c => py_isspace c = false) (strip txt) ->
  Z.of_nat (length (strip txt)) <= max_text_chars cfg ->
  strip txt <> [] ->
  exists t segs, build_segmented_task cfg group fresh prefix src txt prio intr m0 =
      (Some t, Z.of_nat (length segs), Z.of_nat (length (strip txt))) /\
    segs = ttext t :: (if Z.ltb 1 (Z.of_nat (length segs)) then
                         match tmeta t !! "pending_segments" with Some (MTexts l) => l | _ => [] end
                       else []) /\
    mjoin segs = strip txt /\
    Forall (fun c => c <> [] /\ Z.of_nat (length c) <= segment_max_chars cfg) segs /\
    0 <= priority t <= 100.
Proof.
  intros Hmax Hns Hlen Hne. unfold build_segmented_task.
  destruct (strip txt) as [|c cs] eqn:Hs; [done|]. rewrite <- Hs in *.
  destruct (Z.ltb_spec (max_text_chars cfg) (Z.of_nat (length (strip txt)))); [lia|].
  pose proof (split_roundtrip (strip txt) (segment_max_chars cfg) Hns) as Hrt.
  pose proof (split_segments_bounded (strip txt) (segment_max_chars cfg) Hmax) as Hb.
  destruct (split_text_for_speech (strip txt) (segment_max_chars cfg)) as [|s0 rest] eqn:Hsp.
  { simpl in Hrt. rewrite Hs in Hrt. done. }
  exists (mkTask (prefix +:+ "_" +:+ fresh) src s0 (clamp 0 100 prio) intr 0
       (let m2 := <["segment_group_id" := MStr (src +:+ "_" +:+ group)]>
                    (<["segment_index" := MInt 1]>
                      (<["segment_total" := MInt (Z.of_nat (S (length rest)))]>
                        (<["source_chars" := MInt (Z.of_nat (length (strip txt)))]> m0))) in
        if Z.ltb 1 (Z.of_nat (S (length rest))) then <["pending_segments" := MTexts rest]> m2 else m2)),
    (s0 :: rest).
  split; [done|]. split_and!; [|done|done|simpl; pose proof (clamp_bounds 0 100 prio); lia..].
  simpl. destruct (Z.ltb_spec 1 (Z.of_nat (S (length rest)))); simpl.
  - by rewrite lookup_insert_eq.
  - destruct rest; [done|simpl in *; lia].
Qed.

(** the next segment.  After a segment is sent, the first non-blank
    pending segment becomes a new non-interrupting task of the same
    source and priority, numbered one further, carrying the rest of the
    pending list and no retry count; the sent task keeps only the rest. *)
Theorem followup_next_segment fresh t d p ps :
  tmeta t !! "pending_segments" = Some (MTexts (p :: ps)) -> strip p <> [] ->
  exists nt, schedule_followup_segment fresh t d =
      (set_meta (<["pending_segments" := MTexts ps]> (tmeta t)) t, append_task nt d) /\
    ttext nt = strip p /\ source nt = source t /\ priority nt = priority t /\ interrupt nt = false /\
    tmeta nt !! "segment_index" = Some (MInt (meta_int (tmeta t) "segment_index" 1 + 1)) /\
    tmeta nt !! "pending_segments" = Some (MTexts ps) /\ tmeta nt !! "retries" = None.
Proof.
  intros Hp Hs. unfold schedule_followup_segment. rewrite Hp. simpl.
  destruct (strip p) as [|c cs] eqn:E; [done|]. eexists. split; [reflexivity|]. simpl.
  unfold meta_int at 1. rewrite lookup_insert_ne by done.
  split_and!; try done.
  - rewrite lookup_delete_ne by done. by rewrite lookup_insert_eq.
  - rewrite lookup_delete_ne by done. rewrite lookup_insert_ne by done. by rewrite lookup_insert_eq.
  - by rewrite lookup_delete_eq.
Qed.

End DispatchTheorems.

(** ** Examples *)

Definition ex_py_float : string -> option Q := fun _ => None.

Definition hi : text := [104; 105].

Definition ex_task (id : string) (prio : Z) (intr : bool) (m : meta) : task :=
  mkTask id "reply" hi prio intr 0 m.

Definition ex_world : world := mkWorld init_dispatcher ∅ [] [].

Definition ex_cfg : disp_config := mkDispConfig 70 200000 (6 # 5) (1 # 20) 4 (4 # 25) "auto".

Definition ex_endpoint : endpoint := mkEndpoint true None "virtualcam" 8010 "musetalk" "edgetts" "+20%".

Lemma append_task_wf_witness :
  queue_wf (append_task (ex_task "a" 50 false ∅) init_dispatcher) /\
  (length (dqueue (append_task (ex_task "a" 50 false ∅) init_dispatcher)) <= 500)%nat.
Proof.
  apply append_task_wf; [split; constructor|simpl; lia].
Defined.

(** 500 queued tasks of priority 80 and a newcomer of priority 10: a
    priority-80 task is evicted and the newcomer is queued. *)
Definition full_disp : dispatcher :=
  mkDisp (replicate 500 (ex_task "old" 80 false ∅)) 500 0 ∅ ∅ 0 None None None.

Lemma append_task_evicts_witness :
  exists x, x ∈ dqueue full_disp /\ priority x = 80 /\
    x :: dqueue (append_task (ex_task "low" 10 false ∅) full_disp)
      ≡ₚ set_sequence 500 (ex_task "low" 10 false ∅) :: dqueue full_disp.
Proof.
  destruct (proj2 (append_task_evicts (ex_task "low" 10 false ∅) full_disp) ltac:(vm_compute; lia))
    as (x & Hx & _ & Hp).
  exists x. split_and!; [exact Hx| |exact Hp].
  apply elem_of_replicate in Hx as [-> _]. reflexivity.
Defined.

Definition urgent_disp : dispatcher :=
  set_dqueue [ex_task "calm" 50 false ∅; ex_task "urgent" 50 true ∅] init_dispatcher.

Lemma pick_respects_speaking_witness :
  exists t d', pick_next_task true true 0 (fun d => (None, d)) urgent_disp = (Some t, d') /\
    interrupt t = true.
Proof.
  destruct (pick_next_task true true 0 (fun d => (None, d)) urgent_disp) as [[t|] d'] eqn:Hp;
    [|vm_compute in Hp; discriminate].
  destruct (pick_respects_speaking true true 0 (fun d => (None, d)) urgent_disp t d')
    as (_ & Hs & _); [discriminate|exact Hp|].
  exists t, d'. split; [reflexivity|].
  destruct (Hs eq_refl) as [Hi|(_ & _ & Hf)]; [exact Hi|].
  vm_compute in Hp. injection Hp as <- _. vm_compute in Hf. discriminate.
Defined.

Lemma handle_dispatch_error_spec_witness :
  exists w' t', handle_dispatch_error "send failed" true (ex_task "a" 50 false ∅) ex_world = Done w' /\
    dqueue (disp w') = [t'] /\ meta_int (tmeta t') "retries" 0 = 1.
Proof.
  assert (H0 : 0 <= meta_int (tmeta (ex_task "a" 50 false ∅)) "retries" 0)
    by (vm_compute; intros ?; discriminate).
  destruct (handle_dispatch_error_spec "send failed" true (ex_task "a" 50 false ∅) ex_world H0)
    as [Hlt _].
  destruct (Hlt ltac:(vm_compute; reflexivity)) as (w' & t' & Hd & Hq & _ & _ & _ & Hr & _).
  exists w', t'. split_and!; [exact Hd|exact Hq|exact Hr].
Defined.

Definition reply_task : task := ex_task "speak_1" 80 false {["reply_id" := MStr "r1"]}.

Lemma db_failure_resends_witness :
  sent (run_task ex_py_float ex_cfg "f" "now" 0 true false reply_task ex_endpoint ex_world) = [(hi, false)] /\
  reply_status (run_task ex_py_float ex_cfg "f" "now" 0 true false reply_task ex_endpoint ex_world) = ∅.
Proof.
  destruct (db_failure_resends ex_py_float ex_cfg "f" "now" 0 reply_task ex_endpoint ex_world)
    as (Hs & Hr & _); [reflexivity|discriminate|vm_compute; intros ?; discriminate|vm_compute; split; [intros ?; discriminate|reflexivity]|].
  split; [exact Hs|exact Hr].
Defined.

(** A text of 150 characters without spaces, cut into three segments of
    at most 70 characters that join back to it. *)
Definition long_text : text := repeat 97 150.

Lemma segmented_task_covers_text_witness :
  exists t segs, build_segmented_task ex_cfg "g" "f" "speak" "reply" long_text 50 false ∅ =
      (Some t, Z.of_nat (length segs), 150) /\ length segs = 3%nat /\ mjoin segs = long_text.
Proof.
  destruct (segmented_task_covers_text ex_cfg "g" "f" "speak" "reply" long_text 50 false ∅)
    as (t & segs & Hb & _ & Hj & _);
    [vm_compute; reflexivity
    |match goal with |- ?P => apply (bool_decide_eq_true_1 P) end; vm_compute; reflexivity
    |vm_compute; discriminate|vm_compute; discriminate|].
  assert (Hstrip : strip long_text = long_text) by (vm_compute; reflexivity).
  rewrite Hstrip in Hb, Hj. exists t, segs. split_and!; [exact Hb| |exact Hj].
  assert (Hv : (build_segmented_task ex_cfg "g" "f" "speak" "reply" long_text 50 false ∅).1.2 = 3)
    by (vm_compute; reflexivity).
  rewrite Hb in Hv. simpl in Hv. lia.
Defined.

Definition segmented : task := ex_task "speak_1" 80 false {["pending_segments" := MTexts [[111; 107]]]}.

Lemma followup_next_segment_witness :
  exists nt, schedule_followup_segment "f2" segmented init_dispatcher =
      (set_meta (<["pending_segments" := MTexts []]> (tmeta segmented)) segmented,
       append_task nt init_dispatcher) /\ ttext nt = [111; 107].
Proof.
  destruct (followup_next_segment "f2" segmented init_dispatcher [111; 107] [] eq_refl)
    as (nt & Hs & Ht & _); [discriminate|].
  exists nt. split; [exact Hs|exact Ht].
Defined.

End Dispatcher.
