(* ===== verification/LiveEndpoint.v ===== *)
(** * LiveEndpoint: the avatar process command line, written and read back

    The control API starts the avatar process ([app.py]) with the command
    line built by [_build_command] ([src/apps/control_api/main.py], lines
    980-1039); the speaker dispatcher later reads that command line back
    with [_resolve_live_endpoint]
    ([src/apps/control_api/speaker_dispatcher.py], lines 478-528) to learn
    the transport, port, model and TTS settings.  The scan looks at every
    token with its successor, as the Python [for i, token in
    enumerate(cmdline)] loop does.  [int()] and [str()] of integers are
    [py_int] and [py_str_int] (ASCII digits with an optional sign and
    surrounding whitespace; the underscore separators and non-ASCII digits
    that [int()] also accepts are not modelled).

    The main theorem is the round trip: reading back a command line built
    from start options whose values are not themselves option flags gives
    exactly the transport, port, model and TTS the options named. *)

From S2P Require Import Prelude TextSplit Dispatcher.

Module LiveEndpoint.
Import Dispatcher.
Local Open Scope Z_scope.

(** ** [int(s)] and [str(n)] *)

Definition digit_of (c : Ascii.ascii) : option Z :=
  let n := Ascii.nat_of_ascii c in
  if (48 <=? n)%nat && (n <=? 57)%nat then Some (Z.of_nat n - 48) else None.

Fixpoint parse_digits (l : list Ascii.ascii) (acc : Z) : option Z :=
  match l with
  | [] => Some acc
  | c :: r => d ← digit_of c; parse_digits r (10 * acc + d)
  end.

Definition minus_sign : Ascii.ascii := Ascii.ascii_of_nat 45.
Definition plus_sign : Ascii.ascii := Ascii.ascii_of_nat 43.

(** [int(s)] for a decimal string. *)
Definition py_int (s : string) : option Z :=
  match String.list_ascii_of_string (py_strip s) with
  | [] => None
  | c :: r =>
      if Ascii.eqb c minus_sign then (if r is [] then None else Z.opp <$> parse_digits r 0)
      else if Ascii.eqb c plus_sign then (if r is [] then None else parse_digits r 0)
      else parse_digits (c :: r) 0
  end.

Definition ascii_of_digit (d : Z) : Ascii.ascii := Ascii.ascii_of_nat (Z.to_nat (48 + d)).

(** The decimal digits of [n >= 0], last digit first. *)
Fixpoint digits_rev (fuel : nat) (n : Z) : list Ascii.ascii :=
  match fuel with
  | O => []
  | S f => ascii_of_digit (n mod 10) :: (if n <? 10 then [] else digits_rev f (n / 10))
  end.

(** [str(n)]. *)
Definition py_str_int (z : Z) : string :=
  String.string_of_list_ascii
    ((if z <? 0 then [minus_sign] else []) ++ rev (digits_rev (S (Z.to_nat (Z.log2 (Z.abs z)))) (Z.abs z))).

(** ** The command line *)

(** The fields of [settings] ([config.py]) the two functions use. *)
Record settings := mkSettings {
  python_exec : string;
  app_entry : string;
  default_transport : string;
  default_listen_port : Z;
}.

(** What [_load_start_options] returns (lines 938-977); a missing or
    [None] option is [None]. *)
Record start_options := mkOpts {
  o_transport : string;
  o_model : string;
  o_avatar_id : string;
  o_listen_port : Z;
  o_tts : option string;
  o_tts_server : option string;
  o_ref_file : option string;
  o_ref_text : option string;
  o_extra_args : list (option string);
}.

(** [if opts.get(key): cmd.extend([flag, str(value)])]. *)
Definition opt_flag (flag : string) (o : option string) : list string :=
  match o with
  | Some v => if String.eqb v "" then [] else [flag; v]
  | None => []
  end.

(** The [while i < len(normalized_extra_args)] loop (lines 1010-1037). *)
Fixpoint build_extra (toks : list string) : list string :=
  match toks with
  | [] => []
  | t :: rest =>
      let tok := py_strip t in
      if String.eqb tok "" then build_extra rest
      else if String.eqb tok "--TTS_RATE" then
        match rest with
        | [] => []
        | v :: rest' =>
            let value := py_strip v in
            (if String.eqb value "" then [] else ["--TTS_RATE=" +:+ value]) ++ build_extra rest'
        end
      else if String.eqb tok "--push_url" then
        match rest with
        | [] => []
        | v :: rest' =>
            let value := py_strip v in
            (if String.eqb value "" then [] else ["--push_url"; value]) ++ build_extra rest'
        end
      else tok :: build_extra rest
  end.

(** [_build_command(opts)] (lines 980-1039). *)
Definition build_command (st : settings) (o : start_options) : list string :=
  [python_exec st; app_entry st; "--transport"; o_transport o; "--model"; o_model o;
   "--avatar_id"; o_avatar_id o; "--listenport"; py_str_int (o_listen_port o)]
  ++ opt_flag "--tts" (o_tts o) ++ opt_flag "--TTS_SERVER" (o_tts_server o)
  ++ opt_flag "--REF_FILE" (o_ref_file o) ++ opt_flag "--REF_TEXT" (o_ref_text o)
  ++ build_extra (omap id (o_extra_args o)).

Record scan := mkScan {
  s_transport : string;
  s_port : Z;
  s_model : string;
  s_tts : string;
  s_rate : string;
}.

Definition rate_prefix : string := "--TTS_RATE=".

(** [str.startswith]. *)
Definition py_startswith (s prefix : string) : bool :=
  String.eqb (String.substring 0 (String.length prefix) s) prefix.

(** The body of the scan loop (lines 487-503) for [token] and, when
    [i + 1 < len(cmdline)], its successor. *)
Definition scan_token (st : settings) (tok : string) (next : option string) (s : scan) : scan :=
  let from_prefix := py_strip (String.substring (String.length rate_prefix)
                                 (String.length tok - String.length rate_prefix) tok) in
  match next with
  | Some v =>
      if String.eqb tok "--transport" then mkScan v (s_port s) (s_model s) (s_tts s) (s_rate s)
      else if String.eqb tok "--listenport" then
        mkScan (s_transport s) (default (default_listen_port st) (py_int v)) (s_model s) (s_tts s) (s_rate s)
      else if String.eqb tok "--model" then mkScan (s_transport s) (s_port s) v (s_tts s) (s_rate s)
      else if String.eqb tok "--tts" then mkScan (s_transport s) (s_port s) (s_model s) v (s_rate s)
      else if py_startswith tok rate_prefix then
        mkScan (s_transport s) (s_port s) (s_model s) (s_tts s) from_prefix
      else if String.eqb tok "--TTS_RATE" then mkScan (s_transport s) (s_port s) (s_model s) (s_tts s) v
      else s
  | None =>
      if py_startswith tok rate_prefix then
        mkScan (s_transport s) (s_port s) (s_model s) (s_tts s) from_prefix
      else s
  end.

Fixpoint scan_cmdline (st : settings) (toks : list string) (s : scan) : scan :=
  match toks with
  | [] => s
  | tok :: rest => scan_cmdline st rest (scan_token st tok (head rest) s)
  end.

(** [_resolve_live_endpoint(live)] (lines 478-528). *)
Definition resolve_live_endpoint (st : settings) (cmdline : list string) : endpoint :=
  let s := scan_cmdline st cmdline (mkScan (default_transport st) (default_listen_port st) "wav2lip" "" "") in
  let webrtc := String.eqb (s_transport s) "webrtc" in
  mkEndpoint (negb webrtc) (if webrtc then Some "webrtc"%string else None)
    (s_transport s) (s_port s) (s_model s) (s_tts s) (s_rate s).

(** The tokens the scan reacts to. *)
Definition scan_flags : list string := ["--transport"; "--listenport"; "--model"; "--tts"; "--TTS_RATE"].

(** A token the scan passes over. *)
Definition inert (tok : string) : bool :=
  negb (bool_decide (tok ∈ scan_flags)) && negb (py_startswith tok rate_prefix).

(** ** Lemmas on [int] and [str] *)




Lemma digit_cases (P : Z -> Prop) :
  P 0 -> P 1 -> P 2 -> P 3 -> P 4 -> P 5 -> P 6 -> P 7 -> P 8 -> P 9 -> forall d, 0 <= d <= 9 -> P d.
Proof.
  intros ?????????? d Hd.
  assert (d = 0 \/ d = 1 \/ d = 2 \/ d = 3 \/ d = 4 \/ d = 5 \/ d = 6 \/ d = 7 \/ d = 8 \/ d = 9)
    as Hc by lia.
  repeat destruct Hc as [->|Hc]; try done. by subst.
Qed.

Lemma digit_of_ascii d : 0 <= d <= 9 -> digit_of (ascii_of_digit d) = Some d.
Proof. revert d. apply digit_cases; reflexivity. Qed.

Lemma digit_not_space d : 0 <= d <= 9 -> is_py_space (ascii_of_digit d) = false.
Proof. revert d. apply digit_cases; reflexivity. Qed.

Lemma digit_ne_sign d : 0 <= d <= 9 ->
  Ascii.eqb (ascii_of_digit d) minus_sign = false /\ Ascii.eqb (ascii_of_digit d) plus_sign = false.
Proof. revert d. apply digit_cases; split; reflexivity. Qed.

Lemma parse_digits_app l1 l2 acc :
  parse_digits (l1 ++ l2) acc = v ← parse_digits l1 acc; parse_digits l2 v.
Proof.
  revert acc. induction l1 as [|c l1 IH]; intros acc; simpl; [done|].
  destruct (digit_of c); simpl; [apply IH|done].
Qed.

Lemma digits_rev_parse fuel n acc :
  0 <= n -> n < 10 ^ Z.of_nat fuel ->
  exists k, parse_digits (rev (digits_rev fuel n)) acc = Some (acc * 10 ^ k + n) /\ 0 <= k.
Proof.
  revert n acc. induction fuel as [|f IH]; intros n acc Hn Hlt.
  { simpl in *. exists 0. split; [f_equal; lia|lia]. }
  assert (Hm : 0 <= n mod 10 <= 9) by (pose proof (Z.mod_pos_bound n 10); lia).
  simpl. rewrite parse_digits_app. destruct (Z.ltb_spec n 10).
  - simpl. rewrite digit_of_ascii by done. simpl. exists 1. rewrite Z.mod_small by lia. split; [f_equal; lia|lia].
  - destruct (IH (n / 10) acc) as (k & Hk & Hk0).
    + apply Z.div_pos; lia.
    + rewrite Nat2Z.inj_succ, Z.pow_succ_r in Hlt by lia. apply Z.div_lt_upper_bound; lia.
    + rewrite Hk. simpl. rewrite digit_of_ascii by done. simpl. exists (k + 1).
      split; [|lia]. f_equal. rewrite Z.pow_add_r by lia.
      pose proof (Z.div_mod n 10 ltac:(lia)). lia.
Qed.

Lemma digits_rev_digits fuel n :
  0 <= n -> Forall (fun c => exists d, 0 <= d <= 9 /\ c = ascii_of_digit d) (digits_rev fuel n).
Proof.
  revert n. induction fuel as [|f IH]; intros n Hn; simpl; [done|].
  constructor; [exists (n mod 10); split; [pose proof (Z.mod_pos_bound n 10); lia|done]|].
  destruct (n <? 10); [done|]. apply IH, Z.div_pos; lia.
Qed.

Lemma log2_fuel n : 0 <= n -> n < 10 ^ Z.of_nat (S (Z.to_nat (Z.log2 n))).
Proof.
  intros Hn. destruct (Z.eq_dec n 0) as [->|]; [simpl; lia|].
  pose proof (Z.log2_spec n ltac:(lia)) as [_ Hup].
  rewrite Nat2Z.inj_succ, Z2Nat.id by (apply Z.log2_nonneg).
  eapply Z.lt_le_trans; [exact Hup|]. apply Z.pow_le_mono_l. lia.
Qed.




Lemma drop_spaces_nospace l : Forall (fun c => is_py_space c = false) l -> drop_spaces l = l.
Proof. destruct 1 as [|c l Hc _]; simpl; [done|]. by rewrite Hc. Qed.

Lemma py_strip_nospace l :
  Forall (fun c => is_py_space c = false) l -> py_strip (String.string_of_list_ascii l) = String.string_of_list_ascii l.
Proof.
  intros H. unfold py_strip. rewrite String.list_ascii_of_string_of_list_ascii.
  rewrite (drop_spaces_nospace l H), drop_spaces_nospace; [by rewrite rev_involutive|].
  by apply Forall_rev.
Qed.


(** ** Lemmas on the scan *)

Lemma inert_spec tok :
  inert tok = true ->
  String.eqb tok "--transport" = false /\ String.eqb tok "--listenport" = false /\
  String.eqb tok "--model" = false /\ String.eqb tok "--tts" = false /\
  String.eqb tok "--TTS_RATE" = false /\ py_startswith tok rate_prefix = false.
Proof.
  unfold inert. rewrite andb_true_iff, !negb_true_iff. intros [Hf Hp].
  apply bool_decide_eq_false_1 in Hf. unfold scan_flags in Hf.
  split_and!; try done; apply String.eqb_neq; intros ->; apply Hf; set_solver.
Qed.

Lemma scan_token_inert st tok next s : inert tok = true -> scan_token st tok next s = s.
Proof.
  intros (H1 & H2 & H3 & H4 & H5 & H6)%inert_spec. unfold scan_token.
  destruct next; by rewrite ?H1, ?H2, ?H3, ?H4, ?H5, ?H6.
Qed.

Lemma scan_inert_app st l1 l2 s :
  Forall (fun t => inert t = true) l1 -> scan_cmdline st (l1 ++ l2) s = scan_cmdline st l2 s.
Proof.
  intros H. revert s. induction H as [|t l1 Ht _ IH]; intros s; simpl; [done|].
  rewrite scan_token_inert by done. apply IH.
Qed.

Lemma scan_flag st flag v l s :
  inert v = true -> scan_cmdline st (flag :: v :: l) s = scan_cmdline st l (scan_token st flag (Some v) s).
Proof. intros Hv. simpl. by rewrite scan_token_inert. Qed.

Lemma inert_of_head c rest : Ascii.eqb c minus_sign = false -> inert (String c rest) = true.
Proof.
  intros Hc. unfold inert. apply andb_true_iff. split; apply negb_true_iff.
  - apply bool_decide_eq_false_2. unfold scan_flags. intros Hin.
    repeat (apply elem_of_cons in Hin as [Hin|Hin];
            [injection Hin as E _; rewrite E in Hc; vm_compute in Hc; discriminate|]).
    by apply elem_of_nil in Hin.
  - unfold py_startswith, rate_prefix. apply String.eqb_neq. simpl. intros E.
    injection E as E _. rewrite E in Hc. vm_compute in Hc. discriminate.
Qed.

Lemma py_str_int_inert z : 0 <= z -> inert (py_str_int z) = true.
Proof.
  intros Hz. unfold py_str_int.
  pose proof (digits_rev_digits (S (Z.to_nat (Z.log2 (Z.abs z)))) (Z.abs z) ltac:(lia)) as Hd.
  apply Forall_rev in Hd.
  destruct (rev (digits_rev (S (Z.to_nat (Z.log2 (Z.abs z)))) (Z.abs z))) as [|c r] eqn:E.
  - cbn [digits_rev rev] in E. apply app_eq_nil in E as [_ E]. discriminate.
  - destruct (Z.ltb_spec z 0); [lia|]. cbn [app String.string_of_list_ascii].
    inversion Hd as [|? ? (d & Hd9 & ->) _]; subst. apply inert_of_head, (digit_ne_sign d Hd9).
Qed.

Lemma build_extra_app xs ys :
  Forall (fun x => py_strip x <> "--TTS_RATE"%string /\ py_strip x <> "--push_url"%string) xs ->
  build_extra (xs ++ ys) = build_extra xs ++ build_extra ys.
Proof.
  induction 1 as [|x xs [H1 H2] _ IH]; simpl; [done|].
  destruct (String.eqb_spec (py_strip x) ""); [done|].
  destruct (String.eqb_spec (py_strip x) "--TTS_RATE"); [done|].
  destruct (String.eqb_spec (py_strip x) "--push_url"); [done|]. by rewrite IH.
Qed.

Lemma build_extra_inert xs :
  Forall (fun x => inert (py_strip x) = true /\ py_strip x <> "--push_url"%string) xs ->
  Forall (fun t => inert t = true) (build_extra xs).
Proof.
  induction 1 as [|x xs [H1 H2] _ IH]; simpl; [done|].
  destruct (inert_spec _ H1) as (_ & _ & _ & _ & H5 & _).
  destruct (String.eqb (py_strip x) ""); [done|]. rewrite H5.
  destruct (String.eqb_spec (py_strip x) "--push_url"); [done|]. by constructor.
Qed.

Lemma substring_prefix p v : String.substring 0 (String.length p) (p +:+ v) = p.
Proof. induction p as [|c p IH]; simpl; [by destruct v|]. by rewrite IH. Qed.

Lemma substring_full v : String.substring 0 (String.length v) v = v.
Proof. induction v as [|c v IH]; simpl; [done|]. by rewrite IH. Qed.


Lemma scan_rate_token st v s :
  scan_cmdline st ["--TTS_RATE=" +:+ v] s =
    mkScan (s_transport s) (s_port s) (s_model s) (s_tts s) (py_strip v).
Proof.
  simpl. unfold scan_token, py_startswith.
  change (String.length "--TTS_RATE=") with (String.length rate_prefix).
  change ("--TTS_RATE=" +:+ v)%string with (rate_prefix +:+ v)%string.
  rewrite substring_prefix, String.eqb_refl. change ("" +:+ v)%string with v.
  by rewrite Nat.sub_0_r, substring_full.
Qed.

Lemma omap_id_some (l : list string) : omap id (Some <$> l) = l.
Proof. induction l as [|x l IH]; simpl; [done|]. f_equal. exact IH. Qed.

Lemma scan_cons_inert st t l s : inert t = true -> scan_cmdline st (t :: l) s = scan_cmdline st l s.
Proof. intros Ht. simpl. by rewrite scan_token_inert. Qed.

Lemma scan_opt_inert st flag o l s :
  inert flag = true -> (forall v, o = Some v -> inert v = true) ->
  scan_cmdline st (opt_flag flag o ++ l) s = scan_cmdline st l s.
Proof.
  intros Hf Hv. destruct o as [v|]; [|done]. unfold opt_flag.
  destruct (String.eqb v ""); [done|]. cbn [app].
  rewrite scan_cons_inert by done. by rewrite scan_cons_inert by (by apply Hv).
Qed.

Lemma build_extra_rate r :
  build_extra ["--TTS_RATE"; r] = if String.eqb (py_strip r) "" then [] else ["--TTS_RATE=" +:+ py_strip r].
Proof. simpl. by destruct (String.eqb (py_strip r) ""). Qed.

(** ** Theorems *)

(** the port travels through the command line intact: [int(str(n))]
    gives [n] back for every integer. *)
Theorem py_int_str_roundtrip z : py_int (py_str_int z) = Some z.
Proof.
  unfold py_int, py_str_int.
  set (fuel := S (Z.to_nat (Z.log2 (Z.abs z)))).
  pose proof (digits_rev_digits fuel (Z.abs z) ltac:(lia)) as Hd.
  destruct (digits_rev_parse fuel (Z.abs z) 0 ltac:(lia) (log2_fuel (Z.abs z) ltac:(lia))) as (k & Hp & _).
  rewrite Z.mul_0_l, Z.add_0_l in Hp.
  assert (Hns : Forall (fun c => is_py_space c = false)
                  ((if z <? 0 then [minus_sign] else []) ++ rev (digits_rev fuel (Z.abs z)))).
  { apply Forall_app; split; [destruct (z <? 0); repeat constructor|].
    apply Forall_rev. eapply Forall_impl; [exact Hd|]. intros c (d & Hd9 & ->). by apply digit_not_space. }
  rewrite py_strip_nospace by done. rewrite String.list_ascii_of_string_of_list_ascii.
  assert (Hne : rev (digits_rev fuel (Z.abs z)) <> []) by (unfold fuel; cbn [digits_rev rev]; intros E; apply app_eq_nil in E as [_ E]; discriminate).
  destruct (rev (digits_rev fuel (Z.abs z))) as [|c r] eqn:E; [done|].
  destruct (Z.ltb_spec z 0).
  - cbn [app]. rewrite Ascii.eqb_refl, Hp. simpl. f_equal. lia.
  - cbn [app]. assert (Hc : exists d, 0 <= d <= 9 /\ c = ascii_of_digit d).
    { apply Forall_rev in Hd. rewrite E in Hd. by inversion Hd. }
    destruct Hc as (d & Hd9 & ->). destruct (digit_ne_sign d Hd9) as [-> ->].
    rewrite Hp. f_equal. lia.
Qed.

(** The scan of the optional flags after [--tts] and of the extra
    arguments: only a [--TTS_RATE] changes what is read. *)
Lemma scan_rest st (ts rf rt : option string) xs rate s :
  (forall x v, x = Some v -> x ∈ [ts; rf; rt] -> inert v = true) ->
  Forall (fun x => inert (py_strip x) = true /\ py_strip x <> "--push_url"%string) xs ->
  s_rate s = ""%string ->
  scan_cmdline st (opt_flag "--TTS_SERVER" ts ++ opt_flag "--REF_FILE" rf ++ opt_flag "--REF_TEXT" rt ++
    build_extra xs ++ build_extra (match rate with Some r => ["--TTS_RATE"; r] | None => [] end)) s =
  mkScan (s_transport s) (s_port s) (s_model s) (s_tts s) (default "" (py_strip <$> rate)).
Proof.
  intros Hin Hxs Hs.
  rewrite !scan_opt_inert by (reflexivity || (intros v Hv; eapply Hin; [exact Hv|set_solver])).
  rewrite scan_inert_app by (apply build_extra_inert, Hxs).
  destruct s as [s1 s2 s3 s4 s5]; simpl in Hs; subst s5.
  destruct rate as [r|]; [|done].
  rewrite build_extra_rate. destruct (String.eqb (py_strip r) "") eqn:E; cbv beta iota.
  - apply String.eqb_eq in E. simpl. by rewrite E.
  - rewrite scan_rate_token, py_strip_idem. done.
Qed.

(** C24: the command line round trip.  Reading back the command line that
    [_build_command] writes gives the transport, port, model, TTS engine
    and TTS rate of the start options, when none of the values is itself
    one of the flags the reader looks for. *)
Theorem endpoint_roundtrip st o xs rate :
  0 <= o_listen_port o ->
  Forall (fun t => inert t = true) [python_exec st; app_entry st; o_transport o; o_model o; o_avatar_id o] ->
  Forall (fun v => inert v = true) (omap id [o_tts o; o_tts_server o; o_ref_file o; o_ref_text o]) ->
  Forall (fun x => inert (py_strip x) = true /\ py_strip x <> "--push_url"%string) xs ->
  o_extra_args o = Some <$> (xs ++ match rate with Some r => ["--TTS_RATE"; r] | None => [] end) ->
  resolve_live_endpoint st (build_command st o) =
    mkEndpoint (negb (String.eqb (o_transport o) "webrtc"))
      (if String.eqb (o_transport o) "webrtc" then Some "webrtc"%string else None)
      (o_transport o) (o_listen_port o) (o_model o) (default "" (o_tts o)) (default "" (py_strip <$> rate)).
Proof.
  intros Hport Hvals Hopts Hxs Hextra.
  inversion Hvals as [|? ? He [|? ? Ha [|? ? Ht [|? ? Hm [|? ? Hav _]]]]]; subst; clear Hvals.
  unfold resolve_live_endpoint, build_command. rewrite Hextra, omap_id_some.
  rewrite build_extra_app
    by (eapply Forall_impl; [exact Hxs|]; intros x [Hi Hp];
        destruct (inert_spec _ Hi) as (_ & _ & _ & _ & H5 & _); split; [by apply String.eqb_neq|done]).
  cbn [app].
  rewrite (scan_cons_inert st (python_exec st)), (scan_cons_inert st (app_entry st)) by done.
  rewrite scan_flag by done. rewrite scan_flag by done.
  rewrite (scan_cons_inert st "--avatar_id"), (scan_cons_inert st (o_avatar_id o)) by (done || reflexivity).
  rewrite scan_flag by (by apply py_str_int_inert).
  simpl scan_token. rewrite py_int_str_roundtrip. simpl default.
  assert (Hsome : forall v, v ∈ omap id [o_tts o; o_tts_server o; o_ref_file o; o_ref_text o] -> inert v = true)
    by (intros v Hv; rewrite Forall_forall in Hopts; by apply Hopts).
  assert (Hin : forall (x : option string) v, x = Some v ->
            x ∈ [o_tts o; o_tts_server o; o_ref_file o; o_ref_text o] -> inert v = true).
  { intros x v -> Hx. apply Hsome. apply list_elem_of_omap. by exists (Some v). }
  set (rest := opt_flag "--TTS_SERVER" _ ++ _).
  assert (Hrest : forall s, s_rate s = ""%string -> scan_cmdline st rest s =
             mkScan (s_transport s) (s_port s) (s_model s) (s_tts s) (default "" (py_strip <$> rate)))
    by (intros s Hs; apply scan_rest; [intros x v Hx Hxin; apply (Hin x v Hx); set_solver|exact Hxs|exact Hs]).
  assert (Hfinal : scan_cmdline st (opt_flag "--tts" (o_tts o) ++ rest)
            (mkScan (o_transport o) (o_listen_port o) (o_model o) "" "") =
          mkScan (o_transport o) (o_listen_port o) (o_model o) (default "" (o_tts o))
            (default "" (py_strip <$> rate))).
  { destruct (o_tts o) as [tv|] eqn:Etts.
    - assert (Htv : inert tv = true) by (eapply Hin; [reflexivity|set_solver]).
      unfold opt_flag. destruct (String.eqb_spec tv "") as [->|Hne].
      + simpl app. by rewrite Hrest.
      + cbn [app]. rewrite scan_flag by done. simpl scan_token. by rewrite Hrest.
    - simpl app. by rewrite Hrest. }
  by rewrite Hfinal.
Qed.

(** ** Example: the options the control API stores for a MuseTalk avatar
    on a virtual camera with EdgeTTS at +20%. *)

Definition ex_settings : settings := mkSettings "python" "app.py" "virtualcam" 8010.

Definition ex_opts : start_options :=
  mkOpts "virtualcam" "musetalk" "avatar1" 8010 (Some "edgetts"%string) None None None
    (Some <$> ["--fps"; "25"; "--TTS_RATE"; " +20% "]).

Lemma endpoint_roundtrip_witness :
  resolve_live_endpoint ex_settings (build_command ex_settings ex_opts) =
    mkEndpoint true None "virtualcam" 8010 "musetalk" "edgetts" "+20%".
Proof.
  exact (endpoint_roundtrip ex_settings ex_opts ["--fps"; "25"] (Some " +20% "%string)
           ltac:(simpl; lia) ltac:(repeat constructor) ltac:(repeat constructor)
           ltac:(repeat constructor; discriminate) eq_refl).
Defined.

End LiveEndpoint.
