(* ===== verification/DispatchLoop.v ===== *)
(** * DispatchLoop: playlist rotation and the dispatcher thread

    When its queue is empty and the avatar is silent, the speaker
    dispatcher builds a script task from the enabled playlists
    ([_build_playlist_task], [src/apps/control_api/speaker_dispatcher.py]
    lines 586-664): it scans the playlists round-robin from a cursor for
    one whose interval has elapsed, picks the playlist's next script
    ([_choose_playlist_item], lines 666-679: sequential by a per-playlist
    cursor, or weighted at random) and queues it at priority 10.  The
    dispatcher thread ([_loop], lines 448-476) ties everything together:
    wait while the avatar process is not running or not reachable, pick a
    task, dispatch it, and handle a failure.

    The database rows the queries return are inputs ([playlist_row],
    [item_row], ordered as the queries order them); the random choice of
    [random.choices] is an input index; times, ids and the outcomes of the
    HTTP calls of an iteration are the [loop_env] record. *)

From S2P Require Import Prelude TextSplit Dispatcher LiveEndpoint.

Module DispatchLoop.
Import TextSplit Dispatcher LiveEndpoint.
Local Open Scope Z_scope.

Record item_row := mkItem {
  item_script_id : string;
  item_weight : option Z;
  script_title : string;
  script_content : text;
}.

Record playlist_row := mkPlaylist {
  pl_id : string;
  pl_interval_sec : option Z;
  pl_mode : option string;
  pl_items : list item_row;
}.

(** [max(1, int(candidate.get("interval_sec") or 30))]. *)
Definition interval_of (p : playlist_row) : Z :=
  Z.max 1 (match pl_interval_sec p with Some z => if z =? 0 then 30 else z | None => 30 end).

Definition last_emit (d : dispatcher) (p : playlist_row) : Q :=
  default 0%Q (playlist_last_emit_ts d !! pl_id p).

Definition is_due (now : Q) (d : dispatcher) (p : playlist_row) : bool :=
  Qle_bool (inject_Z (interval_of p)) (now - last_emit d p).

(** The [for offset in range(total)] scan (lines 603-613): the first due
    playlist from the cursor on, and the cursor moved past it. *)
Definition pick_due_playlist (now : Q) (d : dispatcher) (pls : list playlist_row)
    : option (playlist_row * Z) :=
  let total := Z.of_nat (length pls) in
  let start := playlist_schedule_cursor d mod total in
  match list_find (fun off => is_due now d (default (mkPlaylist "" None None [])
                                 (pls !! Z.to_nat ((start + Z.of_nat off) mod total))) = true)
                  (seq 0 (length pls)) with
  | Some (_, off) =>
      p ← pls !! Z.to_nat ((start + Z.of_nat off) mod total);
      Some (p, (start + Z.of_nat off + 1) mod total)
  | None => None
  end.

(** [weights = [max(1, int(item.get("weight") or 1)) ...]] (line 672). *)
Definition item_weights (items : list item_row) : list Z :=
  (fun it => Z.max 1 (match item_weight it with Some w => if w =? 0 then 1 else w | None => 1 end)) <$> items.

(** [_choose_playlist_item] (lines 666-679): [choice] is the index
    [random.choices(items, weights)] returned. *)
Definition choose_playlist_item (pid : string) (mode : string) (items : list item_row) (choice : nat)
    (d : dispatcher) : option (item_row * dispatcher) :=
  if String.eqb mode "random" then it ← items !! choice; Some (it, d)
  else
    let cursor := default 0 (playlist_cursor d !! pid) in
    it ← items !! Z.to_nat (cursor mod Z.of_nat (length items));
    Some (it, mkDisp (dqueue d) (dsequence d) (next_dispatch_ts d)
                (<[pid := cursor + 1]> (playlist_cursor d)) (playlist_last_emit_ts d)
                (playlist_schedule_cursor d) (last_event d) (last_error d) (last_dispatch_at d)).

Definition set_schedule_cursor (c : Z) (d : dispatcher) : dispatcher :=
  mkDisp (dqueue d) (dsequence d) (next_dispatch_ts d) (playlist_cursor d) (playlist_last_emit_ts d)
    c (last_event d) (last_error d) (last_dispatch_at d).

Definition set_last_emit (pid : string) (t : Q) (d : dispatcher) : dispatcher :=
  mkDisp (dqueue d) (dsequence d) (next_dispatch_ts d) (playlist_cursor d)
    (<[pid := t]> (playlist_last_emit_ts d)) (playlist_schedule_cursor d) (last_event d)
    (last_error d) (last_dispatch_at d).

(** [_build_playlist_task] (lines 586-664); [now] and [now'] are the two
    [time.time()] readings. *)
Definition build_playlist_task (cfg : disp_config) (group fresh : string) (now now' : Q) (choice : nat)
    (pls : list playlist_row) (d : dispatcher) : option task * dispatcher :=
  if pls is [] then (None, d)
  else
    match pick_due_playlist now d pls with
    | None => (None, d)
    | Some (p, cursor') =>
        let d1 := set_schedule_cursor cursor' d in
        if pl_items p is [] then (None, d1)
        else
          let mode := match pl_mode p with
                      | Some m => if String.eqb m "" then "sequential"%string else m
                      | None => "sequential"%string
                      end in
          match choose_playlist_item (pl_id p) mode (pl_items p) choice d1 with
          | None => (None, d1)
          | Some (it, d2) =>
              let txt := strip (script_content it) in
              if txt is [] then (None, d2)
              else
                match build_segmented_task cfg group fresh "playlist" "playlist" txt 10 false
                        (<["playlist_id" := MStr (pl_id p)]> (<["script_id" := MStr (item_script_id it)]>
                          (<["script_title" := MStr (script_title it)]> (<["mode" := MStr mode]> ∅)))) with
                | (Some t, _, _) => (Some t, set_last_emit (pl_id p) now' d2)
                | _ => (None, d2)
                end
          end
    end.

(** What one iteration of [_loop] observes. *)
Record loop_env := mkEnv {
  live_running : bool;
  live_cmdline : list string;
  speaking_answer : option bool;
  env_now : Q;
  env_now2 : Q;
  env_now_ts : string;
  env_send_ok : bool;
  env_db_ok : bool;
  env_fresh : string;
  env_group : string;
  env_choice : nat;
  env_playlists : list playlist_row;
}.

Definition set_last_error (e : string) (w : world) : world :=
  let d := disp w in
  mkWorld (mkDisp (dqueue d) (dsequence d) (next_dispatch_ts d) (playlist_cursor d)
             (playlist_last_emit_ts d) (playlist_schedule_cursor d) (last_event d) (Some e)
             (last_dispatch_at d))
    (reply_status w) (audit w) (sent w).

Definition set_disp (d : dispatcher) (w : world) : world := mkWorld d (reply_status w) (audit w) (sent w).

Section Loop.
Variable py_float : string -> option Q.
Variable st : settings.
Variable cfg : disp_config.

(** One iteration of [_loop] (lines 448-476): the new state and the
    [time.sleep] it ends with. *)
Definition loop_iteration (e : loop_env) (w : world) : world * Q :=
  if negb (live_running e) then (w, 3 # 5)
  else
    let ep := resolve_live_endpoint st (live_cmdline e) in
    if negb (supported ep) then (set_last_error (default "" (reason ep)) w, 1%Q)
    else
      match speaking_answer e with
      | None => (set_last_error "is_speaking failed" w, 3 # 5)
      | Some sp =>
          let '(ot, d1) := pick_next_task sp (allow_prefetch_while_speaking cfg ep) (env_now e)
                             (build_playlist_task cfg (env_group e) (env_fresh e) (env_now e) (env_now2 e)
                                (env_choice e) (env_playlists e)) (disp w) in
          match ot with
          | None => (set_disp d1 w, 1 # 4)
          | Some t =>
              (run_task py_float cfg (env_fresh e) (env_now_ts e) (env_now2 e) (env_send_ok e)
                 (env_db_ok e) t ep (set_disp d1 w), 0%Q)
          end
      end.

Fixpoint run_loop (es : list loop_env) (w : world) : world :=
  match es with
  | [] => w
  | e :: rest => run_loop rest (loop_iteration e w).1
  end.

End Loop.

(** [k] successive sequential choices from one playlist. *)
Fixpoint choose_seq (k : nat) (pid : string) (items : list item_row) (d : dispatcher) : list item_row :=
  match k with
  | O => []
  | S k' =>
      match choose_playlist_item pid "sequential" items 0 d with
      | Some (it, d') => it :: choose_seq k' pid items d'
      | None => []
      end
  end.

(** ** Lemmas *)

Lemma choose_sequential pid items d :
  items <> [] ->
  let c := default 0 (playlist_cursor d !! pid) in
  exists it, items !! Z.to_nat (c mod Z.of_nat (length items)) = Some it /\
    choose_playlist_item pid "sequential" items 0 d =
      Some (it, mkDisp (dqueue d) (dsequence d) (next_dispatch_ts d)
                  (<[pid := c + 1]> (playlist_cursor d)) (playlist_last_emit_ts d)
                  (playlist_schedule_cursor d) (last_event d) (last_error d) (last_dispatch_at d)).
Proof.
  intros Hne. simpl. unfold choose_playlist_item. simpl.
  assert (Hlen : (0 < length items)%nat) by (destruct items; simpl; [done|lia]).
  destruct (lookup_lt_is_Some_2 items (Z.to_nat (default 0 (playlist_cursor d !! pid) mod Z.of_nat (length items))))
    as [it Hit].
  { pose proof (Z.mod_pos_bound (default 0 (playlist_cursor d !! pid)) (Z.of_nat (length items)) ltac:(lia)). lia. }
  exists it. rewrite Hit. by split.
Qed.

(** ** Theorems *)

(** sequential playlists rotate through their scripts: the [k]
    successive choices from a playlist whose cursor stands at [c] are the
    items at positions [c, c+1, ...] modulo the number of items, so every
    script comes once in every [length items] consecutive turns. *)
Theorem playlist_round_robin k pid items d :
  items <> [] ->
  let c := default 0 (playlist_cursor d !! pid) in
  choose_seq k pid items d =
    omap (fun j => items !! Z.to_nat ((c + Z.of_nat j) mod Z.of_nat (length items))) (seq 0 k).
Proof.
  intros Hne. simpl. revert d. induction k as [|k IH]; intros d; [done|].
  destruct (choose_sequential pid items d Hne) as (it & Hit & Hc). simpl. rewrite Hc.
  rewrite Z.add_0_r, Hit. f_equal. rewrite IH. simpl. rewrite lookup_insert_eq. simpl.
  rewrite <- seq_shift, omap_fmap_comm. apply list_omap_ext, Forall_Forall2_diag, Forall_forall.
  intros j _. unfold compose. by rewrite Nat2Z.inj_succ, <- Z.add_1_l, Z.add_assoc.
Qed.

(** a playlist is spoken only when its interval has elapsed.  A script
    task built from the playlists comes from a playlist that was due at
    [now], is queued at priority 10 without interrupting, and its
    playlist's emit time becomes [now']. *)
Theorem playlist_interval_respected cfg group fresh now now' choice pls d t d' :
  build_playlist_task cfg group fresh now now' choice pls d = (Some t, d') ->
  exists p, p ∈ pls /\ is_due now d p = true /\ playlist_last_emit_ts d' !! pl_id p = Some now' /\
    priority t = 10 /\ interrupt t = false /\ source t = "playlist"%string.
Proof.
  unfold build_playlist_task. destruct pls as [|p0 ps]; [done|].
  destruct (pick_due_playlist now d (p0 :: ps)) as [[p cur]|] eqn:Hpick; [|done].
  destruct (pl_items p) as [|i0 irest]; [done|].
  destruct (choose_playlist_item _ _ _ _ _) as [[it d2]|]; [|done].
  destruct (strip (script_content it)) as [|c cs]; [done|].
  destruct (build_segmented_task _ _ _ _ _ _ _ _ _) as [[[t'|] n] m] eqn:Hb; [|done].
  intros [= <- <-]. unfold pick_due_playlist in Hpick.
  destruct (list_find _ _) as [[i off]|] eqn:Hf; [|done].
  apply list_find_Some in Hf as (_ & Hdue & _).
  apply bind_Some in Hpick as (p' & Hp & Hpick). injection Hpick as <- <-.
  rewrite Hp in Hdue. simpl in Hdue. exists p'. split_and!.
  - by eapply list_elem_of_lookup_2.
  - done.
  - simpl. by rewrite lookup_insert_eq.
  - unfold build_segmented_task in Hb. destruct (strip _); [done|].
    destruct (Z.ltb _ _), (split_text_for_speech _ _); simpl in Hb; try done; by injection Hb as <-.
  - unfold build_segmented_task in Hb. destruct (strip _); [done|].
    destruct (Z.ltb _ _), (split_text_for_speech _ _); simpl in Hb; try done; by injection Hb as <-.
  - unfold build_segmented_task in Hb. destruct (strip _); [done|].
    destruct (Z.ltb _ _), (split_text_for_speech _ _); simpl in Hb; try done; by injection Hb as <-.
Qed.

Section LoopTheorems.
Variable py_float : string -> option Q.
Variable st : settings.
Variable cfg : disp_config.

(** The observations of an iteration in which a queued task is sent and
    the send fails: the avatar process runs and is reachable, it is
    silent, the guard has elapsed, [/human] fails and the database works. *)
Definition failing_send (e : loop_env) (w : world) : Prop :=
  live_running e = true /\ supported (resolve_live_endpoint st (live_cmdline e)) = true /\
  speaking_answer e = Some false /\ Qle_bool (next_dispatch_ts (disp w)) (env_now e) = true /\
  env_send_ok e = false /\ env_db_ok e = true.

Lemma loop_failed_send e w t :
  failing_send e w -> dqueue (disp w) = [t] -> 0 <= meta_int (tmeta t) "retries" 0 ->
  let w' := (loop_iteration py_float st cfg e w).1 in
  (meta_int (tmeta t) "retries" 0 < 3 -> exists t', dqueue (disp w') = [t'] /\
     meta_int (tmeta t') "retries" 0 = meta_int (tmeta t) "retries" 0 + 1 /\
     source t' = source t /\ reply_id_of t' = reply_id_of t /\
     next_dispatch_ts (disp w') = next_dispatch_ts (disp w)) /\
  (3 <= meta_int (tmeta t) "retries" 0 -> dqueue (disp w') = [] /\
     (source t = "reply"%string -> reply_id_of t <> ""%string ->
        reply_status w' !! reply_id_of t = Some "dispatch_failed"%string)).
Proof.
  intros (Hrun & Hsup & Hsp & Hle & Hsend & Hdb) Hq Hk. simpl.
  unfold loop_iteration. rewrite Hrun, Hsup, Hsp. simpl.
  assert (Hlt : Qlt_bool (env_now e) (next_dispatch_ts (disp w)) = false).
  { unfold Qlt_bool. by rewrite Hle. }
  unfold pick_next_task, pick_from_queue. rewrite Hq, Hlt. simpl.
  unfold run_task, dispatch_task. rewrite Hsend. simpl. unfold handle_dispatch_error. simpl.
  destruct (Z.ltb_spec (meta_int (tmeta t) "retries" 0) 3) as [Hk3|Hk3].
  - split; [|lia]. intros _. eexists. split; [reflexivity|]. simpl. split_and!; try done.
    + apply meta_int_insert. lia.
    + unfold reply_id_of. simpl. by rewrite lookup_insert_ne.
  - split; [lia|]. intros _. unfold mark_reply. rewrite Hdb. split.
    + by destruct (_ && _).
    + intros Hs Hr. rewrite Hs. simpl. destruct (String.eqb_spec (reply_id_of t) ""); [done|]. simpl.
      by rewrite lookup_insert_eq.
Qed.

(** C23: a reply whose sends keep failing is tried exactly four times: after
    three failed iterations it is still queued (for its third retry), and
    the fourth failure drops it and marks the reply [dispatch_failed]. *)
Theorem failing_reply_given_up e w t :
  failing_send e w -> dqueue (disp w) = [t] -> tmeta t !! "retries" = None ->
  source t = "reply"%string -> reply_id_of t <> ""%string ->
  dqueue (disp (run_loop py_float st cfg [e; e; e] w)) <> [] /\
  dqueue (disp (run_loop py_float st cfg [e; e; e; e] w)) = [] /\
  reply_status (run_loop py_float st cfg [e; e; e; e] w) !! reply_id_of t = Some "dispatch_failed"%string.
Proof.
  intros Hf Hq Hr Hs Hrid.
  assert (H0 : meta_int (tmeta t) "retries" 0 = 0) by (unfold meta_int; by rewrite Hr).
  assert (Hfs : forall w1, failing_send e w -> next_dispatch_ts (disp w1) = next_dispatch_ts (disp w) ->
                  failing_send e w1).
  { intros w1 (? & ? & ? & Hle & ? & ?) Hn. unfold failing_send. by rewrite Hn. }
  destruct (loop_failed_send e w t Hf Hq ltac:(lia)) as [Ha _].
  destruct (Ha ltac:(lia)) as (t1 & Hq1 & Hk1 & Hs1 & Hr1 & Hn1). clear Ha.
  destruct (loop_failed_send e _ t1 (Hfs _ Hf Hn1) Hq1 ltac:(lia)) as [Hb _].
  destruct (Hb ltac:(lia)) as (t2 & Hq2 & Hk2 & Hs2 & Hr2 & Hn2). clear Hb.
  destruct (loop_failed_send e _ t2 (Hfs _ Hf ltac:(rewrite Hn2; exact Hn1)) Hq2 ltac:(lia)) as [Hc _].
  destruct (Hc ltac:(lia)) as (t3 & Hq3 & Hk3 & Hs3 & Hr3 & Hn3). clear Hc.
  destruct (loop_failed_send e _ t3 (Hfs _ Hf ltac:(rewrite Hn3, Hn2; exact Hn1)) Hq3 ltac:(lia))
    as [_ Hd].
  destruct (Hd ltac:(lia)) as [Hq4 Hst4].
  simpl. split_and!; [by rewrite Hq3|done|].
  rewrite <- Hr1, <- Hr2, <- Hr3. apply Hst4; [congruence|congruence].
Qed.

End LoopTheorems.

(** ** Examples *)

Definition dl_settings : settings := mkSettings "python" "app.py" "virtualcam" 8010.

(** The avatar runs as a virtual camera, is silent, and every send to
    [/human] fails. *)
Definition dl_env : loop_env :=
  mkEnv true ["--transport"; "virtualcam"] (Some false) 100 100 "ts" false true "f" "g" 0 [].

Definition dl_world : world := mkWorld (set_dqueue [reply_task] init_dispatcher) ∅ [] [].

Lemma failing_reply_given_up_witness :
  dqueue (disp (run_loop ex_py_float dl_settings ex_cfg [dl_env; dl_env; dl_env] dl_world)) <> [] /\
  dqueue (disp (run_loop ex_py_float dl_settings ex_cfg [dl_env; dl_env; dl_env; dl_env] dl_world)) = [] /\
  reply_status (run_loop ex_py_float dl_settings ex_cfg [dl_env; dl_env; dl_env; dl_env] dl_world)
    !! "r1"%string = Some "dispatch_failed"%string.
Proof.
  exact (failing_reply_given_up ex_py_float dl_settings ex_cfg dl_env dl_world reply_task
           ltac:(split_and!; reflexivity) eq_refl eq_refl eq_refl ltac:(discriminate)).
Defined.

Definition item (id : string) : item_row := mkItem id None id [104; 105].

Lemma playlist_round_robin_witness :
  choose_seq 3 "p" [item "a"; item "b"] init_dispatcher = [item "a"; item "b"; item "a"].
Proof.
  rewrite (playlist_round_robin 3 "p" [item "a"; item "b"] init_dispatcher ltac:(discriminate)).
  reflexivity.
Defined.

Definition dl_playlists : list playlist_row := [mkPlaylist "p" (Some 30) None [item "a"]].

Lemma playlist_interval_respected_witness :
  exists t d', build_playlist_task ex_cfg "g" "f" 100 101 0 dl_playlists init_dispatcher = (Some t, d') /\
    playlist_last_emit_ts d' !! "p"%string = Some 101%Q /\ priority t = 10.
Proof.
  destruct (build_playlist_task ex_cfg "g" "f" 100 101 0 dl_playlists init_dispatcher) as [[t|] d'] eqn:Hb;
    [|vm_compute in Hb; discriminate].
  destruct (playlist_interval_respected ex_cfg "g" "f" 100 101 0 dl_playlists init_dispatcher t d' Hb)
    as (p & Hp & _ & He & Hprio & _).
  exists t, d'. split_and!; [reflexivity| |exact Hprio].
  apply list_elem_of_singleton in Hp. rewrite Hp in He. exact He.
Defined.

End DispatchLoop.
