(* ===== verification/JobRunner.v ===== *)
(** * JobRunner: the asynchronous job queue of the control API

    [src/apps/control_api/job_runner.py] runs clone jobs one at a time on
    a worker thread.  A job is a row of the [jobs] table with a status
    ([queued], [running], [succeeded], [failed], [cancelled]), a retry
    count and a retry budget; the runner keeps a FIFO of job ids and, per
    job, whether a cancel was requested.  [create_job] (lines 61-96),
    [retry_job] (98-116), [_recover_incomplete_jobs] (147-183) and
    [cancel_job] (185-214) are called by the API; the worker loop
    ([_work_loop], 224-230) takes a job id, starts it ([_run_job], 232-267),
    runs its handler and records the outcome, or goes through
    [_handle_job_failure] (269-324): back to [queued] after a backoff sleep
    while retries remain, else [failed].

    The model is a state machine: [runner] holds the table, the FIFO, the
    cancel flags, the log and the worker's phase (idle, executing a job,
    or sleeping before re-queueing one), and [step] performs one event:
    an API call, or a move of the worker.  The handlers
    ([_handle_avatar_clone], [_handle_voice_clone]) run subprocesses and
    HTTP calls; their result is the event's outcome.  Between the start
    and the end of a job, and during the backoff sleep, API calls
    interleave with the worker, as they do on the server's threads.

    Theorems: the runner's invariant (each queued id once, only queued or
    cancelled ids in the FIFO, a running job is the one the worker
    executes, retry counts within their budget) holds in every reachable
    state; finished jobs never change again; a cancelled running job whose
    process is killed ends [failed], not [cancelled]. *)

From S2P Require Import Prelude.

Module JobRunner.
Local Open Scope Z_scope.

Inductive job_status := Queued | Running | Succeeded | Failed | Cancelled.

#[global] Instance status_eq_dec : EqDecision job_status.
Proof. solve_decision. Defined.

Definition terminal (s : job_status) : bool :=
  match s with Succeeded | Failed | Cancelled => true | _ => false end.

(** The retry settings of a payload: [None] when the key is missing or
    [None], [Some None] when [int()] rejects the value. *)
Record retry_payload := mkPayload {
  p_max_retries : option (option Z);
  p_retry_backoff_sec : option (option Z);
}.

Record job := mkJob {
  job_type : string;
  payload : retry_payload;
  status : job_status;
  progress : Z;
  retry_count : Z;
  max_retries : Z;
  retry_backoff_sec : Z;
  parent_job_id : option string;
  error : option string;
}.

Definition set_status (s : job_status) (p : Z) (j : job) : job :=
  mkJob (job_type j) (payload j) s p (retry_count j) (max_retries j) (retry_backoff_sec j)
    (parent_job_id j) (error j).

(** [_resolve_retry_config] (lines 118-145). *)
Definition resolve_retry_config (jt : string) (p : retry_payload) : Z * Z :=
  let default_max := if bool_decide (jt ∈ ["avatar.clone.wav2lip"; "voice.clone.xtts"]) then 2 else 0 in
  let mr := match p_max_retries p with
            | None => clamp 0 5 default_max
            | Some None => default_max
            | Some (Some z) => clamp 0 5 z
            end in
  let bo := match p_retry_backoff_sec p with
            | None => clamp 1 120 5
            | Some None => 5
            | Some (Some z) => clamp 1 120 z
            end in
  (mr, bo).

Inductive phase := Idle | Executing (id : string) | BackingOff (id : string).

Record runner := mkRunner {
  jobs : gmap string job;
  fifo : list string;
  cancel_requested : gmap string bool;
  phase_of : phase;
  logs : list (string * string);
}.

Definition init_runner : runner := mkRunner ∅ [] ∅ Idle [].

Definition is_cancelled (r : runner) (id : string) : bool := default false (cancel_requested r !! id).

Definition log (id level : string) (r : runner) : runner :=
  mkRunner (jobs r) (fifo r) (cancel_requested r) (phase_of r) (logs r ++ [(id, level)]).

Definition put_job (id : string) (j : job) (r : runner) : runner :=
  mkRunner (<[id := j]> (jobs r)) (fifo r) (cancel_requested r) (phase_of r) (logs r).

Definition enqueue (id : string) (r : runner) : runner :=
  mkRunner (jobs r) (fifo r ++ [id]) (cancel_requested r) (phase_of r) (logs r).

Definition set_phase (ph : phase) (r : runner) : runner :=
  mkRunner (jobs r) (fifo r) (cancel_requested r) ph (logs r).

(** [create_job] (lines 61-96); [id] is the fresh [job_<uuid>]. *)
Definition create_job (id jt : string) (p : retry_payload) (parent : option string) (r : runner) : runner :=
  let '(mr, bo) := resolve_retry_config jt p in
  let r1 := log id "INFO" (log id "INFO" (put_job id (mkJob jt p Queued 0 0 mr bo parent None) r)) in
  enqueue id (mkRunner (jobs r1) (fifo r1) (<[id := false]> (cancel_requested r1)) (phase_of r1) (logs r1)).

(** [retry_job] (lines 98-116): [None] is the [RuntimeError] the API
    reports. *)
Definition retry_job (src id : string) (r : runner) : option runner :=
  j ← jobs r !! src;
  if bool_decide (status j = Queued \/ status j = Running) then None
  else if String.eqb (job_type j) "" then None
  else Some (log src "INFO" (create_job id (job_type j) (payload j) (Some src) r)).

(** [_recover_incomplete_jobs] (lines 147-183) over the ids of the table
    in creation order. *)
Definition recover_one (r : runner) (id : string) : runner :=
  match jobs r !! id with
  | Some j =>
      if bool_decide (status j = Queued \/ status j = Running) then
        let r1 := if bool_decide (status j = Running)
                  then log id "WARN" (put_job id (set_status Queued (progress j) j) r) else r in
        let r2 := mkRunner (jobs r1) (fifo r1)
                    (if bool_decide (id ∈ dom (cancel_requested r1)) then cancel_requested r1
                     else <[id := false]> (cancel_requested r1)) (phase_of r1) (logs r1) in
        log id "INFO" (enqueue id r2)
      else r
  | None => r
  end.

Definition recover_incomplete_jobs (created_order : list string) (r : runner) : runner :=
  foldl recover_one r created_order.

(** [cancel_job] (lines 185-214): the answer and the new state. *)
Definition cancel_job (id : string) (r : runner) : bool * runner :=
  match jobs r !! id with
  | None => (false, r)
  | Some j =>
      if terminal (status j) then (true, r)
      else
        let r1 := mkRunner (jobs r) (fifo r) (<[id := true]> (cancel_requested r)) (phase_of r) (logs r) in
        let r2 := if bool_decide (status j = Queued) then put_job id (set_status Cancelled (progress j) j) r1
                  else r1 in
        (true, log id "WARN" r2)
  end.

(** [_run_job] up to the handler call (lines 232-248): the worker took
    [id] from the FIFO. *)
Definition start_job (id : string) (r : runner) : runner :=
  match jobs r !! id with
  | None => r
  | Some j =>
      if bool_decide (status j = Cancelled) then log id "WARN" r
      else
        let j' := mkJob (job_type j) (payload j) Running 1 (retry_count j) (max_retries j)
                    (retry_backoff_sec j) (parent_job_id j) None in
        log id "INFO" (set_phase (Executing id) (put_job id j' r))
  end.

(** [_handle_job_failure] (lines 269-324), up to the backoff sleep; the
    error text is stored cut to 1000 characters ([error[:1000]]). *)
Definition handle_job_failure (id err : string) (r : runner) : runner :=
  match jobs r !! id with
  | None => set_phase Idle r
  | Some j =>
      if bool_decide (status j = Cancelled) then log id "WARN" (set_phase Idle r)
      else if (retry_count j <? max_retries j) && negb (is_cancelled r id) then
        let j' := mkJob (job_type j) (payload j) Queued 0 (retry_count j + 1) (max_retries j)
                    (retry_backoff_sec j) (parent_job_id j) (Some (String.substring 0 1000 err)) in
        log id "WARN" (set_phase (BackingOff id) (put_job id j' r))
      else
        let j' := mkJob (job_type j) (payload j) Failed (progress j) (retry_count j) (max_retries j)
                    (retry_backoff_sec j) (parent_job_id j) (Some (String.substring 0 1000 err)) in
        log id "ERROR" (set_phase Idle (put_job id j' r))
  end.

(** What the handler of a job did. *)
Inductive outcome := HandlerOk | HandlerFailed (err : string).

(** The rest of [_run_job] (lines 250-267): an unknown job type raises
    before any handler runs. *)
Definition finish_job (id : string) (o : outcome) (r : runner) : runner :=
  match jobs r !! id with
  | None => set_phase Idle r
  | Some j =>
      let o := if bool_decide (job_type j ∈ ["avatar.clone.wav2lip"; "voice.clone.xtts"]) then o
               else HandlerFailed "unsupported job type" in
      match o with
      | HandlerFailed err => handle_job_failure id err r
      | HandlerOk =>
          if is_cancelled r id then log id "WARN" (set_phase Idle (put_job id (set_status Cancelled (progress j) j) r))
          else log id "INFO" (set_phase Idle (put_job id
                 (mkJob (job_type j) (payload j) Succeeded 100 (retry_count j) (max_retries j)
                    (retry_backoff_sec j) (parent_job_id j) None) r))
      end
  end.

(** After the backoff sleep (lines 312-314). *)
Definition wake (id : string) (r : runner) : runner :=
  if is_cancelled r id then set_phase Idle r else set_phase Idle (enqueue id r).

Inductive event :=
  | ECreate (id jt : string) (p : retry_payload) (parent : option string)
  | ERetry (src id : string)
  | ECancel (id : string)
  | EWork
  | EFinish (o : outcome)
  | EWake
  | ERestart (created_order : list string).

(** One event; [None] when it cannot happen in this state (the worker is
    elsewhere, the FIFO is empty, the id is taken) or the API call raises. *)
Definition step (r : runner) (ev : event) : option runner :=
  match ev with
  | ECreate id jt p parent =>
      if bool_decide (id ∈ dom (jobs r)) then None else Some (create_job id jt p parent r)
  | ERetry src id => if bool_decide (id ∈ dom (jobs r)) then None else retry_job src id r
  | ECancel id => Some (cancel_job id r).2
  | EWork =>
      match phase_of r, fifo r with
      | Idle, id :: rest =>
          Some (start_job id (mkRunner (jobs r) rest (cancel_requested r) Idle (logs r)))
      | _, _ => None
      end
  | EFinish o => match phase_of r with Executing id => Some (finish_job id o r) | _ => None end
  | EWake => match phase_of r with BackingOff id => Some (wake id r) | _ => None end
  | ERestart order =>
      (* a server restart: the table survives, the in-memory state does
         not; [start] (lines 51-59) then recovers the table, whose ids
         [order] lists in creation order *)
      if decide (NoDup order /\ dom (jobs r) ⊆ list_to_set order)
      then Some (recover_incomplete_jobs order (mkRunner (jobs r) [] ∅ Idle (logs r)))
      else None
  end.

Definition runner_step (r r' : runner) : Prop := exists ev, step r ev = Some r'.

Definition phase_ids (ph : phase) : list string :=
  match ph with Idle => [] | Executing id | BackingOff id => [id] end.

(** The runner's invariant. *)
Definition runner_wf (r : runner) : Prop :=
  NoDup (fifo r ++ phase_ids (phase_of r)) /\
  (forall id, id ∈ fifo r -> exists j, jobs r !! id = Some j /\ (status j = Queued \/ status j = Cancelled)) /\
  (forall id j, jobs r !! id = Some j -> status j = Running -> phase_of r = Executing id) /\
  (forall id, phase_of r = Executing id -> exists j, jobs r !! id = Some j /\ status j = Running) /\
  (forall id, phase_of r = BackingOff id ->
     exists j, jobs r !! id = Some j /\ (status j = Queued \/ status j = Cancelled)) /\
  (forall id j, jobs r !! id = Some j -> 0 <= retry_count j <= max_retries j).

(** ** Lemmas *)

Lemma wf_fields r r' :
  jobs r' = jobs r -> fifo r' = fifo r -> phase_of r' = phase_of r -> runner_wf r -> runner_wf r'.
Proof. intros Hj Hf Hp. unfold runner_wf. by rewrite Hj, Hf, Hp. Qed.

Lemma wf_log id lvl r : runner_wf r -> runner_wf (log id lvl r).
Proof. by apply wf_fields. Qed.

Lemma retry_config_nonneg jt p : 0 <= (resolve_retry_config jt p).1.
Proof.
  unfold resolve_retry_config. simpl.
  pose proof (clamp_bounds 0 5 2). pose proof (clamp_bounds 0 5 0).
  destruct (p_max_retries p) as [[z|]|]; [pose proof (clamp_bounds 0 5 z); lia| |];
    destruct (bool_decide _); lia.
Qed.

Lemma wf_in_dom r id : runner_wf r -> id ∈ fifo r ++ phase_ids (phase_of r) -> id ∈ dom (jobs r).
Proof.
  intros (_ & Hq & _ & Hex & Hbo & _) [Hin|Hin]%elem_of_app.
  - destruct (Hq id Hin) as (j & Hj & _). by apply elem_of_dom.
  - destruct (phase_of r) as [|i|i]; simpl in Hin; [set_solver| |];
      apply list_elem_of_singleton in Hin as ->;
      [destruct (Hex i eq_refl) as (j & Hj & _)|destruct (Hbo i eq_refl) as (j & Hj & _)];
      by apply elem_of_dom.
Qed.

Lemma create_job_wf id jt p parent r :
  id ∉ dom (jobs r) -> runner_wf r -> runner_wf (create_job id jt p parent r).
Proof.
  intros Hfresh Hwf. pose proof (wf_in_dom r id Hwf) as Hdom.
  destruct Hwf as (Hnd & Hq & Hrun & Hex & Hbo & Hrc).
  pose proof (retry_config_nonneg jt p) as Hmr.
  unfold create_job. destruct (resolve_retry_config jt p) as [mr bo]. simpl in *.
  assert (Hne : forall i, i ∈ dom (jobs r) -> i <> id) by (intros i Hi ->; done).
  unfold runner_wf; simpl. split_and!.
  - rewrite <- app_assoc. apply NoDup_app. split_and!.
    + by apply NoDup_app in Hnd as [? _].
    + intros x Hx1 Hx2. apply elem_of_app in Hx2 as [Hx2%list_elem_of_singleton|Hx2]; [subst x|].
      * apply Hfresh, Hdom, elem_of_app. by left.
      * apply NoDup_app in Hnd as (_ & Hdis & _). by apply (Hdis x).
    + apply NoDup_cons. split; [|by apply NoDup_app in Hnd as (_ & _ & ?)].
      intros Hin. apply Hfresh, Hdom, elem_of_app. by right.
  - intros i [Hi|Hi%list_elem_of_singleton]%elem_of_app; [|subst i].
    + destruct (Hq i Hi) as (j & Hj & Hs). exists j. rewrite lookup_insert_ne; [done|].
      intros ->. apply Hfresh. by apply elem_of_dom.
    + rewrite lookup_insert_eq. eexists; split; [done|]. by left.
  - intros i j. destruct (decide (i = id)) as [->|Hi].
    + rewrite lookup_insert_eq. by intros [= <-].
    + rewrite lookup_insert_ne by done. apply Hrun.
  - intros i Hp. destruct (Hex i Hp) as (j & Hj & Hs). exists j. rewrite lookup_insert_ne; [done|].
    intros ->. apply Hfresh. by apply elem_of_dom.
  - intros i Hp. destruct (Hbo i Hp) as (j & Hj & Hs). exists j. rewrite lookup_insert_ne; [done|].
    intros ->. apply Hfresh. by apply elem_of_dom.
  - intros i j. destruct (decide (i = id)) as [->|Hi].
    + rewrite lookup_insert_eq. intros [= <-]. simpl. lia.
    + rewrite lookup_insert_ne by done. apply Hrc.
Qed.

Lemma cancel_job_wf id r : runner_wf r -> runner_wf (cancel_job id r).2.
Proof.
  intros Hwf. unfold cancel_job. destruct (jobs r !! id) as [j|] eqn:Hj; [|done]. simpl.
  destruct (terminal (status j)) eqn:Ht; [done|]. simpl. apply wf_log.
  destruct (bool_decide (status j = Queued)) eqn:Hqd; [|by apply (wf_fields r)].
  apply bool_decide_eq_true in Hqd.
  destruct Hwf as (Hnd & Hq & Hrun & Hex & Hbo & Hrc).
  unfold runner_wf; simpl. split_and!; [done| | | | |].
  - intros i Hi. destruct (decide (i = id)) as [->|Hne].
    + rewrite lookup_insert_eq. eexists; split; [done|]. by right.
    + rewrite lookup_insert_ne by done. by apply Hq.
  - intros i j'. destruct (decide (i = id)) as [->|Hne].
    + rewrite lookup_insert_eq. by intros [= <-].
    + rewrite lookup_insert_ne by done. apply Hrun.
  - intros i Hp. destruct (Hex i Hp) as (j' & Hj' & Hs). destruct (decide (i = id)) as [->|Hne].
    + rewrite Hj in Hj'. injection Hj' as <-. congruence.
    + rewrite lookup_insert_ne by done. eauto.
  - intros i Hp. destruct (decide (i = id)) as [->|Hne].
    + rewrite lookup_insert_eq. eexists; split; [done|]. by right.
    + rewrite lookup_insert_ne by done. by apply Hbo.
  - intros i j'. destruct (decide (i = id)) as [->|Hne].
    + rewrite lookup_insert_eq. intros [= <-]. simpl. by apply (Hrc id j).
    + rewrite lookup_insert_ne by done. apply Hrc.
Qed.

(** Replacing the job of the worker's current id keeps the parts of the
    invariant that do not mention its status. *)
Lemma wf_put_current r id j j' ph :
  runner_wf r -> jobs r !! id = Some j -> ~ id ∈ fifo r ->
  NoDup (fifo r ++ phase_ids ph) ->
  (forall i, i ∈ phase_ids ph -> i = id) ->
  (status j' = Running -> ph = Executing id) ->
  (forall i, ph = Executing i -> status j' = Running) ->
  (forall i, ph = BackingOff i -> status j' = Queued \/ status j' = Cancelled) ->
  (phase_of r = Idle \/ phase_of r = Executing id \/ phase_of r = BackingOff id) ->
  0 <= retry_count j' <= max_retries j' ->
  runner_wf (mkRunner (<[id := j']> (jobs r)) (fifo r) (cancel_requested r) ph (logs r)).
Proof.
  intros (Hnd & Hq & Hrun & Hex & Hbo & Hrc) Hj Hnq Hnd' Hph Hr1 Hr2 Hr3 Hold Hrc'.
  unfold runner_wf; simpl. split_and!; [done| | | | |].
  - intros i Hi. rewrite lookup_insert_ne by (intros ->; done). by apply Hq.
  - intros i j''. destruct (decide (i = id)) as [->|Hne].
    + rewrite lookup_insert_eq. intros [= <-]. by apply Hr1.
    + rewrite lookup_insert_ne by done. intros Hj'' Hs. exfalso.
      pose proof (Hrun i j'' Hj'' Hs) as Hpi. destruct Hold as [Ho|[Ho|Ho]]; congruence.
  - intros i Hp. assert (i = id) as -> by (apply Hph; rewrite Hp; set_solver).
    rewrite lookup_insert_eq. eexists; split; [done|]. by apply (Hr2 id).
  - intros i Hp. assert (i = id) as -> by (apply Hph; rewrite Hp; set_solver).
    rewrite lookup_insert_eq. eexists; split; [done|]. by apply (Hr3 id).
  - intros i j''. destruct (decide (i = id)) as [->|Hne].
    + rewrite lookup_insert_eq. by intros [= <-].
    + rewrite lookup_insert_ne by done. apply Hrc.
Qed.

Lemma wf_pop r id rest :
  runner_wf r -> phase_of r = Idle -> fifo r = id :: rest ->
  runner_wf (mkRunner (jobs r) rest (cancel_requested r) Idle (logs r)).
Proof.
  intros (Hnd & Hq & Hrun & Hex & Hbo & Hrc) Hph Hf. rewrite Hf, Hph in Hnd. simpl in Hnd.
  rewrite app_nil_r in Hnd. apply NoDup_cons in Hnd as [_ Hnd].
  unfold runner_wf; simpl. rewrite app_nil_r. split_and!; try done.
  - intros i Hi. apply Hq. rewrite Hf. set_solver.
  - intros i j Hj Hs. pose proof (Hrun i j Hj Hs). congruence.
Qed.

Lemma work_wf r r' : runner_wf r -> step r EWork = Some r' -> runner_wf r'.
Proof.
  intros Hwf. simpl. destruct (phase_of r) as [|i|i] eqn:Hph; [|done|done].
  destruct (fifo r) as [|id rest] eqn:Hf; [done|]. intros [= <-].
  pose proof (wf_pop r id rest Hwf Hph Hf) as Hwf0.
  destruct Hwf as (Hnd & Hq & _ & _ & _ & Hrc).
  destruct (Hq id ltac:(rewrite Hf; set_solver)) as (j & Hj & Hs).
  unfold start_job. simpl. rewrite Hj.
  destruct (bool_decide (status j = Cancelled)) eqn:Hc; [by apply wf_log|].
  apply bool_decide_eq_false in Hc. destruct Hs as [Hs|]; [|done]. apply wf_log.
  rewrite Hf, Hph in Hnd. simpl in Hnd. rewrite app_nil_r in Hnd.
  unfold set_phase, put_job. simpl.
  apply (wf_put_current (mkRunner (jobs r) rest (cancel_requested r) Idle (logs r)) id j); simpl; try done.
  - apply NoDup_cons in Hnd as [Hn _]. done.
  - apply NoDup_app. split_and!; [by apply NoDup_cons in Hnd as [_ ?]| |by apply NoDup_singleton].
    intros x Hx ->%list_elem_of_singleton. by apply NoDup_cons in Hnd as [? _].
  - intros x ->%list_elem_of_singleton. done.
  - by left.
  - apply (Hrc id j Hj).
Qed.

Lemma finish_wf r o r' : runner_wf r -> step r (EFinish o) = Some r' -> runner_wf r'.
Proof.
  intros Hwf. simpl. destruct (phase_of r) as [|id|i] eqn:Hph; [done| |done]. intros [= <-].
  pose proof Hwf as (Hnd & Hq & Hrun & Hex & Hbo & Hrc).
  destruct (Hex id Hph) as (j & Hj & Hs).
  rewrite Hph in Hnd. simpl in Hnd.
  assert (Hnq : ~ id ∈ fifo r) by (intros Hin; apply NoDup_app in Hnd as (_ & Hd & _); apply (Hd id Hin); set_solver).
  assert (Hndf : NoDup (fifo r ++ [])) by (rewrite app_nil_r; by apply NoDup_app in Hnd as [? _]).
  unfold finish_job. rewrite Hj.
  destruct (if bool_decide (job_type j ∈ ["avatar.clone.wav2lip"; "voice.clone.xtts"]) then o
            else HandlerFailed "unsupported job type") as [|err].
  - destruct (is_cancelled r id); apply wf_log;
      unfold set_phase, put_job; simpl; apply (wf_put_current r id j); simpl; try done;
      first [set_solver | by right; left | by apply (Hrc id j Hj)].
  - unfold handle_job_failure. rewrite Hj.
    destruct (bool_decide (status j = Cancelled)) eqn:Hc; [apply bool_decide_eq_true in Hc; congruence|].
    destruct ((retry_count j <? max_retries j) && negb (is_cancelled r id)) eqn:Hr; apply wf_log.
    + apply andb_true_iff in Hr as [Hr%Z.ltb_lt _]. pose proof (Hrc id j Hj).
      unfold set_phase, put_job; simpl. apply (wf_put_current r id j); simpl; try done;
      first [set_solver | intros ? _; by left | by right; left | lia].
    + unfold set_phase, put_job; simpl.
      apply (wf_put_current r id j); simpl; try done;
      first [set_solver | by right; left | by apply (Hrc id j Hj)].
Qed.

Lemma wake_wf r r' : runner_wf r -> step r EWake = Some r' -> runner_wf r'.
Proof.
  intros (Hnd & Hq & Hrun & Hex & Hbo & Hrc). simpl.
  destruct (phase_of r) as [|i|id] eqn:Hph; [done|done|]. intros [= <-].
  simpl in Hnd.
  assert (Hnorun : forall i j, jobs r !! i = Some j -> status j <> Running)
    by (intros i j Hj Hs; pose proof (Hrun i j Hj Hs); congruence).
  unfold wake. destruct (is_cancelled r id); unfold runner_wf; simpl; split_and!; try done.
  - rewrite app_nil_r. by apply NoDup_app in Hnd as [? _].
  - intros i j Hj Hs. by destruct (Hnorun i j Hj).
  - rewrite app_nil_r. done.
  - intros i [Hi|Hi]%elem_of_app; [by apply Hq|].
    apply list_elem_of_singleton in Hi as ->. by apply Hbo.
  - intros i j Hj Hs. by destruct (Hnorun i j Hj).
Qed.

(** The invariant of the recovery loop, [l] being the ids still to visit. *)
Definition recover_inv (l : list string) (x : runner) : Prop :=
  phase_of x = Idle /\ NoDup (fifo x ++ l) /\
  (forall i, i ∈ fifo x -> exists j, jobs x !! i = Some j /\ status j = Queued) /\
  (forall i j, jobs x !! i = Some j -> status j = Running -> i ∈ l) /\
  (forall i j, jobs x !! i = Some j -> 0 <= retry_count j <= max_retries j).

Lemma recover_inv_tail id l x : recover_inv (id :: l) x -> NoDup (fifo x ++ l) /\ id ∉ fifo x.
Proof.
  intros (_ & Hnd & _). apply NoDup_app in Hnd as (Hf & Hd & Hl). split.
  - apply NoDup_app. split_and!; [done| |by apply NoDup_cons in Hl as [_ ?]].
    intros i Hi Hil. apply (Hd i Hi). by right.
  - intros Hin. by apply (Hd id Hin); left.
Qed.

(** Visiting [id] with a table [jt] that differs from the old one only at
    [id], where the job is now queued, and appending [id] to the FIFO. *)
Lemma recover_enqueue_inv id l x jt c lg :
  recover_inv (id :: l) x ->
  (forall i, i <> id -> jt !! i = jobs x !! i) ->
  (exists j', jt !! id = Some j' /\ status j' = Queued /\ 0 <= retry_count j' <= max_retries j') ->
  recover_inv l (mkRunner jt (fifo x ++ [id]) c Idle lg).
Proof.
  intros Hinv Hsame (j' & Hj' & Hs' & Hrc').
  destruct (recover_inv_tail id l x Hinv) as [Hndl Hnq].
  destruct Hinv as (Hph & Hnd & Hq & Hrun & Hrc). unfold recover_inv; simpl. split_and!; [done| | | |].
  - by rewrite <- app_assoc.
  - intros i [Hi|Hi]%elem_of_app.
    + rewrite Hsame by (intros ->; done). by apply Hq.
    + apply list_elem_of_singleton in Hi as ->. by exists j'.
  - intros i j Hi Hs. destruct (decide (i = id)) as [->|Hne]; [congruence|].
    rewrite Hsame in Hi by done. pose proof (Hrun i j Hi Hs) as Hin.
    by apply elem_of_cons in Hin as [?|?].
  - intros i j. destruct (decide (i = id)) as [->|Hne]; [congruence|].
    rewrite Hsame by done. apply Hrc.
Qed.

Lemma recover_one_inv id l x : recover_inv (id :: l) x -> recover_inv l (recover_one x id).
Proof.
  intros Hinv. pose proof Hinv as (Hph & Hnd & Hq & Hrun & Hrc). unfold recover_one.
  destruct (jobs x !! id) as [j|] eqn:Hj.
  2:{ destruct (recover_inv_tail id l x Hinv) as [Hndl _]. split_and!; try done.
      intros i j' Hi Hs. pose proof (Hrun i j' Hi Hs) as Hin.
      apply elem_of_cons in Hin as [->|]; [congruence|done]. }
  case_bool_decide as Hqr.
  - destruct (bool_decide (status j = Running)) eqn:Hr; simpl; rewrite Hph;
      apply (recover_enqueue_inv id l x); simpl; try done.
    + intros i Hne. by rewrite lookup_insert_ne.
    + rewrite lookup_insert_eq. eexists; split; [done|]. split; [done|]. by apply (Hrc id j).
    + exists j. split; [done|]. split; [|by apply (Hrc id j)].
      apply bool_decide_eq_false in Hr. by destruct Hqr.
  - destruct (recover_inv_tail id l x Hinv) as [Hndl _]. split_and!; try done.
    intros i j' Hi Hs. pose proof (Hrun i j' Hi Hs) as Hin.
    apply elem_of_cons in Hin as [->|]; [|done].
    rewrite Hj in Hi. injection Hi as <-. destruct Hqr. by right.
Qed.

Lemma recover_fold_inv l x : recover_inv l x -> recover_inv [] (foldl recover_one x l).
Proof.
  revert x. induction l as [|id l IH]; intros x Hinv; [done|].
  simpl. apply IH. by apply recover_one_inv.
Qed.

Lemma restart_wf r order r' : runner_wf r -> step r (ERestart order) = Some r' -> runner_wf r'.
Proof.
  intros (_ & _ & _ & _ & _ & Hrc). simpl.
  case_decide as Hok; [|done]. destruct Hok as [Hnd Hdom]. intros [= <-].
  destruct (recover_fold_inv order (mkRunner (jobs r) [] ∅ Idle (logs r))) as (Hph & Hnd' & Hq & Hrun & Hrc').
  { split_and!; simpl; try done; [set_solver|].
    intros i j Hi _. apply (elem_of_list_to_set (C:=gset string)), Hdom, elem_of_dom. by exists j. }
  unfold runner_wf, recover_incomplete_jobs. rewrite Hph. simpl. split_and!; try done.
  - intros i Hi. destruct (Hq i Hi) as (j & ? & ?). exists j. by split; [|left].
  - intros i j Hi Hs. pose proof (Hrun i j Hi Hs). set_solver.
Qed.

Lemma retry_wf r src id r' : runner_wf r -> step r (ERetry src id) = Some r' -> runner_wf r'.
Proof.
  intros Hwf. simpl. case_bool_decide as Hid; [done|]. unfold retry_job.
  destruct (jobs r !! src) as [j|]; simpl; [|done].
  case_bool_decide; [done|]. destruct (String.eqb _ _); [done|].
  intros [= <-]. apply wf_log. by apply create_job_wf.
Qed.

(** Every event preserves the invariant. *)
Lemma step_wf r ev r' : runner_wf r -> step r ev = Some r' -> runner_wf r'.
Proof.
  intros Hwf. destruct ev as [id jt p parent|src id|id| |o| |order].
  - simpl. case_bool_decide; [done|]. intros [= <-]. by apply create_job_wf.
  - by apply retry_wf.
  - intros [= <-]. by apply cancel_job_wf.
  - by apply work_wf.
  - by apply finish_wf.
  - by apply wake_wf.
  - by apply restart_wf.
Qed.

Lemma init_runner_wf : runner_wf init_runner.
Proof.
  unfold runner_wf; simpl. split_and!; try done; [apply NoDup_nil_2|by intros ? ?%elem_of_nil].
Qed.

Lemma reachable_wf r r' : runner_wf r -> rtc runner_step r r' -> runner_wf r'.
Proof.
  intros Hwf Hrun. apply (rtc_invariant runner_step runner_wf) with r; [|done|done].
  intros x y [ev Hs] Hx. by apply (step_wf x ev).
Qed.

(** ** Jobs in a terminal status *)

(** [r'] keeps every job of [r] that is in a terminal status. *)
Definition keeps_terminal (r r' : runner) : Prop :=
  forall id j, jobs r !! id = Some j -> terminal (status j) = true -> jobs r' !! id = Some j.

Lemma insert_keeps r r' id j j' :
  jobs r !! id = Some j -> terminal (status j) = false ->
  jobs r' = <[id := j']> (jobs r) -> keeps_terminal r r'.
Proof.
  intros Hj Hnt Hr' i ji Hi Ht. rewrite Hr'. destruct (decide (i = id)) as [->|Hne].
  - congruence.
  - by rewrite lookup_insert_ne.
Qed.

Lemma keeps_terminal_jobs r r' : jobs r' = jobs r -> keeps_terminal r r'.
Proof. intros Hj i j Hi _. by rewrite Hj. Qed.

Lemma keeps_terminal_trans r1 r2 r3 :
  keeps_terminal r1 r2 -> keeps_terminal r2 r3 -> keeps_terminal r1 r3.
Proof. intros H12 H23 i j Hi Ht. apply H23; [by apply H12|done]. Qed.

#[local] Hint Resolve keeps_terminal_jobs keeps_terminal_trans : livetalking.

(** Closes a [keeps_terminal] goal whose right side changes at most the
    job [id], given [Hj] and [Hnt] saying that job is not terminal. *)
Ltac keeps_by Hj Hnt :=
  first [ apply keeps_terminal_jobs; reflexivity
        | eapply insert_keeps; [exact Hj | exact Hnt | reflexivity] ].

Lemma create_job_keeps id jt p parent r :
  id ∉ dom (jobs r) -> keeps_terminal r (create_job id jt p parent r).
Proof.
  intros Hfresh i j Hi _. unfold create_job. destruct (resolve_retry_config jt p). simpl.
  rewrite lookup_insert_ne; [done|]. intros ->. apply Hfresh. by apply elem_of_dom.
Qed.

Lemma recover_one_keeps r id : keeps_terminal r (recover_one r id).
Proof.
  unfold recover_one. destruct (jobs r !! id) as [j|] eqn:Hj; [|by apply keeps_terminal_jobs].
  case_bool_decide as Hqr; [|by apply keeps_terminal_jobs].
  case_bool_decide; [|by apply keeps_terminal_jobs].
  apply (keeps_terminal_trans _ (put_job id (set_status Queued (progress j) j) r));
    [|by apply keeps_terminal_jobs].
  eapply insert_keeps; [exact Hj| |done]. by destruct Hqr as [-> | ->].
Qed.

Lemma recover_keeps order r : keeps_terminal r (recover_incomplete_jobs order r).
Proof.
  unfold recover_incomplete_jobs. revert r. induction order as [|id order IH]; intros r.
  - by apply keeps_terminal_jobs.
  - simpl. eapply keeps_terminal_trans; [apply recover_one_keeps|apply IH].
Qed.

Lemma finish_keeps r id o j :
  jobs r !! id = Some j -> terminal (status j) = false ->
  keeps_terminal r (finish_job id o r).
Proof.
  intros Hj Hnt. unfold finish_job, handle_job_failure. rewrite Hj.
  destruct (if bool_decide _ then o else _) as [|err].
  - destruct (is_cancelled r id); keeps_by Hj Hnt.
  - case_bool_decide; [keeps_by Hj Hnt|].
    destruct (_ && _); keeps_by Hj Hnt.
Qed.

(** Given the invariant, no event changes a job in a terminal status. *)
Lemma step_keeps r ev r' : runner_wf r -> step r ev = Some r' -> keeps_terminal r r'.
Proof.
  intros Hwf. destruct ev as [id jt p parent|src id|id| |o| |order]; simpl.
  - case_bool_decide; [done|]. intros [= <-]. by apply create_job_keeps.
  - case_bool_decide; [done|]. unfold retry_job.
    destruct (jobs r !! src) as [j|]; simpl; [|done].
    case_bool_decide; [done|]. destruct (String.eqb _ _); [done|].
    intros [= <-]. eapply keeps_terminal_trans; [by apply create_job_keeps|by apply keeps_terminal_jobs].
  - intros [= <-]. unfold cancel_job. destruct (jobs r !! id) as [j|] eqn:Hj; [|by apply keeps_terminal_jobs].
    destruct (terminal (status j)) eqn:Ht; simpl; [by apply keeps_terminal_jobs|].
    case_bool_decide; keeps_by Hj Ht.
  - destruct (phase_of r) eqn:Hph; [|done|done]. destruct (fifo r) as [|id rest] eqn:Hf; [done|].
    intros [= <-]. destruct Hwf as (_ & Hq & _).
    destruct (Hq id ltac:(rewrite Hf; set_solver)) as (j & Hj & Hs).
    unfold start_job; simpl. rewrite Hj. case_bool_decide as Hc; [by apply keeps_terminal_jobs|].
    assert (Hnt : terminal (status j) = false) by (destruct Hs as [Hs|Hs]; [by rewrite Hs|done]).
    keeps_by Hj Hnt.
  - destruct (phase_of r) as [|id|] eqn:Hph; [done| |done]. intros [= <-].
    destruct Hwf as (_ & _ & _ & Hex & _). destruct (Hex id Hph) as (j & Hj & Hs).
    apply (finish_keeps r id o j Hj). by rewrite Hs.
  - destruct (phase_of r); [done|done|]. intros [= <-]. unfold wake.
    destruct (is_cancelled r _); by apply keeps_terminal_jobs.
  - case_decide; [|done]. intros [= <-].
    eapply keeps_terminal_trans; [|apply recover_keeps]. by apply keeps_terminal_jobs.
Qed.

(** ** The job lifecycle

    The abstract specification of a job's status: created [queued];
    [queued] becomes [running] (the worker starts it) or [cancelled];
    [running] becomes [succeeded], [failed], [cancelled], or [queued]
    again (a retry, or the recovery after a restart).  [succeeded],
    [failed] and [cancelled] have no way out. *)
Inductive lifecycle : option job_status -> option job_status -> Prop :=
  | lc_same s : lifecycle s s
  | lc_create : lifecycle None (Some Queued)
  | lc_start : lifecycle (Some Queued) (Some Running)
  | lc_cancel_queued : lifecycle (Some Queued) (Some Cancelled)
  | lc_succeed : lifecycle (Some Running) (Some Succeeded)
  | lc_fail : lifecycle (Some Running) (Some Failed)
  | lc_cancel_running : lifecycle (Some Running) (Some Cancelled)
  | lc_requeue : lifecycle (Some Running) (Some Queued).

Definition status_of (r : runner) (id : string) : option job_status := status <$> jobs r !! id.

Definition follows_lifecycle (r r' : runner) : Prop :=
  forall id, lifecycle (status_of r id) (status_of r' id).

Lemma lc_jobs r r' : jobs r' = jobs r -> follows_lifecycle r r'.
Proof. intros Hj id. unfold status_of. rewrite Hj. constructor. Qed.

Lemma lc_insert r r' id j' :
  lifecycle (status_of r id) (Some (status j')) ->
  jobs r' = <[id := j']> (jobs r) -> follows_lifecycle r r'.
Proof.
  intros Hl Hr' i. unfold status_of in *. rewrite Hr'. destruct (decide (i = id)) as [->|Hne].
  - by rewrite lookup_insert_eq.
  - rewrite lookup_insert_ne by done. constructor.
Qed.

Ltac lc_by Hj :=
  first [ apply lc_jobs; reflexivity
        | eapply lc_insert; [unfold status_of; rewrite Hj; simpl; constructor | reflexivity] ].

(** What the recovery does to a status: nothing, or [running] to [queued]. *)
Definition recovers (x y : runner) : Prop :=
  forall i, status_of y i = status_of x i \/ (status_of x i = Some Running /\ status_of y i = Some Queued).

Lemma recovers_trans x y z : recovers x y -> recovers y z -> recovers x z.
Proof.
  intros Hxy Hyz i. destruct (Hxy i) as [E1|[E1 E2]], (Hyz i) as [F1|[F1 F2]].
  - left. congruence.
  - right. split; congruence.
  - right. split; congruence.
  - congruence.
Qed.

Lemma recover_one_recovers x id : recovers x (recover_one x id).
Proof.
  unfold recover_one. destruct (jobs x !! id) as [j|] eqn:Hj; [|by left].
  case_bool_decide as Hqr; [|by left].
  intros i. unfold status_of. case_bool_decide as Hr; simpl; [|by left].
  destruct (decide (i = id)) as [->|Hne].
  - right. rewrite lookup_insert_eq, Hj. simpl. by rewrite Hr.
  - left. by rewrite lookup_insert_ne.
Qed.

Lemma recover_recovers order x : recovers x (recover_incomplete_jobs order x).
Proof.
  unfold recover_incomplete_jobs. revert x. induction order as [|id order IH]; intros x; simpl.
  - by left.
  - eapply recovers_trans; [apply recover_one_recovers|apply IH].
Qed.

Lemma finish_follows r id o j :
  jobs r !! id = Some j -> status j = Running -> follows_lifecycle r (finish_job id o r).
Proof.
  intros Hj Hs. unfold finish_job, handle_job_failure. rewrite Hj.
  destruct (if bool_decide _ then o else _) as [|err].
  - destruct (is_cancelled r id); eapply lc_insert; try reflexivity;
      unfold status_of; rewrite Hj; simpl; rewrite Hs; constructor.
  - case_bool_decide as Hc; [congruence|].
    destruct (_ && _); eapply lc_insert; try reflexivity;
      unfold status_of; rewrite Hj; simpl; rewrite Hs; constructor.
Qed.

(** Running a list of events; [None] as soon as one cannot happen. *)
Fixpoint run_events (r : runner) (evs : list event) : option runner :=
  match evs with
  | [] => Some r
  | ev :: evs => r1 ← step r ev; run_events r1 evs
  end.

Lemma run_events_rtc r evs r' : run_events r evs = Some r' -> rtc runner_step r r'.
Proof.
  revert r. induction evs as [|ev evs IH]; intros r; simpl; [by intros [= <-]|].
  destruct (step r ev) as [r1|] eqn:Hs; [|done]. intros Hrun.
  apply rtc_l with r1; [by exists ev|]. by apply IH.
Qed.

(** ** Theorems *)

(** C25: The runner's invariant holds in every state reachable from the
    initial runner: ids in the FIFO and the worker's job are pairwise
    distinct, the FIFO holds only queued or cancelled jobs, a job is
    [running] exactly when the worker executes it, a job the worker backs
    off on is queued or cancelled, and every retry count is within the
    job's budget. *)
Theorem runner_invariant r : rtc runner_step init_runner r -> runner_wf r.
Proof. intros Hrun. exact (reachable_wf init_runner r init_runner_wf Hrun). Qed.

(** C27: A job in a terminal status ([succeeded], [failed], [cancelled])
    is never changed again by any API call, worker move or restart. *)
Theorem terminal_job_stable r r' id j :
  runner_wf r -> rtc runner_step r r' ->
  jobs r !! id = Some j -> terminal (status j) = true -> jobs r' !! id = Some j.
Proof.
  intros Hwf Hrun. revert Hwf. induction Hrun as [x|x y z [ev Hs] _ IH]; intros Hwf Hj Ht; [done|].
  apply IH; [by apply (step_wf x ev)| |done]. by apply (step_keeps x ev y).
Qed.

(** C28: Cancelling a running job whose subprocess is then terminated (the
    handler raises) ends the job [failed], not [cancelled]: [cancel_job]
    leaves a running job's status alone, and [_handle_job_failure] sees the
    status [running], skips the retry because of the cancel flag, and
    writes [failed]. *)
Theorem cancel_running_ends_failed r r1 r2 id j err :
  runner_wf r -> phase_of r = Executing id -> jobs r !! id = Some j ->
  step r (ECancel id) = Some r1 -> step r1 (EFinish (HandlerFailed err)) = Some r2 ->
  exists j', jobs r2 !! id = Some j' /\ status j' = Failed /\ phase_of r2 = Idle.
Proof.
  intros (_ & _ & _ & Hex & _) Hph Hj. destruct (Hex id Hph) as (j0 & Hj0 & Hrun).
  rewrite Hj in Hj0. injection Hj0 as <-.
  simpl. unfold cancel_job. rewrite Hj, Hrun. simpl. intros [= <-]. rewrite Hph.
  intros [= <-]. unfold finish_job. simpl. rewrite Hj.
  assert (Hc : default false (<[id:=true]> (cancel_requested r) !! id) = true)
    by (by rewrite lookup_insert_eq).
  destruct (bool_decide _); unfold handle_job_failure, is_cancelled; simpl; rewrite Hj, Hrun; simpl;
    rewrite Hc, andb_false_r; simpl; rewrite lookup_insert_eq; by eexists.
Qed.

(** C26: Refinement of the job lifecycle.  In every state satisfying the
    invariant, each event moves each job's status along an edge of the
    abstract lifecycle [lifecycle] (or leaves it alone): the runner
    implements the documented state machine of a job. *)
Theorem step_refines_lifecycle r ev r' :
  runner_wf r -> step r ev = Some r' -> follows_lifecycle r r'.
Proof.
  intros Hwf. destruct ev as [id jt p parent|src id|id| |o| |order]; simpl.
  - case_bool_decide as Hd; [done|]. intros [= <-]. unfold create_job.
    destruct (resolve_retry_config jt p). eapply lc_insert; [|reflexivity].
    unfold status_of. rewrite not_elem_of_dom_1 by done. constructor.
  - case_bool_decide as Hd; [done|]. unfold retry_job.
    destruct (jobs r !! src) as [j|]; simpl; [|done].
    case_bool_decide; [done|]. destruct (String.eqb _ _); [done|]. intros [= <-].
    unfold create_job. destruct (resolve_retry_config _ _). eapply lc_insert; [|reflexivity].
    unfold status_of. rewrite not_elem_of_dom_1 by done. constructor.
  - intros [= <-]. unfold cancel_job. destruct (jobs r !! id) as [j|] eqn:Hj; [|by apply lc_jobs].
    destruct (terminal (status j)) eqn:Ht; simpl; [by apply lc_jobs|].
    case_bool_decide as Hq; [|by apply lc_jobs].
    eapply lc_insert; [|reflexivity]. unfold status_of. rewrite Hj. simpl. rewrite Hq. constructor.
  - destruct (phase_of r) eqn:Hph; [|done|done]. destruct (fifo r) as [|id rest] eqn:Hf; [done|].
    intros [= <-]. destruct Hwf as (_ & Hq & _).
    destruct (Hq id ltac:(rewrite Hf; set_solver)) as (j & Hj & Hs).
    unfold start_job; simpl. rewrite Hj. case_bool_decide as Hc; [by apply lc_jobs|].
    destruct Hs as [Hs|Hs]; [|done].
    eapply lc_insert; [|reflexivity]. unfold status_of. simpl. rewrite Hj. simpl. rewrite Hs. constructor.
  - destruct (phase_of r) as [|id|] eqn:Hph; [done| |done]. intros [= <-].
    destruct Hwf as (_ & _ & _ & Hex & _). destruct (Hex id Hph) as (j & Hj & Hs).
    by apply (finish_follows r id o j).
  - destruct (phase_of r); [done|done|]. intros [= <-]. unfold wake.
    destruct (is_cancelled r _); by apply lc_jobs.
  - case_decide; [|done]. intros [= <-]. intros i.
    destruct (recover_recovers order (mkRunner (jobs r) [] ∅ Idle (logs r)) i) as [E|[E1 E2]];
      unfold status_of in *; simpl in *.
    + rewrite E. constructor.
    + rewrite E1, E2. constructor.
Qed.

(** ** Examples: a voice-clone job that succeeds, is retried, and whose
    retry is cancelled while it runs. *)

Definition demo_create : event := ECreate "job_a" "voice.clone.xtts" (mkPayload None None) None.

Definition run_or_init (evs : list event) : runner := default init_runner (run_events init_runner evs).

Definition demo_done : runner :=
  run_or_init [demo_create; EWork; EFinish HandlerOk; ERetry "job_a" "job_b"; EWork;
               ECancel "job_a"; ERestart ["job_a"; "job_b"]].

Lemma runner_invariant_witness : rtc runner_step init_runner demo_done /\ runner_wf demo_done.
Proof.
  assert (Hrun : rtc runner_step init_runner demo_done)
    by (apply (run_events_rtc _ [demo_create; EWork; EFinish HandlerOk; ERetry "job_a" "job_b"; EWork;
               ECancel "job_a"; ERestart ["job_a"; "job_b"]]); vm_compute; reflexivity).
  split; [exact Hrun|]. exact (runner_invariant demo_done Hrun).
Defined.

Definition demo_succeeded : runner := run_or_init [demo_create; EWork; EFinish HandlerOk].

Definition job_a_done : job :=
  mkJob "voice.clone.xtts" (mkPayload None None) Succeeded 100 0 2 5 None None.

Lemma terminal_job_stable_witness :
  runner_wf demo_succeeded /\ rtc runner_step demo_succeeded demo_done /\
  jobs demo_succeeded !! "job_a" = Some job_a_done /\ jobs demo_done !! "job_a" = Some job_a_done.
Proof.
  assert (Hwf : runner_wf demo_succeeded).
  { apply (reachable_wf init_runner); [exact init_runner_wf|].
    apply (run_events_rtc _ [demo_create; EWork; EFinish HandlerOk]). vm_compute. reflexivity. }
  assert (Hrun : rtc runner_step demo_succeeded demo_done).
  { apply (run_events_rtc _ [ERetry "job_a" "job_b"; EWork; ECancel "job_a"; ERestart ["job_a"; "job_b"]]).
    vm_compute. reflexivity. }
  assert (Hj : jobs demo_succeeded !! "job_a" = Some job_a_done) by (vm_compute; reflexivity).
  split_and!; [exact Hwf|exact Hrun|exact Hj|].
  exact (terminal_job_stable demo_succeeded demo_done "job_a" job_a_done Hwf Hrun Hj eq_refl).
Defined.

Definition demo_running : runner := run_or_init [demo_create; EWork].

Lemma cancel_running_ends_failed_witness :
  exists j', jobs (run_or_init [demo_create; EWork; ECancel "job_a"; EFinish (HandlerFailed "exit code -15")])
               !! "job_a" = Some j' /\ status j' = Failed.
Proof.
  assert (Hwf : runner_wf demo_running).
  { apply (reachable_wf init_runner); [exact init_runner_wf|].
    apply (run_events_rtc _ [demo_create; EWork]). vm_compute. reflexivity. }
  destruct (cancel_running_ends_failed demo_running
              (run_or_init [demo_create; EWork; ECancel "job_a"])
              (run_or_init [demo_create; EWork; ECancel "job_a"; EFinish (HandlerFailed "exit code -15")])
              "job_a" (mkJob "voice.clone.xtts" (mkPayload None None) Running 1 0 2 5 None None)
              "exit code -15" Hwf)
    as (j' & Hj' & Hs & _); [vm_compute; reflexivity..|].
  exists j'. split; [exact Hj'|exact Hs].
Defined.

Lemma step_refines_lifecycle_witness :
  follows_lifecycle (run_or_init [demo_create; EWork; ECancel "job_a"])
    (run_or_init [demo_create; EWork; ECancel "job_a"; EFinish (HandlerFailed "exit code -15")]).
Proof.
  assert (Hwf : runner_wf (run_or_init [demo_create; EWork; ECancel "job_a"])).
  { apply (reachable_wf init_runner); [exact init_runner_wf|].
    apply (run_events_rtc _ [demo_create; EWork; ECancel "job_a"]). vm_compute. reflexivity. }
  exact (step_refines_lifecycle _ (EFinish (HandlerFailed "exit code -15")) _ Hwf
           ltac:(vm_compute; reflexivity)).
Defined.

End JobRunner.
