(* ===== verification/LiveRuntime.v ===== *)
(** * LiveRuntime: the avatar process manager and the live-session API

    [src/apps/control_api/live_runtime.py] ([LiveProcessManager]) runs at
    most one [app.py] process: [start] (lines 75-138) spawns it, a reader
    thread ([_read_output], lines 176-190) copies its output lines into a
    bounded ring buffer ([deque(maxlen=live_log_buffer_size)]), and a
    monitor thread ([_monitor_exit], lines 192-211) waits for the exit,
    clears the manager's process unless a newer session has replaced it,
    and calls [on_exit].  [stop] (lines 140-165) terminates (or kills) the
    process and waits for it; [tail_logs] (lines 167-174) returns the last
    lines of the buffer.  In [src/apps/control_api/main.py], [start_live]
    (lines 1061-1102) checks that nothing runs and that the avatar exists,
    builds the command line, starts the process and only then inserts the
    [live_sessions] row; [_on_live_exit] (lines 1042-1058) is the exit
    callback that writes the session's final status; [stop_live] (lines
    1105-1116) checks the session id.

    Processes are a table from pid to exit status ([None] while running,
    the [poll()] of the code).  The threads are events of [step]: the
    HTTP thread of [start_live] is split at the point where another thread
    can run (after [live_manager.start] returned, before the [INSERT]), a
    process exits on its own ([EExit]), a monitor thread proceeds once its
    process has exited ([EMonitor]), a reader thread appends one line
    ([ERead]).  Session ids ([uuid4] hex) and pids are inputs, fresh when
    the code makes them so.

    Theorems: one process at most runs, and it is the manager's; a stale
    monitor leaves a newer session alone; the buffer stays within its
    capacity and [tail_logs] is its suffix; and the race of [start_live]:
    a process that exits before the [INSERT] leaves its session [running]
    in the database forever. *)

From S2P Require Import Prelude LiveEndpoint.

Module LiveRuntime.
Import LiveEndpoint.
Local Open Scope Z_scope.

(** [LiveProcessManager] (lines 44-52) and the table of the processes it
    has spawned. *)
Record manager := mkMgr {
  m_process : option Z;
  m_session : option string;
  m_pid : option Z;
  m_cmdline : list string;
  m_started_at : option string;
  m_log_path : option string;
  m_log_buffer : list string;
  procs : gmap Z (option Z);
}.

Definition init_manager : manager := mkMgr None None None [] None None [] ∅.

(** [proc.poll()]: [None] while the process runs. *)
Definition poll (m : manager) (pid : Z) : option Z := default None (procs m !! pid).

(** [is_running] (lines 54-58). *)
Definition is_running (m : manager) : bool :=
  match m_process m with
  | Some p => bool_decide (procs m !! p = Some None)
  | None => false
  end.

(** What [current] returns (lines 60-73). *)
Record current_info := mkCurrent {
  c_running : bool;
  c_session : option string;
  c_pid : option Z;
  c_cmdline : list string;
  c_return_code : option Z;
}.

Definition current (m : manager) : current_info :=
  mkCurrent (is_running m) (m_session m) (m_pid m) (m_cmdline m)
    (match m_process m with Some p => poll m p | None => None end).

(** [LiveRunInfo] (lines 25-33). *)
Record run_info := mkRunInfo {
  ri_session : string;
  ri_pid : Z;
  ri_cmdline : list string;
  ri_log_path : string;
  ri_started_at : string;
}.

(** [start] (lines 75-138): [None] is the [RuntimeError] of a second
    start; [session] is the fresh [live_<uuid>], [pid] the new process. *)
Definition start (logs_dir : string) (command : list string) (session : string) (pid : Z)
    (now : string) (m : manager) : option (run_info * manager) :=
  if is_running m then None
  else
    let log_path := (logs_dir +:+ "/" +:+ session +:+ ".log")%string in
    Some (mkRunInfo session pid command log_path now,
          mkMgr (Some pid) (Some session) (Some pid) command (Some now) (Some log_path) []
            (<[pid := None]> (procs m))).

(** [deque.append] on a deque of capacity [maxlen]: the oldest line goes
    when it is full. *)
Definition deque_append (maxlen : nat) (l : list string) (x : string) : list string :=
  let l' := l ++ [x] in drop (length l' - maxlen) l'.

(** [str.rstrip("\n")]. *)
Fixpoint drop_newlines (l : list Ascii.ascii) : list Ascii.ascii :=
  match l with
  | c :: l' => if bool_decide (c = Ascii.ascii_of_nat 10) then drop_newlines l' else l
  | [] => []
  end.

Definition py_rstrip_newlines (s : string) : string :=
  String.string_of_list_ascii (rev (drop_newlines (rev (String.list_ascii_of_string s)))).

(** One line of [_read_output] (lines 182-190): [rstrip("\n")], empty
    lines skipped, appended to the shared buffer (whichever session is
    current). *)
Definition read_line (maxlen : nat) (line : string) (m : manager) : manager :=
  let line := py_rstrip_newlines line in
  if String.eqb line "" then m
  else mkMgr (m_process m) (m_session m) (m_pid m) (m_cmdline m) (m_started_at m) (m_log_path m)
         (deque_append maxlen (m_log_buffer m) line) (procs m).

(** [tail_logs] (lines 167-174). *)
Definition tail_logs (limit : Z) (m : manager) : list string :=
  if limit <=? 0 then [] else py_suffix (Z.to_nat limit) (m_log_buffer m).

(** The process [pid] ends with [code]. *)
Definition set_exit (pid code : Z) (m : manager) : manager :=
  mkMgr (m_process m) (m_session m) (m_pid m) (m_cmdline m) (m_started_at m) (m_log_path m)
    (m_log_buffer m) (<[pid := Some code]> (procs m)).

(** [stop] (lines 140-165): terminate or kill, then wait; [code] is the
    return code the signal produces if the process still runs.  The
    manager keeps its [_process]: only the monitor clears it. *)
Definition stop (code : Z) (m : manager) : bool * option Z * manager :=
  match m_process m with
  | None => (false, None, m)
  | Some p =>
      match poll m p with
      | None => (true, Some code, set_exit p code m)
      | Some c => (true, Some c, m)
      end
  end.

(** [_monitor_exit] after [proc.wait()] returned (lines 200-208). *)
Definition monitor_cleanup (session : string) (m : manager) : manager :=
  if bool_decide (m_session m = Some session) then
    mkMgr None (m_session m) None (m_cmdline m) (m_started_at m) (m_log_path m)
      (m_log_buffer m) (procs m)
  else m.

(** ** The live-session API of [main.py] *)

(** [_on_live_exit] (lines 1042-1058): the final status of the session's
    row; an [UPDATE] of a row that does not exist changes nothing. *)
Definition on_live_exit (session : string) (code : Z) (rows : gmap string string) : gmap string string :=
  if bool_decide (session ∈ dom rows)
  then <[session := if code =? 0 then "stopped" else "failed"]> rows
  else rows.

(** The manager, the [live_sessions] rows (id to status), the avatars of
    the [avatars] table, the session whose [start_live] has started its
    process but not yet inserted its row, and the monitor threads still
    waiting (pid and session). *)
Record world := mkWorld {
  lm : manager;
  rows : gmap string string;
  avatars : list string;
  pending_insert : option string;
  monitors : list (Z * string);
}.

Definition init_world (avatars : list string) : world := mkWorld init_manager ∅ avatars None [].

Inductive event :=
  | EStartSpawn (st : settings) (o : start_options) (session : string) (pid : Z) (now : string)
  | EStartInsert
  | EExit (pid code : Z)
  | EMonitor (i : nat)
  | EStop (session : string) (code : Z)
  | ERead (line : string).

(** The capacity of the log buffer ([settings.live_log_buffer_size]) and
    the logs directory. *)
Definition log_buffer_size : nat := 2000.
Definition logs_dir : string := "data/logs".

(** One event.  [EStartSpawn] is [start_live] (lines 1061-1102) up to the
    return of [live_manager.start]: [None] is the 409 of a running
    process, the 404 of an unknown avatar, or a pid or session id that is
    not fresh; [EStartInsert] is its [INSERT]; [EStop] is [stop_live]
    (lines 1105-1116). *)
Definition step (w : world) (ev : event) : option world :=
  let m := lm w in
  match ev with
  | EStartSpawn st o session pid now =>
      if is_running m then None
      else if negb (bool_decide (o_avatar_id o ∈ avatars w)) then None
      else if bool_decide (pending_insert w <> None \/ pid ∈ dom (procs m) \/ session ∈ dom (rows w)
                           \/ session ∈ (snd <$> monitors w) \/ m_session m = Some session) then None
      else
        match start logs_dir (build_command st o) session pid now m with
        | Some (_, m') => Some (mkWorld m' (rows w) (avatars w) (Some session) (monitors w ++ [(pid, session)]))
        | None => None
        end
  | EStartInsert =>
      match pending_insert w with
      | Some s => Some (mkWorld m (<[s := "running"]> (rows w)) (avatars w) None (monitors w))
      | None => None
      end
  | EExit pid code =>
      if bool_decide (procs m !! pid = Some None)
      then Some (mkWorld (set_exit pid code m) (rows w) (avatars w) (pending_insert w) (monitors w))
      else None
  | EMonitor i =>
      match monitors w !! i with
      | Some (pid, s) =>
          match poll m pid with
          | Some code =>
              Some (mkWorld (monitor_cleanup s m) (on_live_exit s code (rows w)) (avatars w)
                      (pending_insert w) (delete i (monitors w)))
          | None => None
          end
      | None => None
      end
  | EStop session code =>
      if negb (is_running m) then None
      else if negb (bool_decide (m_session m = Some session)) then None
      else Some (mkWorld (stop code m).2 (rows w) (avatars w) (pending_insert w) (monitors w))
  | ERead line => Some (mkWorld (read_line log_buffer_size line m) (rows w) (avatars w)
                          (pending_insert w) (monitors w))
  end.

Definition live_step (w w' : world) : Prop := exists ev, step w ev = Some w'.

Fixpoint run_events (w : world) (evs : list event) : option world :=
  match evs with
  | [] => Some w
  | ev :: evs => w1 ← step w ev; run_events w1 evs
  end.

(** The invariant of the manager and its monitor threads: a running
    process is the manager's, a monitor whose session is still the
    manager's watches the manager's process (or the process has been
    cleared), and the buffer is within its capacity. *)
Definition mgr_wf (m : manager) (mons : list (Z * string)) : Prop :=
  (forall p, procs m !! p = Some None -> m_process m = Some p) /\
  (forall pid s, (pid, s) ∈ mons -> m_session m = Some s ->
     m_process m = Some pid \/ m_process m = None) /\
  (length (m_log_buffer m) <= log_buffer_size)%nat.

Definition live_wf (w : world) : Prop := mgr_wf (lm w) (monitors w).

(** ** Lemmas on the manager *)

Lemma is_running_true m :
  is_running m = true -> exists p, m_process m = Some p /\ procs m !! p = Some None.
Proof. unfold is_running. destruct (m_process m) as [p|]; [|done]. case_bool_decide; [eauto|done]. Qed.

Lemma is_running_intro m p :
  m_process m = Some p -> procs m !! p = Some None -> is_running m = true.
Proof. intros Hp Hr. unfold is_running. rewrite Hp. by apply bool_decide_eq_true. Qed.

Lemma poll_Some m pid code : poll m pid = Some code -> procs m !! pid = Some (Some code).
Proof. unfold poll. destruct (procs m !! pid) as [[c|]|]; simpl; congruence. Qed.

Lemma deque_append_length n l x : (length (deque_append n l x) <= n)%nat.
Proof. unfold deque_append. rewrite length_drop. lia. Qed.

Lemma set_exit_wf m mons pid code : mgr_wf m mons -> mgr_wf (set_exit pid code m) mons.
Proof.
  intros (Hr & Hm & Hb). split_and!; simpl; [|done|done].
  intros p. rewrite lookup_insert_Some. intros [[_ ?]|[_ Hp]]; [done|]. by apply Hr.
Qed.

Lemma read_line_wf m mons line : mgr_wf m mons -> mgr_wf (read_line log_buffer_size line m) mons.
Proof.
  intros (Hr & Hm & Hb). unfold read_line. destruct (String.eqb _ _); [done|].
  split_and!; [done|done|apply deque_append_length].
Qed.

Lemma start_wf m mons cmd session pid now ri m' :
  is_running m = false -> session ∉ snd <$> mons -> mgr_wf m mons ->
  start logs_dir cmd session pid now m = Some (ri, m') -> mgr_wf m' (mons ++ [(pid, session)]).
Proof.
  intros Hnr Hfresh (Hr & Hm & Hb). unfold start. rewrite Hnr. intros [= _ <-].
  split_and!; simpl; [| |lia].
  - intros p. rewrite lookup_insert_Some. intros [[-> _]|[_ Hp]]; [done|].
    by rewrite (is_running_intro m p (Hr p Hp) Hp) in Hnr.
  - intros pid' s. rewrite elem_of_app, list_elem_of_singleton. intros [Hin|[= -> ->]] Hs; [|by left].
    injection Hs as <-. destruct Hfresh. apply list_elem_of_fmap. by exists (pid', session).
Qed.

(** A monitor whose session is still the manager's fires only when no
    process runs. *)
Lemma monitor_session_idle m mons pid s code :
  mgr_wf m mons -> (pid, s) ∈ mons -> poll m pid = Some code -> m_session m = Some s ->
  is_running m = false /\ forall p, procs m !! p <> Some None.
Proof.
  intros (Hr & Hm & _) Hin Hp Hs. apply poll_Some in Hp.
  assert (Hnone : forall p, procs m !! p <> Some None).
  { intros p Hp'. destruct (Hm pid s Hin Hs) as [Hq|Hq]; rewrite (Hr p Hp') in Hq; [|done].
    injection Hq as ->. congruence. }
  split; [|done]. destruct (is_running m) eqn:E; [|done].
  destruct (is_running_true m E) as (p & _ & Hp'). by destruct (Hnone p).
Qed.

Lemma monitor_cleanup_wf m mons i pid s code :
  mgr_wf m mons -> mons !! i = Some (pid, s) -> poll m pid = Some code ->
  mgr_wf (monitor_cleanup s m) (delete i mons).
Proof.
  intros Hwf Hi Hp. pose proof (list_elem_of_lookup_2 _ _ _ Hi) as Hin.
  unfold monitor_cleanup. case_bool_decide as Hs.
  - destruct (monitor_session_idle m mons pid s code Hwf Hin Hp Hs) as [_ Hnone].
    destruct Hwf as (_ & _ & Hb). split_and!; simpl; [|by right|done].
    intros p Hp'. by destruct (Hnone p).
  - destruct Hwf as (Hr & Hm & Hb). split_and!; [done| |done].
    intros pid' s' Hin'. apply Hm. by eapply list_elem_of_delete_inv.
Qed.

Lemma live_step_wf w ev w' : live_wf w -> step w ev = Some w' -> live_wf w'.
Proof.
  unfold live_wf. intros Hwf. destruct ev as [st o session pid now| |pid code|i|session code|line]; simpl.
  - destruct (is_running (lm w)) eqn:Hnr; [done|]. case_bool_decide; simpl; [|done].
    case_bool_decide as Hf; [done|].
    destruct (start _ _ _ _ _ _) as [[ri m']|] eqn:Hst; [|done]. intros [= <-]. simpl.
    eapply start_wf; [done| |done|done]. intros Hin. apply Hf. naive_solver.
  - destruct (pending_insert w); [|done]. by intros [= <-].
  - case_bool_decide; [|done]. intros [= <-]. by apply set_exit_wf.
  - destruct (monitors w !! i) as [[pid s]|] eqn:Hi; [|done].
    destruct (poll (lm w) pid) as [code|] eqn:Hp; [|done]. intros [= <-]. by eapply monitor_cleanup_wf.
  - destruct (is_running (lm w)); simpl; [|done]. case_bool_decide; simpl; [|done]. intros [= <-]. simpl.
    unfold stop. destruct (m_process (lm w)); [|done]. destruct (poll _ _); [done|by apply set_exit_wf].
  - intros [= <-]. by apply read_line_wf.
Qed.

Lemma init_world_wf avs : live_wf (init_world avs).
Proof. split_and!; simpl; [done|set_solver|lia]. Qed.

Lemma reachable_live_wf w w' : live_wf w -> rtc live_step w w' -> live_wf w'.
Proof. intros Hwf Hr. induction Hr as [|w1 w2 w3 [ev Hs] _ IH]; [done|]. apply IH. by eapply live_step_wf. Qed.

Lemma live_run_events_rtc w evs w' : run_events w evs = Some w' -> rtc live_step w w'.
Proof.
  revert w. induction evs as [|ev evs IH]; intros w; simpl; [by intros [= <-]|].
  destruct (step w ev) as [w1|] eqn:Hs; [|done]. intros Hrun.
  apply rtc_l with w1; [by exists ev|]. by apply IH.
Qed.

(** A session whose row says [running] while no monitor and no pending
    [INSERT] is left for it. *)
Definition orphan_row (s : string) (w : world) : Prop :=
  rows w !! s = Some "running" /\ s ∉ (snd <$> monitors w) /\ pending_insert w <> Some s.

Lemma orphan_row_step s w ev w' : orphan_row s w -> step w ev = Some w' -> orphan_row s w'.
Proof.
  intros (Hrow & Hmon & Hpend). destruct ev as [st o session pid now| |pid code|i|session code|line]; simpl.
  - destruct (is_running (lm w)); [done|]. case_bool_decide; simpl; [|done].
    case_bool_decide as Hf; [done|].
    destruct (start _ _ _ _ _ _) as [[ri m']|]; [|done]. intros [= <-].
    assert (session <> s) by (intros ->; apply Hf; right; right; left; by eapply elem_of_dom_2).
    split_and!; simpl; [done| |congruence]. rewrite fmap_app. set_solver.
  - destruct (pending_insert w) as [s'|] eqn:Hp; [|done]. intros [= <-].
    split_and!; simpl; [|done|done]. rewrite lookup_insert_ne; [done|congruence].
  - case_bool_decide; [|done]. by intros [= <-].
  - destruct (monitors w !! i) as [[pid s']|] eqn:Hi; [|done].
    destruct (poll (lm w) pid) as [code|]; [|done]. intros [= <-].
    assert (s' <> s).
    { intros ->. apply Hmon, list_elem_of_fmap. exists (pid, s). split; [done|by eapply list_elem_of_lookup_2]. }
    split_and!; simpl; [| |done].
    + unfold on_live_exit. case_bool_decide; [|done]. by rewrite lookup_insert_ne.
    + intros (x & -> & Hx)%list_elem_of_fmap. apply Hmon, list_elem_of_fmap.
      exists x. split; [done|by eapply list_elem_of_delete_inv].
  - destruct (is_running (lm w)); simpl; [|done]. case_bool_decide; simpl; [|done]. by intros [= <-].
  - by intros [= <-].
Qed.

Lemma orphan_row_rtc s w w' : orphan_row s w -> rtc live_step w w' -> orphan_row s w'.
Proof. intros Ho Hr. induction Hr as [|w1 w2 w3 [ev Hs] _ IH]; [done|]. apply IH. by eapply orphan_row_step. Qed.

(** What [start_live], the exit of its process and its monitor leave
    behind when they run before the [INSERT]. *)
Lemma spawn_exit_monitor w st o s pid now code w1 w2 w3 :
  step w (EStartSpawn st o s pid now) = Some w1 -> step w1 (EExit pid code) = Some w2 ->
  step w2 (EMonitor (length (monitors w))) = Some w3 ->
  m_process (lm w3) = None /\ rows w3 = rows w /\ s ∉ (snd <$> monitors w3) /\ pending_insert w3 = Some s.
Proof.
  simpl. destruct (is_running (lm w)) eqn:Hnr; [done|]. case_bool_decide; simpl; [|done].
  case_bool_decide as Hf; [done|]. unfold start. rewrite Hnr. intros [= <-]. simpl.
  rewrite bool_decide_true by (by rewrite lookup_insert_eq). intros [= <-]. simpl.
  rewrite list_lookup_middle by done. unfold poll. simpl. rewrite insert_insert_eq, lookup_insert_eq. simpl.
  intros [= <-]. simpl. rewrite delete_middle, app_nil_r.
  unfold monitor_cleanup, on_live_exit. simpl. rewrite !bool_decide_true by done.
  split_and!; [done| |naive_solver|done]. rewrite bool_decide_false; [done|].
  intros Hin. apply Hf. naive_solver.
Qed.

(** [tail_logs] returns a suffix of the buffer of [min limit len] lines. *)
Lemma tail_logs_spec limit m :
  0 < limit -> exists pre, m_log_buffer m = pre ++ tail_logs limit m /\
    length (tail_logs limit m) = Nat.min (Z.to_nat limit) (length (m_log_buffer m)).
Proof.
  intros Hl. assert (Hk : (0 < Z.to_nat limit)%nat) by (apply Z2Nat.inj_lt in Hl; simpl in Hl; lia).
  pose proof (py_suffix_length (Z.to_nat limit) (m_log_buffer m) ltac:(lia)) as Hlen.
  unfold tail_logs. rewrite (proj2 (Z.leb_gt _ _) Hl).
  destruct (Z.to_nat limit) as [|k]; [lia|].
  exists (take (length (m_log_buffer m) - S k) (m_log_buffer m)). split; [|done].
  simpl. by rewrite take_drop.
Qed.

(** ** Theorems *)

(** C29: the single-instance guarantee of [LiveProcessManager]: in every
    reachable state at most one spawned process runs, and when
    [is_running] says no process runs, none does, so the 409 check of
    [start_live] never lets a second [app.py] open the camera. *)
Theorem live_single_instance avs w :
  rtc live_step (init_world avs) w ->
  (forall p q, procs (lm w) !! p = Some None -> procs (lm w) !! q = Some None -> p = q) /\
  (is_running (lm w) = false -> forall p, procs (lm w) !! p <> Some None).
Proof.
  intros Hr. destruct (reachable_live_wf _ _ (init_world_wf avs) Hr) as (Hp & _ & _).
  split.
  - intros p q Hp' Hq'. pose proof (Hp p Hp'). pose proof (Hp q Hq'). congruence.
  - intros Hnr p Hp'. by rewrite (is_running_intro _ p (Hp p Hp') Hp') in Hnr.
Qed.

(** C31: a monitor thread of an older session leaves the running process
    of a newer session alone: the manager is unchanged when a monitor
    fires while a process runs. *)
Theorem stale_monitor_harmless w i w' :
  live_wf w -> step w (EMonitor i) = Some w' -> is_running (lm w) = true -> lm w' = lm w.
Proof.
  intros Hwf. simpl. destruct (monitors w !! i) as [[pid s]|] eqn:Hi; [|done].
  destruct (poll (lm w) pid) as [code|] eqn:Hp; [|done]. intros [= <-] Hrun. simpl.
  unfold monitor_cleanup. case_bool_decide as Hs; [|done].
  destruct (monitor_session_idle _ _ pid s code Hwf (list_elem_of_lookup_2 _ _ _ Hi) Hp Hs) as [Hnr _].
  congruence.
Qed.

(** C30: the race of [start_live]: when the process exits and its monitor
    runs [_on_live_exit] before the HTTP thread inserts the session's row,
    the [UPDATE] finds no row, and the row inserted afterwards says
    [running] in every later state although no process runs. *)
Theorem start_live_exit_race w st o s pid now code w1 w2 w3 w4 :
  step w (EStartSpawn st o s pid now) = Some w1 -> step w1 (EExit pid code) = Some w2 ->
  step w2 (EMonitor (length (monitors w))) = Some w3 -> step w3 EStartInsert = Some w4 ->
  is_running (lm w4) = false /\
  forall w5, rtc live_step w4 w5 -> rows w5 !! s = Some "running".
Proof.
  intros H1 H2 H3 H4.
  destruct (spawn_exit_monitor w st o s pid now code w1 w2 w3 H1 H2 H3) as (Hl3 & _ & Hmon3 & Hp3).
  simpl in H4. rewrite Hp3 in H4. injection H4 as <-. split.
  - unfold is_running. simpl. by rewrite Hl3.
  - intros w5 Hr. eapply orphan_row_rtc; [|exact Hr].
    split_and!; simpl; [by rewrite lookup_insert_eq|exact Hmon3|done].
Qed.

(** C32: when the row is inserted before the process exits, its monitor
    writes the final status of [_on_live_exit]: [stopped] for exit code 0,
    [failed] otherwise, and the manager no longer reports a process. *)
Theorem exit_status_recorded w st o s pid now code w1 w2 w3 w4 :
  step w (EStartSpawn st o s pid now) = Some w1 -> step w1 EStartInsert = Some w2 ->
  step w2 (EExit pid code) = Some w3 -> step w3 (EMonitor (length (monitors w))) = Some w4 ->
  rows w4 !! s = Some (if code =? 0 then "stopped" else "failed") /\ is_running (lm w4) = false.
Proof.
  simpl. destruct (is_running (lm w)) eqn:Hnr; [done|]. case_bool_decide; simpl; [|done].
  case_bool_decide; [done|]. unfold start. rewrite Hnr. intros [= <-] [= <-]. simpl.
  rewrite bool_decide_true by (by rewrite lookup_insert_eq). intros [= <-]. simpl.
  rewrite list_lookup_middle by done. unfold poll. simpl. rewrite insert_insert_eq, lookup_insert_eq. simpl.
  intros [= <-]. unfold on_live_exit, monitor_cleanup. simpl.
  rewrite !bool_decide_true by (done || set_solver). split; [by rewrite insert_insert_eq, lookup_insert_eq|].
  done.
Qed.

(** ** Examples: two sessions of [avatar1], the first stopped while the
    second starts, and a process that dies before its row is written. *)

Definition run_or_init (evs : list event) : world :=
  default (init_world ["avatar1"]) (run_events (init_world ["avatar1"]) evs).

Definition two_sessions : list event :=
  [EStartSpawn ex_settings ex_opts "live_a" 101 "t0"; EStartInsert; ERead "loading avatar";
   EStop "live_a" (-15); EStartSpawn ex_settings ex_opts "live_b" 102 "t1"; EStartInsert].

Lemma live_single_instance_witness :
  rtc live_step (init_world ["avatar1"]) (run_or_init two_sessions) /\
  forall p q, procs (lm (run_or_init two_sessions)) !! p = Some None ->
              procs (lm (run_or_init two_sessions)) !! q = Some None -> p = q.
Proof.
  assert (Hr : rtc live_step (init_world ["avatar1"]) (run_or_init two_sessions))
    by (apply (live_run_events_rtc _ two_sessions); vm_compute; reflexivity).
  split; [exact Hr|]. exact (proj1 (live_single_instance ["avatar1"] _ Hr)).
Defined.

Lemma stale_monitor_harmless_witness :
  exists w', step (run_or_init two_sessions) (EMonitor 0) = Some w' /\ lm w' = lm (run_or_init two_sessions).
Proof.
  assert (Hwf : live_wf (run_or_init two_sessions)).
  { apply (reachable_live_wf (init_world ["avatar1"])); [apply init_world_wf|].
    apply (live_run_events_rtc _ two_sessions). vm_compute. reflexivity. }
  assert (Hs : step (run_or_init two_sessions) (EMonitor 0) = Some (run_or_init (two_sessions ++ [EMonitor 0])))
    by (vm_compute; reflexivity).
  exists (run_or_init (two_sessions ++ [EMonitor 0])). split; [exact Hs|].
  exact (stale_monitor_harmless _ 0 _ Hwf Hs ltac:(vm_compute; reflexivity)).
Defined.

Definition race_spawn : event := EStartSpawn ex_settings ex_opts "live_c" 103 "t2".

Lemma start_live_exit_race_witness :
  is_running (lm (run_or_init [race_spawn; EExit 103 1; EMonitor 0; EStartInsert])) = false /\
  forall w5, rtc live_step (run_or_init [race_spawn; EExit 103 1; EMonitor 0; EStartInsert]) w5 ->
             rows w5 !! "live_c" = Some "running".
Proof.
  exact (start_live_exit_race (init_world ["avatar1"]) ex_settings ex_opts "live_c" 103 "t2" 1
           (run_or_init [race_spawn]) (run_or_init [race_spawn; EExit 103 1])
           (run_or_init [race_spawn; EExit 103 1; EMonitor 0])
           (run_or_init [race_spawn; EExit 103 1; EMonitor 0; EStartInsert])
           ltac:(vm_compute; reflexivity) ltac:(vm_compute; reflexivity)
           ltac:(vm_compute; reflexivity) ltac:(vm_compute; reflexivity)).
Defined.

Lemma exit_status_recorded_witness :
  rows (run_or_init [race_spawn; EStartInsert; EExit 103 1; EMonitor 0]) !! "live_c" = Some "failed".
Proof.
  exact (proj1 (exit_status_recorded (init_world ["avatar1"]) ex_settings ex_opts "live_c" 103 "t2" 1
           (run_or_init [race_spawn]) (run_or_init [race_spawn; EStartInsert])
           (run_or_init [race_spawn; EStartInsert; EExit 103 1])
           (run_or_init [race_spawn; EStartInsert; EExit 103 1; EMonitor 0])
           ltac:(vm_compute; reflexivity) ltac:(vm_compute; reflexivity)
           ltac:(vm_compute; reflexivity) ltac:(vm_compute; reflexivity))).
Defined.

End LiveRuntime.
