(* ===== verification/Schema.v ===== *)
(** * Schema: the SQLite schema of the control API and its migrations

    [src/apps/control_api/database.py]: [init_db] (lines 44-223) runs one
    [CREATE TABLE IF NOT EXISTS] statement per table and then
    [_run_migrations] (lines 226-259), which adds the columns of later
    releases to tables created by older ones with [_ensure_column] (lines
    262-269: [PRAGMA table_info], then [ALTER TABLE ... ADD COLUMN] when
    the column is missing) and creates the partial unique index on
    [room_messages (platform, room_id, source_msg_id)].

    A schema is the map from table names to their columns (name, type,
    [NOT NULL], [DEFAULT] literal, [PRIMARY KEY], [AUTOINCREMENT]) and
    foreign keys, and the map of indexes.  The statements fail as SQLite
    makes them fail: [ALTER TABLE] on a missing table, adding a [NOT NULL]
    column without a default or a [PRIMARY KEY] column, an index on a
    missing table or column.  The rows are not part of the schema (the
    index creation cannot fail on the data of an older release: the
    indexed column is new, so every row has [NULL] there).

    Theorems: upgrading any database of an older release, one whose tables
    miss some of the migrated columns, succeeds and yields the schema of a
    fresh database up to the order of the columns ([schema_equiv], an
    equivalence with a [Proper] query [has_column]); running [init_db]
    again changes nothing. *)

From S2P Require Import Prelude.

Module Schema.
Local Open Scope string_scope.

Inductive sql_type := TText | TInteger.

(** A column definition of a [CREATE TABLE] or [ADD COLUMN] statement. *)
Record column := mkCol {
  cname : string;
  ctype : sql_type;
  cnotnull : bool;
  cdefault : option string;
  cprimary : bool;
  cautoinc : bool;
}.

(** A table: its columns in order and its foreign keys (column, table,
    referenced column). *)
Record table := mkTable {
  tcols : list column;
  tfks : list (string * string * string);
}.

(** An index: its table, its columns, and whether it is [UNIQUE] (the
    [WHERE source_msg_id IS NOT NULL] of the one index the code creates
    restricts the rows it covers, not the schema). *)
Record index := mkIndex {
  itable : string;
  icols : list string;
  iunique : bool;
}.

Record schema := mkSchema {
  tables : gmap string table;
  indexes : gmap string index;
}.

#[export] Instance sql_type_eq_dec : EqDecision sql_type.
Proof. solve_decision. Defined.
#[export] Instance column_eq_dec : EqDecision column.
Proof. solve_decision. Defined.
#[export] Instance table_eq_dec : EqDecision table.
Proof. solve_decision. Defined.
#[export] Instance index_eq_dec : EqDecision index.
Proof. solve_decision. Defined.
#[export] Instance schema_eq_dec : EqDecision schema.
Proof. solve_decision. Defined.

Definition empty_schema : schema := mkSchema ∅ ∅.

(** ** The tables of [init_db] *)

(** [CREATE TABLE IF NOT EXISTS avatars] (lines 51-61). *)
Definition avatars_ddl : table :=
  mkTable
    [mkCol "id" TText false (None) true false;
     mkCol "name" TText true (None) false false;
     mkCol "avatar_path" TText true (None) false false;
     mkCol "cover_image" TText false (None) false false;
     mkCol "status" TText true (Some "'ready'") false false;
     mkCol "tags" TText false (None) false false;
     mkCol "meta_json" TText false (None) false false;
     mkCol "created_at" TText true (None) false false;
     mkCol "updated_at" TText true (None) false false]
    [].

(** [CREATE TABLE IF NOT EXISTS voices] (lines 64-74). *)
Definition voices_ddl : table :=
  mkTable
    [mkCol "id" TText false (None) true false;
     mkCol "name" TText true (None) false false;
     mkCol "engine" TText true (None) false false;
     mkCol "ref_wav_path" TText false (None) false false;
     mkCol "profile_json" TText false (None) false false;
     mkCol "preview_wav_path" TText false (None) false false;
     mkCol "status" TText true (Some "'ready'") false false;
     mkCol "created_at" TText true (None) false false;
     mkCol "updated_at" TText true (None) false false]
    [].

(** [CREATE TABLE IF NOT EXISTS scripts] (lines 77-86). *)
Definition scripts_ddl : table :=
  mkTable
    [mkCol "id" TText false (None) true false;
     mkCol "title" TText true (None) false false;
     mkCol "content" TText true (None) false false;
     mkCol "category" TText false (None) false false;
     mkCol "priority" TInteger true (Some "0") false false;
     mkCol "enabled" TInteger true (Some "1") false false;
     mkCol "created_at" TText true (None) false false;
     mkCol "updated_at" TText true (None) false false]
    [].

(** [CREATE TABLE IF NOT EXISTS playlists] (lines 89-97). *)
Definition playlists_ddl : table :=
  mkTable
    [mkCol "id" TText false (None) true false;
     mkCol "name" TText true (None) false false;
     mkCol "mode" TText true (Some "'sequential'") false false;
     mkCol "interval_sec" TInteger true (Some "30") false false;
     mkCol "enabled" TInteger true (Some "1") false false;
     mkCol "created_at" TText true (None) false false;
     mkCol "updated_at" TText true (None) false false]
    [].

(** [CREATE TABLE IF NOT EXISTS playlist_items] (lines 100-110). *)
Definition playlist_items_ddl : table :=
  mkTable
    [mkCol "id" TText false (None) true false;
     mkCol "playlist_id" TText true (None) false false;
     mkCol "script_id" TText true (None) false false;
     mkCol "sort_order" TInteger true (Some "0") false false;
     mkCol "weight" TInteger true (Some "1") false false;
     mkCol "created_at" TText true (None) false false;
     mkCol "updated_at" TText true (None) false false]
    [("playlist_id", "playlists", "id"); ("script_id", "scripts", "id")].

(** [CREATE TABLE IF NOT EXISTS live_presets] (lines 113-128). *)
Definition live_presets_ddl : table :=
  mkTable
    [mkCol "id" TText false (None) true false;
     mkCol "name" TText true (None) false false;
     mkCol "avatar_id" TText true (None) false false;
     mkCol "voice_id" TText false (None) false false;
     mkCol "model" TText true (Some "'wav2lip'") false false;
     mkCol "transport" TText true (Some "'virtualcam'") false false;
     mkCol "listen_port" TInteger true (Some "8010") false false;
     mkCol "tts" TText false (None) false false;
     mkCol "tts_server" TText false (None) false false;
     mkCol "ref_file" TText false (None) false false;
     mkCol "ref_text" TText false (None) false false;
     mkCol "extra_args" TText false (None) false false;
     mkCol "created_at" TText true (None) false false;
     mkCol "updated_at" TText true (None) false false]
    [].

(** [CREATE TABLE IF NOT EXISTS live_sessions] (lines 131-141). *)
Definition live_sessions_ddl : table :=
  mkTable
    [mkCol "id" TText false (None) true false;
     mkCol "preset_id" TText false (None) false false;
     mkCol "status" TText true (None) false false;
     mkCol "pid" TInteger false (None) false false;
     mkCol "cmdline" TText false (None) false false;
     mkCol "log_path" TText false (None) false false;
     mkCol "started_at" TText true (None) false false;
     mkCol "ended_at" TText false (None) false false;
     mkCol "error" TText false (None) false false]
    [].

(** [CREATE TABLE IF NOT EXISTS jobs] (lines 144-159). *)
Definition jobs_ddl : table :=
  mkTable
    [mkCol "id" TText false (None) true false;
     mkCol "job_type" TText true (None) false false;
     mkCol "payload_json" TText false (None) false false;
     mkCol "status" TText true (None) false false;
     mkCol "progress" TInteger true (Some "0") false false;
     mkCol "retry_count" TInteger true (Some "0") false false;
     mkCol "max_retries" TInteger true (Some "0") false false;
     mkCol "retry_backoff_sec" TInteger true (Some "5") false false;
     mkCol "parent_job_id" TText false (None) false false;
     mkCol "result_json" TText false (None) false false;
     mkCol "error" TText false (None) false false;
     mkCol "last_error_at" TText false (None) false false;
     mkCol "created_at" TText true (None) false false;
     mkCol "updated_at" TText true (None) false false]
    [].

(** [CREATE TABLE IF NOT EXISTS job_logs] (lines 162-168). *)
Definition job_logs_ddl : table :=
  mkTable
    [mkCol "id" TInteger false (None) true true;
     mkCol "job_id" TText true (None) false false;
     mkCol "level" TText true (None) false false;
     mkCol "message" TText true (None) false false;
     mkCol "created_at" TText true (None) false false]
    [].

(** [CREATE TABLE IF NOT EXISTS room_messages] (lines 171-184). *)
Definition room_messages_ddl : table :=
  mkTable
    [mkCol "id" TText false (None) true false;
     mkCol "platform" TText false (None) false false;
     mkCol "room_id" TText false (None) false false;
     mkCol "source_msg_id" TText false (None) false false;
     mkCol "user_id" TText false (None) false false;
     mkCol "user_name" TText false (None) false false;
     mkCol "content" TText true (None) false false;
     mkCol "msg_time" TText false (None) false false;
     mkCol "priority" TInteger true (Some "50") false false;
     mkCol "source_payload_json" TText false (None) false false;
     mkCol "handled" TInteger true (Some "0") false false;
     mkCol "created_at" TText true (None) false false]
    [].

(** [CREATE TABLE IF NOT EXISTS replies] (lines 187-196). *)
Definition replies_ddl : table :=
  mkTable
    [mkCol "id" TText false (None) true false;
     mkCol "session_id" TText false (None) false false;
     mkCol "message_id" TText false (None) false false;
     mkCol "answer" TText true (None) false false;
     mkCol "source" TText false (None) false false;
     mkCol "priority" TInteger true (Some "80") false false;
     mkCol "status" TText true (None) false false;
     mkCol "created_at" TText true (None) false false]
    [].

(** [CREATE TABLE IF NOT EXISTS system_settings] (lines 199-203). *)
Definition system_settings_ddl : table :=
  mkTable
    [mkCol "key" TText false (None) true false;
     mkCol "value_json" TText true (None) false false;
     mkCol "updated_at" TText true (None) false false]
    [].

(** [CREATE TABLE IF NOT EXISTS audit_events] (lines 206-214). *)
Definition audit_events_ddl : table :=
  mkTable
    [mkCol "id" TInteger false (None) true true;
     mkCol "actor" TText false (None) false false;
     mkCol "action" TText true (None) false false;
     mkCol "target_type" TText false (None) false false;
     mkCol "target_id" TText false (None) false false;
     mkCol "detail_json" TText false (None) false false;
     mkCol "created_at" TText true (None) false false]
    [].
(** The list [ddl_statements] of [init_db] (lines 49-216), in order. *)
Definition ddl_statements : list (string * table) :=
  [("avatars", avatars_ddl); ("voices", voices_ddl); ("scripts", scripts_ddl);
   ("playlists", playlists_ddl); ("playlist_items", playlist_items_ddl);
   ("live_presets", live_presets_ddl); ("live_sessions", live_sessions_ddl); ("jobs", jobs_ddl);
   ("job_logs", job_logs_ddl); ("room_messages", room_messages_ddl); ("replies", replies_ddl);
   ("system_settings", system_settings_ddl); ("audit_events", audit_events_ddl)].

(** ** The statements *)

(** [CREATE TABLE IF NOT EXISTS]: an existing table is left as it is,
    whatever its columns. *)
Definition create_table_if_not_exists (name : string) (t : table) (s : schema) : schema :=
  match tables s !! name with
  | Some _ => s
  | None => mkSchema (<[name := t]> (tables s)) (indexes s)
  end.

(** The column names [PRAGMA table_info] lists (none for a missing
    table). *)
Definition table_info (s : schema) (name : string) : list string :=
  match tables s !! name with
  | Some t => cname <$> tcols t
  | None => []
  end.

(** [ALTER TABLE name ADD COLUMN c]: SQLite refuses a missing table, a
    [PRIMARY KEY] column and a [NOT NULL] column without a default. *)
Definition alter_add_column (s : schema) (name : string) (c : column) : option schema :=
  match tables s !! name with
  | None => None
  | Some t =>
      if cprimary c || (cnotnull c && bool_decide (cdefault c = None)) then None
      else Some (mkSchema (<[name := mkTable (tcols t ++ [c]) (tfks t)]> (tables s)) (indexes s))
  end.

(** [_ensure_column] (lines 262-269). *)
Definition ensure_column (s : schema) (name : string) (c : column) : option schema :=
  if existsb (String.eqb (cname c)) (table_info s name) then Some s
  else alter_add_column s name c.

(** The [_ensure_column] calls of [_run_migrations] (lines 234-249), with
    the definitions they pass. *)
Definition migrations : list (string * column) :=
  [("jobs", mkCol "retry_count" TInteger true (Some "0") false false);
   ("jobs", mkCol "max_retries" TInteger true (Some "0") false false);
   ("jobs", mkCol "retry_backoff_sec" TInteger true (Some "5") false false);
   ("jobs", mkCol "parent_job_id" TText false None false false);
   ("jobs", mkCol "last_error_at" TText false None false false);
   ("voices", mkCol "preview_wav_path" TText false None false false);
   ("room_messages", mkCol "source_msg_id" TText false None false false);
   ("room_messages", mkCol "priority" TInteger true (Some "50") false false);
   ("room_messages", mkCol "source_payload_json" TText false None false false);
   ("replies", mkCol "priority" TInteger true (Some "80") false false)].

Fixpoint ensure_columns (l : list (string * column)) (s : schema) : option schema :=
  match l with
  | [] => Some s
  | (t, c) :: l => s1 ← ensure_column s t c; ensure_columns l s1
  end.

(** [CREATE UNIQUE INDEX IF NOT EXISTS]: SQLite refuses a missing table or
    column. *)
Definition create_unique_index_if_not_exists (iname tname : string) (cols : list string)
    (s : schema) : option schema :=
  match indexes s !! iname with
  | Some _ => Some s
  | None =>
      match tables s !! tname with
      | None => None
      | Some t =>
          if forallb (fun c => existsb (String.eqb c) (cname <$> tcols t)) cols
          then Some (mkSchema (tables s) (<[iname := mkIndex tname cols true]> (indexes s)))
          else None
      end
  end.

(** [_run_migrations] (lines 226-259). *)
Definition run_migrations (s : schema) : option schema :=
  s1 ← ensure_columns migrations s;
  create_unique_index_if_not_exists "idx_room_messages_platform_room_source" "room_messages"
    ["platform"; "room_id"; "source_msg_id"] s1.

(** [init_db] (lines 44-223); [None] is the [sqlite3.OperationalError]
    that would escape it. *)
Definition init_db (s : schema) : option schema :=
  run_migrations (foldl (fun s '(n, t) => create_table_if_not_exists n t s) s ddl_statements).

(** ** Fresh and older databases *)

Definition fresh_schema : schema := default empty_schema (init_db empty_schema).

(** The (table, column) pairs the migrations add. *)
Definition migration_keys : list (string * string) := (fun '(t, c) => (t, cname c)) <$> migrations.

(** The database of an older release: every table of [init_db], without
    the migrated columns listed in [drop]. *)
Definition legacy (drop : list (string * string)) : schema :=
  mkSchema
    (list_to_map ((fun '(n, t) => (n, mkTable (filter (fun c => (n, cname c) ∉ drop) (tcols t)) (tfks t)))
                    <$> ddl_statements))
    ∅.

(** Two schemas are equivalent when they have the same indexes and the
    same tables with the same foreign keys and the same columns, in any
    order. *)
Definition table_equiv (t1 t2 : table) : Prop := tcols t1 ≡ₚ tcols t2 /\ tfks t1 = tfks t2.

Definition schema_equiv (s1 s2 : schema) : Prop :=
  indexes s1 = indexes s2 /\
  map_relation (fun _ => table_equiv) (fun _ _ => False) (fun _ _ => False) (tables s1) (tables s2).

#[export] Instance table_equiv_dec : RelDecision table_equiv.
Proof. intros t1 t2. unfold table_equiv. apply _. Defined.
#[export] Instance schema_equiv_dec : RelDecision schema_equiv.
Proof. intros s1 s2. unfold schema_equiv. apply _. Defined.

(** Whether [PRAGMA table_info] lists the column. *)
Definition has_column (s : schema) (t c : string) : bool := existsb (String.eqb c) (table_info s t).

(** All sub-lists of a list, to enumerate the older databases. *)
Fixpoint subseqs {A} (l : list A) : list (list A) :=
  match l with
  | [] => [[]]
  | x :: l => let r := subseqs l in (cons x <$> r) ++ r
  end.

(** The check run on each older database: the upgrade succeeds, gives the
    fresh schema up to column order, and a second [init_db] changes
    nothing. *)
Definition upgrade_ok (drop : list (string * string)) : bool :=
  match init_db (legacy drop) with
  | Some s => bool_decide (schema_equiv s fresh_schema) && bool_decide (init_db s = Some s)
  | None => false
  end.

(** ** Lemmas *)

#[export] Instance table_equiv_equivalence : Equivalence table_equiv.
Proof.
  split.
  - intros t. split; reflexivity.
  - intros t1 t2 [Hc Hf]. split; by symmetry.
  - intros t1 t2 t3 [Hc1 Hf1] [Hc2 Hf2]. split; [by etrans|congruence].
Qed.

#[export] Instance schema_equiv_equivalence : Equivalence schema_equiv.
Proof.
  split.
  - intros s. split; [done|]. intros i. destruct (tables s !! i); simpl; [reflexivity|done].
  - intros s1 s2 [Hi Ht]. split; [done|]. intros i. specialize (Ht i).
    destruct (tables s1 !! i), (tables s2 !! i); simpl in *; by try symmetry.
  - intros s1 s2 s3 [Hi1 Ht1] [Hi2 Ht2]. split; [congruence|]. intros i.
    specialize (Ht1 i). specialize (Ht2 i).
    destruct (tables s1 !! i), (tables s2 !! i), (tables s3 !! i); simpl in *; try done. by etrans.
Qed.

Lemma existsb_perm (f : string -> bool) (l1 l2 : list string) :
  l1 ≡ₚ l2 -> existsb f l1 = existsb f l2.
Proof.
  induction 1 as [|x l1 l2 _ IH|x y l|l1 l2 l3 _ IH1 _ IH2]; simpl; [done|by rewrite IH| |congruence].
  by rewrite !orb_assoc, (orb_comm (f y)).
Qed.

(** Queries on the column names cannot tell equivalent schemas apart. *)
#[export] Instance has_column_proper : Proper (schema_equiv ==> eq ==> eq ==> eq) has_column.
Proof.
  intros s1 s2 [_ Ht] t ? <- c ? <-. unfold has_column, table_info. specialize (Ht t).
  destruct (tables s1 !! t), (tables s2 !! t); simpl in *; try done.
  destruct Ht as [Hc _]. apply existsb_perm. by rewrite Hc.
Qed.

Lemma subseqs_sublist {A} (l1 l2 : list A) : l1 `sublist_of` l2 -> l1 ∈ subseqs l2.
Proof.
  induction 1 as [|x l1 l2 _ IH|x l1 l2 _ IH]; simpl; [by left| |];
    apply elem_of_app; [left; by apply list_elem_of_fmap_2|by right].
Qed.

Lemma upgrade_ok_sublist drop : drop `sublist_of` migration_keys -> upgrade_ok drop = true.
Proof.
  intros Hd. assert (Hall : forallb upgrade_ok (subseqs migration_keys) = true) by (vm_compute; reflexivity).
  rewrite forallb_forall in Hall. apply Hall, list_elem_of_In, subseqs_sublist, Hd.
Qed.

Lemma upgrade_ok_spec drop :
  upgrade_ok drop = true ->
  exists s, init_db (legacy drop) = Some s /\ schema_equiv s fresh_schema /\ init_db s = Some s.
Proof.
  unfold upgrade_ok. destruct (init_db (legacy drop)) as [s|]; [|done].
  intros [H1 H2]%andb_prop. apply bool_decide_eq_true in H1, H2. by exists s.
Qed.

Lemma init_db_empty : init_db empty_schema = Some fresh_schema.
Proof. vm_compute. reflexivity. Qed.

(** ** Theorems *)

(** C33: upgrading the database of any older release, whose tables miss
    any of the columns [_run_migrations] adds, succeeds; the result is the
    schema of a fresh database up to the order of the columns, and running
    [init_db] again leaves it unchanged. *)
Theorem upgrade_matches_fresh drop :
  drop `sublist_of` migration_keys ->
  exists s, init_db (legacy drop) = Some s /\ schema_equiv s fresh_schema /\ init_db s = Some s.
Proof.
  intros Hd. by apply upgrade_ok_spec, upgrade_ok_sublist.
Qed.

(** after the upgrade of any older database, every column a migration
    adds is listed by [PRAGMA table_info]: the queries of the job runner
    and of the speaker dispatcher on [retry_count], [priority], ... find
    their columns. *)
Theorem upgraded_columns_present drop s t c :
  drop `sublist_of` migration_keys -> init_db (legacy drop) = Some s ->
  (t, c) ∈ migration_keys -> has_column s t c = true.
Proof.
  intros Hd Hs Hin. destruct (upgrade_ok_spec drop (upgrade_ok_sublist drop Hd)) as (s' & Hs' & Heq & _).
  rewrite Hs in Hs'. injection Hs' as <-. rewrite Heq.
  assert (Hall : Forall (fun '(t, c) => has_column fresh_schema t c = true) migration_keys)
    by (vm_compute; repeat constructor).
  rewrite Forall_forall in Hall. exact (Hall (t, c) Hin).
Qed.

(** ** Examples: a database of the release before the retry columns and
    the message priorities. *)

Definition ex_drop : list (string * string) :=
  [("jobs", "retry_count"); ("jobs", "max_retries"); ("room_messages", "priority")].

Definition ex_upgraded : schema := default empty_schema (init_db (legacy ex_drop)).

Lemma ex_drop_sublist : ex_drop `sublist_of` migration_keys.
Proof. vm_compute. repeat first [apply sublist_nil | apply sublist_skip | apply sublist_cons]. Qed.

Lemma upgrade_matches_fresh_witness :
  exists s, init_db (legacy ex_drop) = Some s /\ schema_equiv s fresh_schema /\ init_db s = Some s.
Proof. exact (upgrade_matches_fresh ex_drop ex_drop_sublist). Defined.

Lemma upgraded_columns_present_witness : has_column ex_upgraded "jobs" "retry_count" = true.
Proof.
  apply (upgraded_columns_present ex_drop ex_upgraded "jobs" "retry_count" ex_drop_sublist);
    [vm_compute; reflexivity|apply (bool_decide_eq_true_1 (("jobs", "retry_count") ∈ migration_keys)); vm_compute; reflexivity].
Defined.

End Schema.
