(* ===== verification/RoomIngest.v ===== *)
(** * RoomIngest: live-room messages, replies and manual speech

    The endpoints of [src/apps/control_api/main.py] that turn the audience's
    messages into speech: [ingest_room_messages] (lines 1161-1190) stores a
    batch of messages; [ingest_platform_messages] (lines 1211-1303) stores
    the messages of a platform connector, skipping those already stored
    under the same [(platform, room_id, source_msg_id)], writes a rule-based
    reply ([_rule_generate_reply_text], lines 104-124) and queues it to the
    speaker dispatcher; [generate_reply] (lines 1306-1338) and
    [speak_reply] (lines 1341-1382) do the same two steps on demand;
    [speaker_say] (lines 1392-1419) queues a manual text.

    State: the [room_messages] and [replies] rows (tables of [Schema]) as
    [gmap]s keyed by id, with the [PRIMARY KEY] and the partial unique
    index [idx_room_messages_platform_room_source] enforced as SQLite does
    ([NULL]s never collide); the dispatcher of [Dispatcher], whose
    [enqueue_reply] and [enqueue_manual_detail] these endpoints call; the
    live process manager of [LiveRuntime], whose [current()] decides the
    reply's session and status.  Every [execute] commits on its own
    connection, so the rows written before an exception stay.  Ids
    ([_uid]), the time and the JSON dump of a message are inputs.

    Theorems: the platform ingestion never breaks the unique index, stores
    or skips every message, and is idempotent (a redelivered batch changes
    nothing); the plain ingestion aborts a batch half-way on a duplicate;
    [generate_reply] turns a message priority 0 into 80. *)

From S2P Require Import Prelude TextSplit Dispatcher LiveRuntime.

Module RoomIngest.
Import TextSplit.
Local Open Scope Z_scope.

(** ** [_rule_generate_reply_text] *)

(** [k in t] on strings. *)
Fixpoint is_prefix (k t : text) : bool :=
  match k, t with
  | [], _ => true
  | x :: k', y :: t' => (x =? y) && is_prefix k' t'
  | _, [] => false
  end.

Fixpoint py_contains (k t : text) : bool :=
  is_prefix k t || match t with [] => false | _ :: t' => py_contains k t' end.

(** [a or b] for an optional string: [None] and [""] are false. *)
Definition py_or (a : option text) (b : text) : text :=
  match a with Some (_ :: _ as t) => t | _ => b end.

(** "欢迎提问，我来为你介绍直播间的产品与服务。" *)
Definition welcome_text : text :=
  [27426; 36814; 25552; 38382; 65292; 25105; 26469; 20026; 20320; 20171; 32461; 30452; 25773; 38388; 30340; 20135; 21697; 19982; 26381; 21153; 12290].

(** "价格" / "多少钱" / "优惠" / "折扣" *)
Definition price_keys : list text :=
  [[20215; 26684];
   [22810; 23569; 38065];
   [20248; 24800];
   [25240; 25187]].

(** "这款产品现在有直播专享活动价，我可以按你的需求给你推荐具体规格和价格。" *)
Definition price_answer : text :=
  [36825; 27454; 20135; 21697; 29616; 22312; 26377; 30452; 25773; 19987; 20139; 27963; 21160; 20215; 65292; 25105; 21487; 20197; 25353; 20320; 30340; 38656; 27714; 32473; 20320; 25512; 33616; 20855; 20307; 35268; 26684; 21644; 20215; 26684; 12290].

(** "发货" / "物流" / "多久到" / "几天到" *)
Definition shipping_keys : list text :=
  [[21457; 36135];
   [29289; 27969];
   [22810; 20037; 21040];
   [20960; 22825; 21040]].

(** "我们支持常规快递发货，下单后会尽快安排出库，具体时效会根据你的地区自动计算。" *)
Definition shipping_answer : text :=
  [25105; 20204; 25903; 25345; 24120; 35268; 24555; 36882; 21457; 36135; 65292; 19979; 21333; 21518; 20250; 23613; 24555; 23433; 25490; 20986; 24211; 65292; 20855; 20307; 26102; 25928; 20250; 26681; 25454; 20320; 30340; 22320; 21306; 33258; 21160; 35745; 31639; 12290].

(** "售后" / "退货" / "退款" / "质保" *)
Definition aftersale_keys : list text :=
  [[21806; 21518];
   [36864; 36135];
   [36864; 27454];
   [36136; 20445]].

(** "售后与退换有标准流程，出现问题可第一时间联系直播间，我们会按规则快速处理。" *)
Definition aftersale_answer : text :=
  [21806; 21518; 19982; 36864; 25442; 26377; 26631; 20934; 27969; 31243; 65292; 20986; 29616; 38382; 39064; 21487; 31532; 19968; 26102; 38388; 32852; 31995; 30452; 25773; 38388; 65292; 25105; 20204; 20250; 25353; 35268; 21017; 24555; 36895; 22788; 29702; 12290].

(** "收到你的问题：" *)
Definition ack_prefix : text :=
  [25910; 21040; 20320; 30340; 38382; 39064; 65306].

(** "。我先为你做重点介绍，如需细节可以继续追问。" *)
Definition ack_suffix : text :=
  [12290; 25105; 20808; 20026; 20320; 20570; 37325; 28857; 20171; 32461; 65292; 22914; 38656; 32454; 33410; 21487; 20197; 32487; 32493; 36861; 38382; 12290].

(** [_rule_generate_reply_text] (lines 104-124). *)
Definition rule_generate_reply_text (content : text) (fallback : option text) : text :=
  let t := strip content in
  match t with
  | [] => py_or fallback welcome_text
  | _ =>
      if existsb (fun k => py_contains k t) price_keys then price_answer
      else if existsb (fun k => py_contains k t) shipping_keys then shipping_answer
      else if existsb (fun k => py_contains k t) aftersale_keys then aftersale_answer
      else py_or fallback (ack_prefix ++ t ++ ack_suffix)
  end.

(** ** Rows and the statements on them *)

(** A [room_messages] row. *)
Record message_row := mkMsgRow {
  mr_platform : option string;
  mr_room_id : option string;
  mr_source_msg_id : option string;
  mr_user_id : option string;
  mr_user_name : option string;
  mr_content : text;
  mr_msg_time : option string;
  mr_priority : Z;
  mr_payload_json : option string;
  mr_handled : bool;
  mr_created_at : string;
}.

(** A [replies] row. *)
Record reply_row := mkReplyRow {
  rr_session_id : option string;
  rr_message_id : option string;
  rr_answer : text;
  rr_source : string;
  rr_priority : Z;
  rr_status : string;
  rr_created_at : string;
}.

Record db := mkDb {
  messages : gmap string message_row;
  replies : gmap string reply_row;
}.

(** [WHERE platform = ? AND room_id = ? AND source_msg_id = ?]: a [NULL]
    column equals nothing. *)
Definition same_source (p r sid : string) (row : message_row) : bool :=
  bool_decide (mr_platform row = Some p /\ mr_room_id row = Some r /\ mr_source_msg_id row = Some sid).

Definition source_exists (p r sid : string) (msgs : gmap string message_row) : bool :=
  existsb (fun '(_, row) => same_source p r sid row) (map_to_list msgs).

(** The partial unique index rejects a row whose three columns are all
    non-[NULL] and equal to those of a stored row. *)
Definition index_conflict (row : message_row) (msgs : gmap string message_row) : bool :=
  match mr_platform row, mr_room_id row, mr_source_msg_id row with
  | Some p, Some r, Some sid => source_exists p r sid msgs
  | _, _, _ => false
  end.

(** [INSERT INTO room_messages]: [None] is the [sqlite3.IntegrityError]
    of the primary key or of the unique index. *)
Definition insert_message (id : string) (row : message_row) (d : db) : option db :=
  if bool_decide (id ∈ dom (messages d)) || index_conflict row (messages d) then None
  else Some (mkDb (<[id := row]> (messages d)) (replies d)).

(** [INSERT INTO replies]. *)
Definition insert_reply (id : string) (row : reply_row) (d : db) : option db :=
  if bool_decide (id ∈ dom (replies d)) then None
  else Some (mkDb (messages d) (<[id := row]> (replies d))).

(** [UPDATE replies SET status = ?, priority = ? WHERE id = ?] (no row: no
    change). *)
Definition update_reply (id status : string) (prio : option Z) (d : db) : db :=
  mkDb (messages d)
    (alter (fun r => mkReplyRow (rr_session_id r) (rr_message_id r) (rr_answer r) (rr_source r)
                       (default (rr_priority r) prio) status (rr_created_at r)) id (replies d)).

(** [UPDATE room_messages SET handled = 1 WHERE id = ?]. *)
Definition mark_handled (id : string) (d : db) : db :=
  mkDb (alter (fun m => mkMsgRow (mr_platform m) (mr_room_id m) (mr_source_msg_id m) (mr_user_id m)
                          (mr_user_name m) (mr_content m) (mr_msg_time m) (mr_priority m)
                          (mr_payload_json m) true (mr_created_at m)) id (messages d))
    (replies d).

(** ** Requests *)

(** [RoomMessageIngest] of [schemas.py]; pydantic has checked
    [0 <= priority <= 100] and a non-empty content. *)
Record room_msg := mkRoomMsg {
  rm_platform : option string;
  rm_room_id : option string;
  rm_source_msg_id : option string;
  rm_user_id : option string;
  rm_user_name : option string;
  rm_content : text;
  rm_msg_time : option string;
  rm_priority : Z;
}.

(** [PlatformMessageIngest] of [schemas.py]. *)
Record platform_msg := mkPlatformMsg {
  pm_platform : string;
  pm_room_id : string;
  pm_source_msg_id : string;
  pm_user_id : option string;
  pm_user_name : option string;
  pm_content : text;
  pm_msg_time : option string;
  pm_priority : Z;
  pm_auto_generate_reply : bool;
  pm_auto_speak : bool;
  pm_strategy : string;
  pm_fallback_text : option text;
  pm_interrupt : option bool;
}.

(** The ids [_uid] and the dispatcher draw for the [i]-th message: the
    message id, the reply id, and the segment group and task suffix of its
    speech task. *)
Record msg_ids := mkIds {
  msg_uid : string;
  reply_uid : string;
  task_group : string;
  task_fresh : string;
}.

(** An HTTP response: the value, or the status code of the
    [HTTPException] (500 for an uncaught database error). *)
Inductive response (A : Type) :=
  | Ok (a : A)
  | HttpError (code : Z).
Arguments Ok {A} a.
Arguments HttpError {A} code.

(** The session and running flag of [live_manager.current()]. *)
Definition live_session (live : LiveRuntime.manager) : option string :=
  let cur := LiveRuntime.current live in
  if LiveRuntime.c_running cur then LiveRuntime.c_session cur else None.

Definition reply_status (live : LiveRuntime.manager) : string :=
  if LiveRuntime.c_running (LiveRuntime.current live) then "queued_to_runtime" else "pending_live".

(** The counters [ingest_platform_messages] returns. *)
Record counts := mkCounts {
  inserted : Z;
  skipped : Z;
  replies_created : Z;
  replies_enqueued : Z;
}.

Definition no_counts : counts := mkCounts 0 0 0 0.

(** [int(x or default)] on an integer column: 0 is false. *)
Definition py_or_int (x dflt : Z) : Z := if x =? 0 then dflt else x.

(** ** The endpoints *)

Section Endpoints.
(** The dispatcher's configuration, the time [now_ts()] stamps, the live
    process manager, and the [_json_dumps(msg.model_dump())] of a
    message. *)
Variable cfg : Dispatcher.disp_config.
Variable now : string.
Variable live : LiveRuntime.manager.
Variable json_dumps : platform_msg -> string.
Variable fresh : nat -> msg_ids.

Definition room_row (m : room_msg) : message_row :=
  mkMsgRow (rm_platform m) (rm_room_id m) (rm_source_msg_id m) (rm_user_id m) (rm_user_name m)
    (rm_content m) (rm_msg_time m) (rm_priority m) None false now.

Fixpoint ingest_room_loop (i : nat) (msgs : list room_msg) (d : db) : db * bool :=
  match msgs with
  | [] => (d, true)
  | m :: ms =>
      match insert_message (msg_uid (fresh i)) (room_row m) d with
      | Some d' => ingest_room_loop (S i) ms d'
      | None => (d, false)
      end
  end.

(** [ingest_room_messages] (lines 1161-1190); the value is the [n] of
    [ApiMessage(message=f"ok:{n}")]. *)
Definition ingest_room_messages (msgs : list room_msg) (d : db) : db * response Z :=
  match msgs with
  | [] => (d, HttpError 400)
  | _ =>
      let '(d', ok) := ingest_room_loop 0 msgs d in
      (d', if ok then Ok (Z.of_nat (length msgs)) else HttpError 500)
  end.

Definition platform_row (m : platform_msg) : message_row :=
  mkMsgRow (Some (pm_platform m)) (Some (pm_room_id m)) (Some (pm_source_msg_id m)) (pm_user_id m)
    (pm_user_name m) (pm_content m) (pm_msg_time m) (pm_priority m) (Some (json_dumps m)) false now.

(** The reply part of one message of [ingest_platform_messages] (lines
    1258-1296), after its row was inserted; [None] is a database error. *)
Definition platform_reply (ids : msg_ids) (m : platform_msg) (mid : string) (d : db)
    (q : Dispatcher.dispatcher) (c : counts) : option (db * Dispatcher.dispatcher * counts) :=
  if negb (pm_auto_generate_reply m) then Some (d, q, c)
  else if negb (String.eqb (pm_strategy m) "rule") then Some (d, q, c)
  else
    let answer := rule_generate_reply_text (pm_content m) (pm_fallback_text m) in
    let prio := clamp 0 100 (pm_priority m) in
    match insert_reply (reply_uid ids)
            (mkReplyRow (live_session live) (Some mid) answer (pm_strategy m) prio "ready" now) d with
    | None => None
    | Some d1 =>
        let c1 := mkCounts (inserted c) (skipped c) (replies_created c + 1) (replies_enqueued c) in
        if pm_auto_speak m then
          let intr := default (bool_decide (70 <= prio)) (pm_interrupt m) in
          let '(tid, q1) := Dispatcher.enqueue_reply cfg (task_group ids) (task_fresh ids) (reply_uid ids)
                              answer intr prio q in
          Some (update_reply (reply_uid ids) (reply_status live) None d1, q1,
                mkCounts (inserted c1) (skipped c1) (replies_created c1)
                  (replies_enqueued c1 + if String.eqb tid "" then 0 else 1))
        else Some (d1, q, c1)
    end.

(** The loop of [ingest_platform_messages] (lines 1222-1296); [None] is a
    database error, which ends the request with the rows written so far. *)
Fixpoint ingest_platform_loop (i : nat) (msgs : list platform_msg) (d : db)
    (q : Dispatcher.dispatcher) (c : counts) : db * Dispatcher.dispatcher * option counts :=
  match msgs with
  | [] => (d, q, Some c)
  | m :: ms =>
      if source_exists (pm_platform m) (pm_room_id m) (pm_source_msg_id m) (messages d)
      then ingest_platform_loop (S i) ms d q
             (mkCounts (inserted c) (skipped c + 1) (replies_created c) (replies_enqueued c))
      else
        match insert_message (msg_uid (fresh i)) (platform_row m) d with
        | None => (d, q, None)
        | Some d1 =>
            match platform_reply (fresh i) m (msg_uid (fresh i)) d1 q
                    (mkCounts (inserted c + 1) (skipped c) (replies_created c) (replies_enqueued c)) with
            | None => (d1, q, None)
            | Some (d2, q2, c2) => ingest_platform_loop (S i) ms d2 q2 c2
            end
        end
  end.

(** [ingest_platform_messages] (lines 1211-1303). *)
Definition ingest_platform_messages (msgs : list platform_msg) (d : db) (q : Dispatcher.dispatcher)
    : db * Dispatcher.dispatcher * response counts :=
  match msgs with
  | [] => (d, q, HttpError 400)
  | _ =>
      let '(d', q', r) := ingest_platform_loop 0 msgs d q no_counts in
      (d', q', match r with Some c => Ok c | None => HttpError 500 end)
  end.

(** [generate_reply] (lines 1306-1338): the reply id, answer and
    priority. *)
Definition generate_reply (ids : msg_ids) (message_id strategy : string) (fallback : option text)
    (d : db) : db * response (string * text * Z) :=
  match messages d !! message_id with
  | None => (d, HttpError 404)
  | Some m =>
      if negb (String.eqb strategy "rule") then (d, HttpError 400)
      else
        let answer := rule_generate_reply_text (mr_content m) fallback in
        let prio := clamp 0 100 (py_or_int (mr_priority m) 80) in
        match insert_reply (reply_uid ids)
                (mkReplyRow (live_session live) (Some message_id) answer strategy prio "ready" now) d with
        | None => (d, HttpError 500)
        | Some d1 => (d1, Ok (reply_uid ids, answer, prio))
        end
  end.

(** [speak_reply] (lines 1341-1382): the task id and the reply's new
    status. *)
Definition speak_reply (ids : msg_ids) (reply_id : string) (auto_mark_handled intr : bool) (prio : Z)
    (d : db) (q : Dispatcher.dispatcher) : db * Dispatcher.dispatcher * response (string * string) :=
  match replies d !! reply_id with
  | None => (d, q, HttpError 404)
  | Some r =>
      match strip (rr_answer r) with
      | [] => (d, q, HttpError 400)
      | answer =>
          let '(tid, q1) := Dispatcher.enqueue_reply cfg (task_group ids) (task_fresh ids) reply_id
                              answer intr prio q in
          let st := reply_status live in
          let d1 := update_reply reply_id st (Some prio) d in
          let mid := default "" (rr_message_id r) in
          let d2 := if auto_mark_handled && negb (String.eqb mid "") then mark_handled mid d1 else d1 in
          (d2, q1, Ok (tid, st))
      end
  end.

(** [speaker_say] (lines 1392-1419). *)
Definition speaker_say (ids : msg_ids) (txt : text) (intr : bool) (prio : Z) (q : Dispatcher.dispatcher)
    : Dispatcher.dispatcher * response Dispatcher.enqueue_result :=
  let '(r, q1) := Dispatcher.enqueue_manual_detail cfg (task_group ids) (task_fresh ids) txt intr prio q in
  if String.eqb (Dispatcher.er_task_id r) "" then (q1, HttpError 400) else (q1, Ok r).

End Endpoints.

(** ** Invariants *)

(** The key of the unique index, when all three columns are non-[NULL]. *)
Definition index_key (row : message_row) : option (string * string * string) :=
  match mr_platform row, mr_room_id row, mr_source_msg_id row with
  | Some p, Some r, Some sid => Some (p, r, sid)
  | _, _, _ => None
  end.

(** No two rows share a key of the unique index. *)
Definition unique_ok (msgs : gmap string message_row) : Prop :=
  forall i j ri rj k, msgs !! i = Some ri -> msgs !! j = Some rj ->
    index_key ri = Some k -> index_key rj = Some k -> i = j.

(** The ids drawn for the messages [i .. i + n - 1] are pairwise distinct
    and not yet used ([uuid4] makes them so). *)
Definition fresh_ids (fresh : nat -> msg_ids) (i n : nat) (d : db) : Prop :=
  NoDup ((fun j => msg_uid (fresh j)) <$> seq i n) /\
  NoDup ((fun j => reply_uid (fresh j)) <$> seq i n) /\
  Forall (fun j => msg_uid (fresh j) ∉ dom (messages d) /\ reply_uid (fresh j) ∉ dom (replies d)) (seq i n).

(** The values the endpoints write into [replies]: a priority within
    [0, 100] and one of the three statuses of this file. *)
Definition reply_statuses : list string := ["ready"; "queued_to_runtime"; "pending_live"].

Definition replies_typed (d : db) : Prop :=
  map_Forall (fun _ r => 0 <= rr_priority r <= 100 /\ rr_status r ∈ reply_statuses) (replies d).

#[export] Instance fresh_ids_dec fresh i n d : Decision (fresh_ids fresh i n d).
Proof. unfold fresh_ids. apply _. Defined.

(** ** Lemmas *)

Lemma source_exists_spec p r sid msgs :
  source_exists p r sid msgs = true <-> exists i row, msgs !! i = Some row /\ index_key row = Some (p, r, sid).
Proof.
  unfold source_exists. rewrite existsb_exists. split.
  - intros [[i row] [Hin Hs]]. apply list_elem_of_In, elem_of_map_to_list in Hin.
    unfold same_source in Hs. apply bool_decide_eq_true in Hs as (H1 & H2 & H3).
    exists i, row. unfold index_key. by rewrite H1, H2, H3.
  - intros (i & row & Hi & Hk). exists (i, row). split; [by apply list_elem_of_In, elem_of_map_to_list|].
    unfold index_key in Hk. unfold same_source. apply bool_decide_eq_true.
    destruct (mr_platform row), (mr_room_id row), (mr_source_msg_id row); naive_solver.
Qed.

Lemma source_exists_mono p r sid m1 m2 :
  m1 ⊆ m2 -> source_exists p r sid m1 = true -> source_exists p r sid m2 = true.
Proof.
  rewrite !source_exists_spec. intros Hsub (i & row & Hi & Hk). exists i, row. split; [|done].
  by eapply lookup_weaken.
Qed.

Lemma index_conflict_spec row msgs :
  index_conflict row msgs = true <-> exists k, index_key row = Some k /\
    exists i row', msgs !! i = Some row' /\ index_key row' = Some k.
Proof.
  unfold index_conflict, index_key.
  destruct (mr_platform row) as [p|], (mr_room_id row) as [r|], (mr_source_msg_id row) as [sid|];
    rewrite ?source_exists_spec; naive_solver.
Qed.

Lemma insert_message_some id row d :
  id ∉ dom (messages d) -> index_conflict row (messages d) = false ->
  insert_message id row d = Some (mkDb (<[id := row]> (messages d)) (replies d)).
Proof. intros Hid Hc. unfold insert_message. rewrite bool_decide_false by done. by rewrite Hc. Qed.

Lemma insert_message_unique id row d d' :
  unique_ok (messages d) -> insert_message id row d = Some d' -> unique_ok (messages d').
Proof.
  unfold insert_message. destruct (bool_decide _) eqn:Hid; [done|].
  destruct (index_conflict row (messages d)) eqn:Hc; [done|]. simpl. intros Hu [= <-]. simpl.
  apply bool_decide_eq_false in Hid. rewrite not_elem_of_dom in Hid.
  assert (Hno : forall j rj k, messages d !! j = Some rj -> index_key row = Some k -> index_key rj <> Some k).
  { intros j rj k Hj Hk Hk'. assert (index_conflict row (messages d) = true) by
      (apply index_conflict_spec; exists k; split; [done|by exists j, rj]). congruence. }
  intros i j ri rj k. rewrite !lookup_insert_Some.
  intros [[<- <-]|[Hi Hri]] [[<- <-]|[Hj Hrj]] Hki Hkj; try done.
  - by destruct (Hno j rj k Hrj Hki).
  - by destruct (Hno i ri k Hri Hkj).
  - by apply (Hu i j ri rj k).
Qed.

Lemma fresh_ids_head fresh i n d :
  fresh_ids fresh i (S n) d -> msg_uid (fresh i) ∉ dom (messages d) /\ reply_uid (fresh i) ∉ dom (replies d).
Proof. intros (_ & _ & Hf). simpl in Hf. by apply Forall_cons in Hf as [? _]. Qed.

Lemma fresh_ids_step fresh i n d d' :
  fresh_ids fresh i (S n) d ->
  dom (messages d') ⊆ {[msg_uid (fresh i)]} ∪ dom (messages d) ->
  dom (replies d') ⊆ {[reply_uid (fresh i)]} ∪ dom (replies d) ->
  fresh_ids fresh (S i) n d'.
Proof.
  intros (Hm & Hr & Hf) Hdm Hdr. simpl in Hm, Hr, Hf.
  apply NoDup_cons in Hm as [Hm1 Hm2], Hr as [Hr1 Hr2]. apply Forall_cons in Hf as [_ Hf].
  split_and!; [done|done|]. apply Forall_forall. intros j Hj.
  apply Forall_forall with (x := j) in Hf as [Hfm Hfr]; [|done]. split.
  - intros Hin%Hdm%elem_of_union. destruct Hin as [Heq%elem_of_singleton|]; [|done].
    apply Hm1, list_elem_of_fmap. exists j. by rewrite Heq.
  - intros Hin%Hdr%elem_of_union. destruct Hin as [Heq%elem_of_singleton|]; [|done].
    apply Hr1, list_elem_of_fmap. exists j. by rewrite Heq.
Qed.

Lemma insert_reply_some id row d :
  id ∉ dom (replies d) -> insert_reply id row d = Some (mkDb (messages d) (<[id := row]> (replies d))).
Proof. intros Hid. unfold insert_reply. by rewrite bool_decide_false. Qed.

Lemma insert_reply_typed id row d :
  replies_typed d -> 0 <= rr_priority row <= 100 -> rr_status row ∈ reply_statuses ->
  replies_typed (mkDb (messages d) (<[id := row]> (replies d))).
Proof. intros Ht Hp Hs. by apply map_Forall_insert_2. Qed.

Lemma update_reply_typed id st prio d :
  replies_typed d -> st ∈ reply_statuses -> (forall p, prio = Some p -> 0 <= p <= 100) ->
  replies_typed (update_reply id st prio d).
Proof.
  intros Ht Hs Hp. unfold replies_typed, update_reply. simpl.
  intros k r. rewrite lookup_alter_Some. intros [(-> & r0 & Hr0 & ->)|[_ Hk]]; [|by apply (Ht k)].
  simpl. split; [|done]. destruct prio as [p|]; simpl; [by apply Hp|]. by destruct (Ht _ _ Hr0).
Qed.

Lemma reply_status_typed live : reply_status live ∈ reply_statuses.
Proof. unfold reply_status. destruct (LiveRuntime.c_running _); set_solver. Qed.

#[local] Hint Resolve reply_status_typed : core.

(** One message's reply: it succeeds on a fresh reply id, leaves the
    messages and the two first counters alone, adds at most that reply
    id, and writes typed rows. *)
Lemma platform_reply_spec cfg now live ids m mid d q c :
  reply_uid ids ∉ dom (replies d) -> replies_typed d ->
  exists d2 q2 c2, platform_reply cfg now live ids m mid d q c = Some (d2, q2, c2) /\
    messages d2 = messages d /\ dom (replies d2) ⊆ {[reply_uid ids]} ∪ dom (replies d) /\
    replies_typed d2 /\ inserted c2 = inserted c /\ skipped c2 = skipped c.
Proof.
  intros Hid Ht. unfold platform_reply.
  destruct (pm_auto_generate_reply m); simpl; [|exists d, q, c; split_and!; set_solver].
  destruct (String.eqb _ _); simpl; [|exists d, q, c; split_and!; set_solver].
  rewrite insert_reply_some by done.
  assert (Hp : 0 <= clamp 0 100 (pm_priority m) <= 100) by (apply clamp_bounds; lia).
  assert (Ht1 := insert_reply_typed (reply_uid ids)
    (mkReplyRow (live_session live) (Some mid) (rule_generate_reply_text (pm_content m) (pm_fallback_text m))
       (pm_strategy m) (clamp 0 100 (pm_priority m)) "ready" now) d Ht Hp ltac:(set_solver)).
  destruct (pm_auto_speak m).
  - destruct (Dispatcher.enqueue_reply _ _ _ _ _ _ _ _) as [tid q1].
    eexists _, q1, _. split; [reflexivity|]. simpl.
    split_and!; [done| |apply update_reply_typed; [done|done|done]|done|done].
    unfold update_reply. simpl. rewrite dom_alter_L, dom_insert_L. set_solver.
  - eexists _, q, _. split; [reflexivity|]. simpl.
    split_and!; [done| |done|done|done]. rewrite dom_insert_L. set_solver.
Qed.

Lemma platform_row_conflict now js m msgs :
  index_conflict (platform_row now js m) msgs = source_exists (pm_platform m) (pm_room_id m) (pm_source_msg_id m) msgs.
Proof. reflexivity. Qed.

Lemma platform_row_source now js m msgs id :
  source_exists (pm_platform m) (pm_room_id m) (pm_source_msg_id m) (<[id := platform_row now js m]> msgs) = true.
Proof. apply source_exists_spec. exists id, (platform_row now js m). by rewrite lookup_insert_eq. Qed.

(** The loop of [ingest_platform_messages] on fresh ids: it completes,
    keeps the unique index and the reply types, only adds rows, leaves
    every message of the batch stored, and counts each one once. *)
Lemma platform_loop_ok cfg now live js fresh i msgs d q c :
  unique_ok (messages d) -> fresh_ids fresh i (length msgs) d -> replies_typed d ->
  exists d' q' c', ingest_platform_loop cfg now live js fresh i msgs d q c = (d', q', Some c') /\
    unique_ok (messages d') /\ replies_typed d' /\ messages d ⊆ messages d' /\
    Forall (fun m => source_exists (pm_platform m) (pm_room_id m) (pm_source_msg_id m) (messages d') = true) msgs /\
    inserted c' + skipped c' = inserted c + skipped c + Z.of_nat (length msgs).
Proof.
  revert i d q c. induction msgs as [|m ms IH]; intros i d q c Hu Hf Ht; simpl.
  { eexists _, _, _. split; [reflexivity|]. split_and!; [done|done|done|constructor|lia]. }
  destruct (source_exists _ _ _ (messages d)) eqn:Hs.
  - destruct (IH (S i) d q (mkCounts (inserted c) (skipped c + 1) (replies_created c) (replies_enqueued c))
                Hu (fresh_ids_step fresh i _ d d Hf ltac:(set_solver) ltac:(set_solver)) Ht)
      as (d' & q' & c' & Hrun & Hu' & Ht' & Hsub & Hall & Hcnt).
    exists d', q', c'. split; [done|]. split_and!; [done|done|done| |simpl in Hcnt; lia].
    constructor; [|done]. by eapply source_exists_mono.
  - destruct (fresh_ids_head fresh i _ d Hf) as [Hmid Hrid].
    rewrite insert_message_some by (done || by rewrite platform_row_conflict).
    set (d1 := mkDb (<[msg_uid (fresh i) := platform_row now js m]> (messages d)) (replies d)).
    assert (Hu1 : unique_ok (messages d1)).
    { apply (insert_message_unique (msg_uid (fresh i)) (platform_row now js m) d); [done|].
      apply insert_message_some; [done|by rewrite platform_row_conflict]. }
    destruct (platform_reply_spec cfg now live (fresh i) m (msg_uid (fresh i)) d1 q
                (mkCounts (inserted c + 1) (skipped c) (replies_created c) (replies_enqueued c)) Hrid Ht)
      as (d2 & q2 & c2 & Hr & Hm2 & Hdr2 & Ht2 & Hi2 & Hs2).
    rewrite Hr.
    assert (Hf2 : fresh_ids fresh (S i) (length ms) d2).
    { apply (fresh_ids_step fresh i _ d); [done| |done]. rewrite Hm2. simpl. rewrite dom_insert_L. set_solver. }
    destruct (IH (S i) d2 q2 c2 ltac:(by rewrite Hm2) Hf2 Ht2)
      as (d' & q' & c' & Hrun & Hu' & Ht' & Hsub & Hall & Hcnt).
    exists d', q', c'. split; [done|]. rewrite Hm2 in Hsub. simpl in Hsub, Hi2, Hs2.
    apply not_elem_of_dom in Hmid.
    split_and!; [done|done| |constructor; [|done]|lia].
    + etrans; [|exact Hsub]. by apply insert_subseteq.
    + eapply source_exists_mono; [exact Hsub|]. apply platform_row_source.
Qed.

(** A batch whose messages are all stored already is skipped entirely. *)
Lemma platform_loop_all_skipped cfg now live js fresh i msgs d q c :
  Forall (fun m => source_exists (pm_platform m) (pm_room_id m) (pm_source_msg_id m) (messages d) = true) msgs ->
  ingest_platform_loop cfg now live js fresh i msgs d q c =
    (d, q, Some (mkCounts (inserted c) (skipped c + Z.of_nat (length msgs)) (replies_created c) (replies_enqueued c))).
Proof.
  revert i c. induction msgs as [|m ms IH]; intros i c Hall; simpl.
  { destruct c; simpl. by rewrite Z.add_0_r. }
  apply Forall_cons in Hall as [Hm Hall]. rewrite Hm, IH by done. simpl.
  by replace (skipped c + Z.of_nat (S (length ms))) with (skipped c + 1 + Z.of_nat (length ms)) by lia.
Qed.

Lemma platform_reply_messages cfg now live ids m mid d q c d2 q2 c2 :
  platform_reply cfg now live ids m mid d q c = Some (d2, q2, c2) -> messages d2 = messages d.
Proof.
  unfold platform_reply. destruct (pm_auto_generate_reply m); simpl; [|by intros [= <- _ _]].
  destruct (String.eqb _ _); simpl; [|by intros [= <- _ _]].
  unfold insert_reply. destruct (bool_decide _); [done|].
  destruct (pm_auto_speak m); [|by intros [= <- _ _]].
  destruct (Dispatcher.enqueue_reply _ _ _ _ _ _ _ _). by intros [= <- _ _].
Qed.

Lemma insert_message_grows id row d d1 :
  insert_message id row d = Some d1 -> messages d ⊆ messages d1 /\ messages d1 !! id = Some row.
Proof.
  unfold insert_message. destruct (bool_decide _) eqn:Hid; [done|].
  destruct (index_conflict _ _); [done|]. intros [= <-]. simpl.
  apply bool_decide_eq_false, not_elem_of_dom in Hid.
  split; [by apply insert_subseteq|apply lookup_insert_eq].
Qed.

(** A completed loop leaves every message of the batch stored, whatever
    the ids. *)
Lemma platform_loop_sources cfg now live js fresh i msgs d q c d' q' c' :
  ingest_platform_loop cfg now live js fresh i msgs d q c = (d', q', Some c') ->
  messages d ⊆ messages d' /\
  Forall (fun m => source_exists (pm_platform m) (pm_room_id m) (pm_source_msg_id m) (messages d') = true) msgs.
Proof.
  revert i d q c. induction msgs as [|m ms IH]; intros i d q c; simpl; [by intros [= <- <- <-]|].
  destruct (source_exists _ _ _ (messages d)) eqn:Hs.
  - intros (Hsub & Hall)%IH. split; [done|]. constructor; [|done]. by eapply source_exists_mono.
  - destruct (insert_message _ _ d) as [d1|] eqn:Hi; [|done].
    destruct (platform_reply _ _ _ _ _ _ d1 q _) as [[[d2 q2] c2]|] eqn:Hr; [|done].
    intros (Hsub & Hall)%IH. apply platform_reply_messages in Hr.
    destruct (insert_message_grows _ _ _ _ Hi) as [Hsub1 Hrow]. rewrite Hr in Hsub.
    split; [by etrans|]. constructor; [|done].
    eapply source_exists_mono; [exact Hsub|]. apply source_exists_spec. eexists _, _. split; [exact Hrow|].
    reflexivity.
Qed.

Lemma generate_reply_typed now live ids mid strategy fb d :
  replies_typed d -> replies_typed (generate_reply now live ids mid strategy fb d).1.
Proof.
  intros Ht. unfold generate_reply. destruct (messages d !! mid) as [m|]; [|done].
  destruct (String.eqb _ _); [|done]. simpl. unfold insert_reply.
  destruct (bool_decide _); [done|]. simpl. apply insert_reply_typed; [done| |set_solver].
  simpl. apply clamp_bounds. lia.
Qed.

Lemma speak_reply_typed cfg live ids rid mark intr prio d q :
  replies_typed d -> 0 <= prio <= 100 -> replies_typed (speak_reply cfg live ids rid mark intr prio d q).1.1.
Proof.
  intros Ht Hp. unfold speak_reply. destruct (replies d !! rid) as [r|]; [|done].
  destruct (strip (rr_answer r)); [done|]. destruct (Dispatcher.enqueue_reply _ _ _ _ _ _ _ _). simpl.
  assert (Ht1 : replies_typed (update_reply rid (reply_status live) (Some prio) d))
    by (apply update_reply_typed; [done|done|by intros p [= <-]]).
  destruct (_ && _); [|done]. exact Ht1.
Qed.

Lemma ingest_room_loop_spec now fresh i m1 m2 ms d :
  msg_uid (fresh i) ∉ dom (messages d) -> index_conflict (room_row now m1) (messages d) = false ->
  index_conflict (room_row now m2) (messages d) = true ->
  ingest_room_loop now fresh i (m1 :: m2 :: ms) d =
    (mkDb (<[msg_uid (fresh i) := room_row now m1]> (messages d)) (replies d), false).
Proof.
  intros Hid Hc1 Hc2. simpl. rewrite insert_message_some by done.
  unfold insert_message. simpl.
  assert (Hc : index_conflict (room_row now m2) (<[msg_uid (fresh i) := room_row now m1]> (messages d)) = true).
  { apply index_conflict_spec in Hc2 as (k & Hk & j & row & Hj & Hkj). apply index_conflict_spec.
    exists k. split; [done|]. exists j, row. split; [|done].
    apply not_elem_of_dom in Hid. by rewrite lookup_insert_ne by congruence. }
  by rewrite Hc, orb_true_r.
Qed.

(** ** Theorems *)

(** C34: on a database whose unique index holds and with fresh ids,
    [ingest_platform_messages] answers 200 for every non-empty batch: no
    [INSERT] hits the unique index (a message already stored, or repeated
    in the batch, is skipped), the index still holds afterwards, and every
    message is counted once, as inserted or as skipped. *)
Theorem platform_ingest_dedup cfg now live js fresh msgs d q :
  msgs <> [] -> unique_ok (messages d) -> replies_typed d -> fresh_ids fresh 0 (length msgs) d ->
  exists d' q' c, ingest_platform_messages cfg now live js fresh msgs d q = (d', q', Ok c) /\
    unique_ok (messages d') /\ inserted c + skipped c = Z.of_nat (length msgs).
Proof.
  intros Hne Hu Ht Hf. destruct (platform_loop_ok cfg now live js fresh 0 msgs d q no_counts Hu Hf Ht)
    as (d' & q' & c & Hrun & Hu' & _ & _ & _ & Hcnt).
  exists d', q', c. unfold ingest_platform_messages. destruct msgs as [|m ms]; [done|].
  rewrite Hrun. split; [done|]. split; [done|]. cbn [inserted skipped no_counts] in Hcnt. lia.
Qed.

(** C35: a redelivered batch changes nothing: after a batch was accepted,
    ingesting it again (with any ids, into any dispatcher) skips every
    message, writes no row, creates and queues no reply. *)
Theorem platform_ingest_idempotent cfg now live js fresh fresh' msgs d q d' q' c q'' :
  ingest_platform_messages cfg now live js fresh msgs d q = (d', q', Ok c) ->
  ingest_platform_messages cfg now live js fresh' msgs d' q'' =
    (d', q'', Ok (mkCounts 0 (Z.of_nat (length msgs)) 0 0)).
Proof.
  unfold ingest_platform_messages. destruct msgs as [|m ms]; [done|].
  destruct (ingest_platform_loop _ _ _ _ _ 0 _ d q no_counts) as [[d1 q1] [c1|]] eqn:Hrun; [|done].
  intros [= <- <- _]. destruct (platform_loop_sources _ _ _ _ _ _ _ _ _ _ _ _ _ Hrun) as [_ Hall].
  by rewrite platform_loop_all_skipped.
Qed.

(** C36: [ingest_room_messages] has no duplicate check: when the second
    message of a batch repeats the [(platform, room_id, source_msg_id)] of
    a stored one, the unique index raises, the request fails with 500, the
    first message stays committed and the rest of the batch is lost. *)
Theorem room_ingest_partial_batch now fresh m1 m2 ms d :
  msg_uid (fresh 0%nat) ∉ dom (messages d) -> index_conflict (room_row now m1) (messages d) = false ->
  index_conflict (room_row now m2) (messages d) = true ->
  ingest_room_messages now fresh (m1 :: m2 :: ms) d =
    (mkDb (<[msg_uid (fresh 0%nat) := room_row now m1]> (messages d)) (replies d), HttpError 500).
Proof. intros Hid Hc1 Hc2. unfold ingest_room_messages. by rewrite ingest_room_loop_spec. Qed.

(** C37: [generate_reply] stores a [ready] reply whose priority is the
    message's, clamped to [0, 100], except that a message of priority 0 gets
    priority 80 ([int(message.get("priority") or 80)] treats 0 as
    missing). *)
Theorem generate_reply_priority now live ids mid fb d m :
  messages d !! mid = Some m -> reply_uid ids ∉ dom (replies d) ->
  exists d' ans, generate_reply now live ids mid "rule" fb d = (d', Ok (reply_uid ids, ans, 
      if mr_priority m =? 0 then 80 else clamp 0 100 (mr_priority m))) /\
    exists r, replies d' !! reply_uid ids = Some r /\ rr_status r = "ready" /\
      rr_priority r = (if mr_priority m =? 0 then 80 else clamp 0 100 (mr_priority m)).
Proof.
  intros Hm Hid. unfold generate_reply. rewrite Hm. simpl. rewrite insert_reply_some by done.
  assert (Hp : clamp 0 100 (py_or_int (mr_priority m) 80) =
               if mr_priority m =? 0 then 80 else clamp 0 100 (mr_priority m))
    by (unfold py_or_int; destruct (_ =? 0); reflexivity).
  rewrite Hp. eexists _, _. split; [reflexivity|]. simpl. eexists. rewrite lookup_insert_eq. by split_and!.
Qed.

(** C38: every row the reply endpoints write into [replies] fits the
    column's domain: a priority within [0, 100] and the status [ready],
    [queued_to_runtime] or [pending_live] ([generate_reply], [speak_reply]
    with a validated priority, and the platform ingestion on fresh ids). *)
Theorem replies_stay_typed cfg now live js fresh ids msgs mid strategy fb rid mark intr prio d q :
  replies_typed d -> 0 <= prio <= 100 ->
  replies_typed (generate_reply now live ids mid strategy fb d).1 /\
  replies_typed (speak_reply cfg live ids rid mark intr prio d q).1.1 /\
  (unique_ok (messages d) -> fresh_ids fresh 0 (length msgs) d ->
   replies_typed (ingest_platform_messages cfg now live js fresh msgs d q).1.1).
Proof.
  intros Ht Hp. split_and!; [by apply generate_reply_typed|by apply speak_reply_typed|].
  intros Hu Hf. destruct (platform_loop_ok cfg now live js fresh 0 msgs d q no_counts Hu Hf Ht)
    as (d' & q' & c & Hrun & _ & Ht' & _).
  unfold ingest_platform_messages. destruct msgs; [done|]. by rewrite Hrun.
Qed.

(** ** Examples: two deliveries of the same comment asking for the price,
    a duplicate sent to the plain endpoint, and a priority-0 message. *)

Definition ex_fresh (j : nat) : msg_ids :=
  match j with
  | O => mkIds "msg_a" "reply_a" "g_a" "t_a"
  | S O => mkIds "msg_b" "reply_b" "g_b" "t_b"
  | _ => mkIds "msg_c" "reply_c" "g_c" "t_c"
  end.

Definition ex_js (m : platform_msg) : string := "{}".

(** A comment whose content is "价格" (price), priority 75. *)
Definition ex_pm (sid : string) : platform_msg :=
  mkPlatformMsg "douyin" "room1" sid None (Some "viewer") [20215; 26684] None 75 true true "rule" None None.

Definition ex_batch : list platform_msg := [ex_pm "s1"; ex_pm "s1"].

Definition ex_db : db := mkDb ∅ ∅.

Definition ex_first : db * Dispatcher.dispatcher * response counts :=
  ingest_platform_messages Dispatcher.ex_cfg "t0" LiveRuntime.init_manager ex_js ex_fresh ex_batch ex_db
    Dispatcher.init_dispatcher.

Lemma ex_db_unique : unique_ok (messages ex_db).
Proof. intros i j ri rj k Hi. simpl in Hi. by rewrite lookup_empty in Hi. Qed.

Lemma ex_db_typed : replies_typed ex_db.
Proof. apply map_Forall_empty. Qed.

Lemma platform_ingest_dedup_witness :
  exists d' q' c, ingest_platform_messages Dispatcher.ex_cfg "t0" LiveRuntime.init_manager ex_js ex_fresh
                    ex_batch ex_db Dispatcher.init_dispatcher = (d', q', Ok c) /\
    unique_ok (messages d') /\ inserted c + skipped c = Z.of_nat (length ex_batch).
Proof.
  apply (platform_ingest_dedup Dispatcher.ex_cfg "t0" LiveRuntime.init_manager ex_js ex_fresh ex_batch ex_db
           Dispatcher.init_dispatcher); [discriminate|exact ex_db_unique|exact ex_db_typed|].
  apply (bool_decide_eq_true_1 (fresh_ids ex_fresh 0 2 ex_db)). vm_compute. reflexivity.
Defined.

Lemma platform_ingest_idempotent_witness :
  ingest_platform_messages Dispatcher.ex_cfg "t0" LiveRuntime.init_manager ex_js ex_fresh ex_batch
    ex_first.1.1 Dispatcher.init_dispatcher =
  (ex_first.1.1, Dispatcher.init_dispatcher, Ok (mkCounts 0 (Z.of_nat (length ex_batch)) 0 0)).
Proof.
  exact (platform_ingest_idempotent Dispatcher.ex_cfg "t0" LiveRuntime.init_manager ex_js ex_fresh ex_fresh
           ex_batch ex_db Dispatcher.init_dispatcher ex_first.1.1 ex_first.1.2 (mkCounts 1 1 1 1)
           Dispatcher.init_dispatcher ltac:(vm_compute; reflexivity)).
Defined.

Definition ex_room (sid : string) : room_msg :=
  mkRoomMsg (Some "douyin") (Some "room1") (Some sid) None None [20215; 26684] None 50.

Definition ex_stored : db := mkDb {["msg_old" := room_row "t0" (ex_room "s1")]} ∅.

Lemma room_ingest_partial_batch_witness :
  ingest_room_messages "t1" ex_fresh [ex_room "s2"; ex_room "s1"; ex_room "s3"] ex_stored =
    (mkDb (<["msg_a" := room_row "t1" (ex_room "s2")]> (messages ex_stored)) (replies ex_stored), HttpError 500).
Proof.
  apply (room_ingest_partial_batch "t1" ex_fresh (ex_room "s2") (ex_room "s1") [ex_room "s3"] ex_stored);
    [apply (bool_decide_eq_true_1 ("msg_a" ∉ dom (messages ex_stored))); vm_compute|vm_compute..];
    reflexivity.
Defined.

Definition ex_quiet : db := mkDb {["msg_z" := room_row "t0" (mkRoomMsg None None None None None [104; 105] None 0)]} ∅.

Lemma generate_reply_priority_witness :
  exists d' ans, generate_reply "t1" LiveRuntime.init_manager (ex_fresh 0) "msg_z" "rule" None ex_quiet =
      (d', Ok ("reply_a", ans, 80)) /\
    exists r, replies d' !! "reply_a" = Some r /\ rr_status r = "ready" /\ rr_priority r = 80.
Proof.
  exact (generate_reply_priority "t1" LiveRuntime.init_manager (ex_fresh 0) "msg_z" None ex_quiet
           (room_row "t0" (mkRoomMsg None None None None None [104; 105] None 0))
           ltac:(vm_compute; reflexivity)
           ltac:(apply (bool_decide_eq_true_1 ("reply_a" ∉ dom (replies ex_quiet))); vm_compute; reflexivity)).
Defined.

Lemma replies_stay_typed_witness :
  replies_typed (generate_reply "t1" LiveRuntime.init_manager (ex_fresh 0) "msg_z" "rule" None ex_quiet).1.
Proof.
  exact (proj1 (replies_stay_typed Dispatcher.ex_cfg "t1" LiveRuntime.init_manager ex_js ex_fresh (ex_fresh 0)
                  [] "msg_z" "rule" None "reply_a" true false 60 ex_quiet Dispatcher.init_dispatcher
                  (map_Forall_empty _) ltac:(lia))).
Defined.

End RoomIngest.
